(* ===== verification/_CoqProject ===== *)
-Q . S2P
Prelude.v
Effects.v
PyNum.v
PyText.v
Contracts.v
Demo.v
Outcomes.v
Eligibility.v
Governance.v
Market.v
Signals.v
CrossExam.v
Universe.v
Customers.v
Schema.v
Models.v
Activation.v
Calendar.v
Security.v
Store.v
Complete.v
StoreLogic.v
StoreInv.v
StoreOps.v
Frames.v
Metering.v
Budgets.v
Product.v
Accounts.v
Workspaces.v
Billing.v
Checkout.v
Offboarding.v
Mailer.v
Tenancy.v
Leaving.v
Circuit.v
Alerts.v
Beside.v
Lifecycle.v
Service.v
Access.v
Spending.v
Accounting.v
Resilience.v
Delivery.v
Estate.v
Entitlement.v
Ceilings.v
Records.v
Custody.v
Purchases.v
Browsing.v
Walkthrough.v
Rehearsal.v
Onboarding.v
