(* ===== verification/Prelude.v ===== *)
(** * Money: a verification development for the research control plane

    The repository (Python, [src/money]) runs investment research jobs. A job is
    queued, claimed by a worker under a lease, and moves through fixed stages:
    eligibility, discovery, a frozen snapshot of evidence, a first pass by
    independent firms whose reports stay sealed until all are in, validation,
    audit, cross-examination, consensus and publication of a decision packet
    that may carry a signal. Around the store stand token budgets, call
    metering, provider circuits, alerts and access control. Customers reach it
    through accounts and workspaces, pay through a billing provider, are
    admitted by the entitlements of their plan, and can leave and be erased. No
    single process is trusted: correctness rests on what each transaction checks
    in the database. This library models those transactions and the pure rules
    they apply, and proves what holds of every run.

    ** How the code is modelled

    - Pydantic contracts are [Record]s; a validator is a function to [Res], the
      sum of an exception and a value. Pure rules are pure functions.
    - A method of the store is a function in [M World], state passing with
      exceptions ([Effects]); the world is the database and a tick. A table is
      a [gmap] from its key to a row, append-only tables are lists ([Schema]).
      [transaction] rolls the database back when its body raises. One
      transaction is one atomic step, the guarantee of SQLite's immediate
      transactions and of the row locks and the serialisation row the code
      takes on PostgreSQL; methods of several transactions are split, so that
      workers interleave between them.
    - Time is an integer number of microseconds. Every reading of the clock,
      every [uuid4], random number, [monotonic] and set of rows locked by others
      comes from the class [Env], at a tick of its own; theorems hold for every
      environment, hence for any clock, even one that runs backwards, except
      where a hypothesis says otherwise.
    - Decimals are integers with an exponent and Python's context rounding,
      floats are the Standard Library's [spec_float] at 53 bits ([PyNum]).
      Python integers are unbounded, so they are [Z].

    ** Files

    - [Prelude], [Effects], [PyNum], [PyText]: record update, sums and orders
      on lists, exceptions and the weakest-precondition calculus, numbers, text.
    - [Contracts]: [schemas/contracts.py]. [Demo]: the demonstration firms of
      [flows/research.py], whose outputs feed the witnesses.
    - [Eligibility]: [adapters/eligibility.py] and the policy hash of
      [research/ethics.py]. [Governance]: [policy/governance.py]. [Market]:
      [data/normalization/prices.py], [data/quality/market.py],
      [risk/costs.py]. [Signals]: [signals/generation.py]. [CrossExam]:
      [crews/cross_examination.py]. [Universe]: [scanner/universe.py] and its
      policies. [Outcomes]: [performance/outcomes.py]. [Models]: the promotion
      gate of [offline_research/promotion.py], the artifact contract of
      [adapters/native_qlib.py] and the registry of [models/registry.py], with
      its two tables as a state of their own; [Activation]: every history of
      that registry.
    - [Schema]: the tables of [storage/models.py],
      [storage/production_models.py] and [product/models.py]. [Store] and
      [Complete]: [storage/store.py], in the order of its methods;
      [complete_job] and its checks are in [Complete].
    - [Customers]: the tables of [accounts/models.py] and the customer tables of
      [product/models.py]. [Calendar]: civil dates and [month_window].
      [Security]: [accounts/security.py]. [Product]: [product/service.py], the
      plans of [reference/catalog.py] and the endpoints of [product/api.py] with
      logic of their own. [Accounts] and [Workspaces]: [accounts/service.py],
      identities and sessions in the one, memberships in the other. [Billing]:
      [product/billing.py], [product/worker.py], [product/notifications.py] and
      the webhook of [product/api.py]. [Checkout]: [checkout] of
      [product/service.py], [hosted_url], [product/settings.py] and [urlsplit].
      [Offboarding]: [accounts/offboarding.py]. [Mailer]:
      [accounts/email_worker.py].
    - [Metering]: [product/metering.py] and [research/call_telemetry.py].
      [Budgets]: [research/budgets.py]. [Circuit]: [data/resilience.py].
      [Alerts]: [alerts/delivery.py].
    - [StoreLogic]: the calculus on databases ([wpd]) and read-only operations
      ([Reads]). [StoreInv]: the abstract job machine [Life], the invariant
      [Inv] and the relation [Extends] of append-only growth. [StoreOps]: every
      store operation is [Good], it keeps the invariant and only extends the
      database. [Frames]: [Respects], operations inside a preorder, and [aside],
      what the store leaves alone. [Beside]: which tables each other component
      keeps.
    - [Lifecycle]: all operations as one step relation [db_step], the reachable
      databases, and the theorems on jobs. [Service]: admission, claims,
      publication. [Access]: workspaces, invalidation, rate limits, sessions.
      [Spending]: budgets. [Accounting]: metering. [Resilience]: circuits.
      [Delivery]: alerts.
    - [Tenancy] and [Leaving]: the invariant [Tenancy] of the identity tables,
      kept by every customer operation. [Estate]: customer and research
      operations as one step relation [system_step]. [Entitlement]: admission
      of customer research. [Ceilings]: plans and budgets together. [Records]:
      row laws and histories of the customer tables. [Custody], [Purchases],
      [Browsing]: what single operations promise.
    - [Walkthrough], [Rehearsal] and [Onboarding]: complete runs on concrete
      inputs, from submission to an invalidated signal, with spending, calls, a
      failing provider and a mail, and from sign-up to erasure; their states are
      the inputs of the witnesses.

    ** What the theorems show

    - The job machine ([Lifecycle.reachable_invariant], [job_refines_life],
      [records_append_only], [Service.claim_takes_oldest],
      [lost_worker_released]): rows are consistent with their status in every
      reachable database, each job refines [Life], sealed records never change,
      a claim takes the oldest job, and a lost worker's job is released.
    - Fencing and independence ([worker_operations_fenced],
      [first_pass_barrier]): a worker writes only under its current lease, and
      no report is disclosed before all are locked.
    - Decisions ([research_candidate_exact], [consensus_total_and_capped],
      [eligibility_gate_exact], [universe_exact], [issued_signal_sound],
      [suppression_is_downgrade], [allocation_search_greatest],
      [published_packet_derived]): the gates are exact, consensus is total, a
      signal is backed by every gate and its sizing search terminates at the
      greatest allocation, and a published packet is the recomputed one.
    - Cross-examination and universe ([sealed_packet_sound],
      [no_self_certification], [universe_context_sound],
      [attention_screen_order]).
    - Outcomes and models ([outcome_point_in_time], [outcome_exact],
      [active_model_approved]): an outcome reads only bars of its own window that
      were known at its evaluation, and each horizon and event means what its
      state says; a model that loads passed every validation and stands approved
      by a reviewer who is not its proposer.
    - Access ([create_job_admission], [workspace_isolation],
      [invalidation_expires_signal], [rate_limit_window],
      [accepted_session_bounded], [revoked_session_refused]).
    - The whole service ([system_invariant], [customers_never_write_research],
      [customer_rows_lawful], [customer_histories]): under any interleaving of
      customers and research both invariants hold, customer rows are well formed
      and no customer record is lost, reopened or given another identity.
    - Customers ([customer_admission], [plan_ceilings_hold],
      [departed_account_powerless], [reset_password_recovers],
      [accepted_invitation_seated], [erasure_complete],
      [webhook_recorded_once], [checkout_retry_exact], [purchased_plan_exact],
      [history_pages_complete], [month_window_is_civil_month],
      [password_roundtrip]): research is admitted only to the entitled, a job
      spends within its plan, a closed account is powerless, custody of an
      account moves only as promised, and what is bought is what is granted.
    - Spending ([budget_limits_hold], [reservations_refine_ledger],
      [reservation_batch_atomic], [settlement_idempotent],
      [reserved_call_runs_once], [finished_call_accounted]): the reservations
      refine an abstract ledger, so every scope stays within its limit up to
      what providers report beyond their own reservation.
    - Resilience ([circuit_single_probe], [circuit_opens_at_threshold],
      [open_circuit_refuses], [circuit_recovers]) and alerts
      ([alert_attempts_bounded], [delivered_alert_final],
      [alert_enqueue_idempotent]), both under any interleaving of workers.

    ** Parameters and hypotheses

    Code outside the repository is a parameter: hashes ([ContentHash],
    [PolicyHash], [SignalPolicyHash], [CrossHash], [UniverseHash], [Digests],
    [CallHash], [ArtifactHash]), pydantic's digit limits ([Pydantic]), TA-Lib ([TaLib]), the plan
    table of the reference data ([Plans], [Catalog]), random tokens and password
    derivation ([Secrets]), encryption of mail ([Vault]), the billing provider,
    its message authentication and its JSON ([Stripe]), the JSON of a retention
    policy ([RetentionJson]), the SMTP exchange ([Smtp]), validation of bracketed
    hosts ([BracketedHosts]), responders and verifiers of the cross-examination,
    metered operations, alert providers. Hypotheses are few: the admission
    callback of [create_job] writes usage of its own job only ([admits_usage],
    which [reserve_research] is proved to satisfy); identities of different
    invocations differ ([distinct_identities]); identifiers are not repeated (in
    [Delivery]); a request to join a workspace does not outlive the erasure of
    its own account ([timely]); salts and derived keys have their lengths (in
    [Security]).

    ** Bounds and fuel

    Four functions take fuel: [digits_fuel] and [shortest], with the bit length
    of their argument, [search] of the allocation, with a bound
    [allocation_search_greatest] proves sufficient, and [follow], which reads
    pages of a history, with a bound [history_pages_complete] proves sufficient.
    Everything else is structural recursion.

    ** Not modelled

    SQL engines and migrations; HTTP routing and serialisation; the HTTP and SMTP
    exchanges themselves; operator command lines and worker loops; native
    research frameworks, their subprocesses and network inference; qualification
    tooling and market data providers; numeric indicators; listings that only
    aggregate rows for display ([operational_metrics], [admin_call_summary] and
    similar). Foreign keys are enforced where the customer tables rely on them
    ([references]); in the research tables every row the code inserts under one
    is read in the same transaction. Columns are unbounded text and numbers.

    Left for later: the research flow that drives a claimed job
    ([flows/research.py], [research/live.py]), the loader of the release tables
    ([reference/catalog.py]), and the discovery of filings and market data
    ([data/uk], [research/market_data.py]). *)

From stdpp Require Export base strings list gmap fin_maps sets option sorting.
From Stdlib Require Export ZArith Lia.
From Stdlib Require Export Floats.SpecFloat.

#[global] Set Default Goal Selector "!".

(** ** Functional record update

    A row of a table or a field of the world is changed with
    [r <| field := v |>], the notation for SQLAlchemy's [.values(field=v)].
    [Rebuild] gives the eta-expansion of a record; the updater of a field is
    derived from it by abstracting that field's projection. *)

Class Rebuild (R : Type) := rebuild : R → R.
Class Updater {R T : Type} (proj : R → T) := updater : (T → T) → R → R.
Arguments updater {R T} proj {_} _ _ /.

Ltac derive_updater :=
  lazymatch goal with
  | |- @Updater ?R ?T ?proj =>
      let f := fresh "f" in
      let r := fresh "r" in
      refine (λ (f : T → T) (r : R), _);
      let inst := constr:(_ : Rebuild R) in
      let body := eval hnf in (inst r) in
      lazymatch eval pattern (proj r) in body with
      | ?g _ => let t := eval cbv beta in (g (f (proj r))) in exact t
      end
  end.
#[export] Hint Extern 1 (Updater _) => derive_updater : typeclass_instances.

Declare Scope record_scope.
Delimit Scope record_scope with rec.
Notation "r <| p := v |>" := (updater p (λ _, v) r)
  (at level 1, p at level 9, v at level 200) : record_scope.
Notation "r <| p ::= f |>" := (updater p f r)
  (at level 1, p at level 9, f at level 200) : record_scope.
#[global] Open Scope record_scope.

(** ** Python idioms shared by the components *)

(** [timedelta] arithmetic: an aware [datetime] is its UTC instant in
    microseconds, Python's own resolution. *)
Definition microsecond : Z := 1.
Definition millisecond : Z := 1000.
Definition seconds (n : Z) : Z := n * 1000000.
Definition minutes (n : Z) : Z := seconds (60 * n).
Definition hours (n : Z) : Z := seconds (3600 * n).
Definition days (n : Z) : Z := seconds (86400 * n).

(** Truthiness of [str], [str | None] and [datetime | None] values. *)
Definition truthy (s : string) : bool := bool_decide (s ≠ EmptyString).
Definition truthy_opt (s : option string) : bool :=
  match s with Some x => truthy x | None => false end.
Definition is_set {A} (x : option A) : bool :=
  match x with Some _ => true | None => false end.

(** [value or default] on an optional string. *)
Definition str_or (s : option string) (d : string) : string :=
  match s with Some x => if truthy x then x else d | None => d end.

(** [x <= t] for a nullable SQL timestamp: NULL never satisfies it. *)
Definition null_le (x : option Z) (t : Z) : bool :=
  match x with Some v => (v <=? t)%Z | None => false end.
Definition null_gt (x : option Z) (t : Z) : bool :=
  match x with Some v => (t <? v)%Z | None => false end.

(** [tuple(dict.fromkeys(l))]: first occurrences, in order. *)
Fixpoint from_keys_aux `{EqDecision A} (seen l : list A) : list A :=
  match l with
  | [] => []
  | x :: l' =>
      if bool_decide (x ∈ seen) then from_keys_aux seen l'
      else x :: from_keys_aux (x :: seen) l'
  end.
Definition from_keys `{EqDecision A} (l : list A) : list A := from_keys_aux [] l.

(** [set(a) <= set(b)], [set(a) == set(b)], [a & b] and [len(set(a))]. *)
Definition subset_of `{EqDecision A} (a b : list A) : bool :=
  forallb (λ x, bool_decide (x ∈ b)) a.
Definition same_set `{EqDecision A} (a b : list A) : bool :=
  subset_of a b && subset_of b a.
Definition intersects `{EqDecision A} (a b : list A) : bool :=
  existsb (λ x, bool_decide (x ∈ b)) a.
Definition distinct `{EqDecision A} (a : list A) : bool :=
  bool_decide (length (from_keys a) = length a).
Definition mem `{EqDecision A} (x : A) (l : list A) : bool := bool_decide (x ∈ l).

(** The first element a query ordered by a key returns: SQL leaves the order
    of equal keys open, the model takes the first in table order. *)
Fixpoint min_by {A} (key : A → Z) (l : list A) : option A :=
  match l with
  | [] => None
  | x :: l' =>
      match min_by key l' with
      | None => Some x
      | Some y => if (key x <=? key y)%Z then Some x else Some y
      end
  end.

(** [ORDER BY key DESC, later rows last among equals] as a stable sort. *)
Fixpoint insert_desc {A} (key : A → Z) (x : A) (l : list A) : list A :=
  match l with
  | [] => [x]
  | y :: l' => if (key y <? key x)%Z then x :: y :: l' else y :: insert_desc key x l'
  end.
Definition sort_desc {A} (key : A → Z) (l : list A) : list A :=
  foldr (insert_desc key) [] (reverse l).
(** [sorted(l, key=key)]: the stable ascending sort. *)
Fixpoint insert_asc {A} (key : A → Z) (x : A) (l : list A) : list A :=
  match l with
  | [] => [x]
  | y :: l' => if (key x <=? key y)%Z then x :: y :: l' else y :: insert_asc key x l'
  end.
Definition sort_asc {A} (key : A → Z) (l : list A) : list A := foldr (insert_asc key) [] l.
(** [sorted] with a strict order given as a boolean: stable insertion. *)
Fixpoint insert_by {A} (lt : A → A → bool) (x : A) (l : list A) : list A :=
  match l with
  | [] => [x]
  | y :: l' => if lt y x then y :: insert_by lt x l' else x :: y :: l'
  end.
Definition sort_by {A} (lt : A → A → bool) (l : list A) : list A := foldr (insert_by lt) [] l.
(** [l[-n:]] for [n > 0]. *)
Definition last_n {A} (n : nat) (l : list A) : list A := drop (length l - n) l.

(** [min(a, *rest)] *)
Definition min_all (a : Z) (rest : list Z) : Z := foldl Z.min a rest.

Definition sum_by {A} (f : A → Z) (l : list A) : Z := foldr (λ x acc, f x + acc)%Z 0%Z l.
Definition count_by {A} (p : A → bool) (l : list A) : Z :=
  Z.of_nat (length (List.filter p l)).

(** The rows of a table whose primary key is the map's key. *)
Definition rows `{Countable K} {V} (m : gmap K V) : list V := (map_to_list m).*2.

Lemma elem_of_rows `{Countable K} {V} (m : gmap K V) v :
  v ∈ rows m ↔ ∃ k, m !! k = Some v.
Proof.
  unfold rows. rewrite list_elem_of_fmap. split.
  - intros [[k v'] [-> Hin]]. exists k. by apply elem_of_map_to_list in Hin.
  - intros [k Hk]. exists (k, v). split; [done|]. by apply elem_of_map_to_list.
Qed.

Lemma sum_by_perm {A} (f : A → Z) l1 l2 : l1 ≡ₚ l2 → sum_by f l1 = sum_by f l2.
Proof. induction 1; simpl; lia. Qed.

Lemma count_by_perm {A} (p : A → bool) l1 l2 : l1 ≡ₚ l2 → count_by p l1 = count_by p l2.
Proof.
  unfold count_by. induction 1; simpl; try lia.
  - destruct (p x); simpl; lia.
  - destruct (p x), (p y); simpl; lia.
Qed.

Lemma rows_insert_new `{Countable K} {V} (m : gmap K V) k v :
  m !! k = None → rows (<[k:=v]> m) ≡ₚ v :: rows m.
Proof.
  intros Hk. unfold rows.
  by rewrite (fmap_Permutation snd _ _ (map_to_list_insert m k v Hk)).
Qed.

Lemma rows_lookup `{Countable K} {V} (m : gmap K V) k v :
  m !! k = Some v → rows m ≡ₚ v :: rows (delete k m).
Proof.
  intros Hk. rewrite <- (insert_delete_id m k v Hk) at 1.
  apply rows_insert_new, lookup_delete_eq.
Qed.

Lemma rows_insert_old `{Countable K} {V} (m : gmap K V) k v :
  rows (<[k:=v]> m) ≡ₚ v :: rows (delete k m).
Proof.
  rewrite <- insert_delete_eq. apply rows_insert_new, lookup_delete_eq.
Qed.

Lemma count_by_cons {A} (p : A → bool) x l :
  count_by p (x :: l) = ((if p x then 1 else 0) + count_by p l)%Z.
Proof. unfold count_by. simpl. destruct (p x); simpl; lia. Qed.

Lemma count_by_nonneg {A} (p : A → bool) l : (0 ≤ count_by p l)%Z.
Proof. unfold count_by. lia. Qed.

Lemma min_by_elem {A} (key : A → Z) l x : min_by key l = Some x → x ∈ l.
Proof.
  revert x. induction l as [|y l IH]; intros x; simpl; [done|].
  destruct (min_by key l) as [z|]; [|intros [= ->]; left].
  case_match; intros [= <-]; [left|right; by apply IH].
Qed.

Lemma min_by_least {A} (key : A → Z) l x y :
  min_by key l = Some x → y ∈ l → (key x ≤ key y)%Z.
Proof.
  revert x. induction l as [|z l IH]; intros x; simpl; [done|].
  destruct (min_by key l) as [m|] eqn:Hm.
  - case_match eqn:Hle; intros [= <-] Hy; apply elem_of_cons in Hy as [->|Hy]; try lia.
    + specialize (IH m eq_refl Hy). lia.
    + by apply IH.
  - intros [= <-] [->|Hy]%elem_of_cons; [lia|].
    destruct l; [by apply not_elem_of_nil in Hy|].
    simpl in Hm. destruct (min_by key l); [case_match|]; done.
Qed.

Lemma min_by_none {A} (key : A → Z) l : min_by key l = None ↔ l = [].
Proof.
  destruct l as [|x l]; simpl; [done|]. split; [|done].
  destruct (min_by key l); [case_match|]; done.
Qed.

Lemma insert_by_perm {A} (lt : A → A → bool) x l : insert_by lt x l ≡ₚ x :: l.
Proof.
  induction l as [|y l IH]; simpl; [done|]. case_match; [|done].
  rewrite IH. apply Permutation_swap.
Qed.
Lemma sort_by_perm {A} (lt : A → A → bool) l : sort_by lt l ≡ₚ l.
Proof.
  unfold sort_by. induction l as [|x l IH]; simpl; [done|]. by rewrite insert_by_perm, IH.
Qed.
Lemma insert_asc_perm {A} (key : A → Z) x l : insert_asc key x l ≡ₚ x :: l.
Proof.
  induction l as [|y l IH]; simpl; [done|]. case_match; [done|].
  rewrite IH. apply Permutation_swap.
Qed.
Lemma sort_asc_perm {A} (key : A → Z) l : sort_asc key l ≡ₚ l.
Proof.
  unfold sort_asc. induction l as [|x l IH]; simpl; [done|]. by rewrite insert_asc_perm, IH.
Qed.
Lemma insert_desc_perm {A} (key : A → Z) x l : insert_desc key x l ≡ₚ x :: l.
Proof.
  induction l as [|y l IH]; simpl; [done|]. case_match; [done|].
  rewrite IH. apply Permutation_swap.
Qed.
Lemma sort_desc_perm {A} (key : A → Z) l : sort_desc key l ≡ₚ l.
Proof.
  unfold sort_desc. trans (reverse l); [|apply reverse_Permutation].
  generalize (reverse l) as r. induction r as [|x r IH]; simpl; [done|].
  by rewrite insert_desc_perm, IH.
Qed.
Lemma min_all_le a l : (min_all a l ≤ a ∧ ∀ x, x ∈ l → min_all a l ≤ x)%Z.
Proof.
  unfold min_all. revert a. induction l as [|y l IH]; intros a; simpl.
  { split; [lia|]. intros x Hx. by apply not_elem_of_nil in Hx. }
  destruct (IH (a `min` y)%Z) as [H1 H2]. split; [lia|].
  intros x [->|Hx]%elem_of_cons; [lia|by apply H2].
Qed.

Lemma elem_of_from_keys_aux `{EqDecision A} (seen l : list A) x :
  x ∈ from_keys_aux seen l ↔ x ∈ l ∧ x ∉ seen.
Proof.
  revert seen. induction l as [|y l IH]; intros seen; simpl; [set_solver|].
  case_bool_decide; rewrite ?elem_of_cons, IH; destruct (decide (x = y)); set_solver.
Qed.

Lemma elem_of_from_keys `{EqDecision A} (l : list A) x : x ∈ from_keys l ↔ x ∈ l.
Proof. unfold from_keys. rewrite elem_of_from_keys_aux. set_solver. Qed.

Lemma NoDup_from_keys `{EqDecision A} (l : list A) : NoDup (from_keys l).
Proof.
  unfold from_keys. generalize (@nil A) as seen.
  induction l as [|y l IH]; intros seen; simpl; [constructor|].
  case_bool_decide; [apply IH|]. constructor; [|apply IH].
  rewrite elem_of_from_keys_aux. set_solver.
Qed.

Lemma from_keys_nil `{EqDecision A} (l : list A) : from_keys l = [] ↔ l = [].
Proof.
  split; [|by intros ->]. intros Hl. destruct l as [|x l]; [done|].
  assert (x ∈ from_keys (x :: l)) as Hx by (apply elem_of_from_keys; left).
  rewrite Hl in Hx. by apply not_elem_of_nil in Hx.
Qed.

Lemma subset_of_spec `{EqDecision A} (a b : list A) :
  subset_of a b = true ↔ ∀ x, x ∈ a → x ∈ b.
Proof.
  unfold subset_of. rewrite forallb_forall. split; intros Hab x Hx.
  - apply list_elem_of_In in Hx. specialize (Hab x Hx). by apply bool_decide_eq_true in Hab.
  - apply list_elem_of_In in Hx. apply bool_decide_eq_true. by apply Hab.
Qed.

Lemma same_set_spec `{EqDecision A} (a b : list A) :
  same_set a b = true ↔ ∀ x, x ∈ a ↔ x ∈ b.
Proof. unfold same_set. rewrite andb_true_iff, !subset_of_spec. firstorder. Qed.

Lemma intersects_spec `{EqDecision A} (a b : list A) :
  intersects a b = true ↔ ∃ x, x ∈ a ∧ x ∈ b.
Proof.
  unfold intersects. rewrite existsb_exists. split; intros (x & Ha & Hb); exists x;
    rewrite bool_decide_eq_true, list_elem_of_In in *; rewrite ?list_elem_of_In in *; done.
Qed.

Lemma mem_spec `{EqDecision A} (x : A) l : mem x l = true ↔ x ∈ l.
Proof. unfold mem. apply bool_decide_eq_true. Qed.

Lemma flat_map_nil {A B} (f : A → list B) l : flat_map f l = [] ↔ ∀ x, x ∈ l → f x = [].
Proof.
  induction l as [|y l IH]; simpl; [set_solver|]. rewrite app_nil, IH. set_solver.
Qed.

Lemma existsb_false {A} (p : A → bool) l : existsb p l = false ↔ ∀ x, x ∈ l → p x = false.
Proof.
  induction l as [|y l IH]; simpl; [set_solver|]. rewrite orb_false_iff, IH. set_solver.
Qed.

Lemma existsb_true {A} (p : A → bool) l : existsb p l = true ↔ ∃ x, x ∈ l ∧ p x = true.
Proof.
  rewrite existsb_exists. by setoid_rewrite list_elem_of_In.
Qed.

Lemma elem_of_List_filter {A} (p : A → bool) l x :
  x ∈ List.filter p l ↔ x ∈ l ∧ p x = true.
Proof. by rewrite !list_elem_of_In, filter_In. Qed.

Lemma size_list_to_set_le (ids : list string) :
  (size (list_to_set (C := gset string) ids) ≤ length ids)%nat.
Proof.
  induction ids as [|i ids IH]; simpl; [done|].
  rewrite size_union_alt.
  pose proof (subseteq_size (list_to_set ids ∖ {[i]} : gset string) (list_to_set ids)) as Hs.
  rewrite size_singleton. assert (size (list_to_set ids ∖ {[i]} : gset string) ≤ _)%nat
    by (apply Hs; set_solver). lia.
Qed.

Lemma size_list_to_set_NoDup (ids : list string) :
  size (list_to_set (C := gset string) ids) = length ids ↔ NoDup ids.
Proof.
  split; [|apply size_list_to_set].
  induction ids as [|i ids IH]; intros Hsz; [constructor|].
  simpl in Hsz. pose proof (size_list_to_set_le ids) as Hle.
  destruct (decide (i ∈ ids)) as [Hin|Hout].
  - assert ({[i]} ∪ list_to_set ids = list_to_set (C := gset string) ids) as Heq by set_solver.
    rewrite Heq in Hsz. lia.
  - rewrite size_union, size_singleton in Hsz by set_solver.
    constructor; [done|]. apply IH. lia.
Qed.

Lemma length_from_keys_aux `{EqDecision A} (seen l : list A) :
  (length (from_keys_aux seen l) ≤ length l)%nat.
Proof. revert seen. induction l as [|x l IH]; intros seen; simpl; [done|].
  case_bool_decide; simpl; [specialize (IH seen)|specialize (IH (x :: seen))]; lia.
Qed.

Lemma NoDup_length_from_keys `{EqDecision A} (l : list A) :
  length (from_keys l) = length l → NoDup l.
Proof.
  unfold from_keys. generalize (@nil A) as seen. intros seen Hlen.
  cut (NoDup l ∧ ∀ x, x ∈ l → x ∉ seen); [tauto|].
  revert seen Hlen. induction l as [|x l IH]; intros seen; simpl.
  { split; [constructor|]. intros y Hy. by apply not_elem_of_nil in Hy. }
  case_bool_decide as Hx; simpl; intros Hlen.
  { pose proof (length_from_keys_aux seen l). lia. }
  destruct (IH (x :: seen)) as [Hnd Hdis]; [lia|]. split.
  - constructor; [|done]. intros Hin. by apply (Hdis x Hin); left.
  - intros y [->|Hy]%elem_of_cons; [done|]. intros Hs. apply (Hdis y Hy). by right.
Qed.

Lemma NoDup_from_keys_length `{EqDecision A} (l : list A) :
  NoDup l → length (from_keys l) = length l.
Proof.
  intros Hl. apply Permutation_length, NoDup_Permutation; [apply NoDup_from_keys|done|].
  intros x. apply elem_of_from_keys.
Qed.
Lemma distinct_NoDup `{EqDecision A} (l : list A) : distinct l = true ↔ NoDup l.
Proof.
  unfold distinct. rewrite bool_decide_eq_true. split; [apply NoDup_length_from_keys|apply NoDup_from_keys_length].
Qed.

(** ** Sorting *)
Section sorting.
Context {A : Type} (lt : A → A → bool) (R : A → A → Prop).
Context (lt_true : ∀ x y, lt x y = true → R x y) (lt_false : ∀ x y, lt x y = false → R y x).
Context (R_trans : ∀ x y z, R x y → R y z → R x z).
Lemma insert_by_sorted x l : StronglySorted R l → StronglySorted R (insert_by lt x l).
Proof.
  induction l as [|y l IH]; intros Hs; simpl; [by repeat constructor|].
  apply StronglySorted_inv in Hs as [Hl Hy]. destruct (lt y x) eqn:Hlt.
  - constructor; [by apply IH|]. rewrite insert_by_perm. constructor; auto.
  - constructor; [by constructor|]. constructor; [auto|].
    eapply Forall_impl; [exact Hy|]. intros z Hz. by eapply R_trans; [apply lt_false|].
Qed.
Lemma sort_by_sorted l : StronglySorted R (sort_by lt l).
Proof. unfold sort_by. induction l as [|x l IH]; simpl; [constructor|by apply insert_by_sorted]. Qed.
(** A stable sort commutes with dropping elements. *)
Context (lt_later : ∀ x y z, lt y x = false → R y z → lt z x = false).
Lemma insert_by_head x l : Forall (λ y, lt y x = false) l → insert_by lt x l = x :: l.
Proof. intros [|y l' Hy _]; simpl; [done|by rewrite Hy]. Qed.
Lemma insert_by_filter (p : A → bool) x l : StronglySorted R l →
  List.filter p (insert_by lt x l) =
  if p x then insert_by lt x (List.filter p l) else List.filter p l.
Proof.
  induction l as [|y l IH]; intros Hs; simpl; [by destruct (p x)|].
  apply StronglySorted_inv in Hs as [Hl Hy]. destruct (lt y x) eqn:Hlt; simpl.
  - rewrite IH by done. destruct (p y), (p x); simpl; by rewrite ?Hlt.
  - destruct (p x); [|done]. symmetry. apply (insert_by_head x (List.filter p (y :: l))).
    apply Forall_forall. intros z [Hz%elem_of_cons _]%elem_of_List_filter.
    destruct Hz as [->|Hz]; [done|]. eapply lt_later; [exact Hlt|]. by eapply Forall_forall in Hy.
Qed.
Lemma sort_by_filter (p : A → bool) l : List.filter p (sort_by lt l) = sort_by lt (List.filter p l).
Proof.
  unfold sort_by. induction l as [|x l IH]; simpl; [done|].
  rewrite insert_by_filter by apply sort_by_sorted. rewrite IH. by destruct (p x).
Qed.
End sorting.

(** ** Automation

    [money] collects the equations and membership facts the components use;
    [bool_solve] turns the boolean guards of the code into propositions. *)
Create HintDb money discriminated.
#[export] Hint Resolve count_by_nonneg NoDup_from_keys : money.
Ltac bool_norm :=
  repeat match goal with
  | H : _ && _ = true |- _ => apply andb_true_iff in H as [? ?]
  | H : _ || _ = false |- _ => apply orb_false_iff in H as [? ?]
  | H : negb _ = true |- _ => apply negb_true_iff in H
  | H : negb _ = false |- _ => apply negb_false_iff in H
  | H : bool_decide _ = true |- _ => apply bool_decide_eq_true in H
  | H : bool_decide _ = false |- _ => apply bool_decide_eq_false in H
  | H : (_ <=? _)%Z = true |- _ => apply Z.leb_le in H
  | H : (_ <=? _)%Z = false |- _ => apply Z.leb_gt in H
  | H : (_ <? _)%Z = true |- _ => apply Z.ltb_lt in H
  | H : (_ <? _)%Z = false |- _ => apply Z.ltb_ge in H
  | H : mem _ _ = true |- _ => apply mem_spec in H
  end.
