(* ===== verification/Effects.v ===== *)
(** * Exceptions, the error monad and the state-and-exception monad

    Python code raises; a transaction body that raises is rolled back. Pure
    validators run in [Res], stateful operations in [M S]. [wp] is the weakest
    precondition of an operation, with one postcondition for a normal return
    and one for a raised exception. *)

From S2P Require Import Prelude.

(** ** Exceptions *)

(** The exception classes the modelled code raises, catches or subclasses. *)
Inductive exn_class :=
  | StoreError | BarrierNotLocked | LeaseLost
  | QueueCapacityExceeded | EnqueueRateExceeded | IdempotencyConflict
  | ValueError | KeyError | AssertionError | OperationFailed
  | IntegrityError | NoResultFound | InvalidUpstreamReport
  | AccountError | EntitlementDenied | BillingUnavailable | ProviderFailure
  | ReferenceTableError | PasswordCapacityExceeded | OperationalError | HTTPException
  | AttributeError | TypeError | InvalidToken | UpstreamUnavailable | UnsupportedSnapshotData.
#[export] Instance exn_class_eq_dec : EqDecision exn_class.
Proof. solve_decision. Defined.

Record exn := Exn { exn_cls : exn_class; exn_msg : string }.
#[export] Instance exn_eq_dec : EqDecision exn.
Proof. solve_decision. Defined.

(** [isinstance(error, cls)] for the subclass relation of the source:
    the store's errors derive from [StoreError], pydantic's [ValidationError],
    [EntitlementDenied], [InvalidUpstreamReport], [UnsupportedSnapshotData] and
    [ReferenceTableError] from [ValueError]. *)
Definition is_instance (e : exn) (cls : exn_class) : bool :=
  bool_decide (exn_cls e = cls) ||
  match cls with
  | StoreError =>
      bool_decide (exn_cls e ∈ [BarrierNotLocked; LeaseLost; QueueCapacityExceeded;
                                EnqueueRateExceeded; IdempotencyConflict])
  | ValueError => bool_decide (exn_cls e ∈ [EntitlementDenied; InvalidUpstreamReport; ReferenceTableError;
                                           UnsupportedSnapshotData])
  | _ => false
  end.

(** ** Pure code that may raise *)
Abbreviation Res := (sum exn).
#[export] Instance res_ret : MRet Res := λ _ a, inr a.
#[export] Instance res_bind : MBind Res := λ _ _ k m,
  match m with inl e => inl e | inr a => k a end.

Definition fail {A} (c : exn_class) (msg : string) : Res A := inl (Exn c msg).
(** [if b: raise c(msg)] *)
Definition reject (b : bool) (c : exn_class) (msg : string) : Res () :=
  if b then fail c msg else inr ().
Definition passes {A} (r : Res A) : bool := match r with inr _ => true | inl _ => false end.

Lemma res_bind_inr {A B} (m : Res A) (k : A → Res B) b :
  (m ≫= k) = inr b ↔ ∃ a, m = inr a ∧ k a = inr b.
Proof. destruct m; simpl; [|naive_solver]. split; [done|]. by intros (? & [=] & _). Qed.

Lemma reject_inr b c msg u : reject b c msg = inr u ↔ b = false.
Proof. destruct b, u; simpl; done. Qed.

Lemma res_bind_inl {A B} (m : Res A) (k : A → Res B) e :
  (m ≫= k) = inl e ↔ m = inl e ∨ ∃ a, m = inr a ∧ k a = inl e.
Proof. destruct m; simpl; naive_solver. Qed.
Lemma reject_inl b c msg e : reject b c msg = inl e ↔ b = true ∧ e = Exn c msg.
Proof. destruct b; simpl; [|naive_solver]. unfold fail. naive_solver. Qed.

(** ** Stateful code that may raise *)
Definition M (S A : Type) : Type := S → (exn + A) * S.
#[export] Instance m_ret {S} : MRet (M S) := λ _ a s, (inr a, s).
#[export] Instance m_bind {S} : MBind (M S) := λ _ _ k m s,
  match m s with
  | (inr a, s') => k a s'
  | (inl e, s') => (inl e, s')
  end.

Section operations.
Context {S : Type}.

Definition throw {A} (e : exn) : M S A := λ s, (inl e, s).
Definition raise {A} (c : exn_class) (msg : string) : M S A := throw (Exn c msg).
(** [if b: raise c(msg)] *)
Definition raise_if (b : bool) (c : exn_class) (msg : string) : M S () :=
  if b then raise c msg else mret ().
Definition gets {A} (f : S → A) : M S A := λ s, (inr (f s), s).
Definition modify (f : S → S) : M S () := λ s, (inr (), f s).
Definition lift {A} (r : Res A) : M S A :=
  match r with inr a => mret a | inl e => throw e end.
(** [try: m except cls as error: h] *)
Definition catch {A} (p : exn → bool) (m : M S A) (h : exn → M S A) : M S A := λ s,
  match m s with
  | (inl e, s') => if p e then h e s' else (inl e, s')
  | r => r
  end.
(** [for x in l: f(x)] *)
Fixpoint for_each {A} (l : list A) (f : A → M S ()) : M S () :=
  match l with
  | [] => mret ()
  | x :: l' => f x ;; for_each l' f
  end.
(** [[f(x) for x in l]] *)
Fixpoint map_m {A B} (f : A → M S B) (l : list A) : M S (list B) :=
  match l with
  | [] => mret []
  | x :: l' => y ← f x; ys ← map_m f l'; mret (y :: ys)
  end.
(** [value is None -> raise] *)
Definition expect {A} (o : option A) (c : exn_class) (msg : string) : M S A :=
  match o with Some a => mret a | None => raise c msg end.
End operations.

(** ** Weakest preconditions *)
Definition wp {S A} (m : M S A) (Q : A → S → Prop) (E : exn → S → Prop) (s : S) : Prop :=
  match m s with
  | (inr a, s') => Q a s'
  | (inl e, s') => E e s'
  end.

Section wp_rules.
Context {S : Type}.
Implicit Types E : exn → S → Prop.

Lemma wp_ret {A} (a : A) Q E s : Q a s → wp (mret a) Q E s.
Proof. done. Qed.
Lemma wp_bind {A B} (m : M S A) (k : A → M S B) Q E s :
  wp m (λ a s', wp (k a) Q E s') E s → wp (m ≫= k) Q E s.
Proof. unfold wp, mbind, m_bind. by destruct (m s) as [[]]. Qed.
Lemma wp_throw {A} (e : exn) Q E s : E e s → wp (A := A) (throw e) Q E s.
Proof. done. Qed.
Lemma wp_raise {A} c msg Q E s : E (Exn c msg) s → wp (A := A) (raise c msg) Q E s.
Proof. done. Qed.
Lemma wp_raise_if b c msg Q E s :
  (b = true → E (Exn c msg) s) → (b = false → Q () s) → wp (raise_if b c msg) Q E s.
Proof. destruct b; unfold wp; simpl; eauto. Qed.
Lemma wp_gets {A} (f : S → A) Q E s : Q (f s) s → wp (gets f) Q E s.
Proof. done. Qed.
Lemma wp_modify (f : S → S) Q E s : Q () (f s) → wp (modify f) Q E s.
Proof. done. Qed.
Lemma wp_lift {A} (r : Res A) Q E s :
  (∀ a, r = inr a → Q a s) → (∀ e, r = inl e → E e s) → wp (lift r) Q E s.
Proof. destruct r; unfold wp; simpl; eauto. Qed.
Lemma wp_expect {A} (o : option A) c msg Q E s :
  (∀ a, o = Some a → Q a s) → (o = None → E (Exn c msg) s) → wp (expect o c msg) Q E s.
Proof. destruct o; unfold wp; simpl; eauto. Qed.
Lemma wp_mono {A} (m : M S A) Q Q' E E' s :
  wp m Q E s → (∀ a s', Q a s' → Q' a s') → (∀ e s', E e s' → E' e s') → wp m Q' E' s.
Proof. unfold wp. destruct (m s) as [[]]; eauto. Qed.
Lemma wp_catch {A} (p : exn → bool) (m : M S A) (h : exn → M S A) Q E s :
  wp m Q (λ e s', if p e then wp (h e) Q E s' else E e s') s → wp (catch p m h) Q E s.
Proof. unfold wp, catch. destruct (m s) as [[]]; [|done]. by destruct (p e). Qed.
Lemma wp_for_each {A} (I : S → Prop) (l : list A) (f : A → M S ()) Q E s :
  I s → (∀ x s', x ∈ l → I s' → wp (f x) (λ _, I) E s') →
  (∀ s', I s' → Q () s') → wp (for_each l f) Q E s.
Proof.
  intros HI Hf HQ. revert s HI. induction l as [|x l IH]; intros s HI; simpl.
  - by apply wp_ret, HQ.
  - apply wp_bind. eapply wp_mono; [apply (Hf x); [left|done]| |done].
    simpl. intros _ s' Hs'. apply IH; [|done]. intros y s'' Hy. apply Hf. by right.
Qed.
(** The two ways a proof about a run and a proof about [wp] meet. *)
Lemma wp_run {A} (m : M S A) Q E s :
  (∀ a s', m s = (inr a, s') → Q a s') → (∀ e s', m s = (inl e, s') → E e s') →
  wp m Q E s.
Proof. unfold wp. destruct (m s) as [[]]; eauto. Qed.
Lemma wp_inr {A} (m : M S A) Q E s a s' : wp m Q E s → m s = (inr a, s') → Q a s'.
Proof. unfold wp. intros Hwp Hm. by rewrite Hm in Hwp. Qed.
Lemma wp_inl {A} (m : M S A) Q E s e s' : wp m Q E s → m s = (inl e, s') → E e s'.
Proof. unfold wp. intros Hwp Hm. by rewrite Hm in Hwp. Qed.
End wp_rules.

(** [wp_step] advances a [wp] goal over one construct of the program;
    components register the specifications of their operations in [wp_db]. *)
Create HintDb wp_db.

Ltac wp_step :=
  lazymatch goal with
  | |- wp (mbind _ _) _ _ _ => apply wp_bind
  | |- wp (mret _) _ _ _ => apply wp_ret
  | |- wp (raise_if _ _ _) _ _ _ => apply wp_raise_if; intro
  | |- wp (raise _ _) _ _ _ => apply wp_raise
  | |- wp (throw _) _ _ _ => apply wp_throw
  | |- wp (gets _) _ _ _ => apply wp_gets
  | |- wp (modify _) _ _ _ => apply wp_modify
  | |- wp (lift _) _ _ _ => apply wp_lift; intros ? ?
  | |- wp (expect _ _ _) _ _ _ => apply wp_expect; [intros ? ?|intro]
  | |- wp (if ?b then _ else _) _ _ _ => destruct b eqn:?
  | |- wp (match ?x with _ => _ end) _ _ _ => destruct x eqn:?
  | |- wp (let _ := _ in _) _ _ _ => cbv zeta
  end.
Ltac wp_steps := repeat (wp_step; simpl; try done).

(** Equational symbolic execution of one run: [m_run H] decomposes
    [m s = (r, s')] along binds. *)
Lemma m_bind_inr {S A B} (m : M S A) (k : A → M S B) s b s' :
  (m ≫= k) s = (inr b, s') ↔ ∃ a s1, m s = (inr a, s1) ∧ k a s1 = (inr b, s').
Proof.
  unfold mbind, m_bind. destruct (m s) as [[e|a] s1] eqn:Hm; [|naive_solver].
  split; [done|]. by intros (a & s2 & [=] & _).
Qed.
