(* ===== verification/PyNum.v ===== *)
(** * Python numbers: [decimal.Decimal] and [float]

    Finite decimals are coefficient/exponent pairs under the default context
    (28 digits, ROUND_HALF_EVEN); floats are IEEE binary64 through the
    Standard Library's executable [spec_float]. The sign of a zero and the
    exponent Python gives the sum of a zero and a far smaller number are not
    tracked: both are numerically irrelevant. *)

From S2P Require Import Prelude Effects.
From stdpp Require Import pretty.
From Stdlib Require Import Ascii.
#[local] Open Scope Z_scope.

(** ** Decimal *)
Record Decimal := Dec { coef : Z; expo : Z }.
#[export] Instance decimal_eq_dec : EqDecision Decimal.
Proof. solve_decision. Defined.

(** A [Decimal] before an [is_finite()] check. *)
Inductive AnyDecimal := Finite (d : Decimal) | NotFinite.

Definition dec (n : Z) : Decimal := Dec n 0.
Definition context_precision : Z := 28.

(** Number of decimal digits of a non-negative integer; [len(str(n))]. *)
Fixpoint digits_fuel (fuel : nat) (n : Z) : Z :=
  match fuel with
  | O => 1
  | S f => if n <? 10 then 1 else 1 + digits_fuel f (n / 10)
  end.
Definition digits (n : Z) : Z := digits_fuel (Z.to_nat (Z.log2 n + 1)) n.

Inductive rounding := ROUND_FLOOR | ROUND_CEILING | ROUND_HALF_UP | ROUND_HALF_EVEN.

(** [n / d] rounded to an integer, for [d > 0]. *)
Definition round_div (r : rounding) (n d : Z) : Z :=
  match r with
  | ROUND_FLOOR => n / d
  | ROUND_CEILING => - ((- n) / d)
  | ROUND_HALF_UP => Z.sgn n * ((2 * Z.abs n + d) / (2 * d))
  | ROUND_HALF_EVEN =>
      let q := Z.abs n / d in
      let twice := 2 * (Z.abs n mod d) in
      Z.sgn n *
        (if twice <? d then q else if d <? twice then q + 1
         else if Z.even q then q else q + 1)
  end.

(** Context rounding of a result to 28 digits. A carry to 29 digits is
    renormalised, as [Decimal._fix] does. *)
Definition dec_fix (x : Decimal) : Decimal :=
  let excess := digits (Z.abs (coef x)) - context_precision in
  if excess <=? 0 then x
  else
    let c := round_div ROUND_HALF_EVEN (coef x) (10 ^ excess) in
    if context_precision <? digits (Z.abs c)
    then Dec (c / 10) (expo x + excess + 1)
    else Dec c (expo x + excess).

(** The coefficient of [x] at an exponent not above its own. *)
Definition at_expo (x : Decimal) (e : Z) : Z := coef x * 10 ^ (expo x - e).

Definition dec_compare (x y : Decimal) : comparison :=
  let e := Z.min (expo x) (expo y) in at_expo x e ?= at_expo y e.
Definition dec_le (x y : Decimal) : bool :=
  let e := Z.min (expo x) (expo y) in at_expo x e <=? at_expo y e.
Definition dec_lt (x y : Decimal) : bool :=
  let e := Z.min (expo x) (expo y) in at_expo x e <? at_expo y e.
Definition dec_eq (x y : Decimal) : bool :=
  let e := Z.min (expo x) (expo y) in at_expo x e =? at_expo y e.
Definition dec_min (x y : Decimal) : Decimal := if dec_lt y x then y else x.
Definition dec_max (x y : Decimal) : Decimal := if dec_lt x y then y else x.

Definition dec_neg (x : Decimal) : Decimal := Dec (- coef x) (expo x).
Definition dec_abs (x : Decimal) : Decimal := Dec (Z.abs (coef x)) (expo x).
Definition dec_add (x y : Decimal) : Decimal :=
  let e := Z.min (expo x) (expo y) in dec_fix (Dec (at_expo x e + at_expo y e) e).
Definition dec_sub (x y : Decimal) : Decimal := dec_add x (dec_neg y).
Definition dec_mul (x y : Decimal) : Decimal :=
  dec_fix (Dec (coef x * coef y) (expo x + expo y)).

(** Trailing zeros of an exact quotient are dropped up to the ideal exponent. *)
Fixpoint strip_zeros (fuel : nat) (c e ideal : Z) : Decimal :=
  match fuel with
  | O => Dec c e
  | S f =>
      if (e <? ideal) && (c mod 10 =? 0) then strip_zeros f (c / 10) (e + 1) ideal
      else Dec c e
  end.

(** [Decimal.__truediv__]; a zero divisor raises. *)
Definition dec_div (x y : Decimal) : Res Decimal :=
  if coef y =? 0 then fail OperationFailed "DivisionByZero" else
  if coef x =? 0 then mret (Dec 0 (expo x - expo y)) else
  let a := Z.abs (coef x) in
  let b := Z.abs (coef y) in
  let s := Z.sgn (coef x) * Z.sgn (coef y) in
  let shift := digits b - digits a + context_precision + 1 in
  let e := expo x - expo y - shift in
  let n := if 0 <=? shift then a * 10 ^ shift else a in
  let d := if 0 <=? shift then b else b * 10 ^ (- shift) in
  let q := n / d in
  let exact := n mod d =? 0 in
  let r := if exact then strip_zeros (Z.to_nat shift) q e (expo x - expo y)
           else Dec (if q mod 5 =? 0 then q + 1 else q) e in
  mret (dec_fix (Dec (s * coef r) (expo r))).

(** [x.quantize(Decimal((0, (1,), e)), rounding)]. *)
Definition quantize (x : Decimal) (e : Z) (r : rounding) : Res Decimal :=
  let c := if e <=? expo x then at_expo x e else round_div r (coef x) (10 ^ (e - expo x)) in
  if context_precision <? digits (Z.abs c) then fail OperationFailed "InvalidOperation"
  else mret (Dec c e).

(** [int(x.to_integral_value(rounding))]. *)
Definition to_integral (x : Decimal) (r : rounding) : Z :=
  if 0 <=? expo x then at_expo x 0 else round_div r (coef x) (10 ^ (- expo x)).

(** [str(d)]: fixed notation down to an adjusted exponent of -6, else scientific. *)
Definition int_text (n : Z) : string := pretty n.
Fixpoint zeros (n : nat) : string :=
  match n with O => "" | S k => String "0"%char (zeros k) end.
Definition decimal_text (d : Decimal) : string :=
  let ds := int_text (Z.abs (coef d)) in
  let n := Z.of_nat (String.length ds) in
  let leftdigits := expo d + n in
  let point := if (expo d <=? 0) && (-6 <? leftdigits) then leftdigits else 1 in
  let sign := if coef d <? 0 then "-" else "" in
  let body :=
    if point <=? 0 then "0." +:+ zeros (Z.to_nat (- point)) +:+ ds
    else if n <=? point then ds +:+ zeros (Z.to_nat (point - n))
    else String.substring 0 (Z.to_nat point) ds +:+ "." +:+
         String.substring (Z.to_nat point) (Z.to_nat (n - point)) ds in
  let e := leftdigits - point in
  sign +:+ body +:+
  (if e =? 0 then "" else "E" +:+ (if 0 <? e then "+" else "") +:+ int_text e).

(** ** Float *)
#[export] Instance spec_float_eq_dec : EqDecision spec_float.
Proof. solve_decision. Defined.

Definition float_of_Z (n : Z) : spec_float := binary_normalize 53 1024 n 0 false.
Definition fdiv (x y : spec_float) : spec_float := SFdiv 53 1024 x y.
Definition fsub (x y : spec_float) : spec_float := SFsub 53 1024 x y.
Definition fmul (x y : spec_float) : spec_float := SFmul 53 1024 x y.
(** A decimal literal [n / 10^k]: the correctly rounded quotient. *)
Definition float_lit (n k : Z) : spec_float := fdiv (float_of_Z n) (float_of_Z (10 ^ k)).
Definition flt (x y : spec_float) : bool := SFltb x y.
Definition fle (x y : spec_float) : bool := SFleb x y.
Definition fmax (x y : spec_float) : spec_float := if flt x y then y else x.
(** [int(x)]: truncation; infinities and NaN raise. *)
Definition int_of_float (x : spec_float) : Res Z :=
  match x with
  | S754_zero _ => mret 0
  | S754_finite s m e =>
      let n := if 0 <=? e then Zpos m * 2 ^ e else Zpos m / 2 ^ (- e) in
      mret (if s then - n else n)
  | S754_infinity _ | S754_nan => fail ValueError "cannot convert float to integer"
  end.
Definition is_finite_float (x : spec_float) : bool :=
  match x with S754_zero _ | S754_finite _ _ _ => true | _ => false end.

(** The float nearest to [n / d], for [n >= 0] and [d > 0]: enough quotient bits
    and a sticky bit decide the rounding exactly. *)
Definition float_of_ratio (n d : Z) : spec_float :=
  if n =? 0 then float_of_Z 0 else
  let s := Z.max 0 (66 + Z.log2 d - Z.log2 n) in
  let q := n * 2 ^ s / d in
  let sticky := if n * 2 ^ s mod d =? 0 then 0 else 1 in
  binary_normalize 53 1024 (2 * q + sticky) (- s - 1) false.
(** [float(Decimal(c, k))] for a non-negative coefficient. *)
Definition float_of_digits (c k : Z) : spec_float :=
  if 0 <=? k then float_of_ratio (c * 10 ^ k) 1 else float_of_ratio c (10 ^ (- k)).

(** [Decimal(str(x))]: the shortest decimal that reads back as [x], the nearest
    of two, in the fixed or scientific notation [repr] chooses. *)
Definition round_trips (x : spec_float) (c k : Z) : bool :=
  bool_decide (float_of_digits c k = x).
Fixpoint shortest (fuel : nat) (x : spec_float) (n d point : Z) (p : Z) : Z * Z :=
  match fuel with
  | O => (0, 0)
  | S f =>
      let k := point - p in
      let num := if 0 <=? k then n else n * 10 ^ (- k) in
      let den := if 0 <=? k then d * 10 ^ k else d in
      let lo := num / den in
      let hi := lo + 1 in
      let near := round_div ROUND_HALF_EVEN num den in
      if round_trips x near k then (near, k)
      else if round_trips x lo k then (lo, k)
      else if round_trips x hi k then (hi, k)
      else shortest f x n d point (p + 1)
  end.
Definition decimal_of_float (x : spec_float) : AnyDecimal :=
  match x with
  | S754_zero _ => Finite (Dec 0 (-1))
  | S754_finite sign m e =>
      let n := Zpos m * 2 ^ Z.max 0 e in
      let d := 2 ^ Z.max 0 (- e) in
      let point := if d <=? n then digits (n / d) else 1 - digits (d / n) + (if d mod n =? 0 then 1 else 0) in
      let abs := S754_finite false m e in
      let '(c0, k0) := shortest 20 abs n d (point + 1) 1 in
      let r := strip_zeros 40 c0 k0 400 in
      let c := coef r in
      let k := expo r in
      let decpt := digits c + k in
      let s := if sign then -1 else 1 in
      Finite (if (-3 <=? decpt) && (decpt <=? 16) && (0 <=? k)
              then Dec (s * c * 10 ^ (k + 1)) (-1) else Dec (s * c) k)
  | _ => NotFinite
  end.

(** ** Facts about decimals *)

(** The order of decimals is that of the numbers they denote: scaling both to
    any common exponent below theirs decides it. *)
Lemma at_expo_scale x e e' : e' ≤ e → e ≤ expo x → at_expo x e' = at_expo x e * 10 ^ (e - e').
Proof.
  intros H1 H2. unfold at_expo.
  replace (expo x - e') with ((expo x - e) + (e - e')) by lia.
  rewrite Z.pow_add_r by lia. ring.
Qed.

Lemma dec_le_at x y e : e ≤ expo x → e ≤ expo y →
  dec_le x y = (at_expo x e <=? at_expo y e).
Proof.
  intros Hx Hy. unfold dec_le. set (m := Z.min (expo x) (expo y)).
  rewrite (at_expo_scale x m e), (at_expo_scale y m e) by lia.
  pose proof (Z.pow_pos_nonneg 10 (m - e)) as Hp.
  apply eq_true_iff_eq. rewrite !Z.leb_le. nia.
Qed.

Lemma dec_lt_not_le x y : dec_lt x y = negb (dec_le y x).
Proof.
  unfold dec_lt, dec_le. rewrite (Z.min_comm (expo y)).
  rewrite Z.leb_antisym. by destruct (_ <? _).
Qed.

Lemma dec_le_refl x : dec_le x x = true.
Proof. unfold dec_le. apply Z.leb_le. lia. Qed.

Lemma dec_le_trans x y z : dec_le x y = true → dec_le y z = true → dec_le x z = true.
Proof.
  set (e := Z.min (expo x) (Z.min (expo y) (expo z))).
  rewrite (dec_le_at x y e), (dec_le_at y z e), (dec_le_at x z e) by lia.
  rewrite !Z.leb_le. lia.
Qed.

Lemma dec_le_total x y : dec_le x y = true ∨ dec_le y x = true.
Proof.
  set (e := Z.min (expo x) (expo y)).
  rewrite (dec_le_at x y e), (dec_le_at y x e) by lia. rewrite !Z.leb_le. lia.
Qed.

Lemma dec_min_le x y : dec_le (dec_min x y) x = true ∧ dec_le (dec_min x y) y = true.
Proof.
  unfold dec_min. rewrite dec_lt_not_le. destruct (dec_le x y) eqn:H; simpl.
  - split; [apply dec_le_refl|done].
  - destruct (dec_le_total x y); [congruence|]. split; [done|apply dec_le_refl].
Qed.
#[export] Hint Resolve dec_le_refl dec_le_trans : money.
