(* ===== verification/PyText.v ===== *)
(** * Python strings: the [str] methods the components use

    Text is a string of ASCII characters, as everywhere in the model; case
    folding and whitespace are Python's on that range. *)

From S2P Require Import Prelude Effects.
From Stdlib Require Export Ascii.
#[local] Open Scope Z_scope.

(** [str.isspace] and [\s]: tab to carriage return, the four separators
    0x1c-0x1f and the blank. *)
Definition is_space (c : Ascii.ascii) : bool :=
  let n := Ascii.nat_of_ascii c in
  ((9 <=? n)%nat && (n <=? 13)%nat) || ((28 <=? n)%nat && (n <=? 32)%nat).

Fixpoint lstrip (s : string) : string :=
  match s with
  | EmptyString => EmptyString
  | String c s' => if is_space c then lstrip s' else s
  end.
Fixpoint rstrip (s : string) : string :=
  match s with
  | EmptyString => EmptyString
  | String c s' =>
      match rstrip s' with
      | EmptyString => if is_space c then EmptyString else String c EmptyString
      | r => String c r
      end
  end.
(** [s.strip()] *)
Definition strip (s : string) : string := rstrip (lstrip s).

Definition lower_char (c : Ascii.ascii) : Ascii.ascii :=
  let n := Ascii.nat_of_ascii c in
  if (65 <=? n)%nat && (n <=? 90)%nat then Ascii.ascii_of_nat (n + 32) else c.
Definition upper_char (c : Ascii.ascii) : Ascii.ascii :=
  let n := Ascii.nat_of_ascii c in
  if (97 <=? n)%nat && (n <=? 122)%nat then Ascii.ascii_of_nat (n - 32) else c.
Fixpoint map_string (f : Ascii.ascii → Ascii.ascii) (s : string) : string :=
  match s with
  | EmptyString => EmptyString
  | String c s' => String (f c) (map_string f s')
  end.
(** [s.casefold()] / [s.lower()] and [s.upper()] *)
Definition casefold (s : string) : string := map_string lower_char s.
Definition upper (s : string) : string := map_string upper_char s.

(** [re.sub(r"[...]+", "_", s)]: each maximal run of matching characters
    becomes one underscore. [run] says the previous character matched. *)
Fixpoint collapse_from (p : Ascii.ascii → bool) (run : bool) (s : string) : string :=
  match s with
  | EmptyString => EmptyString
  | String c s' =>
      if p c then
        if run then collapse_from p true s' else String "_"%char (collapse_from p true s')
      else String c (collapse_from p false s')
  end.
Definition collapse (p : Ascii.ascii → bool) (s : string) : string := collapse_from p false s.

(** [sorted(strings)] *)
Fixpoint insert_string (x : string) (l : list string) : list string :=
  match l with
  | [] => [x]
  | y :: l' => if String.ltb x y then x :: l else y :: insert_string x l'
  end.
Definition sorted_strings (l : list string) : list string := foldr insert_string [] l.

(** [value in text] / [sep in text] for one character, and [text.split(sep)]. *)
Fixpoint has_char (p : Ascii.ascii → bool) (s : string) : bool :=
  match s with
  | EmptyString => false
  | String c s' => p c || has_char p s'
  end.

(** ** Facts *)
Lemma elem_of_insert_string x y l : x ∈ insert_string y l ↔ x = y ∨ x ∈ l.
Proof.
  induction l as [|z l IH]; simpl; [set_solver|].
  case_match; rewrite !elem_of_cons; [done|]. rewrite IH. naive_solver.
Qed.
Lemma elem_of_sorted_strings x l : x ∈ sorted_strings l ↔ x ∈ l.
Proof.
  unfold sorted_strings. induction l as [|y l IH]; simpl; [done|].
  by rewrite elem_of_insert_string, IH, elem_of_cons.
Qed.

Fixpoint no_space (s : string) : bool :=
  match s with EmptyString => true | String c s' => negb (is_space c) && no_space s' end.
Lemma lstrip_no_space s : no_space s = true → lstrip s = s.
Proof. destruct s as [|c s]; simpl; [done|]. by destruct (is_space c). Qed.
Lemma rstrip_no_space s : no_space s = true → rstrip s = s.
Proof.
  induction s as [|c s IH]; simpl; [done|]. intros [Hc Hs]%andb_true_iff.
  rewrite IH by done. destruct s; [|done]. by destruct (is_space c).
Qed.
Lemma strip_no_space s : no_space s = true → strip s = s.
Proof. intros Hs. unfold strip. by rewrite lstrip_no_space, rstrip_no_space. Qed.
(** Collapsing every blank leaves text [strip] cannot change. *)
Lemma collapse_no_space p run s :
  (∀ c, is_space c = true → p c = true) → no_space (collapse_from p run s) = true.
Proof.
  intros Hp. revert run. induction s as [|c s IH]; intros run; simpl; [done|].
  destruct (p c) eqn:Hc; [destruct run; simpl; apply IH|]. simpl. rewrite IH, andb_true_r.
  apply negb_true_iff, not_true_is_false. intros Hs. rewrite Hp in Hc by done. done.
Qed.
