(* ===== verification/Contracts.v ===== *)
(** * Money-owned research contracts ([src/money/schemas/contracts.py])

    The pydantic models as records and their [model_validator]s as functions
    in the error monad [Res]. [model_validate] of a contract first checks the
    field constraints ([Field(...)] and [Literal]), then runs the validator,
    which returns the record with its content hash filled in.

    Content hashes (SHA-256 of canonical JSON) are the parameters of
    [ContentHash]; pydantic's digit-count check of constrained decimals is the
    parameter [decimal_shape_ok]. *)

From S2P Require Import Prelude Effects PyNum.
#[local] Open Scope Z_scope.

(** ** Character classes of the field patterns *)
Definition code (c : Ascii.ascii) : nat := Ascii.nat_of_ascii c.
Definition in_range (lo hi : nat) (c : Ascii.ascii) : bool :=
  (lo <=? code c)%nat && (code c <=? hi)%nat.
Definition is_upper (c : Ascii.ascii) : bool := in_range 65 90 c.
Definition is_lower (c : Ascii.ascii) : bool := in_range 97 122 c.
Definition is_digit (c : Ascii.ascii) : bool := in_range 48 57 c.
Definition is_hex (c : Ascii.ascii) : bool := is_digit c || in_range 97 102 c.
Fixpoint all_chars (p : Ascii.ascii → bool) (s : string) : bool :=
  match s with
  | EmptyString => true
  | String c s' => p c && all_chars p s'
  end.
Definition slen (s : string) : Z := Z.of_nat (String.length s).
Definition len_between (lo hi : Z) (s : string) : bool := (lo <=? slen s) && (slen s <=? hi).
Definition hex_of_length (n : Z) (s : string) : bool := (slen s =? n) && all_chars is_hex s.
(** [r"^[a-f0-9]{64}$"] *)
Definition is_sha256 (s : string) : bool := hex_of_length 64 s.
(** [r"^[A-Z0-9][A-Z0-9._-]*$"], 1 to 32 characters *)
Definition is_ticker (s : string) : bool :=
  len_between 1 32 s &&
  match s with
  | EmptyString => false
  | String c s' =>
      (is_upper c || is_digit c) &&
      all_chars (λ c, is_upper c || is_digit c || bool_decide (code c ∈ [46; 95; 45]%nat)) s'
  end.
(** [r"^[A-Z]{2}[A-Z0-9]{9}[0-9]$"] *)
Definition is_isin (s : string) : bool :=
  (slen s =? 12) && all_chars is_upper (String.substring 0 2 s) &&
  all_chars (λ c, is_upper c || is_digit c) (String.substring 2 9 s) &&
  all_chars is_digit (String.substring 11 1 s).

(** ** Data *)

Inductive Firm := tradingagents | ai_hedge_fund | qlib.
#[export] Instance firm_eq_dec : EqDecision Firm.
Proof. solve_decision. Defined.
Definition firm_nat (f : Firm) : nat :=
  match f with tradingagents => 0 | ai_hedge_fund => 1 | qlib => 2 end.
Definition firm_of_nat (n : nat) : Firm :=
  match n with O => tradingagents | S O => ai_hedge_fund | _ => qlib end.
Lemma firm_of_nat_firm f : firm_of_nat (firm_nat f) = f.
Proof. by destruct f. Qed.
#[export] Instance firm_countable : Countable Firm :=
  inj_countable' firm_nat firm_of_nat firm_of_nat_firm.
Definition firm_name (f : Firm) : string :=
  match f with
  | tradingagents => "tradingagents" | ai_hedge_fund => "ai_hedge_fund" | qlib => "qlib"
  end.

(** [required_first_pass_firms(qlib_enabled)] *)
Definition required_first_pass_firms (qlib_enabled : bool) : list Firm :=
  [tradingagents; ai_hedge_fund] ++ (if qlib_enabled then [qlib] else []).

Definition EXCLUDED_ACTIVITIES : list string :=
  ["defence"; "weapons"; "firearms"; "material_military_contracting"; "oil_exploration";
   "oil_production"; "integrated_oil"; "oil_refining"; "oil_services"].

Record ResearchMandate := mkMandate {
  rm_version : Z;
  rm_broker : string;
  rm_account_type : option string;
  rm_maximum_capital_gbp : Decimal;
  rm_instrument_types : list string;
  rm_quote_currencies : list string;
  rm_excluded_activities : list string;
  rm_minimum_horizon_days : Z;
  rm_maximum_horizon_days : Z;
  rm_stretch_profit_gbp : Decimal;
  rm_stretch_may_override_risk : bool
}.
#[export] Instance mandate_eq_dec : EqDecision ResearchMandate.
Proof. solve_decision. Defined.

(** [ResearchMandate()]: every field at its default. *)
Definition default_mandate : ResearchMandate :=
  mkMandate 1 "Trading212" None (dec 200) ["STOCK"] ["GBX"] EXCLUDED_ACTIVITIES 1 30
    (dec 1000) false.

Inductive JobStatus :=
  | QUEUED | ELIGIBILITY_CHECK | DISCOVERY | SNAPSHOT_BUILD | FIRST_PASS_RESEARCH
  | FIRST_PASS_LOCKED | LEAN_VALIDATION | CREWAI_AUDIT | CROSS_EXAMINATION | CONSENSUS
  | COMPLETE | REJECTED | FAILED.
#[export] Instance job_status_eq_dec : EqDecision JobStatus.
Proof. solve_decision. Defined.

Inductive ResearchState :=
  | STRONG_RESEARCH_CANDIDATE | RESEARCH_CANDIDATE | WATCH | REJECT
  | INSUFFICIENT_EVIDENCE | EXPIRED.
#[export] Instance research_state_eq_dec : EqDecision ResearchState.
Proof. solve_decision. Defined.

Inductive ClearanceResult := CLEAR_PASS | CLEAR_FAIL | CLEAR_UNKNOWN.
#[export] Instance clearance_result_eq_dec : EqDecision ClearanceResult.
Proof. solve_decision. Defined.

Record EthicalClearance := mkClearance {
  ec_result : ClearanceResult;
  ec_issuer_key : string;
  ec_isins : list string;
  ec_screened_at : Z;
  ec_valid_until : Z;
  ec_policy_hash : string;
  ec_evidence_hashes : list string;
  ec_assessed_exclusions : list string;
  ec_reasons : list string;
  ec_business_activities : list string;
  ec_screening_hash : string
}.
#[export] Instance clearance_eq_dec : EqDecision EthicalClearance.
Proof. solve_decision. Defined.

Record InstrumentMetadata := mkInstrument {
  im_ticker : string;
  im_company : string;
  im_instrument_type : string;
  im_quote_currency : string;
  im_isa_available : option bool;
  im_currently_available : option bool;
  im_business_activities : list string;
  im_activities_verified : bool;
  im_verified_at : Z;
  im_source : string;
  im_provider : string;
  im_source_id : string;
  im_ethical_clearance : option EthicalClearance
}.
#[export] Instance instrument_eq_dec : EqDecision InstrumentMetadata.
Proof. solve_decision. Defined.

Inductive Currency := GBP | GBX.
#[export] Instance currency_eq_dec : EqDecision Currency.
Proof. solve_decision. Defined.
Definition currency_name (c : Currency) : string :=
  match c with GBP => "GBP" | GBX => "GBX" end.

Record PriceBar := mkBar {
  pb_open : Decimal;
  pb_high : Decimal;
  pb_low : Decimal;
  pb_close : Decimal;
  pb_volume : Z;
  pb_currency : Currency
}.
#[export] Instance bar_eq_dec : EqDecision PriceBar.
Proof. solve_decision. Defined.

Record FinancialFact := mkFact {
  ff_metric : string; ff_value : Decimal; ff_unit : string; ff_period_end : Z
}.
#[export] Instance fact_eq_dec : EqDecision FinancialFact.
Proof. solve_decision. Defined.

Inductive DocumentKind :=
  | filing | announcement | news | corporate_action | macro | instrument_metadata.
#[export] Instance document_kind_eq_dec : EqDecision DocumentKind.
Proof. solve_decision. Defined.

Record DocumentFact := mkDocument {
  df_kind : DocumentKind; df_title : string; df_excerpt : string; df_url : string
}.
#[export] Instance document_eq_dec : EqDecision DocumentFact.
Proof. solve_decision. Defined.

(** The union discriminated by [kind]. *)
Inductive EvidencePayload :=
  | Ohlcv (b : PriceBar) | Financial (f : FinancialFact) | Document (d : DocumentFact).
#[export] Instance payload_eq_dec : EqDecision EvidencePayload.
Proof. solve_decision. Defined.

Record EvidenceRecord := mkEvidence {
  ev_evidence_id : string;
  ev_snapshot_id : string;
  ev_source : string;
  ev_provider : string;
  ev_source_id : string;
  ev_canonical_source_id : string;
  ev_observation_time : Z;
  ev_publication_time : option Z;
  ev_retrieval_time : Z;
  ev_fresh_until : Z;
  ev_pit_safe : bool;
  ev_critical : bool;
  ev_conflicting : bool;
  ev_payload : EvidencePayload;
  ev_hash : string
}.
#[export] Instance evidence_eq_dec : EqDecision EvidenceRecord.
Proof. solve_decision. Defined.
#[export] Instance evidence_rebuild : Rebuild EvidenceRecord := λ r,
  mkEvidence (ev_evidence_id r) (ev_snapshot_id r) (ev_source r) (ev_provider r)
    (ev_source_id r) (ev_canonical_source_id r) (ev_observation_time r)
    (ev_publication_time r) (ev_retrieval_time r) (ev_fresh_until r) (ev_pit_safe r)
    (ev_critical r) (ev_conflicting r) (ev_payload r) (ev_hash r).

Inductive EnrichmentStatus :=
  | EN_AVAILABLE | EN_UNAVAILABLE | EN_NOT_CONFIGURED | EN_ACCESS_DENIED | EN_STALE.
#[export] Instance enrichment_status_eq_dec : EqDecision EnrichmentStatus.
Proof. solve_decision. Defined.
Record ResearchEnrichment := mkEnrichment {
  en_source : string; en_status : EnrichmentStatus; en_reason : string;
  en_evidence_ids : list string
}.
#[export] Instance enrichment_eq_dec : EqDecision ResearchEnrichment.
Proof. solve_decision. Defined.

Inductive Purpose := PRODUCTION_QUALIFICATION | RESEARCH_TESTING.
#[export] Instance purpose_eq_dec : EqDecision Purpose.
Proof. solve_decision. Defined.
Inductive SourcePolicy := companies_house | official_disclosures.
#[export] Instance source_policy_eq_dec : EqDecision SourcePolicy.
Proof. solve_decision. Defined.
Inductive UsageMode := PERSONAL_RESEARCH | HOSTED_COMMERCIAL_PRODUCTION.
#[export] Instance usage_mode_eq_dec : EqDecision UsageMode.
Proof. solve_decision. Defined.

Record ResearchSnapshot := mkSnapshot {
  rs_purpose : Purpose;
  rs_enrichment : list ResearchEnrichment;
  rs_missing_data : list string;
  rs_issuer_source_policy : SourcePolicy;
  rs_snapshot_id : string;
  rs_ticker : string;
  rs_created_at : Z;
  rs_price_cutoff : Z;
  rs_news_cutoff : Z;
  rs_filing_cutoff : Z;
  rs_fundamental_cutoff : Z;
  rs_instrument : InstrumentMetadata;
  rs_evidence : list EvidenceRecord;
  rs_historical : bool;
  rs_qlib_enabled : bool;
  rs_usage_mode : UsageMode;
  rs_universe_hash : option string;
  rs_hash : string
}.
#[export] Instance snapshot_eq_dec : EqDecision ResearchSnapshot.
Proof. solve_decision. Defined.
#[export] Instance snapshot_rebuild : Rebuild ResearchSnapshot := λ r,
  mkSnapshot (rs_purpose r) (rs_enrichment r) (rs_missing_data r)
    (rs_issuer_source_policy r) (rs_snapshot_id r) (rs_ticker r) (rs_created_at r)
    (rs_price_cutoff r) (rs_news_cutoff r) (rs_filing_cutoff r) (rs_fundamental_cutoff r)
    (rs_instrument r) (rs_evidence r) (rs_historical r) (rs_qlib_enabled r)
    (rs_usage_mode r) (rs_universe_hash r) (rs_hash r).

Inductive Channel := ch_technical | ch_quantitative | ch_catalyst | ch_fundamental.
#[export] Instance channel_eq_dec : EqDecision Channel.
Proof. solve_decision. Defined.
Record DiscoveryReason := mkReason {
  dr_channel : Channel; dr_reason : string; dr_evidence_ids : list string
}.
#[export] Instance discovery_reason_eq_dec : EqDecision DiscoveryReason.
Proof. solve_decision. Defined.
Record Candidate := mkCandidate { ca_ticker : string; ca_discovery : list DiscoveryReason }.
#[export] Instance candidate_eq_dec : EqDecision Candidate.
Proof. solve_decision. Defined.

Inductive Family := fam_technical | fam_fundamental | fam_catalyst | fam_quantitative | fam_risk.
#[export] Instance family_eq_dec : EqDecision Family.
Proof. solve_decision. Defined.
Inductive Classification := INFERENCE | FIRM_OPINION.
#[export] Instance classification_eq_dec : EqDecision Classification.
Proof. solve_decision. Defined.
(** [contracts.Claim], an analytical claim of a firm. *)
Record ResearchClaim := mkClaim {
  cl_claim_id : string;
  cl_family : Family;
  cl_statement : string;
  cl_evidence_ids : list string;
  cl_classification : Classification
}.
#[export] Instance claim_eq_dec : EqDecision ResearchClaim.
Proof. solve_decision. Defined.

Record Usage := mkUsage {
  us_input_tokens : option Z; us_output_tokens : option Z; us_cost_gbp : option Decimal
}.
#[export] Instance usage_eq_dec : EqDecision Usage.
Proof. solve_decision. Defined.

Inductive Confidence := CONF_LOW | CONF_MEDIUM | CONF_HIGH | CONF_INSUFFICIENT.
#[export] Instance confidence_eq_dec : EqDecision Confidence.
Proof. solve_decision. Defined.
Record ResearchAnalysis := mkAnalysis {
  ra_bullish_evidence : list string;
  ra_bearish_evidence : list string;
  ra_catalysts : list string;
  ra_risks : list string;
  ra_valuation_observations : list string;
  ra_fundamental_observations : list string;
  ra_price_technical_observations : list string;
  ra_macro_sensitivity : list string;
  ra_news_events : list string;
  ra_proposed_thesis : list string;
  ra_invalidation_conditions : list string;
  ra_uncertainty : list string;
  ra_missing_data : list string;
  ra_confidence : Confidence
}.
#[export] Instance analysis_eq_dec : EqDecision ResearchAnalysis.
Proof. solve_decision. Defined.

Inductive Runtime := live | demo.
#[export] Instance runtime_eq_dec : EqDecision Runtime.
Proof. solve_decision. Defined.

(** The fields [QlibQuantResearchReport] adds to [FirmReport]. *)
Record QlibFields := mkQlib {
  ql_prediction_score : option spec_float;
  ql_rank : option Z;
  ql_universe_size : option Z;
  ql_regime : string;
  ql_uncertainty : option spec_float;
  ql_validation_metadata : list string
}.
#[export] Instance qlib_fields_eq_dec : EqDecision QlibFields.
Proof. solve_decision. Defined.

(** [FirmReport] and its three subclasses: the [firm] tag selects the class
    and [fr_qlib] holds the Qlib fields exactly for a Qlib report. *)
Record FirmReport := mkReport {
  fr_firm : Firm;
  fr_snapshot_id : string;
  fr_snapshot_hash : string;
  fr_conclusion : string;
  fr_claims : list ResearchClaim;
  fr_model_version : string;
  fr_prompt_version : string;
  fr_upstream_sha : string;
  fr_model_family : string;
  fr_llm_provider_family : option string;
  fr_feature_families : list string;
  fr_argument_families : list string;
  fr_created_at : Z;
  fr_usage : Usage;
  fr_runtime : Runtime;
  fr_analysis : option ResearchAnalysis;
  fr_qlib : option QlibFields
}.
#[export] Instance report_eq_dec : EqDecision FirmReport.
Proof. solve_decision. Defined.

Inductive LeanState := LEAN_PASS | LEAN_FAIL | LEAN_INSUFFICIENT_EVIDENCE.
#[export] Instance lean_state_eq_dec : EqDecision LeanState.
Proof. solve_decision. Defined.
Record LeanValidationReport := mkLean {
  lv_state : LeanState;
  lv_snapshot_id : string;
  lv_runner_version : string;
  lv_observations : Z;
  lv_walk_forward : bool;
  lv_out_of_sample : bool;
  lv_pit_safe : bool;
  lv_survivorship_checked : bool;
  lv_costs_included : bool;
  lv_sensitivity_checked : bool;
  lv_scenario_policy_hash : option string;
  lv_spread_bps : option spec_float;
  lv_slippage_bps : option spec_float;
  lv_maximum_drawdown : option spec_float;
  lv_mae : option spec_float;
  lv_mfe : option spec_float;
  lv_findings : list string
}.
#[export] Instance lean_eq_dec : EqDecision LeanValidationReport.
Proof. solve_decision. Defined.

Inductive FindingState := VERIFIED | UNSUPPORTED | CONTRADICTED | FINDING_WARN.
#[export] Instance finding_state_eq_dec : EqDecision FindingState.
Proof. solve_decision. Defined.
Record AuditFinding := mkFinding {
  af_auditor : string;
  af_claim_id : option string;
  af_state : FindingState;
  af_explanation : string;
  af_evidence_ids : list string
}.
#[export] Instance finding_eq_dec : EqDecision AuditFinding.
Proof. solve_decision. Defined.

Record CIOAuditReport := mkAudit {
  ci_snapshot_id : string;
  ci_completed : bool;
  ci_findings : list AuditFinding;
  ci_active_specialists : list string;
  ci_material_disagreement : bool
}.
#[export] Instance cio_audit_eq_dec : EqDecision CIOAuditReport.
Proof. solve_decision. Defined.

Inductive RedTeamState := RED_PASS | RED_WARN | RED_VETO.
#[export] Instance red_team_state_eq_dec : EqDecision RedTeamState.
Proof. solve_decision. Defined.
Record RedTeamReport := mkRedTeam { rt_state : RedTeamState; rt_findings : list string }.
#[export] Instance red_team_eq_dec : EqDecision RedTeamReport.
Proof. solve_decision. Defined.

Inductive Strength := LOW | MEDIUM | HIGH.
#[export] Instance strength_eq_dec : EqDecision Strength.
Proof. solve_decision. Defined.
Record EvidenceIndependenceReport := mkIndependence {
  ei_unique_sources : Z;
  ei_unique_providers : Z;
  ei_evidence_families : list Family;
  ei_source_overlap : spec_float;
  ei_model_overlap : spec_float;
  ei_feature_overlap : spec_float;
  ei_argument_overlap : spec_float;
  ei_strength : Strength;
  ei_limitations : list string
}.
#[export] Instance independence_eq_dec : EqDecision EvidenceIndependenceReport.
Proof. solve_decision. Defined.

Record ResearchSignal := mkSignal {
  sg_research_id : string;
  sg_ticker : string;
  sg_state : ResearchState;
  sg_issued_at : Z;
  sg_valid_until : Z;
  sg_entry_low : Decimal;
  sg_entry_high : Decimal;
  sg_quote_currency : Currency;
  sg_invalidation_conditions : list string;
  sg_event_invalidators : list string;
  sg_potential_targets : list Decimal;
  sg_assumed_capital_gbp : Decimal;
  sg_illustrative_allocation_gbp : Decimal;
  sg_modelled_downside_gbp : Decimal;
  sg_horizon_days : Z;
  sg_calibrated_confidence : option spec_float;
  sg_invalidated_at : option Z
}.
#[export] Instance signal_eq_dec : EqDecision ResearchSignal.
Proof. solve_decision. Defined.

Record DecisionPacket := mkPacket {
  dp_research_id : string;
  dp_mandate : ResearchMandate;
  dp_snapshot_id : string;
  dp_snapshot_hash : string;
  dp_candidate : Candidate;
  dp_eligibility : InstrumentMetadata;
  dp_reports : list FirmReport;
  dp_lean : LeanValidationReport;
  dp_audit : CIOAuditReport;
  dp_red_team : RedTeamReport;
  dp_independence : EvidenceIndependenceReport;
  dp_final_state : ResearchState;
  dp_reasons : list string;
  dp_sources : list EvidenceRecord;
  dp_issued_at : Z;
  dp_signal : option ResearchSignal;
  dp_cross_examination_rounds : Z;
  dp_runtime : Runtime;
  dp_qlib_enabled : bool;
  dp_money_version : option string;
  dp_git_commit : option string;
  dp_frozen_snapshot : option ResearchSnapshot;
  dp_source_manifest_hash : option string;
  dp_cross_examination_hash : option string;
  dp_hash : string
}.
#[export] Instance packet_eq_dec : EqDecision DecisionPacket.
Proof. solve_decision. Defined.
#[export] Instance packet_rebuild : Rebuild DecisionPacket := λ r,
  mkPacket (dp_research_id r) (dp_mandate r) (dp_snapshot_id r) (dp_snapshot_hash r)
    (dp_candidate r) (dp_eligibility r) (dp_reports r) (dp_lean r) (dp_audit r)
    (dp_red_team r) (dp_independence r) (dp_final_state r) (dp_reasons r) (dp_sources r)
    (dp_issued_at r) (dp_signal r) (dp_cross_examination_rounds r) (dp_runtime r)
    (dp_qlib_enabled r) (dp_money_version r) (dp_git_commit r) (dp_frozen_snapshot r)
    (dp_source_manifest_hash r) (dp_cross_examination_hash r) (dp_hash r).

(** ** Parameters: content hashing and pydantic's decimal digit limits *)

(** [content_hash(value)]: SHA-256 of the canonical JSON of a contract. For a
    self-hashed contract the argument is the record with an empty [hash]
    field, which [model_dump(exclude={"hash"})] leaves out. *)
Class ContentHash := {
  hash_clearance : EthicalClearance → string;
  hash_evidence : EvidenceRecord → string;
  hash_snapshot : ResearchSnapshot → string;
  hash_report : FirmReport → string;
  hash_lean : LeanValidationReport → string;
  hash_audit : CIOAuditReport → string;
  hash_packet : DecisionPacket → string;
}.
(** pydantic's [max_digits]/[decimal_places] check of a [Decimal]. *)
Class Pydantic := decimal_shape_ok : Z → Z → Decimal → bool.

(** ** Validators *)
Section validators.
Context `{ContentHash, Pydantic}.

Definition positive_money (d : Decimal) : bool :=
  dec_lt (dec 0) d && decimal_shape_ok 18 6 d.
Definition fraction (x : spec_float) : bool :=
  is_finite_float x && fle (float_of_Z 0) x && fle x (float_of_Z 1).
Definition opt_ok {A} (p : A → bool) (x : option A) : bool :=
  match x with Some a => p a | None => true end.
Definition nonneg_float (x : spec_float) : bool :=
  is_finite_float x && fle (float_of_Z 0) x.
Definition invalid {A} : Res A := fail ValueError "ValidationError".
Definition require (ok : bool) : Res () := if ok then mret () else invalid.

(** *** ResearchMandate *)
Definition mandate_fields (m : ResearchMandate) : bool :=
  (1 <=? rm_version m) && bool_decide (rm_broker m = "Trading212") &&
  bool_decide (rm_account_type m ∈ [None; Some "StocksAndSharesISA"]) &&
  dec_lt (dec 0) (rm_maximum_capital_gbp m) && dec_le (rm_maximum_capital_gbp m) (dec 200) &&
  subset_of (rm_instrument_types m) ["STOCK"] &&
  subset_of (rm_quote_currencies m) ["GBP"; "GBX"] &&
  (1 <=? rm_minimum_horizon_days m) && (rm_minimum_horizon_days m <=? 30) &&
  (1 <=? rm_maximum_horizon_days m) && (rm_maximum_horizon_days m <=? 30) &&
  dec_le (dec 0) (rm_stretch_profit_gbp m) && dec_le (rm_stretch_profit_gbp m) (dec 1000) &&
  negb (rm_stretch_may_override_risk m).

Definition enforce_mandate (m : ResearchMandate) : Res ResearchMandate :=
  reject (rm_maximum_horizon_days m <? rm_minimum_horizon_days m)
    ValueError "research horizon is reversed" ;;
  reject (bool_decide (rm_quote_currencies m = []) ||
          negb (bool_decide (rm_instrument_types m = ["STOCK"])))
    ValueError "individual stocks and at least one permitted currency are required" ;;
  reject (negb (subset_of EXCLUDED_ACTIVITIES (rm_excluded_activities m)))
    ValueError "ethical exclusions cannot be removed" ;;
  mret m.

Definition validate_mandate (m : ResearchMandate) : Res ResearchMandate :=
  require (mandate_fields m) ;; enforce_mandate m.

(** *** EthicalClearance *)
Definition clearance_fields (c : EthicalClearance) : bool :=
  len_between 1 300 (ec_issuer_key c) && forallb is_isin (ec_isins c) &&
  negb (bool_decide (ec_isins c = [])) && is_sha256 (ec_policy_hash c) &&
  forallb is_sha256 (ec_evidence_hashes c) && is_sha256 (ec_screening_hash c).

Definition without_screening_hash (c : EthicalClearance) : EthicalClearance :=
  mkClearance (ec_result c) (ec_issuer_key c) (ec_isins c) (ec_screened_at c)
    (ec_valid_until c) (ec_policy_hash c) (ec_evidence_hashes c)
    (ec_assessed_exclusions c) (ec_reasons c) (ec_business_activities c) "".

Definition consistent_screening (c : EthicalClearance) : Res EthicalClearance :=
  reject (ec_valid_until c <=? ec_screened_at c)
    ValueError "ETHICAL_CLEARANCE_INTERVAL_INVALID" ;;
  reject (negb (distinct (ec_isins c))) ValueError "ETHICAL_CLEARANCE_DUPLICATE_IDENTITY" ;;
  reject (bool_decide (ec_result c = CLEAR_PASS) &&
          (bool_decide (ec_evidence_hashes c = []) ||
           bool_decide (ec_business_activities c = []) ||
           negb (subset_of EXCLUDED_ACTIVITIES (ec_assessed_exclusions c))))
    ValueError "ETHICAL_CLEARANCE_EVIDENCE_INCOMPLETE" ;;
  reject (negb (bool_decide (ec_screening_hash c = hash_clearance (without_screening_hash c))))
    ValueError "ETHICAL_CLEARANCE_HASH_MISMATCH" ;;
  mret c.

Definition validate_clearance (c : EthicalClearance) : Res EthicalClearance :=
  require (clearance_fields c) ;; consistent_screening c.

(** *** InstrumentMetadata *)
Definition validate_instrument (i : InstrumentMetadata) : Res InstrumentMetadata :=
  require (is_ticker (im_ticker i) && len_between 1 200 (im_company i) &&
           truthy (im_source i) && truthy (im_provider i) && truthy (im_source_id i)) ;;
  match im_ethical_clearance i with
  | Some c => validate_clearance c ;; mret i
  | None => mret i
  end.

(** *** PriceBar and the other payloads *)
Definition valid_bar (b : PriceBar) : Res PriceBar :=
  let lo := dec_min (pb_open b) (pb_close b) in
  let hi := dec_max (pb_open b) (pb_close b) in
  reject (negb (dec_le (pb_low b) lo && dec_le lo hi && dec_le hi (pb_high b)))
    ValueError "invalid OHLC price range" ;;
  mret b.
Definition validate_bar (b : PriceBar) : Res PriceBar :=
  require (positive_money (pb_open b) && positive_money (pb_high b) &&
           positive_money (pb_low b) && positive_money (pb_close b) &&
           (0 <=? pb_volume b)) ;;
  valid_bar b.
Definition validate_payload (p : EvidencePayload) : Res () :=
  match p with
  | Ohlcv b => validate_bar b ;; mret ()
  | Financial f => require (len_between 1 100 (ff_metric f) && len_between 1 30 (ff_unit f))
  | Document d => require (len_between 1 500 (df_title d) && (slen (df_excerpt d) <=? 20000) &&
                           len_between 1 2000 (df_url d))
  end.

(** *** EvidenceRecord *)
Definition available_at (e : EvidenceRecord) (cutoff : Z) : bool :=
  ev_pit_safe e &&
  match ev_publication_time e with
  | Some p => (p <=? cutoff) && (ev_observation_time e <=? cutoff)
  | None => false
  end.

Definition evidence_digest (e : EvidenceRecord) : string :=
  hash_evidence (e <| ev_hash := "" |>).

Definition provenance (e : EvidenceRecord) : Res EvidenceRecord :=
  reject (ev_pit_safe e && negb (is_set (ev_publication_time e)))
    ValueError "PIT-safe evidence requires publication availability" ;;
  reject (null_gt (ev_publication_time e) (ev_retrieval_time e))
    ValueError "retrieval cannot precede publication" ;;
  reject (truthy (ev_hash e) && negb (bool_decide (ev_hash e = evidence_digest e)))
    ValueError "evidence hash mismatch" ;;
  mret (e <| ev_hash := evidence_digest e |>).

Definition validate_evidence (e : EvidenceRecord) : Res EvidenceRecord :=
  require (truthy (ev_source e) && truthy (ev_provider e) && truthy (ev_source_id e) &&
           truthy (ev_canonical_source_id e)) ;;
  validate_payload (ev_payload e) ;;
  provenance e.

(** *** ResearchSnapshot *)
Definition payload_kind (p : EvidencePayload) : string :=
  match p with
  | Ohlcv _ => "ohlcv"
  | Financial _ => "financial"
  | Document d =>
      match df_kind d with
      | filing => "filing" | announcement => "announcement" | news => "news"
      | corporate_action => "corporate_action" | macro => "macro"
      | instrument_metadata => "instrument_metadata"
      end
  end.

Definition cutoff_for (s : ResearchSnapshot) (e : EvidenceRecord) : Z :=
  match ev_payload e with
  | Ohlcv _ => rs_price_cutoff s
  | Financial _ => rs_fundamental_cutoff s
  | Document d => match df_kind d with filing => rs_filing_cutoff s | _ => rs_news_cutoff s end
  end.

(** [snapshot.required_first_pass_firms] *)
Definition snapshot_required_firms (s : ResearchSnapshot) : list Firm :=
  required_first_pass_firms (rs_qlib_enabled s).

Definition require_commercial_release (s : ResearchSnapshot) : Res () :=
  reject (bool_decide (rs_purpose s = RESEARCH_TESTING) ||
          bool_decide (rs_usage_mode s = PERSONAL_RESEARCH))
    ValueError "PERSONAL_USE_PUBLIC_COMMERCIAL_REDISTRIBUTION_FORBIDDEN".

Definition snapshot_evidence_ids (s : ResearchSnapshot) : list string :=
  map ev_evidence_id (rs_evidence s).

(** The body of the loop over [self.evidence]. *)
Definition freeze_record (s : ResearchSnapshot) (e : EvidenceRecord) : Res () :=
  let cutoff := cutoff_for s e in
  reject (negb (bool_decide (ev_snapshot_id e = rs_snapshot_id s)))
    ValueError "evidence belongs to another snapshot" ;;
  reject (match ev_payload e with Financial f => cutoff <? ff_period_end f | _ => false end)
    ValueError "financial reporting period contains look-ahead information" ;;
  reject (cutoff <? ev_observation_time e) ValueError "look-ahead observation" ;;
  reject (null_gt (ev_publication_time e) cutoff) ValueError "look-ahead publication" ;;
  reject (rs_created_at s <? ev_retrieval_time e)
    ValueError "evidence retrieved after snapshot was frozen" ;;
  reject (rs_historical s && negb (available_at e cutoff))
    ValueError "unsafe historical evidence: publication availability unknown".

Fixpoint all_res {A} (f : A → Res ()) (l : list A) : Res () :=
  match l with
  | [] => mret ()
  | x :: l' => f x ;; all_res f l'
  end.

Definition snapshot_digest (s : ResearchSnapshot) : string :=
  hash_snapshot (s <| rs_hash := "" |>).

Definition freeze_facts (s : ResearchSnapshot) : Res ResearchSnapshot :=
  reject (bool_decide (rs_purpose s = RESEARCH_TESTING) &&
          (negb (bool_decide (rs_usage_mode s = PERSONAL_RESEARCH)) || rs_qlib_enabled s ||
           negb (truthy_opt (rs_universe_hash s))))
    ValueError "RESEARCH_TESTING_REQUIRES_PERSONAL_SCOPE_FROZEN_UNIVERSE_AND_QLIB_DISABLED" ;;
  reject (negb (bool_decide (im_ticker (rs_instrument s) = rs_ticker s)))
    ValueError "instrument and snapshot ticker mismatch" ;;
  reject (rs_created_at s <? im_verified_at (rs_instrument s))
    ValueError "instrument metadata was unavailable when snapshot was frozen" ;;
  reject (rs_historical s &&
          (Z.min (Z.min (rs_price_cutoff s) (rs_news_cutoff s))
                 (Z.min (rs_filing_cutoff s) (rs_fundamental_cutoff s))
           <? im_verified_at (rs_instrument s)))
    ValueError "historical instrument metadata contains look-ahead information" ;;
  reject (negb (distinct (snapshot_evidence_ids s))) ValueError "duplicate evidence identity" ;;
  reject (existsb (λ item, negb (subset_of (en_evidence_ids item) (snapshot_evidence_ids s)))
            (rs_enrichment s))
    ValueError "enrichment references unknown evidence" ;;
  reject (existsb (λ cutoff, rs_created_at s <? cutoff)
            [rs_price_cutoff s; rs_news_cutoff s; rs_filing_cutoff s; rs_fundamental_cutoff s])
    ValueError "snapshot cutoff cannot be in the future" ;;
  all_res (freeze_record s) (rs_evidence s) ;;
  reject (truthy (rs_hash s) && negb (bool_decide (rs_hash s = snapshot_digest s)))
    ValueError "snapshot hash mismatch" ;;
  mret (s <| rs_hash := snapshot_digest s |>).

(** Nested contracts are validated before the outer validator runs. *)
Fixpoint map_res {A B} (f : A → Res B) (l : list A) : Res (list B) :=
  match l with
  | [] => mret []
  | x :: l' => y ← f x; ys ← map_res f l'; mret (y :: ys)
  end.

Definition validate_snapshot (s : ResearchSnapshot) : Res ResearchSnapshot :=
  require (is_ticker (rs_ticker s) &&
           forallb (λ e, len_between 1 100 (en_source e) && (slen (en_reason e) <=? 1000))
             (rs_enrichment s) &&
           opt_ok is_sha256 (rs_universe_hash s)) ;;
  instrument ← validate_instrument (rs_instrument s);
  evidence ← map_res validate_evidence (rs_evidence s);
  freeze_facts (s <| rs_instrument := instrument |> <| rs_evidence := evidence |>).

(** *** FirmReport *)
Definition require_claims (a : ResearchAnalysis) (claims : list ResearchClaim) : Res () :=
  let allowed := map cl_claim_id claims in
  reject (existsb (λ field, negb (subset_of field allowed))
            [ra_bullish_evidence a; ra_bearish_evidence a; ra_catalysts a; ra_risks a;
             ra_valuation_observations a; ra_fundamental_observations a;
             ra_price_technical_observations a; ra_macro_sensitivity a; ra_news_events a;
             ra_proposed_thesis a; ra_invalidation_conditions a])
    ValueError "RESEARCH_ANALYSIS_UNKNOWN_CLAIM".

Definition usage_fields (u : Usage) : bool :=
  opt_ok (Z.leb 0) (us_input_tokens u) && opt_ok (Z.leb 0) (us_output_tokens u) &&
  opt_ok (dec_le (dec 0)) (us_cost_gbp u).

Definition report_fields (r : FirmReport) : bool :=
  len_between 1 8000 (fr_conclusion r) &&
  forallb (λ c, len_between 1 4000 (cl_statement c)) (fr_claims r) &&
  truthy (fr_model_version r) && truthy (fr_prompt_version r) &&
  hex_of_length 40 (fr_upstream_sha r) && usage_fields (fr_usage r) &&
  match fr_firm r, fr_qlib r with
  | qlib, Some q =>
      opt_ok is_finite_float (ql_prediction_score q) && opt_ok (Z.leb 1) (ql_rank q) &&
      opt_ok (Z.leb 1) (ql_universe_size q) && opt_ok nonneg_float (ql_uncertainty q)
  | qlib, None => false
  | _, Some _ => false
  | _, None => true
  end.

Definition cited_analysis (r : FirmReport) : Res FirmReport :=
  match fr_analysis r with
  | Some a => require_claims a (fr_claims r) ;; mret r
  | None => mret r
  end.

Definition validate_report (r : FirmReport) : Res FirmReport :=
  require (report_fields r) ;; cited_analysis r.

(** *** LEAN, CIO and signal contracts *)
Definition validate_lean (l : LeanValidationReport) : Res LeanValidationReport :=
  require ((0 <=? lv_observations l) && opt_ok is_sha256 (lv_scenario_policy_hash l) &&
           opt_ok nonneg_float (lv_spread_bps l) && opt_ok nonneg_float (lv_slippage_bps l) &&
           opt_ok fraction (lv_maximum_drawdown l) && opt_ok is_finite_float (lv_mae l) &&
           opt_ok is_finite_float (lv_mfe l)) ;;
  mret l.

Definition signal_fields (g : ResearchSignal) : bool :=
  is_ticker (sg_ticker g) &&
  bool_decide (sg_state g ∈ [STRONG_RESEARCH_CANDIDATE; RESEARCH_CANDIDATE; WATCH]) &&
  positive_money (sg_entry_low g) && positive_money (sg_entry_high g) &&
  negb (bool_decide (sg_invalidation_conditions g = [])) &&
  negb (bool_decide (sg_event_invalidators g = [])) &&
  forallb positive_money (sg_potential_targets g) &&
  dec_lt (dec 0) (sg_assumed_capital_gbp g) && dec_le (sg_assumed_capital_gbp g) (dec 200) &&
  dec_lt (dec 0) (sg_illustrative_allocation_gbp g) &&
  dec_le (sg_illustrative_allocation_gbp g) (dec 200) &&
  dec_le (dec 0) (sg_modelled_downside_gbp g) &&
  dec_le (sg_modelled_downside_gbp g) (dec 200) &&
  (1 <=? sg_horizon_days g) && (sg_horizon_days g <=? 30) &&
  opt_ok fraction (sg_calibrated_confidence g).

Definition limits (g : ResearchSignal) : Res ResearchSignal :=
  reject ((sg_valid_until g <=? sg_issued_at g) ||
          dec_lt (sg_entry_high g) (sg_entry_low g))
    ValueError "invalid signal interval" ;;
  reject (dec_lt (sg_assumed_capital_gbp g) (sg_illustrative_allocation_gbp g))
    ValueError "allocation exceeds capital" ;;
  reject (dec_lt (sg_illustrative_allocation_gbp g) (sg_modelled_downside_gbp g))
    ValueError "downside exceeds allocation" ;;
  reject (days (sg_horizon_days g) <? sg_valid_until g - sg_issued_at g)
    ValueError "signal validity exceeds research horizon" ;;
  mret g.

Definition validate_signal (g : ResearchSignal) : Res ResearchSignal :=
  require (signal_fields g) ;; limits g.

Definition effective_state (g : ResearchSignal) (now : Z) : ResearchState :=
  if (sg_valid_until g <=? now) || null_le (sg_invalidated_at g) now
  then EXPIRED else sg_state g.

(** *** DecisionPacket *)
Definition packet_digest (p : DecisionPacket) : string :=
  hash_packet (p <| dp_hash := "" |>).

(** The checks of [consistent_packet] on an attached signal. *)
Definition packet_signal_checks (p : DecisionPacket) (g : ResearchSignal) : Res () :=
  reject (bool_decide (dp_runtime p = demo) ||
          negb (bool_decide (dp_final_state p = sg_state g)))
    ValueError "signal inconsistent with packet state/runtime" ;;
  reject (negb (bool_decide (sg_research_id g = dp_research_id p)))
    ValueError "signal research identity mismatch" ;;
  reject (negb (bool_decide (sg_ticker g = ca_ticker (dp_candidate p))))
    ValueError "signal candidate mismatch" ;;
  reject (negb (bool_decide (currency_name (sg_quote_currency g) =
                             im_quote_currency (dp_eligibility p))))
    ValueError "signal and instrument quote currencies differ" ;;
  reject (negb ((rm_minimum_horizon_days (dp_mandate p) <=? sg_horizon_days g) &&
                (sg_horizon_days g <=? rm_maximum_horizon_days (dp_mandate p))))
    ValueError "signal horizon exceeds mandate" ;;
  reject (negb (bool_decide (lv_state (dp_lean p) = LEAN_PASS)) ||
          negb (ci_completed (dp_audit p)) ||
          bool_decide (rt_state (dp_red_team p) = RED_VETO))
    ValueError "signal requires validation and completed audit without veto" ;;
  reject (dec_lt (rm_maximum_capital_gbp (dp_mandate p)) (sg_assumed_capital_gbp g))
    ValueError "signal exceeds mandate capital".

Definition consistent_packet (p : DecisionPacket) : Res DecisionPacket :=
  reject (negb (dp_qlib_enabled p) && negb (is_set (dp_frozen_snapshot p)))
    ValueError "disabled Qlib requires explicit frozen snapshot provenance" ;;
  reject (match dp_frozen_snapshot p with
          | Some f =>
              negb (bool_decide (rs_hash f = dp_snapshot_hash p)) ||
              negb (bool_decide (rs_snapshot_id f = dp_snapshot_id p)) ||
              negb (bool_decide (rs_evidence f = dp_sources p)) ||
              negb (bool_decide (rs_qlib_enabled f = dp_qlib_enabled p))
          | None => false
          end) ValueError "packet frozen snapshot mismatch" ;;
  let required := required_first_pass_firms (dp_qlib_enabled p) in
  reject (negb (same_set (map fr_firm (dp_reports p)) required))
    ValueError "packet requires all independent firms" ;;
  reject (negb (bool_decide (length (dp_reports p) = length required)))
    ValueError "packet requires exactly the configured independent reports" ;;
  reject (existsb (λ r, negb (bool_decide (fr_runtime r = dp_runtime p))) (dp_reports p))
    ValueError "packet runtime must match all report runtimes" ;;
  reject (existsb (λ r, negb (bool_decide (fr_snapshot_id r = dp_snapshot_id p)) ||
                        negb (bool_decide (fr_snapshot_hash r = dp_snapshot_hash p)))
            (dp_reports p))
    ValueError "packet reports use different snapshots" ;;
  reject (negb (bool_decide (lv_snapshot_id (dp_lean p) = dp_snapshot_id p)) ||
          negb (bool_decide (ci_snapshot_id (dp_audit p) = dp_snapshot_id p)))
    ValueError "validation or audit uses a different snapshot" ;;
  reject (negb (bool_decide (ca_ticker (dp_candidate p) = im_ticker (dp_eligibility p))))
    ValueError "packet candidate mismatch" ;;
  reject (existsb (λ e, negb (bool_decide (ev_snapshot_id e = dp_snapshot_id p)))
            (dp_sources p))
    ValueError "packet evidence uses a different snapshot" ;;
  match dp_signal p with Some g => packet_signal_checks p g | None => mret () end ;;
  reject (truthy (dp_hash p) && negb (bool_decide (dp_hash p = packet_digest p)))
    ValueError "packet hash mismatch" ;;
  mret (p <| dp_hash := packet_digest p |>).

Definition validate_packet (p : DecisionPacket) : Res DecisionPacket :=
  require (is_ticker (ca_ticker (dp_candidate p)) &&
           (0 <=? ei_unique_sources (dp_independence p)) &&
           (0 <=? ei_unique_providers (dp_independence p)) &&
           fraction (ei_source_overlap (dp_independence p)) &&
           fraction (ei_model_overlap (dp_independence p)) &&
           fraction (ei_feature_overlap (dp_independence p)) &&
           fraction (ei_argument_overlap (dp_independence p)) &&
           (0 <=? dp_cross_examination_rounds p) && (dp_cross_examination_rounds p <=? 2)) ;;
  validate_mandate (dp_mandate p) ;;
  validate_instrument (dp_eligibility p) ;;
  map_res validate_report (dp_reports p) ;;
  validate_lean (dp_lean p) ;;
  sources ← map_res validate_evidence (dp_sources p);
  match dp_signal p with Some g => validate_signal g ;; mret () | None => mret () end ;;
  frozen ← match dp_frozen_snapshot p with
           | Some s => f ← validate_snapshot s; mret (Some f)
           | None => mret None
           end;
  consistent_packet (p <| dp_sources := sources |> <| dp_frozen_snapshot := frozen |>).
End validators.

(** ** Properties of the validators *)
Ltac res_inv :=
  repeat match goal with
  | H : (_ ≫= _) = inr _ |- _ => apply res_bind_inr in H as (? & ? & H)
  | H : reject _ _ _ = inr _ |- _ => apply reject_inr in H
  | H : require _ = inr _ |- _ => unfold require in H
  | H : (if ?b then mret _ else invalid) = inr _ |- _ => destruct b eqn:?; [|done]; clear H
  | H : @mret Res _ _ _ = inr _ |- _ => injection H as H; subst
  end.

Lemma reject_false c msg : reject false c msg = inr ().
Proof. done. Qed.
Lemma require_inr b u : require b = inr u → b = true.
Proof. by destruct b. Qed.
Lemma require_true : require true = inr ().
Proof. done. Qed.

(** Replays the checks that are known to have passed. *)
Ltac res_go :=
  repeat (match goal with
    | E : ?b = false |- context [reject ?b _ _] => rewrite E, reject_false
    | E : ?b = true |- context [require ?b] => rewrite E, require_true
    | E : ?r = inr _ |- context [?r] => rewrite E
    end; cbn [mbind res_bind mret res_ret]).

Section properties.
Context `{ContentHash, Pydantic}.

Lemma all_res_inr {A} (f : A → Res ()) l u :
  all_res f l = inr u ↔ ∀ x, x ∈ l → f x = inr ().
Proof.
  destruct u. induction l as [|y l IH]; simpl; [set_solver|].
  rewrite res_bind_inr. setoid_rewrite IH. split.
  - intros ([] & Hy & Hl) x [->|Hx]%elem_of_cons; [done|by apply Hl].
  - intros Hall. exists (). split; [apply Hall; left|]. intros x Hx. apply Hall. by right.
Qed.

Lemma map_res_elem {A B} (f : A → Res B) l l' y :
  map_res f l = inr l' → y ∈ l' → ∃ x, x ∈ l ∧ f x = inr y.
Proof.
  revert l'. induction l as [|x l IH]; simpl; intros l' Hl Hy; res_inv.
  - by apply not_elem_of_nil in Hy.
  - apply elem_of_cons in Hy as [->|Hy]; [exists x; split; [left|done]|].
    edestruct IH as (z & ? & ?); [done..|]. exists z. split; [by right|done].
Qed.

Lemma map_res_idem {A} (f : A → Res A) l l' :
  (∀ x y, f x = inr y → f y = inr y) → map_res f l = inr l' → map_res f l' = inr l'.
Proof.
  intros Hf. revert l'. induction l as [|x l IH]; simpl; intros l' Hl; res_inv; [done|].
  simpl. erewrite Hf by done. simpl. by erewrite IH.
Qed.

Lemma provenance_sealed e e' :
  provenance e = inr e' →
  e' = e <| ev_hash := evidence_digest e |> ∧ evidence_digest e' = ev_hash e'.
Proof. unfold provenance. intros He. res_inv. done. Qed.

Lemma validate_evidence_idem e e' : validate_evidence e = inr e' → validate_evidence e' = inr e'.
Proof.
  unfold validate_evidence. intros He. res_inv.
  apply provenance_sealed in He as Hs. destruct Hs as [-> _].
  unfold provenance in *. res_inv. cbn -[evidence_digest] in *.
  res_go. rewrite bool_decide_true by done. by rewrite andb_false_r.
Qed.

Lemma freeze_facts_sealed s s' :
  freeze_facts s = inr s' →
  s' = s <| rs_hash := snapshot_digest s |> ∧ snapshot_digest s' = rs_hash s'.
Proof. unfold freeze_facts. intros Hs. res_inv. done. Qed.

Lemma freeze_facts_idem s s' : freeze_facts s = inr s' → freeze_facts s' = inr s'.
Proof.
  intros Hs. pose proof Hs as [-> _]%freeze_facts_sealed.
  unfold freeze_facts in *. res_inv.
  change (freeze_record (s <| rs_hash := snapshot_digest s |>)) with (freeze_record s).
  change (snapshot_digest (s <| rs_hash := snapshot_digest s |>)) with (snapshot_digest s).
  change (snapshot_evidence_ids (s <| rs_hash := snapshot_digest s |>))
    with (snapshot_evidence_ids s).
  cbn -[snapshot_digest snapshot_evidence_ids freeze_record subset_of truthy_opt existsb
        all_res distinct truthy] in *.
  res_go.
  rewrite bool_decide_true by done. by rewrite andb_false_r.
Qed.

Lemma validate_instrument_same i i' : validate_instrument i = inr i' → i' = i.
Proof.
  unfold validate_instrument. intros Hi. res_inv.
  destruct (im_ethical_clearance i); res_inv; done.
Qed.
End properties.

(** ** JSON documents *)
Inductive json :=
  | JNull | JBool (b : bool) | JInt (n : Z) | JStr (s : string)
  | JSeconds (us : Z)  (** a float number of seconds, in microseconds *)
  | JEvidence (e : EvidenceRecord)
  | JUsage (u : Usage)
  | JArr (l : list json)
  | JObj (l : list (string * json)).
Definition jobj : Type := list (string * json).
(** [d.get(key)] *)
Definition jget (d : jobj) (key : string) : json :=
  match List.find (λ kv, bool_decide (kv.1 = key)) d with Some kv => kv.2 | None => JNull end.
(** Truthiness of a JSON value. *)
Definition jtruthy (v : json) : bool :=
  match v with
  | JNull => false
  | JBool b => b
  | JInt n => negb (n =? 0)
  | JStr s => truthy s
  | JSeconds us => negb (us =? 0)
  | JEvidence _ | JUsage _ => true
  | JArr l => negb (bool_decide (length l = 0%nat))
  | JObj l => negb (bool_decide (length l = 0%nat))
  end.
Definition is_str (v : json) (s : string) : bool :=
  match v with JStr t => bool_decide (t = s) | _ => false end.
