(* ===== verification/Demo.v ===== *)
(** * The credential-free demonstration runtime ([src/money/flows/research.py])

    The synthetic instrument, snapshot, firms, audit and red team of demo mode.
    Clock and identifier reads are arguments. The objects also serve as the
    concrete inputs of the witnesses of later files, together with constant
    instances of the hash and pydantic parameters. *)

From S2P Require Import Prelude Effects PyNum Contracts.
#[local] Open Scope Z_scope.

(** The instrument [build_runtime("demo")] installs. *)
Definition demo_instrument (now : Z) : InstrumentMetadata :=
  mkInstrument "DEMO.L" "Demonstration plc (synthetic)" "STOCK" "GBX" None (Some true)
    ["software"] true now "Synthetic fixture, not a Trading 212 eligibility assertion"
    "money-demo" "demo-universe-v1" None.

Definition demo_record (now : Z) (snapshot_id evidence_id source_id canonical : string)
    (critical : bool) (p : EvidencePayload) : EvidenceRecord :=
  mkEvidence evidence_id snapshot_id "Money synthetic demonstration" "money-demo" source_id
    canonical (now - minutes 1) (Some (now - minutes 1)) now (now + minutes 30) true critical
    false p "".

Section demo.
Context `{ContentHash, Pydantic}.

Definition demo_snapshot (now : Z) (snapshot_id : string) (instrument : InstrumentMetadata)
    : Res ResearchSnapshot :=
  price ← validate_evidence (demo_record now snapshot_id "demo-price" "price-v1" "demo:price"
            true (Ohlcv (mkBar (dec 100) (dec 103) (dec 99) (dec 102) 100000 GBX)));
  financial ← validate_evidence (demo_record now snapshot_id "demo-financial" "filing-v1"
            "demo:filing" false (Financial (mkFact "cash" (dec 1000000) "GBP" (now - days 90))));
  notice ← validate_evidence (demo_record now snapshot_id "demo-news" "announcement-v1"
            "demo:announcement" false
            (Document (mkDocument announcement "Synthetic results notice"
               "Demonstration evidence only; not a real company."
               "https://example.invalid/money-demo")));
  validate_snapshot
    (mkSnapshot PRODUCTION_QUALIFICATION [] [] companies_house snapshot_id
       (im_ticker instrument) now now now now now instrument [price; financial; notice]
       false true HOSTED_COMMERCIAL_PRODUCTION None "").

(** [DemoFirm(firm).research(mandate, snapshot)] *)
Definition demo_firm (firm : Firm) (now : Z) (s : ResearchSnapshot) : Res FirmReport :=
  let '(family, kind) :=
    match firm with
    | tradingagents => (fam_technical, "ohlcv")
    | ai_hedge_fund => (fam_fundamental, "financial")
    | qlib => (fam_quantitative, "ohlcv")
    end in
  match List.find (λ e, bool_decide (payload_kind (ev_payload e) = kind)) (rs_evidence s) with
  | None => fail OperationFailed "StopIteration"
  | Some e =>
      validate_report
        (mkReport firm (rs_snapshot_id s) (rs_hash s)
           "Synthetic demonstration: evidence is available for independent review. No upstream model was executed and no investment signal is issued."
           [mkClaim (firm_name firm +:+ ":coverage") family
              ("The frozen snapshot contains " +:+ kind +:+ " evidence.")
              [ev_evidence_id e] FIRM_OPINION]
           "synthetic-fixture-v1" "no-llm" "0000000000000000000000000000000000000000"
           ("fixture:" +:+ firm_name firm) None [kind] ["coverage"] now
           (mkUsage None None None) demo None
           (match firm with
            | qlib => Some (mkQlib None None None "unknown" None [])
            | _ => None
            end))
  end.

Definition unavailable_validation (s : ResearchSnapshot) : LeanValidationReport :=
  mkLean LEAN_INSUFFICIENT_EVIDENCE (rs_snapshot_id s) "not-configured" 0 false false false
    false false false None None None None None None
    ["A qualified LEAN runner is not configured; no backtest PASS is inferred."].

Definition demo_audit (s : ResearchSnapshot) (reports : list FirmReport) : CIOAuditReport :=
  let evidence_ids := snapshot_evidence_ids s in
  mkAudit (rs_snapshot_id s) true
    (flat_map (λ r, map (λ c,
       mkFinding "Deterministic demonstration evidence auditor (CrewAI not executed)"
         (Some (cl_claim_id c))
         (if subset_of (cl_evidence_ids c) evidence_ids then VERIFIED else UNSUPPORTED)
         "Independently checked referenced evidence exists in the frozen snapshot; this does not verify a market thesis."
         (cl_evidence_ids c)) (fr_claims r)) reports)
    ["fixture-evidence-auditor"; "validation-availability-auditor"] false.

Definition demo_red_team : RedTeamReport :=
  mkRedTeam RED_WARN
    ["All evidence is synthetic; it cannot support an investment decision.";
     "No live research firm or LEAN validation has been executed."].
End demo.

(** ** Concrete parameters for evaluation *)
Definition zero_sha : string :=
  "0000000000000000000000000000000000000000000000000000000000000000".
Definition constant_hash : ContentHash :=
  {| hash_clearance _ := zero_sha; hash_evidence _ := zero_sha; hash_snapshot _ := zero_sha;
     hash_report _ := zero_sha; hash_lean _ := zero_sha; hash_audit _ := zero_sha;
     hash_packet _ := zero_sha |}.
Definition any_shape : Pydantic := λ _ _ _, true.

Definition get_or {A} (d : A) (r : Res A) : A := match r with inr a => a | inl _ => d end.
Definition bare_snapshot : ResearchSnapshot :=
  mkSnapshot PRODUCTION_QUALIFICATION [] [] companies_house "s" "DEMO.L" 0 0 0 0 0
    (demo_instrument 0) [] false true HOSTED_COMMERCIAL_PRODUCTION None "".
(** The demonstration snapshot at instant [now]. *)
Definition sample_snapshot (now : Z) : ResearchSnapshot :=
  get_or bare_snapshot
    (@demo_snapshot constant_hash any_shape now "snapshot-1" (demo_instrument now)).

Example demo_snapshot_valid :
  passes (@demo_snapshot constant_hash any_shape (hours 10) "snapshot-1"
            (demo_instrument (hours 10))) = true.
Proof. vm_compute. reflexivity. Qed.
