(* ===== verification/Outcomes.v ===== *)
(** * Research outcomes ([src/money/performance/outcomes.py])

    What became of a published research reference: price changes at fixed
    calendar horizons, extremes, and which level was touched first, from the bars
    available by the time of evaluation. *)

From S2P Require Import Prelude Effects PyNum PyText Contracts Demo.
#[local] Open Scope Z_scope.

(** ** Data *)
Definition HORIZONS : list Z := [1; 3; 5; 10; 20; 30].
Record OutcomeBar := mkOutcomeBar {
  ob_evidence_id : string;
  ob_evidence_hash : string;
  ob_start_at : Z;
  ob_end_at : Z;
  ob_available_at : Z;
  ob_open_gbp : Decimal;
  ob_high_gbp : Decimal;
  ob_low_gbp : Decimal;
  ob_close_gbp : Decimal
}.
Record OutcomeSpecification := mkSpecification {
  os_research_id : string;
  os_ticker : string;
  os_issued_at : Z;
  os_reference_price_gbp : Decimal;
  os_target_gbp : option Decimal;
  os_invalidation_gbp : option Decimal;
  os_maximum_endpoint_age_hours : Z
}.
Inductive HorizonState := OBSERVED | NOT_MATURED | MISSING_DATA.
Record HorizonOutcome := mkHorizon {
  ho_calendar_days : Z;
  ho_deadline : Z;
  ho_state : HorizonState;
  ho_return_fraction : option Decimal;
  ho_price_observed_at : option Z;
  ho_known_at : option Z;
  ho_evidence_id : option string
}.
Record LevelOccurrence := mkOccurrence {
  lo_evidence_id : string;
  lo_interval_start : Z;
  lo_interval_end : Z;
  lo_known_at : Z;
  lo_earliest_seconds : spec_float;
  lo_latest_seconds : spec_float
}.
Inductive EventOrder :=
  | TARGET_FIRST | INVALIDATION_FIRST | SAME_BAR_AMBIGUOUS | TARGET_ONLY | INVALIDATION_ONLY
  | NONE_OBSERVED.
Record ResearchOutcome := mkOutcome {
  ro_research_id : string;
  ro_ticker : string;
  ro_issued_at : Z;
  ro_evaluated_at : Z;
  ro_reference_price_gbp : Decimal;
  ro_target_gbp : option Decimal;
  ro_invalidation_gbp : option Decimal;
  ro_maximum_endpoint_age_hours : Z;
  ro_horizons : list HorizonOutcome;
  ro_mfe_fraction : option Decimal;
  ro_mae_fraction : option Decimal;
  ro_first_observed_target : option LevelOccurrence;
  ro_first_observed_invalidation : option LevelOccurrence;
  ro_event_order : EventOrder;
  ro_observation_count : Z;
  ro_source_hashes : list string
}.

(** [a.total_seconds()] of a difference that is not negative. *)
Definition total_seconds (n : Z) : spec_float := float_of_ratio n 1000000.
Definition touch (b : OutcomeBar) (issued : Z) : LevelOccurrence :=
  mkOccurrence (ob_evidence_id b) (ob_start_at b) (ob_end_at b) (ob_available_at b)
    (total_seconds (ob_start_at b - issued)) (total_seconds (ob_end_at b - issued)).

(** ** Calculation *)
Section outcome.
Context `{Pydantic}.

Definition validate_outcome_bar (b : OutcomeBar) : Res OutcomeBar :=
  require ((1 <=? slen (ob_evidence_id b)) && is_sha256 (ob_evidence_hash b) &&
           positive_money (ob_open_gbp b) && positive_money (ob_high_gbp b) &&
           positive_money (ob_low_gbp b) && positive_money (ob_close_gbp b)) ;;
  reject (negb ((ob_start_at b <? ob_end_at b) && (ob_end_at b <=? ob_available_at b))) ValueError
    "bar must be complete before it becomes available" ;;
  let lo := dec_min (ob_open_gbp b) (ob_close_gbp b) in
  let hi := dec_max (ob_open_gbp b) (ob_close_gbp b) in
  reject (negb (dec_le (ob_low_gbp b) lo && dec_le lo hi && dec_le hi (ob_high_gbp b))) ValueError
    "invalid normalized OHLC range" ;;
  mret b.
Definition validate_specification (s : OutcomeSpecification) : Res OutcomeSpecification :=
  require ((1 <=? slen (os_research_id s)) && is_ticker (os_ticker s) &&
           positive_money (os_reference_price_gbp s) && opt_ok positive_money (os_target_gbp s) &&
           opt_ok positive_money (os_invalidation_gbp s) &&
           (0 <=? os_maximum_endpoint_age_hours s) && (os_maximum_endpoint_age_hours s <=? 72)) ;;
  reject (match os_target_gbp s with
          | Some t => dec_le t (os_reference_price_gbp s) | None => false end) ValueError
    "long research target must exceed its reference price" ;;
  reject (match os_invalidation_gbp s with
          | Some t => dec_le (os_reference_price_gbp s) t | None => false end) ValueError
    "long research invalidation must be below its reference price" ;;
  mret s.

Fixpoint overlapping (l : list OutcomeBar) : bool :=
  match l with
  | earlier :: ((next :: _) as rest) => (ob_start_at next <? ob_end_at earlier) || overlapping rest
  | _ => false
  end.
(** [checked], before its validations. *)
Definition by_start (l : list OutcomeBar) : list OutcomeBar :=
  sort_by (λ a b, ob_start_at a <? ob_start_at b) l.
(** Within the research window, and known at the time of evaluation. *)
Definition usable (s : OutcomeSpecification) (as_of : Z) (b : OutcomeBar) : bool :=
  (os_issued_at s <=? ob_start_at b) && (ob_end_at b <=? Z.min as_of (os_issued_at s + days 30)) &&
  (ob_available_at b <=? as_of).
Definition reaches (s : OutcomeSpecification) (deadline : Z) (b : OutcomeBar) : bool :=
  (ob_end_at b <=? deadline) && (deadline - ob_end_at b <=? hours (os_maximum_endpoint_age_hours s)).
(** [price / reference - 1] *)
Definition fraction_of (s : OutcomeSpecification) (price : Decimal) : Res Decimal :=
  q ← dec_div price (os_reference_price_gbp s); mret (dec_sub q (dec 1)).
Definition horizon (s : OutcomeSpecification) (as_of : Z) (bars : list OutcomeBar) (n : Z)
    : Res HorizonOutcome :=
  let deadline := os_issued_at s + days n in
  if as_of <? deadline then mret (mkHorizon n deadline NOT_MATURED None None None None) else
  match last (List.filter (reaches s deadline) bars) with
  | None => mret (mkHorizon n deadline MISSING_DATA None None None None)
  | Some b =>
      r ← fraction_of s (ob_close_gbp b);
      mret (mkHorizon n deadline OBSERVED (Some r) (Some (ob_end_at b)) (Some (ob_available_at b))
              (Some (ob_evidence_id b)))
  end.
Definition hits_target (s : OutcomeSpecification) (b : OutcomeBar) : bool :=
  match os_target_gbp s with Some t => dec_le t (ob_high_gbp b) | None => false end.
Definition hits_invalidation (s : OutcomeSpecification) (b : OutcomeBar) : bool :=
  match os_invalidation_gbp s with Some t => dec_le (ob_low_gbp b) t | None => false end.
Definition event_order (target failure : option OutcomeBar) : EventOrder :=
  match target, failure with
  | Some t, Some f =>
      if bool_decide (ob_evidence_id t = ob_evidence_id f) then SAME_BAR_AMBIGUOUS
      else if ob_end_at t <? ob_end_at f then TARGET_FIRST else INVALIDATION_FIRST
  | Some _, None => TARGET_ONLY
  | None, Some _ => INVALIDATION_ONLY
  | None, None => NONE_OBSERVED
  end.
(** [max] and [min] of a non-empty sequence. *)
Definition greatest (x : Decimal) (l : list Decimal) : Decimal := foldl dec_max x l.
Definition least (x : Decimal) (l : list Decimal) : Decimal := foldl dec_min x l.
Definition excursion (best : Decimal → list Decimal → Decimal) (bound : Decimal → Decimal → Decimal)
    (s : OutcomeSpecification) (prices : list Decimal) : Res (option Decimal) :=
  match prices with
  | [] => mret None
  | x :: l => f ← fraction_of s (best x l); mret (Some (bound (dec 0) f))
  end.
(** The outcome of the bars that are known. *)
Definition outcome_of (s : OutcomeSpecification) (as_of : Z) (bars : list OutcomeBar)
    : Res ResearchOutcome :=
  horizons ← map_res (horizon s as_of bars) HORIZONS;
  let target := List.find (hits_target s) bars in
  let failure := List.find (hits_invalidation s) bars in
  mfe ← excursion greatest dec_max s (ob_high_gbp <$> bars);
  mae ← excursion least dec_min s (ob_low_gbp <$> bars);
  mret (mkOutcome (os_research_id s) (os_ticker s) (os_issued_at s) as_of (os_reference_price_gbp s)
          (os_target_gbp s) (os_invalidation_gbp s) (os_maximum_endpoint_age_hours s) horizons mfe mae
          ((λ b, touch b (os_issued_at s)) <$> target) ((λ b, touch b (os_issued_at s)) <$> failure)
          (event_order target failure) (Z.of_nat (length bars)) (ob_evidence_hash <$> bars)).
Definition calculate_outcome (specification : OutcomeSpecification) (bars : list OutcomeBar) (as_of : Z)
    : Res ResearchOutcome :=
  s ← validate_specification specification;
  reject (as_of <? os_issued_at s) ValueError
    "evaluation time must be timezone-aware and no earlier than issuance" ;;
  valid ← map_res validate_outcome_bar bars;
  let checked := by_start valid in
  reject (negb (distinct (ob_evidence_id <$> checked))) ValueError "duplicate outcome evidence identity" ;;
  reject (overlapping checked) ValueError "overlapping outcome bars are ambiguous" ;;
  outcome_of s as_of (List.filter (usable s as_of) checked).
End outcome.

(** ** Bars in order *)
Definition timed (b : OutcomeBar) : Prop := ob_start_at b < ob_end_at b.
Definition before (a b : OutcomeBar) : Prop := ob_start_at a < ob_start_at b ∧ ob_end_at a ≤ ob_start_at b.
#[export] Instance before_antisymm : AntiSymm (=) before.
Proof. intros a b [H1 _] [H2 _]. lia. Qed.
Lemma by_start_sorted l : StronglySorted (λ a b, ob_start_at a ≤ ob_start_at b) (by_start l).
Proof. apply sort_by_sorted; intros *; rewrite ?Z.ltb_lt, ?Z.ltb_ge; lia. Qed.
Lemma by_start_perm l : by_start l ≡ₚ l.
Proof. apply sort_by_perm. Qed.
Lemma by_start_filter p l : List.filter p (by_start l) = by_start (List.filter p l).
Proof.
  unfold by_start.
  apply (sort_by_filter _ (λ a b, ob_start_at a ≤ ob_start_at b)); intros *; rewrite ?Z.ltb_lt, ?Z.ltb_ge; lia.
Qed.
Lemma disjoint_sorted l : Forall timed l → StronglySorted (λ a b, ob_start_at a ≤ ob_start_at b) l →
  overlapping l = false → StronglySorted before l.
Proof.
  intros Ht Hs. induction Hs as [|a l Hl IH Ha]; [constructor|]. intros Ho.
  apply Forall_cons in Ht as [Hta Htl]. assert (overlapping l = false) as Hol.
  { simpl in Ho. destruct l; [done|]. by apply orb_false_iff in Ho as [_ Ho]. }
  constructor; [by apply IH|]. apply Forall_forall. intros b Hb.
  destruct l as [|c l]; [by apply not_elem_of_nil in Hb|]. simpl in Ho. apply orb_false_iff in Ho as [Hc _].
  apply Z.ltb_ge in Hc. assert (ob_start_at c ≤ ob_start_at b) as Hcb.
  { apply elem_of_cons in Hb as [->|Hb]; [done|]. apply StronglySorted_inv in Hl as [_ Hl].
    by eapply Forall_forall in Hl. }
  unfold timed, before in *. lia.
Qed.
Lemma sorted_disjoint l : StronglySorted before l → overlapping l = false.
Proof.
  induction 1 as [|a l Hl IH Ha]; [done|]. simpl. destruct l as [|b l]; [done|].
  apply Forall_cons in Ha as [[_ Hab] _]. by rewrite (proj2 (Z.ltb_ge _ _) Hab).
Qed.
Lemma sorted_filter {A} (R : A → A → Prop) (p : A → bool) l :
  StronglySorted R l → StronglySorted R (List.filter p l).
Proof.
  induction 1 as [|a l Hl IH Ha]; simpl; [constructor|]. destruct (p a); [|done]. constructor; [done|].
  apply Forall_forall. intros b [Hb _]%elem_of_List_filter. by eapply Forall_forall in Ha.
Qed.

Section properties.
Context `{Pydantic}.

Lemma validate_outcome_bar_inr b b' : validate_outcome_bar b = inr b' → b' = b ∧ timed b.
Proof. unfold validate_outcome_bar, timed. intros Hb. res_inv. bool_norm. done. Qed.
Lemma validate_specification_inr s s' : validate_specification s = inr s' → s' = s.
Proof. unfold validate_specification. intros Hs. by res_inv. Qed.
Lemma validate_bars_inr l l' : map_res validate_outcome_bar l = inr l' → l' = l ∧ Forall timed l.
Proof.
  revert l'. induction l as [|b l IH]; simpl; intros l' Hl; res_inv; [done|].
  destruct (validate_outcome_bar_inr b _ ltac:(done)) as [-> Ht]. destruct (IH _ ltac:(done)) as [-> Hl].
  by split; [|constructor].
Qed.
Lemma validate_bars_filter p l : map_res validate_outcome_bar l = inr l →
  map_res validate_outcome_bar (List.filter p l) = inr (List.filter p l).
Proof.
  induction l as [|b l IH]; simpl; intros Hl; [done|]. res_inv.
  destruct (p b); simpl; [|by apply IH]. rewrite IH by done.
  match goal with Hb : validate_outcome_bar b = _ |- _ => by rewrite Hb end.
Qed.
(** What a calculated outcome was calculated from. *)
Definition known (s : OutcomeSpecification) (as_of : Z) (bars : list OutcomeBar) : list OutcomeBar :=
  by_start (List.filter (usable s as_of) bars).
Lemma calculate_inr s bars as_of r : calculate_outcome s bars as_of = inr r →
  validate_specification s = inr s ∧ os_issued_at s ≤ as_of ∧ map_res validate_outcome_bar bars = inr bars ∧
  NoDup (ob_evidence_id <$> bars) ∧ StronglySorted before (by_start bars) ∧
  outcome_of s as_of (known s as_of bars) = inr r.
Proof.
  unfold calculate_outcome, known. intros Hc. res_inv. bool_norm.
  match goal with Hs : validate_specification _ = _ |- _ =>
    pose proof (validate_specification_inr _ _ Hs) as -> end.
  match goal with Hb : map_res _ _ = inr ?x |- _ => destruct (validate_bars_inr _ _ Hb) as [-> Ht] end.
  rewrite <- by_start_filter. split_and!; try done.
  - match goal with Hd : distinct _ = true |- _ => apply distinct_NoDup in Hd end.
    by rewrite <- (by_start_perm bars).
  - apply disjoint_sorted; [|apply by_start_sorted|done]. by rewrite by_start_perm.
Qed.
Lemma known_sorted s bars as_of : StronglySorted before (by_start bars) →
  StronglySorted before (known s as_of bars).
Proof. unfold known. rewrite <- by_start_filter. apply sorted_filter. Qed.
Lemma usable_idem s as_of bars :
  List.filter (usable s as_of) (List.filter (usable s as_of) bars) = List.filter (usable s as_of) bars.
Proof. induction bars as [|b l IH]; simpl; [done|]. destruct (usable s as_of b) eqn:Hb; simpl; by rewrite ?Hb, ?IH. Qed.


(** ** What the fields mean *)
Definition observed_bar (s : OutcomeSpecification) (as_of : Z) (bars : list OutcomeBar) (b : OutcomeBar) : Prop :=
  b ∈ bars ∧ usable s as_of b = true.
(** The bar that first satisfies [p]: every other one that does starts after it ended. *)
Definition first_touch s as_of bars (p : OutcomeBar → bool) (b : OutcomeBar) : Prop :=
  observed_bar s as_of bars b ∧ p b = true ∧
  ∀ b', observed_bar s as_of bars b' → p b' = true → b' = b ∨ before b b'.
Definition never_touched s as_of bars (p : OutcomeBar → bool) : Prop :=
  ∀ b, observed_bar s as_of bars b → p b = false.
Definition order_means s as_of bars (o : EventOrder) : Prop :=
  let first := first_touch s as_of bars in
  let never := never_touched s as_of bars in
  match o with
  | TARGET_FIRST => ∃ t f, first (hits_target s) t ∧ first (hits_invalidation s) f ∧ before t f
  | INVALIDATION_FIRST => ∃ t f, first (hits_target s) t ∧ first (hits_invalidation s) f ∧ before f t
  | SAME_BAR_AMBIGUOUS => ∃ b, first (hits_target s) b ∧ first (hits_invalidation s) b
  | TARGET_ONLY => (∃ t, first (hits_target s) t) ∧ never (hits_invalidation s)
  | INVALIDATION_ONLY => never (hits_target s) ∧ ∃ f, first (hits_invalidation s) f
  | NONE_OBSERVED => never (hits_target s) ∧ never (hits_invalidation s)
  end.
Definition horizon_means s as_of bars (n : Z) (h : HorizonOutcome) : Prop :=
  let deadline := os_issued_at s + days n in
  let eligible b := observed_bar s as_of bars b ∧ reaches s deadline b = true in
  ho_calendar_days h = n ∧ ho_deadline h = deadline ∧
  match ho_state h with
  | NOT_MATURED => as_of < deadline
  | MISSING_DATA => deadline ≤ as_of ∧ ∀ b, ¬ eligible b
  | OBSERVED => deadline ≤ as_of ∧ ∃ b x, eligible b ∧ (∀ b', eligible b' → b' = b ∨ before b' b) ∧
      fraction_of s (ob_close_gbp b) = inr x ∧ ho_return_fraction h = Some x ∧
      ho_price_observed_at h = Some (ob_end_at b) ∧ ho_evidence_id h = Some (ob_evidence_id b)
  end.

Lemma elem_of_known s as_of bars b : b ∈ known s as_of bars ↔ observed_bar s as_of bars b.
Proof. unfold known, observed_bar. by rewrite by_start_perm, elem_of_List_filter. Qed.
Lemma find_sorted (p : OutcomeBar → bool) l b : StronglySorted before l → List.find p l = Some b →
  b ∈ l ∧ p b = true ∧ ∀ b', b' ∈ l → p b' = true → b' = b ∨ before b b'.
Proof.
  induction 1 as [|a l Hl IH Ha]; simpl; [done|]. destruct (p a) eqn:Hpa.
  - intros [= ->]. split; [left|]. split; [done|]. intros b' [->|Hb']%elem_of_cons _; [by left|].
    right. by eapply Forall_forall in Ha.
  - intros (Hin & Hp & Hmin)%IH. split; [by right|]. split; [done|].
    intros b' [->|Hb']%elem_of_cons Hpb'; [congruence|]. by apply Hmin.
Qed.
Lemma find_never {A} (p : A → bool) l : List.find p l = None → ∀ b, b ∈ l → p b = false.
Proof. intros Hf b Hb. eapply List.find_none; [exact Hf|]. by apply list_elem_of_In. Qed.
Lemma last_sorted l b : StronglySorted before l → last l = Some b →
  b ∈ l ∧ ∀ b', b' ∈ l → b' = b ∨ before b' b.
Proof.
  intros Hs (l' & ->)%last_Some. split; [apply elem_of_app; right; left|].
  intros b' [Hb'|Hb'%list_elem_of_singleton]%elem_of_app; [right|by left].
  induction l' as [|a l' IH]; [by apply not_elem_of_nil in Hb'|].
  simpl in Hs. apply StronglySorted_inv in Hs as [Hs Ha].
  apply elem_of_cons in Hb' as [->|Hb']; [|by apply IH].
  eapply Forall_forall; [exact Ha|]. apply elem_of_app. right. left.
Qed.
Lemma find_touch s as_of bars p : StronglySorted before (known s as_of bars) →
  match List.find p (known s as_of bars) with
  | Some b => first_touch s as_of bars p b
  | None => never_touched s as_of bars p
  end.
Proof.
  intros Hs. destruct (List.find p _) as [b|] eqn:Hf.
  - destruct (find_sorted _ _ _ Hs Hf) as (Hin & Hp & Hmin). split; [by apply elem_of_known|]. split; [done|].
    intros b' Hb'%elem_of_known. by apply Hmin.
  - intros b Hb%elem_of_known. by eapply find_never.
Qed.
Lemma sorted_total l a b : StronglySorted before l → a ∈ l → b ∈ l → a = b ∨ before a b ∨ before b a.
Proof.
  induction 1 as [|x l Hl IH Hx]; [by intros []%not_elem_of_nil|].
  intros [->|Ha]%elem_of_cons [->|Hb]%elem_of_cons; [by left| | |by apply IH].
  - right. left. by eapply Forall_forall in Hx.
  - right. right. by eapply Forall_forall in Hx.
Qed.
Lemma event_order_means s as_of bars : Forall timed bars → NoDup (ob_evidence_id <$> bars) →
  StronglySorted before (known s as_of bars) →
  order_means s as_of bars (event_order (List.find (hits_target s) (known s as_of bars))
                                        (List.find (hits_invalidation s) (known s as_of bars))).
Proof.
  intros Ht Hd Hs. pose proof (find_touch s as_of bars (hits_target s) Hs) as Htarget.
  pose proof (find_touch s as_of bars (hits_invalidation s) Hs) as Hfail.
  destruct (List.find (hits_target s) _) as [t|], (List.find (hits_invalidation s) _) as [f|]; simpl; try by eauto.
  pose proof Htarget as [Hot _]. pose proof Hfail as [Hof _].
  assert (t = f ∨ before t f ∨ before f t) as Htf by (by eapply sorted_total; [exact Hs|apply elem_of_known..]).
  pose proof (proj1 (Forall_forall _ _) Ht t (proj1 Hot)) as Htt.
  pose proof (proj1 (Forall_forall _ _) Ht f (proj1 Hof)) as Hff. unfold timed in *.
  case_bool_decide as Hid.
  - assert (t = f) as <-; [|by exists t]. destruct Hot as [Hint _], Hof as [Hinf _].
    apply list_elem_of_lookup in Hint as [i Hi], Hinf as [j Hj].
    assert (i = j) as <-; [|congruence]. apply (NoDup_lookup _ i j (ob_evidence_id t) Hd);
      rewrite list_lookup_fmap; [by rewrite Hi|by rewrite Hj, Hid].
  - destruct (Z.ltb_spec (ob_end_at t) (ob_end_at f)); exists t, f; (split; [done|]); (split; [done|]);
      destruct Htf as [->|[Hb|Hb]]; (done || unfold before in *; lia).
Qed.
Lemma horizon_inr s as_of bars n h : StronglySorted before (known s as_of bars) →
  horizon s as_of (known s as_of bars) n = inr h → horizon_means s as_of bars n h.
Proof.
  intros Hs. unfold horizon, horizon_means. destruct (Z.ltb_spec as_of (os_issued_at s + days n)) as [Hlt|Hle];
    [by intros [= <-]|].
  pose proof (sorted_filter _ (reaches s (os_issued_at s + days n)) _ Hs) as Hf.
  destruct (last _) as [b|] eqn:Hl.
  - intros Hx. apply res_bind_inr in Hx as (x & Hx & [= <-]). simpl. split; [done|]. split; [done|]. split; [done|].
    destruct (last_sorted _ _ Hf Hl) as [[Hin%elem_of_known Hp]%elem_of_List_filter Hmax].
    exists b, x. split; [done|]. split; [|done]. intros b' [Hb'%elem_of_known Hp'].
    by apply Hmax, elem_of_List_filter.
  - intros [= <-]. simpl. split; [done|]. split; [done|]. split; [done|]. intros b [Hb%elem_of_known Hp].
    apply last_None in Hl. assert (b ∈ List.filter (reaches s (os_issued_at s + days n)) (known s as_of bars)) as Hin
      by (by apply elem_of_List_filter). rewrite Hl in Hin. by apply not_elem_of_nil in Hin.
Qed.
Lemma map_res_forall2 {A B} (f : A → Res B) (P : A → B → Prop) l l' :
  (∀ a b, f a = inr b → P a b) → map_res f l = inr l' → Forall2 P l l'.
Proof.
  intros Hf. revert l'. induction l as [|a l IH]; simpl; intros l' Hl; res_inv; constructor; auto.
Qed.

(** C31. Outcomes mean what they say: a horizon is not matured before its
    deadline; afterwards it is observed at the last known bar that ends by the
    deadline and within the age limit, with that bar's price change, and missing
    only when there is none. The event order tells which of the target and the
    invalidation was touched first by known bars, ambiguous only within one
    bar. *)
Theorem outcome_exact s bars as_of r :
  calculate_outcome s bars as_of = inr r →
  Forall2 (horizon_means s as_of bars) HORIZONS (ro_horizons r) ∧
  order_means s as_of bars (ro_event_order r) ∧
  ro_observation_count r = count_by (usable s as_of) bars.
Proof.
  intros (_ & _ & Hb & Hd & Ho & Hr)%calculate_inr. pose proof (known_sorted s _ as_of Ho) as Hs.
  destruct (validate_bars_inr _ _ Hb) as [_ Ht]. unfold outcome_of in Hr. res_inv. simpl. split_and!.
  - eapply map_res_forall2; [|done]. intros n h. by apply horizon_inr.
  - by apply event_order_means.
  - unfold known, count_by. by rewrite by_start_perm.
Qed.
End properties.

(** ** A reference that reaches its target *)
Section witness.
#[local] Existing Instance any_shape.
Definition price (n : Z) : Decimal := Dec n (-2).
Definition demo_bar (id : string) (day : Z) (low high close : Z) : OutcomeBar :=
  mkOutcomeBar id zero_sha (days day) (days day + hours 8) (days day + hours 9) (price close) (price high)
    (price low) (price close).
Definition demo_reference : OutcomeSpecification :=
  mkSpecification "research-1" "ACME" (days 1) (price 10000) (Some (price 11000)) (Some (price 9500)) 24.
(** Out of order, one bar before the issue and one published too late. *)
Definition demo_bars : list OutcomeBar :=
  [demo_bar "b3" 3 9900 11200 11100; demo_bar "b1" 1 9800 10200 10100; demo_bar "b0" 0 9000 12000 10000;
   demo_bar "b2" 2 9600 10500 10400; demo_bar "b9" 9 9000 9900 9400].
Definition demo_outcome : ResearchOutcome :=
  match calculate_outcome demo_reference demo_bars (days 5) with
  | inr r => r
  | inl _ => mkOutcome "" "" 0 0 (price 1) None None 0 [] None None None None NONE_OBSERVED 0 []
  end.
Lemma demo_calculated : calculate_outcome demo_reference demo_bars (days 5) = inr demo_outcome.
Proof. vm_compute. reflexivity. Qed.
Example demo_reading : ro_event_order demo_outcome = TARGET_ONLY ∧ ro_observation_count demo_outcome = 3 ∧
  (ho_state <$> ro_horizons demo_outcome) =
    [OBSERVED; OBSERVED; NOT_MATURED; NOT_MATURED; NOT_MATURED; NOT_MATURED].
Proof. vm_compute. done. Qed.
Lemma outcome_exact_witness : order_means demo_reference (days 5) demo_bars (ro_event_order demo_outcome).
Proof. exact (proj1 (proj2 (outcome_exact demo_reference demo_bars (days 5) demo_outcome demo_calculated))). Defined.
End witness.
