(* ===== verification/Eligibility.v ===== *)
(** * The eligibility gate ([src/money/adapters/eligibility.py])

    [eligibility_failures] decides whether an instrument may enter research;
    [Trading212EligibilityAdapter] is the verified universe a job reads it
    from. [ethical_policy_hash] ([src/money/research/ethics.py]) raises on a
    malformed exclusion, so the gate runs in [Res]. *)

From S2P Require Import Prelude Effects PyNum PyText Contracts Demo.
#[local] Open Scope Z_scope.

(** [content_hash] of the ethical policy document. *)
Class PolicyHash := hash_policy : list string → string.

Definition ELIGIBILITY_MAXIMUM_AGE : Z := hours 24.
Definition UNKNOWN_ACTIVITIES : list string :=
  ["unknown"; "unclassified"; "unverified"; "not_available"; "not_classified";
   "unknown_material_exposure"; "unknown_material_business_exposure"].

(** [_activity]: structured labels, normalised. *)
Definition activity (value : string) : string :=
  collapse (λ c, is_space c || bool_decide (c = "-"%char)) (casefold (strip value)).

Definition current (i : InstrumentMetadata) (now : Z) : bool :=
  (now - ELIGIBILITY_MAXIMUM_AGE <? im_verified_at i) && (im_verified_at i <=? now).

Definition provenance_valid (i : InstrumentMetadata) : bool :=
  forallb (λ v, truthy (strip v)) [im_source i; im_provider i; im_source_id i].

(** [if b: failures.append(label)] *)
Definition failure (b : bool) (label : string) : list string := if b then [label] else [].

Section gate.
Context `{ContentHash, PolicyHash}.

Definition policy_exclusions (excluded : list string) : Res (list string) :=
  let exclusions := sorted_strings (from_keys excluded) in
  reject (negb (subset_of EXCLUDED_ACTIVITIES exclusions))
    ValueError "ETHICAL_EXCLUSIONS_CANNOT_BE_REMOVED" ;;
  reject (existsb (λ v, negb (truthy v) || negb (bool_decide (v = strip v))) exclusions)
    ValueError "ETHICAL_EXCLUSION_INVALID" ;;
  mret exclusions.

Definition ethical_policy_hash (excluded : list string) : Res string :=
  exclusions ← policy_exclusions excluded;
  mret (hash_policy exclusions).

(** The set [exclusions] of the gate. *)
Definition gate_exclusions (m : ResearchMandate) : list string :=
  map activity (EXCLUDED_ACTIVITIES ++ rm_excluded_activities m).

(** The failures the cached issuer screening adds. *)
Definition clearance_failures (c : EthicalClearance) (activities exclusions : list string)
    (now : Z) : Res (list string) :=
  match validate_clearance c with
  | inl _ => mret ["ETHICAL_CLEARANCE_INVALID"]
  | inr c =>
      expected ← ethical_policy_hash (sorted_strings (from_keys exclusions));
      mret (match ec_result c with
            | CLEAR_FAIL => ["PROHIBITED_ACTIVITY"]
            | CLEAR_UNKNOWN => ["ETHICAL_SCREEN_UNKNOWN"]
            | CLEAR_PASS => []
            end ++
            failure (negb ((ec_screened_at c <=? now) && (now <? ec_valid_until c)))
              "ETHICAL_CLEARANCE_EXPIRED" ++
            failure (negb (bool_decide (ec_policy_hash c = expected)))
              "ETHICAL_POLICY_CHANGED" ++
            failure (negb (same_set (map activity (ec_business_activities c)) activities))
              "ETHICAL_CLEARANCE_ACTIVITY_MISMATCH" ++
            failure (negb (subset_of exclusions (map activity (ec_assessed_exclusions c))))
              "ETHICAL_SCREEN_UNKNOWN")
  end.

Definition eligibility_failures (instrument : option InstrumentMetadata)
    (m : ResearchMandate) (now : Z) : Res (list string) :=
  match instrument with
  | None => mret ["INSTRUMENT_ELIGIBILITY_UNKNOWN"]
  | Some i =>
      let activities := map activity (im_business_activities i) in
      let exclusions := gate_exclusions m in
      screening ← match im_ethical_clearance i with
                  | Some c => clearance_failures c activities exclusions now
                  | None => mret []
                  end;
      mret (from_keys
        (failure (negb (bool_decide (im_currently_available i = Some true)))
           "INSTRUMENT_UNAVAILABLE" ++
         failure (negb (bool_decide (im_instrument_type i = "STOCK")) ||
                  negb (mem (im_instrument_type i) (rm_instrument_types m)))
           "INSTRUMENT_TYPE_EXCLUDED" ++
         failure (negb (bool_decide (im_quote_currency i = "GBX")) ||
                  negb (mem (im_quote_currency i) (rm_quote_currencies m)))
           "CURRENCY_EXCLUDED" ++
         failure (negb (im_activities_verified i) || bool_decide (activities = []) ||
                  existsb (λ a, negb (truthy a) || mem a UNKNOWN_ACTIVITIES) activities)
           "ETHICAL_SCREEN_UNKNOWN" ++
         failure (intersects activities exclusions) "PROHIBITED_ACTIVITY" ++
         screening ++
         failure (negb (provenance_valid i)) "ELIGIBILITY_PROVENANCE_MISSING" ++
         failure (negb (current i now)) "ELIGIBILITY_STALE"))
  end.

(** ** [Trading212EligibilityAdapter] *)

(** [__init__]: tickers are unique. *)
Definition make_adapter (instruments : list InstrumentMetadata)
    : Res (gmap string InstrumentMetadata) :=
  reject (negb (distinct (map im_ticker instruments)))
    ValueError "duplicate eligibility instrument" ;;
  mret (list_to_map (map (λ i, (im_ticker i, i)) instruments)).

Fixpoint filter_res {A} (f : A → Res bool) (l : list A) : Res (list A) :=
  match l with
  | [] => mret []
  | x :: l' => keep ← f x; rest ← filter_res f l'; mret (if (keep : bool) then x :: rest else rest)
  end.

Definition get_instrument_metadata (a : gmap string InstrumentMetadata) (ticker : string)
    : option InstrumentMetadata := a !! ticker.

Definition sorted_instruments (a : gmap string InstrumentMetadata)
    : list InstrumentMetadata :=
  omap (λ t, a !! t) (sorted_strings (map fst (map_to_list a))).

Definition get_universe (a : gmap string InstrumentMetadata) (now : Z)
    : Res (list InstrumentMetadata) :=
  filter_res (λ i, fs ← eligibility_failures (Some i) default_mandate now;
                   mret (bool_decide (fs = []))) (sorted_instruments a).

Definition is_currently_available (a : gmap string InstrumentMetadata) (ticker : string)
    (now : Z) : option bool :=
  match get_instrument_metadata a ticker with
  | Some i => if provenance_valid i && current i now then im_currently_available i else None
  | None => None
  end.

Definition get_instrument_type (a : gmap string InstrumentMetadata) (ticker : string) :=
  im_instrument_type <$> get_instrument_metadata a ticker.
Definition get_quote_currency (a : gmap string InstrumentMetadata) (ticker : string) :=
  im_quote_currency <$> get_instrument_metadata a ticker.
End gate.

(** ** Lemmas *)
Lemma failure_nil b l : failure b l = [] ↔ b = false.
Proof. by destruct b. Qed.

Lemma strip_activity v : strip (activity v) = activity v.
Proof. apply strip_no_space, collapse_no_space. by intros c ->. Qed.

Lemma excluded_activities_normal : map activity EXCLUDED_ACTIVITIES = EXCLUDED_ACTIVITIES.
Proof. vm_compute. reflexivity. Qed.

Lemma elem_of_gate m a :
  a ∈ gate_exclusions m ↔
  a ∈ EXCLUDED_ACTIVITIES ∨ ∃ x, x ∈ rm_excluded_activities m ∧ a = activity x.
Proof.
  unfold gate_exclusions. rewrite map_app, excluded_activities_normal, elem_of_app.
  rewrite list_elem_of_fmap. naive_solver.
Qed.

Lemma elem_of_gate_policy m a :
  a ∈ sorted_strings (from_keys (sorted_strings (from_keys (gate_exclusions m)))) ↔
  a ∈ gate_exclusions m.
Proof. by rewrite !elem_of_sorted_strings, !elem_of_from_keys, elem_of_sorted_strings, elem_of_from_keys. Qed.

(** The mandate's own exclusions are not blank labels. *)
Definition named_exclusions (m : ResearchMandate) : bool :=
  forallb (λ v, truthy (activity v)) (rm_excluded_activities m).

Section gate_facts.
Context `{ContentHash, PolicyHash}.

Lemma gate_policy_hash m :
  named_exclusions m = true →
  ∃ h, ethical_policy_hash (sorted_strings (from_keys (gate_exclusions m))) = inr h.
Proof.
  intros Hm. unfold ethical_policy_hash, policy_exclusions.
  rewrite (proj2 (subset_of_spec _ _)); [|intros a Ha; apply elem_of_gate_policy, elem_of_gate; auto].
  rewrite (proj2 (existsb_false _ _)); [by eexists|].
  intros a Ha%elem_of_gate_policy. unfold gate_exclusions in Ha.
  apply list_elem_of_fmap in Ha as (v & -> & Hv). apply orb_false_iff. split.
  - apply negb_false_iff. apply elem_of_app in Hv as [Hv|Hv].
    + assert (activity v ∈ EXCLUDED_ACTIVITIES) as Ha.
      { rewrite <- excluded_activities_normal. by apply list_elem_of_fmap_2. }
      unfold EXCLUDED_ACTIVITIES in Ha.
      repeat (apply elem_of_cons in Ha as [->|Ha]; [reflexivity|]). by apply not_elem_of_nil in Ha.
    + unfold named_exclusions in Hm. rewrite forallb_forall in Hm.
      by apply Hm, list_elem_of_In.
  - by rewrite strip_activity, bool_decide_true.
Qed.

Lemma eligibility_total i m now :
  named_exclusions m = true → ∃ fs, eligibility_failures i m now = inr fs.
Proof.
  intros Hm. destruct i as [i|]; simpl; [|by eexists].
  destruct (im_ethical_clearance i) as [c|]; [|by eexists].
  unfold clearance_failures. destruct (validate_clearance c) as [e|c']; [by eexists|].
  destruct (gate_policy_hash m Hm) as [h ->]. by eexists.
Qed.
End gate_facts.

(** ** Properties *)

(** What an instrument with no failure satisfies. *)
Record Eligible `{ContentHash, PolicyHash} (i : InstrumentMetadata)
    (m : ResearchMandate) (now : Z) : Prop := {
  eligible_stock : im_currently_available i = Some true ∧ im_instrument_type i = "STOCK" ∧
    im_quote_currency i = "GBX" ∧ "STOCK" ∈ rm_instrument_types m ∧
    "GBX" ∈ rm_quote_currencies m;
  eligible_activities : im_activities_verified i = true ∧ im_business_activities i ≠ [] ∧
    ∀ a, a ∈ im_business_activities i →
      activity a ≠ "" ∧ activity a ∉ UNKNOWN_ACTIVITIES ∧
      activity a ∉ EXCLUDED_ACTIVITIES ∧
      ∀ x, x ∈ rm_excluded_activities m → activity a ≠ activity x;
  eligible_screening : ∀ c, im_ethical_clearance i = Some c →
    validate_clearance c = inr c ∧ ec_result c = CLEAR_PASS ∧
    ec_screened_at c ≤ now < ec_valid_until c ∧
    ethical_policy_hash (sorted_strings (from_keys (gate_exclusions m))) =
      inr (ec_policy_hash c) ∧
    (∀ x, x ∈ map activity (ec_business_activities c) ↔
          x ∈ map activity (im_business_activities i)) ∧
    (∀ x, x ∈ gate_exclusions m → x ∈ map activity (ec_assessed_exclusions c));
  eligible_provenance : provenance_valid i = true ∧
    now - hours 24 < im_verified_at i ≤ now;
}.

Lemma validate_clearance_same `{ContentHash} c c' :
  validate_clearance c = inr c' → c' = c.
Proof. unfold validate_clearance, consistent_screening. intros Hc. by res_inv. Qed.

Lemma truthy_spec v : truthy v = true ↔ v ≠ "".
Proof. unfold truthy. by rewrite bool_decide_eq_true. Qed.

Section eligible.
Context `{ContentHash, PolicyHash}.

Lemma clearance_failures_nil c acts excl now :
  clearance_failures c acts excl now = inr [] ↔
  validate_clearance c = inr c ∧ ec_result c = CLEAR_PASS ∧
  ec_screened_at c ≤ now < ec_valid_until c ∧
  ethical_policy_hash (sorted_strings (from_keys excl)) = inr (ec_policy_hash c) ∧
  (∀ x, x ∈ map activity (ec_business_activities c) ↔ x ∈ acts) ∧
  (∀ x, x ∈ excl → x ∈ map activity (ec_assessed_exclusions c)).
Proof.
  unfold clearance_failures. destruct (validate_clearance c) as [e|c'] eqn:Hc; [naive_solver|].
  apply validate_clearance_same in Hc as ->.
  destruct (ethical_policy_hash _) as [e|h]; simpl; [naive_solver|].
  rewrite <- same_set_spec, <- subset_of_spec. split.
  - intros [= Hfs]. rewrite !app_nil, !failure_nil in Hfs.
    destruct Hfs as (Hr & Ht & Hp & Ha & Hx). bool_norm.
    destruct (ec_result c); naive_solver.
  - intros (_ & -> & [Ht1 Ht2] & [= ->] & -> & ->).
    rewrite (bool_decide_true (_ = _)) by done.
    apply Z.leb_le in Ht1. apply Z.ltb_lt in Ht2. by rewrite Ht1, Ht2.
Qed.

Lemma activities_gate i m :
  (negb (im_activities_verified i) || bool_decide (map activity (im_business_activities i) = []) ||
   existsb (λ a, negb (truthy a) || mem a UNKNOWN_ACTIVITIES)
     (map activity (im_business_activities i))) = false ∧
  intersects (map activity (im_business_activities i)) (gate_exclusions m) = false ↔
  im_activities_verified i = true ∧ im_business_activities i ≠ [] ∧
  ∀ a, a ∈ im_business_activities i →
    activity a ≠ "" ∧ activity a ∉ UNKNOWN_ACTIVITIES ∧
    activity a ∉ EXCLUDED_ACTIVITIES ∧
    ∀ x, x ∈ rm_excluded_activities m → activity a ≠ activity x.
Proof.
  set (acts := im_business_activities i).
  rewrite !orb_false_iff, negb_false_iff, bool_decide_eq_false, existsb_false.
  rewrite <- (not_true_iff_false (intersects _ _)), intersects_spec.
  setoid_rewrite orb_false_iff. setoid_rewrite negb_false_iff. setoid_rewrite truthy_spec.
  setoid_rewrite <- (not_true_iff_false (mem _ _)). setoid_rewrite mem_spec.
  setoid_rewrite elem_of_gate. split.
  - intros [[[Hv Hne] Hall] Hno]. split_and!; [done|by intros He; rewrite He in Hne|].
    intros a Ha. specialize (Hall (activity a) (list_elem_of_fmap_2 _ _ _ Ha)).
    split_and!; [by apply Hall..| |]; [intros Hx|intros x Hx Heq]; destruct Hno;
      exists (activity a); (split; [by apply list_elem_of_fmap_2|]); eauto.
  - intros (Hv & Hne & Hall). split_and!; [done|by destruct acts| |].
    + intros ? (a & -> & Ha)%list_elem_of_fmap. split; by apply Hall.
    + intros (? & (a & -> & Ha)%list_elem_of_fmap & [Hx|(x & Hx & Heq)]);
        destruct (Hall a Ha) as (_ & _ & Hn & Hm); naive_solver.
Qed.
End eligible.

Section gate_theorems.
Context `{ContentHash, PolicyHash}.

Lemma screening_none i m now :
  match im_ethical_clearance i with
  | Some c => clearance_failures c (map activity (im_business_activities i))
                (gate_exclusions m) now
  | None => mret []
  end = inr [] ↔
  ∀ c, im_ethical_clearance i = Some c →
    clearance_failures c (map activity (im_business_activities i)) (gate_exclusions m) now
    = inr [].
Proof. destruct (im_ethical_clearance i); naive_solver. Qed.

Lemma stock_gate (x y : string) l :
  (negb (bool_decide (x = y)) || negb (mem x l)) = false ↔ x = y ∧ y ∈ l.
Proof.
  rewrite orb_false_iff, !negb_false_iff, bool_decide_eq_true, mem_spec. naive_solver.
Qed.

Lemma no_failures_iff i m now :
  eligibility_failures (Some i) m now = inr [] ↔ Eligible i m now.
Proof.
  assert (∀ b, negb b = false ↔ b = true) as Hneg by by intros [].
  simpl. destruct (im_ethical_clearance i) as [c|] eqn:Hc; simpl.
  - destruct (clearance_failures _ _ _ _) as [e|fs] eqn:Hf; simpl.
    { split; [done|]. intros [_ _ Hs _]. by rewrite (proj2 (clearance_failures_nil _ _ _ _)
        (Hs c Hc)) in Hf. }
    rewrite inj_iff by apply _. rewrite from_keys_nil, !app_nil, !failure_nil.
    rewrite !stock_gate, !Hneg, bool_decide_eq_true. unfold current.
    rewrite andb_true_iff, Z.ltb_lt, Z.leb_le. split.
    + intros (? & [? ?] & [? ?] & Ha1 & Ha2 & -> & ? & ?). split; [done|..|done].
      * apply activities_gate. done.
      * intros c' Hc'. rewrite Hc in Hc'. injection Hc' as <-. by apply clearance_failures_nil.
    + intros [(? & ? & ? & ? & ?) [Ha1 Ha2]%activities_gate Hs [? ?]].
      specialize (Hs c Hc). rewrite (proj2 (clearance_failures_nil _ _ _ _) Hs) in Hf.
      injection Hf as <-. done.
  - rewrite inj_iff by apply _. rewrite from_keys_nil, !app_nil, !failure_nil.
    rewrite !stock_gate, !Hneg, bool_decide_eq_true. unfold current.
    rewrite andb_true_iff, Z.ltb_lt, Z.leb_le. split.
    + intros (? & [? ?] & [? ?] & Ha1 & Ha2 & ? & ?). split; [done|..|done].
      * apply activities_gate. done.
      * intros c' Hc'. congruence.
    + intros [(? & ? & ? & ? & ?) [Ha1 Ha2]%activities_gate _ [? ?]]. done.
Qed.

Lemma filter_res_spec {A} (f : A → Res bool) l :
  (∀ x, x ∈ l → ∃ b, f x = inr b) →
  ∃ l', filter_res f l = inr l' ∧ ∀ x, x ∈ l' ↔ x ∈ l ∧ f x = inr true.
Proof.
  induction l as [|y l IH]; intros Hf; simpl; [exists []; set_solver|].
  destruct (Hf y) as [b Hb]; [left|]. rewrite Hb. simpl.
  destruct IH as (l' & Hl' & Hin); [intros x Hx; apply Hf; by right|]. rewrite Hl'. simpl.
  eexists. split; [done|]. intros x. rewrite elem_of_cons. destruct b.
  - rewrite elem_of_cons, Hin. split; [intros [->|[? ?]]; auto|]. intros [[->|?] ?]; auto.
  - rewrite Hin. split; [intros [? ?]; auto|]. intros [[->|?] ?]; [congruence|auto].
Qed.

Lemma make_adapter_lookup l a k i :
  make_adapter l = inr a → a !! k = Some i ↔ i ∈ l ∧ im_ticker i = k.
Proof.
  unfold make_adapter. intros Ha. res_inv. bool_norm.
  match goal with H : distinct _ = true |- _ => unfold distinct in H; bool_norm; rename H into Hd end.
  rewrite <- elem_of_list_to_map.
  - rewrite list_elem_of_fmap. naive_solver.
  - rewrite <- list_fmap_compose. apply NoDup_length_from_keys in Hd. apply Hd.
Qed.

Lemma elem_of_sorted_instruments a i :
  i ∈ sorted_instruments a ↔ ∃ k, a !! k = Some i.
Proof.
  unfold sorted_instruments. rewrite list_elem_of_omap. split; [naive_solver|].
  intros [k Hk]. exists k. split; [|done]. apply elem_of_sorted_strings.
  apply list_elem_of_fmap. exists (k, i). by rewrite elem_of_map_to_list.
Qed.
End gate_theorems.

(** C8: the eligibility gate reports no failure exactly for an available GBX
    stock with verified, known, permitted activities, a current and fully
    matching issuer screening when one is attached, and fresh provenance. *)
Theorem eligibility_gate_exact `{ContentHash, PolicyHash} i m now :
  eligibility_failures (Some i) m now = inr [] ↔ Eligible i m now.
Proof. apply no_failures_iff. Qed.

(** The universe of an adapter is total and contains exactly the
    instruments given to it that pass the gate now. *)
Theorem universe_exact `{ContentHash, PolicyHash} l a now :
  make_adapter l = inr a →
  ∃ u, get_universe a now = inr u ∧
       ∀ i, i ∈ u ↔ i ∈ l ∧ Eligible i default_mandate now.
Proof.
  intros Ha. unfold get_universe.
  edestruct (filter_res_spec (λ i, fs ← eligibility_failures (Some i) default_mandate now;
                              mret (bool_decide (fs = []))) (sorted_instruments a)) as (u & Hu & Hin).
  { intros i _. destruct (eligibility_total (Some i) default_mandate now) as [fs ->]; [done|].
    by eexists. }
  exists u. split; [done|]. intros i. rewrite Hin, elem_of_sorted_instruments.
  rewrite <- no_failures_iff. split.
  - intros [[k Hk] Hf]. apply (make_adapter_lookup _ _ _ _ Ha) in Hk as [? _]. split; [done|].
    apply res_bind_inr in Hf as (fs & -> & [= Hb]). by bool_norm; subst.
  - intros [Hl ->]. split; [|done]. exists (im_ticker i).
    by apply (make_adapter_lookup _ _ _ _ Ha).
Qed.

Lemma universe_exact_witness :
  let P : PolicyHash := λ _, zero_sha in
  let i := demo_instrument (hours 10) in
  ∃ a u, @make_adapter [i] = inr a ∧
    @get_universe constant_hash P a (hours 11) = inr u ∧ i ∈ u.
Proof.
  cbv zeta. exists (list_to_map [("DEMO.L", demo_instrument (hours 10))]).
  destruct (@universe_exact constant_hash (λ _, zero_sha)
              [demo_instrument (hours 10)]
              (list_to_map [("DEMO.L", demo_instrument (hours 10))]) (hours 11) eq_refl)
    as (u & Hu & Hin).
  exists u. split; [reflexivity|]. split; [exact Hu|]. apply Hin. split; [left|].
  apply no_failures_iff. vm_compute. reflexivity.
Defined.
