(* ===== verification/Governance.v ===== *)
(** * Deterministic evidence gates ([src/money/policy/governance.py])

    [snapshot_failures], [evidence_independence] and [consensus]: the only code
    that names the final research state of a job. The theorems characterise
    the candidate state exactly and show which states are unreachable. *)

From S2P Require Import Prelude Effects PyNum PyText Contracts Demo Eligibility.
#[local] Open Scope Z_scope.

Definition is_ohlcv (e : EvidenceRecord) : bool :=
  match ev_payload e with Ohlcv _ => true | _ => false end.

Definition snapshot_failures (s : ResearchSnapshot) (now : Z) : list string :=
  from_keys
    (failure (negb (existsb (λ e, ev_critical e && is_ohlcv e) (rs_evidence s)))
       "CRITICAL_PRICE_MISSING" ++
     flat_map (λ e,
       failure (ev_critical e && (ev_fresh_until e <=? now)) "CRITICAL_EVIDENCE_STALE" ++
       failure (ev_critical e && ev_conflicting e) "CRITICAL_EVIDENCE_CONFLICT" ++
       failure (ev_critical e && negb (available_at e (cutoff_for s e)))
         "CRITICAL_EVIDENCE_PIT_UNKNOWN") (rs_evidence s)).

(** [len(set(l))] *)
Definition set_size `{EqDecision A} (l : list A) : Z := Z.of_nat (length (from_keys l)).

(** [_overlap(families)]: the share of repeated members, as a float. *)
Definition overlap (families : list (list string)) : spec_float :=
  let count := foldr (λ s acc, set_size s + acc) 0 families in
  if count =? 0 then float_of_Z 1
  else fsub (float_of_Z 1)
         (fdiv (float_of_Z (set_size (concat families))) (float_of_Z count)).

(** The claim/evidence pairs a report cites, in order. *)
Definition citations (r : FirmReport) : list (ResearchClaim * string) :=
  flat_map (λ c, map (pair c) (cl_evidence_ids c)) (fr_claims r).

(** [by_id]: a later record with the same identity wins. *)
Definition by_id (s : ResearchSnapshot) : gmap string EvidenceRecord :=
  foldl (λ m e, <[ev_evidence_id e := e]> m) ∅ (rs_evidence s).

Definition cited_records (s : ResearchSnapshot) (r : FirmReport)
    : Res (list (ResearchClaim * EvidenceRecord)) :=
  map_res (λ ce : ResearchClaim * string,
    match by_id s !! ce.2 with
    | Some e => mret (ce.1, e)
    | None => fail ValueError "report cites evidence outside the snapshot"
    end) (citations r).

(** [tuple(sorted(families))] *)
Definition sorted_families (l : list Family) : list Family :=
  List.filter (λ f, mem f l)
    [fam_catalyst; fam_fundamental; fam_quantitative; fam_risk; fam_technical].

Definition report_models (r : FirmReport) : list string :=
  fr_model_family r ::
  match fr_llm_provider_family r with
  | Some p => if truthy p then [p] else []
  | None => []
  end.

Definition strength_of (sources families providers : Z)
    (source_overlap model_overlap feature_overlap argument_overlap : spec_float) : Strength :=
  if (5 <=? sources) && (3 <=? families) && (2 <=? providers) &&
     flt (fmax (fmax (fmax source_overlap model_overlap) feature_overlap) argument_overlap)
         (float_lit 4 1) then HIGH
  else if (3 <=? sources) && (2 <=? families) && flt source_overlap (float_lit 6 1) then MEDIUM
  else LOW.

Definition evidence_independence (s : ResearchSnapshot) (reports : list FirmReport)
    : Res EvidenceIndependenceReport :=
  cited ← map_res (cited_records s) reports;
  let source_sets := map (map (λ ce, ev_canonical_source_id ce.2)) cited in
  let sources := concat source_sets in
  let providers := map (λ ce, ev_provider ce.2) (concat cited) in
  let families := map (λ ce, cl_family ce.1) (concat cited) in
  let source_overlap := overlap source_sets in
  let model_overlap := overlap (map report_models reports) in
  let feature_overlap := overlap (map fr_feature_families reports) in
  let argument_overlap := overlap (map fr_argument_families reports) in
  mret (mkIndependence (set_size sources) (set_size providers) (sorted_families families)
    source_overlap model_overlap feature_overlap argument_overlap
    (strength_of (set_size sources) (set_size families) (set_size providers)
       source_overlap model_overlap feature_overlap argument_overlap)
    (["Agreement between firms is not independent confirmation."] ++
     failure (set_size providers <? 2) "Evidence depends on a single provider." ++
     failure (fle (float_lit 5 1) source_overlap)
       "Firms substantially share original sources." ++
     failure (fle (float_lit 5 1) model_overlap)
       "Shared model or LLM provider families reduce independence.")).

(** ** Consensus *)
Definition all_firms : list Firm := [tradingagents; ai_hedge_fund; qlib].
(** [Counter(a) == Counter(b)] on firms. *)
Definition same_counts (a b : list Firm) : bool :=
  forallb (λ f, count_by (λ g, bool_decide (g = f)) a =? count_by (λ g, bool_decide (g = f)) b)
    all_firms.

Definition all_claims (reports : list FirmReport) : list ResearchClaim :=
  flat_map fr_claims reports.
(** [{c.claim_id: c for c in all_claims}] *)
Definition claim_map (l : list ResearchClaim) : gmap string ResearchClaim :=
  foldl (λ m c, <[cl_claim_id c := c]> m) ∅ l.

Definition lean_complete (l : LeanValidationReport) : bool :=
  (30 <=? lv_observations l) && lv_walk_forward l && lv_out_of_sample l && lv_pit_safe l &&
  lv_survivorship_checked l && lv_costs_included l && lv_sensitivity_checked l &&
  is_set (lv_spread_bps l) && is_set (lv_slippage_bps l).

(** One pass of the loop over the findings: [Some id] adds to [verified],
    [None] appends [AUDIT_EVIDENCE_LINK_INVALID]. *)
Definition link (claims : gmap string ResearchClaim) (available : list string)
    (f : AuditFinding) : option string :=
  match claims !! str_or (af_claim_id f) "" with
  | Some c =>
      if bool_decide (af_evidence_ids f = []) || negb (subset_of (af_evidence_ids f) available)
         || negb (intersects (af_evidence_ids f) (cl_evidence_ids c))
      then None else Some (cl_claim_id c)
  | None => None
  end.
Definition verified_findings (a : CIOAuditReport) : list AuditFinding :=
  List.filter (λ f, bool_decide (af_state f = VERIFIED)) (ci_findings a).

(** The list [reasons] of [consensus]. *)
Definition consensus_reasons (s : ResearchSnapshot) (reports : list FirmReport)
    (lean : LeanValidationReport) (audit : CIOAuditReport) (cross_disagreement : bool)
    : list string :=
  let claims := claim_map (all_claims reports) in
  let links := map (link claims (snapshot_evidence_ids s)) (verified_findings audit) in
  failure (existsb (λ r, bool_decide (fr_claims r = [])) reports) "FIRST_PASS_FIRM_ABSTAINED" ++
  failure (existsb (λ r, negb (bool_decide (fr_runtime r = live))) reports)
    "DEMONSTRATION_ONLY" ++
  (if bool_decide (lv_state lean = LEAN_PASS)
   then failure (negb (lean_complete lean)) "LEAN_VALIDATION_METADATA_INCOMPLETE"
   else ["LEAN_INSUFFICIENT_EVIDENCE"]) ++
  failure (negb (ci_completed audit)) "CIO_AUDIT_INCOMPLETE" ++
  failure (ci_material_disagreement audit || cross_disagreement)
    "UNRESOLVED_MATERIAL_DISAGREEMENT" ++
  failure (existsb (λ f, bool_decide (af_state f ∈ [UNSUPPORTED; CONTRADICTED]))
             (ci_findings audit)) "UNVERIFIED_CLAIMS" ++
  failure (negb (bool_decide (size claims = length (all_claims reports))))
    "DUPLICATE_CLAIM_IDENTITY" ++
  flat_map (λ l, failure (negb (is_set l)) "AUDIT_EVIDENCE_LINK_INVALID") links ++
  failure (bool_decide (claims = ∅) ||
           negb (subset_of (map fst (map_to_list claims)) (omap id links)))
    "CLAIM_VERIFICATION_INCOMPLETE".

Section consensus.
Context `{ContentHash, PolicyHash}.

Definition consensus (m : ResearchMandate) (s : ResearchSnapshot) (reports : list FirmReport)
    (lean : LeanValidationReport) (audit : CIOAuditReport) (red_team : RedTeamReport)
    (independence : EvidenceIndependenceReport) (now rounds : Z) (cross_disagreement : bool)
    : Res (ResearchState * list string) :=
  reject (negb ((0 <=? rounds) && (rounds <=? 2)))
    ValueError "at most two cross-examination rounds are permitted" ;;
  eligibility ← eligibility_failures (Some (rs_instrument s)) m now;
  let failures := eligibility ++ snapshot_failures s now in
  mret (
    if negb (bool_decide (failures = [])) then (REJECT, failures)
    else if negb (same_counts (map fr_firm reports) (snapshot_required_firms s))
    then (INSUFFICIENT_EVIDENCE, ["FIRST_PASS_INCOMPLETE"])
    else if existsb (λ r, negb (bool_decide (fr_snapshot_hash r = rs_hash s)) ||
                          negb (bool_decide (fr_snapshot_id r = rs_snapshot_id s))) reports
    then (INSUFFICIENT_EVIDENCE, ["REPORT_SNAPSHOT_MISMATCH"])
    else if negb (bool_decide (ci_snapshot_id audit = rs_snapshot_id s)) ||
            negb (bool_decide (lv_snapshot_id lean = rs_snapshot_id s))
    then (INSUFFICIENT_EVIDENCE, ["AUDIT_SNAPSHOT_MISMATCH"])
    else if bool_decide (rt_state red_team = RED_VETO) ||
            bool_decide (lv_state lean = LEAN_FAIL)
    then (REJECT, ["RED_TEAM_OR_VALIDATION_VETO"])
    else
      let reasons := consensus_reasons s reports lean audit cross_disagreement in
      if negb (bool_decide (reasons = [])) then (INSUFFICIENT_EVIDENCE, reasons)
      else if bool_decide (ei_strength independence = LOW) ||
              bool_decide (rt_state red_team = RED_WARN)
      then (WATCH, ["LIMITED_INDEPENDENCE_OR_RED_TEAM_WARNING"])
      else (RESEARCH_CANDIDATE, ["REQUIRED_EVIDENCE_GATES_PASSED"])).
End consensus.

(** ** Lemmas on the gates *)
Lemma count_by_occ (l : list Firm) f :
  count_by (λ g, bool_decide (g = f)) l = Z.of_nat (count_occ (decide_rel (=)) l f).
Proof.
  induction l as [|g l IH]; [done|]. rewrite count_by_cons, IH. simpl.
  case_bool_decide; destruct (decide_rel (=) g f); try congruence; lia.
Qed.

Lemma same_counts_perm a b : same_counts a b = true ↔ a ≡ₚ b.
Proof.
  unfold same_counts, all_firms. rewrite (Permutation_count_occ (decide_rel (=))). simpl.
  rewrite !andb_true_iff, !Z.eqb_eq, !count_by_occ. split.
  - intros (? & ? & ? & _) []; lia.
  - intros Hab. rewrite !Hab. done.
Qed.

Section claim_maps.
Implicit Types l : list ResearchClaim.

Lemma claim_map_snoc l c : claim_map (l ++ [c]) = <[cl_claim_id c := c]> (claim_map l).
Proof. unfold claim_map. by rewrite foldl_app. Qed.

Lemma dom_claim_map l : dom (claim_map l) = list_to_set (C := gset string) (map cl_claim_id l).
Proof.
  induction l as [|c l IH] using rev_ind; [done|].
  rewrite claim_map_snoc, dom_insert_L, IH, map_app, list_to_set_app_L. set_solver.
Qed.

Lemma claim_map_elem l k c : claim_map l !! k = Some c → c ∈ l ∧ cl_claim_id c = k.
Proof.
  induction l as [|d l IH] using rev_ind; [done|].
  rewrite claim_map_snoc, lookup_insert_Some. set_solver.
Qed.

Lemma claim_map_lookup l c :
  NoDup (map cl_claim_id l) → c ∈ l → claim_map l !! cl_claim_id c = Some c.
Proof.
  induction l as [|d l IH] using rev_ind; [intros _ []%not_elem_of_nil|].
  rewrite map_app, NoDup_app, claim_map_snoc, elem_of_app, list_elem_of_singleton.
  intros (Hnd & Hdis & _) [Hc| ->]; [|apply lookup_insert_eq].
  rewrite lookup_insert_ne; [by apply IH|]. intros Heq.
  apply (Hdis (cl_claim_id c)); [by apply list_elem_of_fmap_2|].
  simpl. rewrite Heq. left.
Qed.

Lemma size_claim_map l : size (claim_map l) = length l ↔ NoDup (map cl_claim_id l).
Proof.
  rewrite <- size_dom, dom_claim_map, <- size_list_to_set_NoDup, length_map. done.
Qed.

Lemma claim_map_empty l : claim_map l = ∅ ↔ l = [].
Proof.
  split; [|by intros ->]. destruct l as [|c l]; [done|]. intros He.
  assert (cl_claim_id c ∈ dom (claim_map (c :: l))) as Hc by (rewrite dom_claim_map; set_solver).
  rewrite He in Hc. set_solver.
Qed.
End claim_maps.

Lemma critical_price_spec s :
  existsb (λ e, ev_critical e && is_ohlcv e) (rs_evidence s) = true ↔
  ∃ e, e ∈ rs_evidence s ∧ ev_critical e = true ∧ is_ohlcv e = true.
Proof. rewrite existsb_true. by setoid_rewrite andb_true_iff. Qed.

Lemma snapshot_failures_nil s now :
  snapshot_failures s now = [] ↔
  (∃ e, e ∈ rs_evidence s ∧ ev_critical e = true ∧ is_ohlcv e = true) ∧
  ∀ e, e ∈ rs_evidence s → ev_critical e = true →
    now < ev_fresh_until e ∧ ev_conflicting e = false ∧
    available_at e (cutoff_for s e) = true.
Proof.
  unfold snapshot_failures. rewrite from_keys_nil, app_nil, failure_nil, negb_false_iff.
  rewrite critical_price_spec, flat_map_nil. setoid_rewrite app_nil. setoid_rewrite app_nil.
  setoid_rewrite failure_nil.
  split; intros [Hp Hall]; (split; [done|]); intros e He.
  - intros Hc. destruct (Hall e He) as (H1 & H2 & H3). rewrite Hc in *. simpl in *.
    bool_norm. done.
  - specialize (Hall e He). destruct (ev_critical e); [|done].
    destruct (Hall eq_refl) as (H1 & -> & ->). simpl. rewrite Z.leb_gt. done.
Qed.

(** A finding that supports claim [c] with evidence of the snapshot. *)
Definition supports (s : ResearchSnapshot) (c : ResearchClaim) (f : AuditFinding) : Prop :=
  af_state f = VERIFIED ∧ str_or (af_claim_id f) "" = cl_claim_id c ∧
  (∀ i, i ∈ af_evidence_ids f → i ∈ snapshot_evidence_ids s) ∧
  ∃ i, i ∈ af_evidence_ids f ∧ i ∈ cl_evidence_ids c.

Lemma link_some claims available f k :
  link claims available f = Some k ↔
  ∃ c, claims !! str_or (af_claim_id f) "" = Some c ∧ cl_claim_id c = k ∧
       (∀ i, i ∈ af_evidence_ids f → i ∈ available) ∧
       ∃ i, i ∈ af_evidence_ids f ∧ i ∈ cl_evidence_ids c.
Proof.
  unfold link. destruct (claims !! _) as [c|]; [|naive_solver].
  rewrite <- (intersects_spec (af_evidence_ids f)) || idtac.
  case_match eqn:Hc; split.
  - done.
  - intros (c' & [= <-] & _ & Hsub%subset_of_spec & Hex).
    pose proof Hex as Hex'%intersects_spec. rewrite Hsub, Hex' in Hc. simpl in Hc.
    rewrite !orb_false_r in Hc. bool_norm. rewrite Hc in Hex. set_solver.
  - intros [= <-]. bool_norm. exists c. rewrite <- subset_of_spec, <- intersects_spec. done.
  - naive_solver.
Qed.

(** What an empty list of reasons certifies about reports, LEAN and audit. *)
Record EvidenceComplete (s : ResearchSnapshot) (reports : list FirmReport)
    (lean : LeanValidationReport) (audit : CIOAuditReport) (cross : bool) : Prop := {
  complete_reports : ∀ r, r ∈ reports → fr_claims r ≠ [] ∧ fr_runtime r = live;
  complete_lean : lv_state lean = LEAN_PASS ∧ lean_complete lean = true;
  complete_audit : ci_completed audit = true ∧ ci_material_disagreement audit = false ∧
                   cross = false;
  complete_findings : ∀ f, f ∈ ci_findings audit →
    af_state f ≠ UNSUPPORTED ∧ af_state f ≠ CONTRADICTED;
  complete_links : ∀ f, f ∈ ci_findings audit → af_state f = VERIFIED →
    ∃ c, c ∈ all_claims reports ∧ supports s c f;
  complete_claims : NoDup (map cl_claim_id (all_claims reports)) ∧ all_claims reports ≠ [];
  complete_verified : ∀ c, c ∈ all_claims reports →
    ∃ f, f ∈ ci_findings audit ∧ supports s c f;
}.

Section reasons.
Context (s : ResearchSnapshot) (reports : list FirmReport) (audit : CIOAuditReport).
Let claims := claim_map (all_claims reports).
Let available := snapshot_evidence_ids s.
Hypothesis Hids : NoDup (map cl_claim_id (all_claims reports)).

Lemma link_supports f k :
  af_state f = VERIFIED → link claims available f = Some k ↔
  ∃ c, c ∈ all_claims reports ∧ cl_claim_id c = k ∧ supports s c f.
Proof using Hids.
  intros Hv. rewrite link_some. split.
  - intros (c & [Hin Hid]%claim_map_elem & <- & Hsub & Hex). exists c.
    unfold supports. naive_solver.
  - intros (c & Hin & <- & _ & Hid & Hsub & Hex). exists c.
    rewrite Hid. split_and!; [by apply claim_map_lookup|done..].
Qed.

Lemma elem_of_verified_findings f :
  f ∈ verified_findings audit ↔ f ∈ ci_findings audit ∧ af_state f = VERIFIED.
Proof. unfold verified_findings. by rewrite elem_of_List_filter, bool_decide_eq_true. Qed.

Lemma links_set :
  flat_map (λ l, failure (negb (is_set l)) "AUDIT_EVIDENCE_LINK_INVALID")
    (map (link claims available) (verified_findings audit)) = [] ↔
  ∀ f, f ∈ ci_findings audit → af_state f = VERIFIED →
    ∃ c, c ∈ all_claims reports ∧ supports s c f.
Proof using Hids.
  rewrite flat_map_nil. setoid_rewrite failure_nil. split.
  - intros Hl f Hf Hv.
    assert (is_set (link claims available f) = true) as Hs.
    { apply negb_false_iff, Hl. apply list_elem_of_fmap_2.
      by apply elem_of_verified_findings. }
    destruct (link claims available f) as [k|] eqn:Hk; [|done].
    apply link_supports in Hk; naive_solver.
  - intros Hall l (f & -> & [Hf Hv]%elem_of_verified_findings)%list_elem_of_fmap.
    destruct (Hall f Hf Hv) as (c & Hc & Hs).
    assert (link claims available f = Some (cl_claim_id c)) as -> by (apply link_supports; eauto).
    done.
Qed.

Lemma claims_verified :
  subset_of (map fst (map_to_list claims))
    (omap id (map (link claims available) (verified_findings audit))) = true ↔
  ∀ c, c ∈ all_claims reports → ∃ f, f ∈ ci_findings audit ∧ supports s c f.
Proof using Hids.
  rewrite subset_of_spec. setoid_rewrite list_elem_of_omap. split.
  - intros Hsub c Hc. destruct (Hsub (cl_claim_id c)) as (l & Hl & Hid).
    { apply list_elem_of_fmap. exists (cl_claim_id c, c). split; [done|].
      by apply elem_of_map_to_list, claim_map_lookup. }
    apply list_elem_of_fmap in Hl as (f & -> & [Hf Hv]%elem_of_verified_findings).
    apply link_supports in Hid as (c' & Hc' & Heq & Hs); [|done].
    exists f. split; [done|]. unfold supports in *. rewrite <- Heq.
    assert (c' = c) as ->; [|naive_solver].
    apply (inj Some). rewrite <- (claim_map_lookup _ c' Hids Hc'), Heq.
    by apply claim_map_lookup.
  - intros Hall k ([k' c] & -> & Hkc%elem_of_map_to_list)%list_elem_of_fmap.
    apply claim_map_elem in Hkc as [Hc Hk]. destruct (Hall c Hc) as (f & Hf & Hs).
    exists (link claims available f). split.
    + apply list_elem_of_fmap_2, elem_of_verified_findings. split; [done|apply Hs].
    + apply link_supports; [apply Hs|]. eauto.
Qed.
End reasons.

Lemma consensus_reasons_nil s reports lean audit cross :
  consensus_reasons s reports lean audit cross = [] ↔
  EvidenceComplete s reports lean audit cross.
Proof.
  unfold consensus_reasons. rewrite !app_nil, !failure_nil. split.
  - intros (H1 & H2 & H3 & H4%negb_false_iff & [H5a H5b]%orb_false_iff & H6 &
            Hids%negb_false_iff%bool_decide_eq_true%size_claim_map & H8 &
            [H9a%bool_decide_eq_false H9b%negb_false_iff]%orb_false_iff).
    rewrite existsb_false in H1, H2. rewrite existsb_false in H6. rewrite links_set in H8 by done.
    rewrite claims_verified in H9b by done.
    split; try done.
    + intros r Hr. specialize (H1 r Hr). specialize (H2 r Hr). by bool_norm.
    + case_bool_decide; [|done]. rewrite failure_nil in H3. by bool_norm.
    + intros f Hf. specialize (H6 f Hf). bool_norm. set_solver.
    + split; [done|]. by rewrite <- claim_map_empty.
  - intros [Hr [Hl1 Hl2] (Ha1 & Ha2 & ->) Hf Hk [Hids Hne] Hv].
    rewrite links_set by done.
    rewrite (proj2 (claims_verified s reports audit Hids) Hv).
    rewrite !existsb_false, Ha1, Ha2, (bool_decide_true (lv_state lean = _)), failure_nil, Hl2 by done.
    rewrite !bool_decide_true by by apply size_claim_map.
    rewrite bool_decide_false by by rewrite claim_map_empty.
    split_and!; try done; intros x Hx.
    + apply bool_decide_eq_false. by apply Hr.
    + rewrite bool_decide_true by by apply Hr. done.
    + apply bool_decide_eq_false. specialize (Hf x Hx). set_solver.
Qed.

(** ** Properties *)
Section outcome.
Context `{ContentHash, PolicyHash}.
Context (m : ResearchMandate) (s : ResearchSnapshot) (reports : list FirmReport)
  (lean : LeanValidationReport) (audit : CIOAuditReport) (red_team : RedTeamReport)
  (independence : EvidenceIndependenceReport) (now rounds : Z) (cross : bool).

(** Everything the gates check before any positive research state. *)
Record ResearchGates : Prop := {
  gate_rounds : 0 ≤ rounds ≤ 2;
  gate_eligible : eligibility_failures (Some (rs_instrument s)) m now = inr [];
  gate_price : ∃ e, e ∈ rs_evidence s ∧ ev_critical e = true ∧ is_ohlcv e = true;
  gate_critical : ∀ e, e ∈ rs_evidence s → ev_critical e = true →
    now < ev_fresh_until e ∧ ev_conflicting e = false ∧
    available_at e (cutoff_for s e) = true;
  gate_firms : map fr_firm reports ≡ₚ snapshot_required_firms s;
  gate_snapshot : ∀ r, r ∈ reports →
    fr_snapshot_hash r = rs_hash s ∧ fr_snapshot_id r = rs_snapshot_id s;
  gate_audit : ci_snapshot_id audit = rs_snapshot_id s ∧
               lv_snapshot_id lean = rs_snapshot_id s;
  gate_veto : rt_state red_team ≠ RED_VETO;
  gate_complete : EvidenceComplete s reports lean audit cross;
}.

Lemma report_snapshot_gate :
  existsb (λ r, negb (bool_decide (fr_snapshot_hash r = rs_hash s)) ||
                negb (bool_decide (fr_snapshot_id r = rs_snapshot_id s))) reports = false ↔
  ∀ r, r ∈ reports → fr_snapshot_hash r = rs_hash s ∧ fr_snapshot_id r = rs_snapshot_id s.
Proof.
  rewrite existsb_false. apply forall_proper. intros r. apply forall_proper. intros _.
  by rewrite orb_false_iff, !negb_false_iff, !bool_decide_eq_true.
Qed.

Lemma consensus_gates_iff st rs :
  consensus m s reports lean audit red_team independence now rounds cross = inr (st, rs) →
  st = WATCH ∨ st = RESEARCH_CANDIDATE ↔ ResearchGates.
Proof.
  unfold consensus. intros Hc. res_inv.
  match goal with
  | H1 : negb _ = false, H2 : eligibility_failures _ _ _ = inr ?x |- _ =>
      rename H1 into Hr, H2 into He; rename x into fs
  end.
  apply negb_false_iff, andb_true_iff in Hr as [?%Z.leb_le ?%Z.leb_le].
  destruct (bool_decide (fs ++ snapshot_failures s now = [])) eqn:Hf; simpl in Hc.
  2:{ simplify_eq. apply bool_decide_eq_false in Hf. split; [naive_solver|]. intros [].
      destruct Hf. rewrite app_nil, snapshot_failures_nil. split; [congruence|done]. }
  apply bool_decide_eq_true, app_nil in Hf as [-> [Hp Hcrit]%snapshot_failures_nil].
  destruct (same_counts _ _) eqn:Hfirms; simpl in Hc.
  2:{ simplify_eq. split; [naive_solver|]. intros []. apply same_counts_perm in gate_firms0.
      congruence. }
  apply same_counts_perm in Hfirms.
  destruct (existsb _ reports) eqn:Hsnap; simpl in Hc.
  { simplify_eq. split; [naive_solver|]. intros [].
    apply report_snapshot_gate in gate_snapshot0. congruence. }
  rewrite report_snapshot_gate in Hsnap.
  destruct (_ || _) eqn:Hids in Hc; simpl in Hc.
  { simplify_eq. split; [naive_solver|]. intros [? ? ? ? ? ? [Ha Hl]].
    by rewrite !bool_decide_true in Hids. }
  bool_norm. destruct (_ || _) eqn:Hveto in Hc; simpl in Hc.
  { simplify_eq. split; [naive_solver|]. intros [].
    rewrite (bool_decide_false (rt_state _ = _)) in Hveto by done. simpl in Hveto. bool_norm.
    destruct gate_complete0 as [_ [] _ _ _ _ _]. congruence. }
  bool_norm.
  destruct (bool_decide (consensus_reasons _ _ _ _ _ = [])) eqn:Hreasons; simpl in Hc.
  2:{ simplify_eq. split; [naive_solver|]. intros [].
      apply consensus_reasons_nil in gate_complete0. by bool_norm. }
  apply bool_decide_eq_true, consensus_reasons_nil in Hreasons.
  split; [|destruct (_ || _); simplify_eq; eauto]. intros _. by split.
Qed.

Lemma consensus_state st rs :
  consensus m s reports lean audit red_team independence now rounds cross = inr (st, rs) →
  rs ≠ [] ∧
  match st with
  | WATCH => ei_strength independence = LOW ∨ rt_state red_team = RED_WARN
  | RESEARCH_CANDIDATE => ei_strength independence ≠ LOW ∧ rt_state red_team ≠ RED_WARN
  | REJECT | INSUFFICIENT_EVIDENCE => True
  | STRONG_RESEARCH_CANDIDATE | EXPIRED => False
  end.
Proof.
  unfold consensus. intros Hc. res_inv.
  repeat (destruct (_ : bool) eqn:? in Hc; simplify_eq; [bool_norm; done|]).
  destruct (_ || _) eqn:Hl in Hc; simplify_eq.
  - split; [done|]. apply orb_true_iff in Hl as [?|?]; bool_norm; auto.
  - split; [done|]. by bool_norm.
Qed.
End outcome.

Section totality.
Context `{ContentHash, PolicyHash}.

Lemma consensus_returns m s reports lean audit red ind now rounds cross fs :
  0 ≤ rounds ≤ 2 → eligibility_failures (Some (rs_instrument s)) m now = inr fs →
  ∃ st rs, consensus m s reports lean audit red ind now rounds cross = inr (st, rs).
Proof.
  intros Hr He. unfold consensus. rewrite He.
  rewrite (proj2 (Z.leb_le 0 rounds)), (proj2 (Z.leb_le rounds 2)) by lia. simpl.
  by repeat case_match; eauto.
Qed.

Lemma candidate_reason m s reports lean audit red ind now rounds cross rs :
  consensus m s reports lean audit red ind now rounds cross = inr (RESEARCH_CANDIDATE, rs) →
  rs = ["REQUIRED_EVIDENCE_GATES_PASSED"].
Proof.
  unfold consensus. intros Hc. res_inv. by repeat case_match; simplify_eq.
Qed.
End totality.

(** C7: [consensus] names a job RESEARCH_CANDIDATE exactly when every gate
    passed: eligibility, a fresh, unconflicted, point-in-time critical price,
    one report per required firm on the frozen snapshot, no veto, a complete
    LEAN pass, and an audit that verified every claim with snapshot evidence;
    and the independence is not LOW and the red team did not warn. *)
Theorem research_candidate_exact `{ContentHash, PolicyHash}
    m s reports lean audit red ind now rounds cross rs :
  consensus m s reports lean audit red ind now rounds cross = inr (RESEARCH_CANDIDATE, rs) ↔
  ResearchGates m s reports lean audit red now rounds cross ∧
  ei_strength ind ≠ LOW ∧ rt_state red ≠ RED_WARN ∧
  rs = ["REQUIRED_EVIDENCE_GATES_PASSED"].
Proof.
  split.
  - intros Hc. pose proof (candidate_reason _ _ _ _ _ _ _ _ _ _ _ Hc) as ->.
    pose proof (consensus_state _ _ _ _ _ _ _ _ _ _ _ _ Hc) as [_ [? ?]].
    split_and!; try done. by apply (consensus_gates_iff _ _ _ _ _ _ _ _ _ _ _ _ Hc); right.
  - intros (Hg & Hs & Hw & ->).
    destruct (consensus_returns m s reports lean audit red ind now rounds cross [])
      as (st & rs & Hc); [apply Hg..|].
    pose proof (consensus_state _ _ _ _ _ _ _ _ _ _ _ _ Hc) as [_ Hst].
    apply (consensus_gates_iff _ _ _ _ _ _ _ _ _ _ _ _ Hc) in Hg as [-> | ->].
    + destruct Hst; contradiction.
    + rewrite Hc. by rewrite (candidate_reason _ _ _ _ _ _ _ _ _ _ _ Hc).
Qed.

(** For a mandate without blank exclusions and at most two rounds,
    [consensus] always returns one of four states with a reason; it never
    issues STRONG_RESEARCH_CANDIDATE or EXPIRED, and the two states above
    INSUFFICIENT_EVIDENCE require every gate. *)
Theorem consensus_total_and_capped `{ContentHash, PolicyHash}
    m s reports lean audit red ind now rounds cross :
  named_exclusions m = true → 0 ≤ rounds ≤ 2 →
  ∃ st rs, consensus m s reports lean audit red ind now rounds cross = inr (st, rs) ∧
    rs ≠ [] ∧ st ∈ [REJECT; INSUFFICIENT_EVIDENCE; WATCH; RESEARCH_CANDIDATE] ∧
    (st ∈ [WATCH; RESEARCH_CANDIDATE] ↔
     ResearchGates m s reports lean audit red now rounds cross).
Proof.
  intros Hm Hr. destruct (eligibility_total (Some (rs_instrument s)) m now Hm) as [fs He].
  destruct (consensus_returns m s reports lean audit red ind now rounds cross fs Hr He)
    as (st & rs & Hc).
  exists st, rs. pose proof (consensus_state _ _ _ _ _ _ _ _ _ _ _ _ Hc) as [Hne Hst].
  rewrite <- (consensus_gates_iff _ _ _ _ _ _ _ _ _ _ _ _ Hc).
  split_and!; try done; destruct st; set_solver.
Qed.

(** The demonstration run: its reports, audit and red team on the demo
    snapshot, with one clock reading throughout. *)
Definition demo_reports (now : Z) : list FirmReport :=
  omap (λ f, match @demo_firm f now (sample_snapshot now) with
             | inr r => Some r | inl _ => None end) all_firms.
Definition demo_consensus (now : Z) : Res (ResearchState * list string) :=
  let s := sample_snapshot now in
  let reports := demo_reports now in
  ind ← evidence_independence s reports;
  @consensus constant_hash (λ _, zero_sha) default_mandate s reports (unavailable_validation s)
    (demo_audit s reports) demo_red_team ind now 1 false.

Example demo_consensus_insufficient :
  demo_consensus (hours 10) =
  inr (INSUFFICIENT_EVIDENCE, ["DEMONSTRATION_ONLY"; "LEAN_INSUFFICIENT_EVIDENCE"]).
Proof. vm_compute. reflexivity. Qed.

Lemma consensus_total_and_capped_witness :
  ∃ st rs, @consensus constant_hash (λ _, zero_sha) default_mandate (sample_snapshot (hours 10))
    (demo_reports (hours 10)) (unavailable_validation (sample_snapshot (hours 10)))
    (demo_audit (sample_snapshot (hours 10)) (demo_reports (hours 10))) demo_red_team
    (mkIndependence 1 1 [] (float_of_Z 1) (float_of_Z 1) (float_of_Z 1) (float_of_Z 1) LOW [])
    (hours 10) 1 false = inr (st, rs) ∧ rs ≠ [].
Proof.
  destruct (@consensus_total_and_capped constant_hash (λ _, zero_sha) default_mandate
    (sample_snapshot (hours 10)) (demo_reports (hours 10))
    (unavailable_validation (sample_snapshot (hours 10)))
    (demo_audit (sample_snapshot (hours 10)) (demo_reports (hours 10))) demo_red_team
    (mkIndependence 1 1 [] (float_of_Z 1) (float_of_Z 1) (float_of_Z 1) (float_of_Z 1) LOW [])
    (hours 10) 1 false eq_refl ltac:(lia)) as (st & rs & Hc & Hne & _).
  exists st, rs. split; [exact Hc|exact Hne].
Defined.
