(* ===== verification/Market.v ===== *)
(** * Prices, market quality and research costs

    [src/money/data/normalization/prices.py], [src/money/data/quality/market.py]
    and [src/money/risk/costs.py]. *)

From S2P Require Import Prelude Effects PyNum PyText Contracts Demo Eligibility.
#[local] Open Scope Z_scope.

(** ** Quote normalisation *)
Definition price_gbp (value : Decimal) (c : Currency) : Res Decimal :=
  reject (dec_le value (dec 0)) ValueError "price must be finite and positive" ;;
  match c with
  | GBP => mret value
  | GBX => dec_div value (dec 100)
  end.

Record NormalizedPrice := mkNormalized {
  np_raw_value : Decimal; np_raw_currency : Currency; np_gbp : Decimal; np_method : string
}.
Definition normalize_gbp (value : Decimal) (c : Currency) : Res NormalizedPrice :=
  gbp ← price_gbp value c;
  mret (mkNormalized value c gbp
          (match c with GBX => "GBX_DIVIDE_100" | GBP => "GBP_IDENTITY" end)).

(** ** Market quality *)
Record MarketQualityPolicy := mkQualityPolicy {
  mp_version : string;
  mp_minimum_bars : Z;
  mp_maximum_latest_age_hours : Z;
  mp_maximum_zero_volume_bars : Z;
  mp_minimum_average_daily_value_gbp : Decimal;
  mp_maximum_spread_bps : Decimal;
  mp_maximum_one_day_move : Decimal
}.
Definition default_quality_policy : MarketQualityPolicy :=
  mkQualityPolicy "uk-daily-conservative-v1" 60 96 0 (dec 100000) (dec 100) (Dec 5 (-1)).

Record MarketQuality := mkQuality {
  mq_policy_version : string;
  mq_passed : bool;
  mq_reasons : list string;
  mq_observations : Z;
  mq_average_daily_value_gbp : option Decimal;
  mq_median_daily_volume : option Decimal;
  mq_spread_bps : option Decimal;
  mq_adjustment_basis : string
}.
#[export] Instance quality_eq_dec : EqDecision MarketQuality.
Proof. solve_decision. Defined.

Definition bar_of (e : EvidenceRecord) : option PriceBar :=
  match ev_payload e with Ohlcv b => Some b | _ => None end.
(** [[e for e in snapshot.evidence if isinstance(e.payload, PriceBar)]] *)
Definition price_records (s : ResearchSnapshot) : list EvidenceRecord :=
  List.filter (λ e, is_set (bar_of e)) (rs_evidence s).
(** [sorted(records, key=lambda e: e.observation_time)] *)
Definition ordered_prices (s : ResearchSnapshot) : list EvidenceRecord :=
  sort_asc ev_observation_time (price_records s).

Definition traded_value (b : PriceBar) : Res Decimal :=
  p ← normalize_gbp (pb_close b) (pb_currency b);
  mret (dec_mul (np_gbp p) (dec (pb_volume b))).
(** [sum(values, Decimal(0)) / len(values)] *)
Definition dec_sum (l : list Decimal) : Decimal := foldl dec_add (dec 0) l.
Definition dec_mean (l : list Decimal) : Res Decimal :=
  dec_div (dec_sum l) (dec (Z.of_nat (length l))).

(** [statistics.median] of integers, through [str] to [Decimal]. *)
Definition median (l : list Z) : Res Decimal :=
  let s := sort_asc id l in
  let n := length l in
  let at_ k := nth k s 0 in
  if bool_decide (l = []) then fail OperationFailed "StatisticsError"
  else if Nat.odd n then mret (dec (at_ (n / 2)%nat))
  else match decimal_of_float (fdiv (float_of_Z (at_ (n / 2 - 1)%nat + at_ (n / 2)%nat))
                                    (float_of_Z 2)) with
       | Finite d => mret d
       | NotFinite => fail OperationFailed "OverflowError"
       end.

(** [abs(right.close / left.close - 1) > maximum] for some consecutive bars. *)
Fixpoint extreme_move (limit : Decimal) (bars : list PriceBar) : Res bool :=
  match bars with
  | prev :: ((next :: _) as rest) =>
      q ← dec_div (pb_close next) (pb_close prev);
      if dec_lt limit (dec_abs (dec_sub q (dec 1))) then mret true
      else extreme_move limit rest
  | _ => mret false
  end.

Definition spread_failures (spread : option AnyDecimal) (limit : Decimal) : list string :=
  match spread with
  | None => ["SPREAD_EVIDENCE_MISSING"]
  | Some NotFinite => ["SPREAD_EVIDENCE_INVALID"]
  | Some (Finite d) =>
      failure (dec_lt d (dec 0) || dec_lt limit d) "SPREAD_EXCEEDS_POLICY"
  end.

Definition quality_data_failures (s : ResearchSnapshot) (now : Z) (basis : string)
    (actions_complete : bool) (p : MarketQualityPolicy) : list string :=
  let records := price_records s in
  let ordered := ordered_prices s in
  let bars := omap bar_of ordered in
  failure ((now <? rs_created_at s) ||
           existsb (λ r, negb (available_at r (rs_price_cutoff s))) records) "PIT_VIOLATION" ++
  failure (existsb ev_conflicting records) "CRITICAL_DATA_CONFLICT" ++
  failure (existsb (λ r, ev_fresh_until r <=? now) records) "CRITICAL_DATA_STALE" ++
  failure (negb (bool_decide (records = ordered))) "NON_MONOTONIC_PRICES" ++
  failure (negb (distinct (map ev_observation_time records))) "DUPLICATE_PRICE_TIMESTAMP" ++
  failure (Z.of_nat (length records) <? mp_minimum_bars p) "INSUFFICIENT_PRICE_OBSERVATIONS" ++
  failure (match last ordered with
           | None => true
           | Some r => hours (mp_maximum_latest_age_hours p) <? now - ev_observation_time r
           end) "CRITICAL_DATA_STALE" ++
  failure (existsb (λ b, negb (bool_decide (currency_name (pb_currency b) =
                                             im_quote_currency (rs_instrument s)))) bars)
    "PRICE_CURRENCY_MISMATCH" ++
  failure (bool_decide (basis = "UNKNOWN") || negb actions_complete)
    "CORPORATE_ACTION_COVERAGE_UNKNOWN" ++
  failure (existsb (λ e, bool_decide (payload_kind (ev_payload e) = "corporate_action"))
             (rs_evidence s) && bool_decide (basis = "RAW"))
    "CORPORATE_ACTION_REQUIRES_ADJUSTMENT_REVIEW".

Definition evaluate_market_quality (s : ResearchSnapshot) (now : Z)
    (spread : option AnyDecimal) (basis : string) (actions_complete : bool)
    (p : MarketQualityPolicy) : Res MarketQuality :=
  let bars := omap bar_of (ordered_prices s) in
  let recent := last_n 20 bars in
  values ← map_res traded_value recent;
  average ← (if bool_decide (values = []) then mret None
             else a ← dec_mean values; mret (Some a));
  extreme ← extreme_move (mp_maximum_one_day_move p) bars;
  volume ← (if bool_decide (bars = []) then mret None
            else m ← median (map pb_volume recent); mret (Some m));
  let reasons :=
    quality_data_failures s now basis actions_complete p ++
    failure (match average with
             | None => true
             | Some a => dec_lt a (mp_minimum_average_daily_value_gbp p)
             end) "LIQUIDITY_INSUFFICIENT" ++
    failure (mp_maximum_zero_volume_bars p <? count_by (λ b, pb_volume b =? 0) recent)
      "ZERO_VOLUME_BARS" ++
    spread_failures spread (mp_maximum_spread_bps p) ++
    failure extreme "EXTREME_PRICE_MOVE_REQUIRES_REVIEW" in
  mret (mkQuality (mp_version p) (bool_decide (reasons = [])) (from_keys reasons)
          (Z.of_nat (length bars)) average volume
          (match spread with Some (Finite d) => Some d | _ => None end) basis).

(** ** Research costs *)

(** [datetime.date] as a day count from 1970-01-01 (proleptic Gregorian). *)
Definition date (y m d : Z) : Z :=
  let y' := if m <=? 2 then y - 1 else y in
  let era := y' / 400 in
  let yoe := y' - era * 400 in
  let doy := (153 * (if 2 <? m then m - 3 else m + 9) + 2) / 5 + d - 1 in
  era * 146097 + (yoe * 365 + yoe / 4 - yoe / 100 + doy) - 719468.
(** [instant.date()] in UTC. *)
Definition date_of (t : Z) : Z := t / days 1.

Record CostRule := mkRule {
  cr_rule_id : string;
  cr_effective_from : Z;
  cr_effective_to : Z;
  cr_source : string;
  cr_applicability : string;
  cr_rate : Decimal;
  cr_fixed_gbp : Decimal;
  cr_threshold_gbp : Decimal
}.
(** [CostRule.valid_window] and the field bounds. *)
Definition validate_rule (r : CostRule) : Res CostRule :=
  require (truthy (cr_rule_id r) && truthy (cr_source r) && truthy (cr_applicability r) &&
           dec_le (dec 0) (cr_rate r) && dec_le (dec 0) (cr_fixed_gbp r) &&
           dec_le (dec 0) (cr_threshold_gbp r)) ;;
  reject (cr_effective_to r <=? cr_effective_from r) ValueError "COST_RULE_WINDOW_INVALID" ;;
  mret r.
Definition SDRT : CostRule :=
  mkRule "hmrc-sdrt-verified-2026-09-16" (date 2026 9 16) (date 2026 10 16)
    "https://www.gov.uk/hmrc-internal-manuals/stamp-taxes-shares-manual/stsm031030"
    "Electronic transfer of chargeable securities; instrument-specific exemption review required"
    (Dec 5 (-3)) (dec 0) (dec 0).
Definition PTM : CostRule :=
  mkRule "ptm-verified-2026-09-16" (date 2026 9 16) (date 2026 10 16)
    "https://www.thetakeoverpanel.org.uk/disclosure/ptm-levy"
    "Relevant securities with consideration greater than £10,000"
    (dec 0) (Dec 150 (-2)) (dec 10000).

Inductive SdrtStatus := SDRT_APPLIES | SDRT_EXEMPT | SDRT_UNKNOWN.
#[export] Instance sdrt_eq_dec : EqDecision SdrtStatus.
Proof. solve_decision. Defined.
Record CostApplicability := mkApplicability {
  co_sdrt : SdrtStatus;
  co_evidence_source : string;
  co_exemption_reason : option string;
  co_broker_round_trip_fee_gbp : option Decimal;
  co_broker_fee_source : option string;
  co_other_round_trip_charges_gbp : option Decimal;
  co_other_charge_source : option string
}.
#[export] Instance applicability_eq_dec : EqDecision CostApplicability.
Proof. solve_decision. Defined.

Definition validate_applicability (a : CostApplicability) : Res CostApplicability :=
  require (truthy (co_evidence_source a) &&
           opt_ok (dec_le (dec 0)) (co_broker_round_trip_fee_gbp a) &&
           opt_ok (dec_le (dec 0)) (co_other_round_trip_charges_gbp a)) ;;
  mret a.

Record ResearchCostEstimate := mkCosts {
  ce_version : string;
  ce_notional_gbp : Decimal;
  ce_spread_bps : Decimal;
  ce_slippage_per_side_bps : Decimal;
  ce_tax_gbp : Decimal;
  ce_market_levy_gbp : Decimal;
  ce_total_round_trip_gbp : Decimal;
  ce_total_round_trip_bps : Decimal;
  ce_assumptions : list string;
  ce_sources : list string
}.
#[export] Instance costs_eq_dec : EqDecision ResearchCostEstimate.
Proof. solve_decision. Defined.

Definition any_finite (d : AnyDecimal) : bool :=
  match d with Finite _ => true | NotFinite => false end.
Definition finite_value (d : AnyDecimal) : Decimal :=
  match d with Finite x => x | NotFinite => dec 0 end.

Definition estimate_costs (notional : Decimal) (on_date : Z) (a : CostApplicability)
    (spread slippage : AnyDecimal) (sdrt_rule ptm_rule : CostRule)
    : Res ResearchCostEstimate :=
  let spread_bps := finite_value spread in
  let slippage_bps := finite_value slippage in
  reject (negb (any_finite spread) || negb (any_finite slippage) ||
          negb (dec_lt (dec 0) notional && dec_le notional (dec 200)) ||
          dec_lt (dec_min spread_bps slippage_bps) (dec 0))
    ValueError "COST_INPUT_INVALID" ;;
  reject (existsb (λ r, negb ((cr_effective_from r <=? on_date) &&
                              (on_date <? cr_effective_to r))) [sdrt_rule; ptm_rule])
    ValueError "COST_RULE_NOT_EFFECTIVE" ;;
  reject (bool_decide (co_sdrt a = SDRT_UNKNOWN) ||
          (bool_decide (co_sdrt a = SDRT_EXEMPT) && negb (truthy_opt (co_exemption_reason a))))
    ValueError "COST_APPLICABILITY_UNKNOWN" ;;
  match co_broker_round_trip_fee_gbp a, co_other_round_trip_charges_gbp a with
  | Some broker, Some other =>
      reject (negb (truthy_opt (co_broker_fee_source a)) ||
              negb (truthy_opt (co_other_charge_source a)))
        ValueError "COST_COVERAGE_MISSING" ;;
      tax ← (if bool_decide (co_sdrt a = SDRT_APPLIES)
             then quantize (dec_mul notional (cr_rate sdrt_rule)) (-2) ROUND_HALF_UP
             else mret (dec 0));
      let levy := if dec_lt (cr_threshold_gbp ptm_rule) notional
                  then dec_mul (dec 2) (cr_fixed_gbp ptm_rule) else dec 0 in
      friction ← dec_div (dec_mul notional
                            (dec_add spread_bps (dec_mul (dec 2) slippage_bps))) (dec 10000);
      let total := dec_add (dec_add (dec_add (dec_add tax levy) friction) broker) other in
      ratio ← dec_div total notional;
      mret (mkCosts (cr_rule_id sdrt_rule +:+ "/" +:+ cr_rule_id ptm_rule) notional spread_bps
        slippage_bps tax levy total (dec_mul ratio (dec 10000))
        ["One full spread and slippage on both sides; hypothetical research only.";
         "PTM levy " +:+ (if coef levy =? 0 then "does not apply" else "applies on both sides")
           +:+ " at £" +:+ decimal_text notional +:+ ": configured threshold is £"
           +:+ decimal_text (cr_threshold_gbp ptm_rule) +:+ ".";
         str_or (co_exemption_reason a) "SDRT applies based on supplied instrument evidence."]
        [cr_source sdrt_rule; cr_source ptm_rule; co_evidence_source a;
         str_or (co_broker_fee_source a) ""; str_or (co_other_charge_source a) ""])
  | _, _ => fail ValueError "COST_COVERAGE_MISSING"
  end.
