(* ===== verification/Signals.v ===== *)
(** * Deterministic signal design ([src/money/signals/generation.py])

    [generate_signal] runs after every evidence gate: it derives hypothetical
    ATR levels, sizes an illustrative allocation by binary search over whole
    pennies and seals the result. TA-Lib (used by
    [src/money/scanner/technical.py]) is the parameter [TaLib]. *)

From S2P Require Import Prelude Effects PyNum PyText Contracts Demo Eligibility Governance.
From S2P Require Import Market.
#[local] Open Scope Z_scope.

Record SignalPolicy := mkSignalPolicy {
  sp_version : string;
  sp_maximum_allocation_gbp : Decimal;
  sp_maximum_downside_gbp : Decimal;
  sp_maximum_downside_fraction : Decimal;
  sp_entry_half_width_atr : Decimal;
  sp_invalidation_atr : Decimal;
  sp_target_atr : Decimal;
  sp_minimum_risk_reward : Decimal;
  sp_horizon_days : Z;
  sp_rationale : string
}.
#[export] Instance signal_policy_eq_dec : EqDecision SignalPolicy.
Proof. solve_decision. Defined.
Definition default_signal_policy : SignalPolicy :=
  mkSignalPolicy "atr-research-scenarios-v1" (dec 200) (dec 4) (Dec 2 (-2)) (Dec 25 (-2))
    (dec 2) (dec 6) (Dec 15 (-1)) 5
    "Illustrative ATR scenarios: 2 ATR invalidation, 6 ATR target, quarter-ATR entry interval, at most 2%/£4 modelled capital downside including sourced costs. These conservative policy limits are not empirically calibrated forecasts.".

Definition within (lo hi d : Decimal) : bool := dec_le lo d && dec_le d hi.
Definition positive_up_to (hi d : Decimal) : bool := dec_lt (dec 0) d && dec_le d hi.
Definition validate_signal_policy (p : SignalPolicy) : Res SignalPolicy :=
  require (positive_up_to (dec 200) (sp_maximum_allocation_gbp p) &&
           positive_up_to (dec 4) (sp_maximum_downside_gbp p) &&
           positive_up_to (Dec 2 (-2)) (sp_maximum_downside_fraction p) &&
           positive_up_to (dec 1) (sp_entry_half_width_atr p) &&
           within (dec 1) (dec 5) (sp_invalidation_atr p) &&
           within (dec 2) (dec 10) (sp_target_atr p) &&
           within (Dec 15 (-1)) (dec 10) (sp_minimum_risk_reward p) &&
           (1 <=? sp_horizon_days p) && (sp_horizon_days p <=? 30)) ;;
  mret p.

Definition SIGNAL_LIMITATIONS : list string :=
  ["ATR-derived levels are hypothetical research scenarios, not price predictions or execution instructions.";
   "Illustrative allocation uses the mandate's assumed capital, never a broker balance or position.";
   "Modelled downside is a scenario, not a guaranteed loss limit; gaps can exceed it.";
   "No calibrated probability or strong-candidate status is available."].

Record SignalDesign := mkDesign {
  sd_policy_version : string;
  sd_policy : option SignalPolicy;
  sd_market_quality : option MarketQuality;
  sd_cost_applicability : option CostApplicability;
  sd_designed_at : option Z;
  sd_signal : option ResearchSignal;
  sd_reasons : list string;
  sd_current_raw : option Decimal;
  sd_current_currency : option Currency;
  sd_current_gbp : option Decimal;
  sd_entry_low_gbp : option Decimal;
  sd_entry_high_gbp : option Decimal;
  sd_invalidation_gbp : option Decimal;
  sd_targets_gbp : list Decimal;
  sd_atr_gbp : option Decimal;
  sd_costs : option ResearchCostEstimate;
  sd_risk_reward : option Decimal;
  sd_evidence_ids : list string;
  sd_limitations : list string
}.
#[export] Instance design_eq_dec : EqDecision SignalDesign.
Proof. solve_decision. Defined.

(** TA-Lib on the price bars: the last 14-bar ATR, and whether every indicator
    [calculate_technical] reads is finite. *)
Class TaLib := { ta_atr : list PriceBar → spec_float; ta_finite : list PriceBar → bool }.
(** [content_hash] of a policy. *)
Class SignalPolicyHash := hash_signal_policy : SignalPolicy → string.

(** [DOWNGRADE_REASONS] *)
Definition DOWNGRADE_REASONS : list string :=
  ["SPREAD_EVIDENCE_STALE"; "LEAN_SCENARIO_POLICY_UNQUALIFIED"; "MARKET_QUALITY_NOT_QUALIFIED";
   "MARKET_QUALITY_EXPIRED_OR_CHANGED"; "TRANSACTION_COST_EVIDENCE_MISSING";
   "VALIDATION_SPREAD_MISMATCH"; "TECHNICAL_SCENARIO_UNAVAILABLE"; "TA_LIB_WARMUP_INSUFFICIENT";
   "SCENARIO_LEVELS_INVALID"; "COST_INPUT_INVALID"; "COST_RULE_NOT_EFFECTIVE";
   "COST_APPLICABILITY_UNKNOWN"; "COST_COVERAGE_MISSING";
   "ILLUSTRATIVE_RISK_BUDGET_INSUFFICIENT"; "COST_ADJUSTED_RISK_REWARD_INSUFFICIENT";
   "SIGNAL_EVIDENCE_ALREADY_EXPIRED"; "PIT_VIOLATION"; "CRITICAL_DATA_CONFLICT";
   "CRITICAL_DATA_STALE"; "NON_MONOTONIC_PRICES"; "DUPLICATE_PRICE_TIMESTAMP";
   "INSUFFICIENT_PRICE_OBSERVATIONS"; "PRICE_CURRENCY_MISMATCH";
   "CORPORATE_ACTION_COVERAGE_UNKNOWN"; "CORPORATE_ACTION_REQUIRES_ADJUSTMENT_REVIEW";
   "LIQUIDITY_INSUFFICIENT"; "ZERO_VOLUME_BARS"; "SPREAD_EVIDENCE_MISSING";
   "SPREAD_EVIDENCE_INVALID"; "SPREAD_EXCEEDS_POLICY"; "EXTREME_PRICE_MOVE_REQUIRES_REVIEW"].

(** ** Scenario levels and sizing *)
Record Levels := mkLevels {
  le_price : Decimal; le_low : Decimal; le_high : Decimal; le_invalidation : Decimal;
  le_target : Decimal
}.
Definition levels (p : SignalPolicy) (price atr : Decimal) : Res Levels :=
  low ← quantize (dec_sub price (dec_mul (sp_entry_half_width_atr p) atr)) (-6) ROUND_FLOOR;
  high ← quantize (dec_add price (dec_mul (sp_entry_half_width_atr p) atr)) (-6) ROUND_CEILING;
  invalidation ← quantize (dec_sub price (dec_mul (sp_invalidation_atr p) atr)) (-6) ROUND_FLOOR;
  target ← quantize (dec_add price (dec_mul (sp_target_atr p) atr)) (-6) ROUND_FLOOR;
  mret (mkLevels price low high invalidation target).
Definition levels_valid (l : Levels) (atr : Decimal) : bool :=
  negb (dec_le atr (dec 0)) && negb (dec_le (le_invalidation l) (dec 0)) &&
  dec_lt (le_invalidation l) (le_low l) && dec_le (le_low l) (le_high l) &&
  dec_lt (le_high l) (le_target l).

(** One probe of the search: the costs and modelled downside at [middle] pence. *)
Definition sizing (l : Levels) (on_date : Z) (a : CostApplicability)
    (spread slippage : AnyDecimal) (middle : Z)
    : Res (Decimal * Decimal * ResearchCostEstimate) :=
  allocation ← dec_div (dec middle) (dec 100);
  costs ← estimate_costs allocation on_date a spread slippage SDRT PTM;
  scenario ← dec_div (dec_mul allocation (dec_sub (le_high l) (le_invalidation l))) (le_high l);
  mret (allocation, dec_add scenario (ce_total_round_trip_gbp costs), costs).

(** [while left <= right]: [fuel] is the width of the interval. *)
Fixpoint search (probe : Z → Res (Decimal * Decimal * ResearchCostEstimate)) (limit : Decimal)
    (fuel : nat) (lo hi : Z) (best : option (Decimal * Decimal * ResearchCostEstimate))
    : Res (option (Decimal * Decimal * ResearchCostEstimate)) :=
  match fuel with
  | O => mret best
  | S f =>
      if hi <? lo then mret best else
      let middle := (lo + hi) / 2 in
      r ← probe middle;
      if dec_le r.1.2 limit then search probe limit f (middle + 1) hi (Some r)
      else search probe limit f lo (middle - 1) best
  end.

Section generate.
Context `{ContentHash, Pydantic, PolicyHash, TaLib, SignalPolicyHash}.

(** What [generate_signal] reads of [calculate_technical(snapshot)]: the
    limitations when unavailable, else the ATR; a raised [ValueError] is the
    failing case. *)
Definition technical_atr (s : ResearchSnapshot) : Res (list string + spec_float) :=
  let records := ordered_prices s in
  let bars := omap bar_of records in
  if Z.of_nat (length records) <? 60 then mret (inl ["TA_LIB_WARMUP_INSUFFICIENT"])
  else
    reject (negb (distinct (map ev_observation_time records)))
      ValueError "duplicate technical observation" ;;
    reject (existsb (λ r, negb (available_at r (rs_price_cutoff s)) || ev_conflicting r) records)
      ValueError "technical input is unsafe" ;;
    reject (existsb (λ r, (ev_fresh_until r <=? rs_created_at s) ||
              match bar_of r with
              | Some b => negb (bool_decide (currency_name (pb_currency b) =
                                             im_quote_currency (rs_instrument s)))
              | None => false
              end) records)
      ValueError "technical input freshness or currency mismatch" ;;
    map_res (λ vc : Decimal * Currency, normalize_gbp vc.1 vc.2)
      (flat_map (λ b, [(pb_open b, pb_currency b); (pb_high b, pb_currency b);
                       (pb_low b, pb_currency b); (pb_close b, pb_currency b)]) bars) ;;
    reject (negb (ta_finite bars)) ValueError "TA-Lib returned unavailable indicator" ;;
    mret (inr (ta_atr bars)).

Definition unavailable (p : SignalPolicy) (q : MarketQuality) (a : CostApplicability)
    (issued_at : Z) (reasons : list string) : SignalDesign :=
  mkDesign (sp_version p) (Some p) (Some q) (Some a) (Some issued_at) None reasons None None
    None None None None [] None None None [] SIGNAL_LIMITATIONS.

(** The signal of [generate_signal] from its sized scenario. *)
Definition scenario_signal (research_id : string) (m : ResearchMandate) (s : ResearchSnapshot)
    (p : SignalPolicy) (state : ResearchState) (issued_at valid_until : Z) (l : Levels)
    (currency : Currency) (allocation downside : Decimal) : ResearchSignal :=
  let divisor := match currency with GBX => dec 100 | GBP => dec 1 end in
  mkSignal research_id (rs_ticker s)
    (match state with WATCH => WATCH | _ => RESEARCH_CANDIDATE end) issued_at valid_until
    (dec_mul (le_low l) divisor) (dec_mul (le_high l) divisor) currency
    ["Hypothetical price invalidation at " +:+ decimal_text (dec_mul (le_invalidation l) divisor)
       +:+ " " +:+ currency_name currency +:+ ".";
     "Material source contradiction or ethical/broker-universe eligibility change."]
    ["New corporate action, dilution, or material adverse filing.";
     "Critical evidence becomes stale, conflicted, or unavailable."]
    [dec_mul (le_target l) divisor] (rm_maximum_capital_gbp m) allocation downside
    (sp_horizon_days p) None None.

(** The part of [generate_signal] after the market and cost gates. *)
Definition design_scenario (research_id : string) (m : ResearchMandate) (s : ResearchSnapshot)
    (p : SignalPolicy) (q : MarketQuality) (a : CostApplicability) (state : ResearchState)
    (issued_at : Z) (spread slippage : AnyDecimal) (atr : Decimal) : Res SignalDesign :=
  let none reasons := mret (unavailable p q a issued_at reasons) in
  let prices := ordered_prices s in
  match last prices ≫= bar_of with
  | None => fail OperationFailed "IndexError"
  | Some latest =>
      normalized ← normalize_gbp (pb_close latest) (pb_currency latest);
      l ← levels p (np_gbp normalized) atr;
      if negb (levels_valid l atr) then none ["SCENARIO_LEVELS_INVALID"] else
      let capital := rm_maximum_capital_gbp m in
      let limit := dec_min (sp_maximum_downside_gbp p)
                           (dec_mul capital (sp_maximum_downside_fraction p)) in
      let maximum := dec_min capital (sp_maximum_allocation_gbp p) in
      let pennies := to_integral (dec_mul maximum (dec 100)) ROUND_FLOOR in
      match search (sizing l (date_of issued_at) a spread slippage) limit (Z.to_nat pennies) 1
              pennies None with
      | inl e => if is_instance e ValueError then none [exn_msg e] else inl e
      | inr None => none ["ILLUSTRATIVE_RISK_BUDGET_INSUFFICIENT"]
      | inr (Some (allocation, downside, costs)) =>
          gain ← dec_div (dec_mul allocation (dec_sub (le_target l) (le_high l))) (le_high l);
          risk_reward ← dec_div (dec_sub gain (ce_total_round_trip_gbp costs)) downside;
          if dec_lt risk_reward (sp_minimum_risk_reward p)
          then none ["COST_ADJUSTED_RISK_REWARD_INSUFFICIENT"] else
          let valid_until :=
            min_all (Z.min (issued_at + days (sp_horizon_days p))
                           (im_verified_at (rs_instrument s) + hours 24))
              (map ev_fresh_until (List.filter ev_critical (rs_evidence s))) in
          if valid_until <=? issued_at then none ["SIGNAL_EVIDENCE_ALREADY_EXPIRED"] else
          g ← validate_signal (scenario_signal research_id m s p state issued_at valid_until l
                                 (pb_currency latest) allocation downside);
          mret (mkDesign (sp_version p) (Some p) (Some q) (Some a) (Some issued_at) (Some g) []
            (Some (pb_close latest)) (Some (pb_currency latest)) (Some (np_gbp normalized))
            (Some (le_low l)) (Some (le_high l)) (Some (le_invalidation l)) [le_target l]
            (Some atr) (Some costs) (Some risk_reward) (map ev_evidence_id prices)
            SIGNAL_LIMITATIONS)
      end
  end.

Definition generate_signal (research_id : string) (m : ResearchMandate) (s : ResearchSnapshot)
    (reports : list FirmReport) (lean : LeanValidationReport) (audit : CIOAuditReport)
    (red_team : RedTeamReport) (state : ResearchState) (issued_at : Z) (q : MarketQuality)
    (a : CostApplicability) (policy : option SignalPolicy) (rounds : Z) : Res SignalDesign :=
  p ← validate_signal_policy (default default_signal_policy policy);
  let none reasons := mret (unavailable p q a issued_at reasons) in
  if negb (mem state [RESEARCH_CANDIDATE; WATCH]) then none ["SIGNAL_STATE_NOT_ADMISSIBLE"] else
  independence ← evidence_independence s reports;
  expected ← consensus m s reports lean audit red_team independence issued_at rounds false;
  if negb (bool_decide (expected.1 = state))
  then none ("SIGNAL_CONSENSUS_MISMATCH" :: expected.2) else
  if negb (bool_decide (lv_scenario_policy_hash lean = Some (hash_signal_policy p))) ||
     negb ((rm_minimum_horizon_days m <=? sp_horizon_days p) &&
           (sp_horizon_days p <=? rm_maximum_horizon_days m))
  then none ["LEAN_SCENARIO_POLICY_UNQUALIFIED"] else
  match mq_spread_bps q with
  | None => none ("MARKET_QUALITY_NOT_QUALIFIED" :: mq_reasons q)
  | Some quality_spread =>
      if negb (mq_passed q) then none ("MARKET_QUALITY_NOT_QUALIFIED" :: mq_reasons q) else
      let basis := mq_adjustment_basis q in
      if negb (mem basis ["RAW"; "SPLIT_ADJUSTED"; "TOTAL_RETURN"])
      then none ["CORPORATE_ACTION_COVERAGE_UNKNOWN"] else
      checked ← evaluate_market_quality s issued_at (Some (Finite quality_spread)) basis true
                  default_quality_policy;
      if negb (mq_passed checked)
      then none ("MARKET_QUALITY_EXPIRED_OR_CHANGED" :: mq_reasons checked) else
      match lv_spread_bps lean, lv_slippage_bps lean with
      | Some spread_float, Some slippage_float =>
          let spread := decimal_of_float spread_float in
          let slippage := decimal_of_float slippage_float in
          if negb (match spread with
                   | Finite d => dec_eq d quality_spread | NotFinite => false end)
          then none ["VALIDATION_SPREAD_MISMATCH"] else
          match technical_atr s with
          | inl e => if is_instance e ValueError
                     then none ["TECHNICAL_SCENARIO_UNAVAILABLE"] else inl e
          | inr (inl limitations) => none limitations
          | inr (inr atr_float) =>
              match decimal_of_float atr_float with
              | NotFinite => fail OperationFailed "InvalidOperation"
              | Finite d =>
                  atr ← quantize d (-6) ROUND_HALF_EVEN;
                  design_scenario research_id m s p q a state issued_at spread slippage atr
              end
          end
      | _, _ => none ["TRANSACTION_COST_EVIDENCE_MISSING"]
      end
  end.
End generate.

(** ** The allocation search *)
Section search.
Context (probe : Z → Res (Decimal * Decimal * ResearchCostEstimate)) (limit : Decimal).
Definition affordable (k : Z) : bool :=
  match probe k with inr v => dec_le v.1.2 limit | inl _ => false end.

Lemma search_sound fuel lo hi best r :
  search probe limit fuel lo hi best = inr r →
  r = best ∨ ∃ k v, lo ≤ k ≤ hi ∧ probe k = inr v ∧ r = Some v ∧ dec_le v.1.2 limit = true.
Proof.
  revert lo hi best. induction fuel as [|f IH]; intros lo hi best; simpl; [intros [= ->]; auto|].
  destruct (Z.ltb_spec hi lo); [intros [= ->]; auto|].
  pose proof (Z.div_mod (lo + hi) 2). pose proof (Z.mod_pos_bound (lo + hi) 2).
  set (mid := (lo + hi) / 2) in *. intros Hs. apply res_bind_inr in Hs as (v & Hv & Hs).
  destruct (dec_le v.1.2 limit) eqn:Hok.
  - apply IH in Hs as [->|(k & w & Hk & ?)].
    + right. exists mid, v. split_and!; [lia..|done|done|done].
    + right. exists k, w. split; [lia|done].
  - apply IH in Hs as [->|(k & w & Hk & ?)]; [by left|].
    right. exists k, w. split; [lia|done].
Qed.

(** Fuel beyond the width of the interval changes nothing. *)
Lemma search_fuel fuel lo hi best :
  hi - lo + 1 ≤ Z.of_nat fuel →
  ∀ extra, search probe limit (fuel + extra) lo hi best = search probe limit fuel lo hi best.
Proof.
  revert lo hi best. induction fuel as [|f IH]; intros lo hi best Hf extra; simpl.
  - destruct extra; simpl; [done|]. destruct (Z.ltb_spec hi lo); [done|lia].
  - destruct (Z.ltb_spec hi lo); [done|].
    pose proof (Z.div_mod (lo + hi) 2). pose proof (Z.mod_pos_bound (lo + hi) 2).
    set (mid := (lo + hi) / 2) in *. destruct (probe mid) as [e|v]; simpl; [done|].
    destruct (dec_le v.1.2 limit); apply IH; lia.
Qed.

Lemma search_greatest fuel lo hi best :
  hi - lo + 1 ≤ Z.of_nat fuel →
  (∀ k, lo ≤ k ≤ hi → ∃ v, probe k = inr v) →
  (∀ j k, lo ≤ j ≤ k → k ≤ hi → affordable k = true → affordable j = true) →
  ∃ r, search probe limit fuel lo hi best = inr r ∧
    ((∀ k, lo ≤ k ≤ hi → affordable k = false) ∧ r = best ∨
     ∃ k v, lo ≤ k ≤ hi ∧ probe k = inr v ∧ r = Some v ∧ affordable k = true ∧
            ∀ j, k < j ≤ hi → affordable j = false).
Proof.
  revert lo hi best. induction fuel as [|f IH]; intros lo hi best Hf Hp Hm; simpl.
  { exists best. split; [done|]. left. split; [intros; lia|done]. }
  destruct (Z.ltb_spec hi lo) as [|Hle].
  { exists best. split; [done|]. left. split; [intros; lia|done]. }
  pose proof (Z.div_mod (lo + hi) 2). pose proof (Z.mod_pos_bound (lo + hi) 2).
  set (mid := (lo + hi) / 2) in *. destruct (Hp mid) as [v Hv]; [lia|].
  rewrite Hv. cbn [mbind res_bind].
  assert (affordable mid = dec_le v.1.2 limit) as Ha by (unfold affordable; by rewrite Hv).
  destruct (dec_le v.1.2 limit) eqn:Hok.
  - destruct (IH (mid + 1) hi (Some v)) as (r & Hr & Hres); [lia|intros; apply Hp; lia| |].
    { intros j k Hj Hk. apply Hm; lia. }
    exists r. split; [done|]. right. destruct Hres as [[Hno ->]|(k & w & Hk & Hw & -> & Hrest)].
    + exists mid, v. split_and!; try done; try lia. intros; apply Hno; lia.
    + exists k, w. split_and!; try done; try lia; apply Hrest.
  - destruct (IH lo (mid - 1) best) as (r & Hr & Hres); [lia|intros; apply Hp; lia| |].
    { intros j k Hj Hk. apply Hm; lia. }
    assert (∀ j, mid ≤ j ≤ hi → affordable j = false) as Hhigh.
    { intros j Hj. apply not_true_is_false. intros Hj'.
      rewrite (Hm mid j) in Ha by (done || lia). done. }
    exists r. split; [done|]. destruct Hres as [[Hno ->]|(k & w & Hk & Hw & -> & Hok' & Hrest)].
    + left. split; [|done]. intros k Hk. destruct (Z_lt_le_dec k mid); [apply Hno|apply Hhigh]; lia.
    + right. exists k, w. split_and!; try done; try lia. intros j Hj.
      destruct (Z_lt_le_dec j mid); [apply Hrest|apply Hhigh]; lia.
Qed.
End search.

(** ** Soundness of an issued signal *)
(** What a published scenario guarantees about its inputs. *)
Record SoundSignal (m : ResearchMandate) (s : ResearchSnapshot) (p : SignalPolicy)
    (state : ResearchState) (issued_at : Z) (d : SignalDesign) (g : ResearchSignal) : Prop := {
  sound_state : sg_state g = state ∧ sg_ticker g = rs_ticker s ∧ sg_issued_at g = issued_at;
  sound_interval : issued_at < sg_valid_until g ≤ issued_at + days (sp_horizon_days p) ∧
    sg_valid_until g ≤ im_verified_at (rs_instrument s) + hours 24 ∧
    ∀ e, e ∈ rs_evidence s → ev_critical e = true → sg_valid_until g ≤ ev_fresh_until e;
  sound_capital : dec_le (sg_illustrative_allocation_gbp g) (rm_maximum_capital_gbp m) = true ∧
    dec_le (sg_modelled_downside_gbp g) (sp_maximum_downside_gbp p) = true ∧
    dec_le (sg_modelled_downside_gbp g)
      (dec_mul (rm_maximum_capital_gbp m) (sp_maximum_downside_fraction p)) = true;
  sound_reward : ∃ rr, sd_risk_reward d = Some rr ∧
    dec_le (sp_minimum_risk_reward p) rr = true;
  sound_levels : ∃ low high inval target,
    sd_entry_low_gbp d = Some low ∧ sd_entry_high_gbp d = Some high ∧
    sd_invalidation_gbp d = Some inval ∧ sd_targets_gbp d = [target] ∧
    dec_lt (dec 0) inval = true ∧ dec_lt inval low = true ∧ dec_le low high = true ∧
    dec_lt high target = true;
}.

Lemma dec_lt_false_le x y : dec_lt x y = false → dec_le y x = true.
Proof. rewrite dec_lt_not_le. by destruct (dec_le y x). Qed.

(** A design without a signal contradicts [sd_signal d = Some g]. *)
Ltac no_signal Hd :=
  exfalso; injection Hd as <-;
  match goal with Hg : sd_signal (unavailable _ _ _ _ _) = Some _ |- _ => discriminate Hg end.

Section sound.
Context `{ContentHash, Pydantic, PolicyHash, TaLib, SignalPolicyHash}.

Lemma validate_signal_same g g' :
  validate_signal g = inr g' →
  g' = g ∧ dec_le (sg_illustrative_allocation_gbp g) (sg_assumed_capital_gbp g) = true.
Proof.
  unfold validate_signal, limits. intros Hg. res_inv. split; [done|].
  by apply dec_lt_false_le.
Qed.

Lemma unavailable_no_signal p q a t rs g : sd_signal (unavailable p q a t rs) ≠ Some g.
Proof. done. Qed.

Lemma design_scenario_sound rid m s p q a state t spread slippage atr d g :
  (state = WATCH ∨ state = RESEARCH_CANDIDATE) →
  design_scenario rid m s p q a state t spread slippage atr = inr d →
  sd_signal d = Some g → SoundSignal m s p state t d g.
Proof.
  intros Hst. unfold design_scenario. destruct (last _ ≫= _) as [latest|]; [|done].
  intros Hd Hg. apply res_bind_inr in Hd as (np & Hnp & Hd).
  apply res_bind_inr in Hd as (l & Hl & Hd).
  destruct (levels_valid l atr) eqn:Hlv; cbn [negb] in Hd; [|no_signal Hd].
  destruct (search _ _ _ _ _ _) as [e|[[[alloc down] costs]|]] eqn:Hs.
  { destruct (is_instance e ValueError); [no_signal Hd|done]. }
  2:{ no_signal Hd. }
  apply res_bind_inr in Hd as (gain & Hgain & Hd).
  apply res_bind_inr in Hd as (rr & Hrr' & Hd).
  destruct (dec_lt rr _) eqn:Hrr; [no_signal Hd|].
  set (valid := min_all _ _) in Hd.
  destruct (Z.leb_spec valid t) as [|Hvalid]; [no_signal Hd|].
  apply res_bind_inr in Hd as (g' & Hv & [= <-]). simpl in Hg. injection Hg as ->.
  apply validate_signal_same in Hv as [-> Hcap].
  apply search_sound in Hs as [|(k & v & _ & _ & [= <-] & Hlim)]; [done|]. simpl in Hlim.
  unfold levels_valid in Hlv. bool_norm.
  pose proof (min_all_le (Z.min (t + days (sp_horizon_days p))
    (im_verified_at (rs_instrument s) + hours 24))
    (map ev_fresh_until (List.filter ev_critical (rs_evidence s)))) as [Hmin Hall].
  fold valid in Hmin, Hall. split; cbn -[days hours dec_le dec_lt dec_mul dec_min].
  - by destruct Hst as [-> | ->].
  - split_and!; [lia..|]. intros e He Hc. apply Hall, list_elem_of_fmap_2.
    by apply elem_of_List_filter.
  - split; [done|]. split; eapply dec_le_trans; [done|apply dec_min_le|done|apply dec_min_le].
  - exists rr. split; [done|]. by apply dec_lt_false_le.
  - exists (le_low l), (le_high l), (le_invalidation l), (le_target l).
    split_and!; try done. rewrite dec_lt_not_le.
    match goal with H : dec_le (le_invalidation l) (dec 0) = false |- _ => by rewrite H end.
Qed.

Lemma generate_signal_inv rid m s reports lean audit red state t q a policy rounds d g :
  generate_signal rid m s reports lean audit red state t q a policy rounds = inr d →
  sd_signal d = Some g →
  (state = WATCH ∨ state = RESEARCH_CANDIDATE) ∧
  (∃ ind rs, evidence_independence s reports = inr ind ∧
     consensus m s reports lean audit red ind t rounds false = inr (state, rs)) ∧
  ∃ spread slippage atr,
    design_scenario rid m s (default default_signal_policy policy) q a state t spread slippage
      atr = inr d.
Proof.
  unfold generate_signal. intros Hd Hg. res_inv. rename x into p.
  match goal with H : validate_signal_policy _ = inr p |- _ =>
    unfold validate_signal_policy in H; res_inv end.
  destruct (mem state _) eqn:Hm; simpl in Hd; [|no_signal Hd]. apply mem_spec in Hm.
  apply res_bind_inr in Hd as (ind & Hind & Hd).
  apply res_bind_inr in Hd as (expected & Hexp & Hd).
  destruct (bool_decide (expected.1 = state)) eqn:Hst; simpl in Hd; [|no_signal Hd].
  apply bool_decide_eq_true in Hst.
  destruct (_ || _) in Hd; [no_signal Hd|].
  destruct (mq_spread_bps q); [|no_signal Hd].
  destruct (mq_passed q); simpl in Hd; [|no_signal Hd].
  destruct (mem _ _) in Hd; simpl in Hd; [|no_signal Hd].
  apply res_bind_inr in Hd as (checked & _ & Hd).
  destruct (mq_passed checked); simpl in Hd; [|no_signal Hd].
  destruct (lv_spread_bps lean) as [spread|]; [|no_signal Hd].
  destruct (lv_slippage_bps lean) as [slippage|]; [|no_signal Hd].
  destruct (negb _) in Hd; [no_signal Hd|].
  destruct (technical_atr s) as [e|[lim|atr]]; [|no_signal Hd|].
  { destruct (is_instance e ValueError); [no_signal Hd|done]. }
  destruct (decimal_of_float atr) as [atr_dec|]; [|done].
  apply res_bind_inr in Hd as (atr' & _ & Hd).
  split; [set_solver|]. split; [|by eauto].
  exists ind, expected.2. subst state. by destruct expected.
Qed.
End sound.

(** ** Suppression reasons *)
Definition recognised (reasons : list string) : bool := subset_of reasons DOWNGRADE_REASONS.

Lemma recognised_app a b : recognised (a ++ b) = recognised a && recognised b.
Proof. unfold recognised, subset_of. apply forallb_app. Qed.
Lemma recognised_cons x l : recognised (x :: l) = mem x DOWNGRADE_REASONS && recognised l.
Proof. done. Qed.
Lemma recognised_failure b x : mem x DOWNGRADE_REASONS = true → recognised (failure b x) = true.
Proof. intros Hx. destruct b; [|done]. unfold failure. by rewrite recognised_cons, Hx. Qed.
Lemma recognised_from_keys l : recognised l = true → recognised (from_keys l) = true.
Proof.
  unfold recognised. rewrite !subset_of_spec. intros Hl x. rewrite elem_of_from_keys. apply Hl.
Qed.

Lemma quality_data_recognised s now basis complete p :
  recognised (quality_data_failures s now basis complete p) = true.
Proof.
  unfold quality_data_failures. rewrite !recognised_app, !recognised_failure by reflexivity. done.
Qed.
Lemma spread_recognised spread limit : recognised (spread_failures spread limit) = true.
Proof. destruct spread as [[d|]|]; [by apply recognised_failure|done..]. Qed.
Lemma quality_recognised s now spread basis complete p q :
  evaluate_market_quality s now spread basis complete p = inr q →
  recognised (mq_reasons q) = true.
Proof.
  unfold evaluate_market_quality. intros Hq.
  apply res_bind_inr in Hq as (vs & _ & Hq). apply res_bind_inr in Hq as (avg & _ & Hq).
  apply res_bind_inr in Hq as (ext & _ & Hq). apply res_bind_inr in Hq as (vol & _ & [= <-]).
  simpl. apply recognised_from_keys.
  by rewrite !recognised_app, quality_data_recognised, spread_recognised, !recognised_failure
    by reflexivity.
Qed.

Lemma dec_div_error x y e : dec_div x y = inl e → is_instance e ValueError = false.
Proof.
  unfold dec_div. destruct (coef y =? 0); [by intros [= <-]|]. by destruct (coef x =? 0).
Qed.
Lemma quantize_error x e r err : quantize x e r = inl err → is_instance err ValueError = false.
Proof. unfold quantize. destruct (context_precision <? _); [by intros [= <-]|done]. Qed.

Lemma estimate_costs_error n on a sp sl r1 r2 e :
  estimate_costs n on a sp sl r1 r2 = inl e → is_instance e ValueError = true →
  mem (exn_msg e) DOWNGRADE_REASONS = true.
Proof.
  unfold estimate_costs. intros He Hv.
  repeat (rewrite res_bind_inl in He;
          destruct He as [[_ ->]%reject_inl|(? & _ & He)]; [reflexivity|]).
  destruct (co_broker_round_trip_fee_gbp a), (co_other_round_trip_charges_gbp a);
    try (injection He as <-; reflexivity).
  rewrite res_bind_inl in He. destruct He as [[_ ->]%reject_inl|(? & _ & He)]; [reflexivity|].
  rewrite res_bind_inl in He. destruct He as [He|(? & _ & He)].
  { case_match; [apply quantize_error in He; congruence|done]. }
  rewrite res_bind_inl in He. destruct He as [He%dec_div_error|(? & _ & He)]; [congruence|].
  rewrite res_bind_inl in He. destruct He as [He%dec_div_error|(? & _ & He)]; [congruence|done].
Qed.

Lemma search_error probe limit fuel lo hi best e :
  search probe limit fuel lo hi best = inl e → ∃ k, probe k = inl e.
Proof.
  revert lo hi best. induction fuel as [|f IH]; intros lo hi best; simpl; [done|].
  case_match; [done|]. rewrite res_bind_inl. intros [He|(v & _ & He)]; [by eexists|].
  case_match; by apply IH in He.
Qed.

Lemma sizing_error l on a sp sl k e :
  sizing l on a sp sl k = inl e → is_instance e ValueError = true →
  mem (exn_msg e) DOWNGRADE_REASONS = true.
Proof.
  unfold sizing. intros He Hv.
  rewrite res_bind_inl in He. destruct He as [He%dec_div_error|(? & _ & He)]; [congruence|].
  rewrite res_bind_inl in He. destruct He as [He|(? & _ & He)]; [by eapply estimate_costs_error|].
  rewrite res_bind_inl in He. destruct He as [He%dec_div_error|(? & _ & He)]; [congruence|done].
Qed.

Section suppression.
Context `{ContentHash, Pydantic, PolicyHash, TaLib, SignalPolicyHash}.

Lemma design_scenario_recognised rid m s p q a state t spread slippage atr d :
  design_scenario rid m s p q a state t spread slippage atr = inr d →
  sd_signal d = None → sd_reasons d ≠ [] ∧ recognised (sd_reasons d) = true.
Proof.
  unfold design_scenario. destruct (last _ ≫= _) as [latest|]; [|done]. intros Hd Hg.
  apply res_bind_inr in Hd as (np & _ & Hd). apply res_bind_inr in Hd as (l & _ & Hd).
  destruct (negb (levels_valid l atr)); [by injection Hd as <-|].
  destruct (search _ _ _ _ _ _) as [e|[[[alloc down] costs]|]] eqn:Hs; [|clear Hs|by injection Hd as <-].
  { destruct (is_instance e ValueError) eqn:Hi; [|done]. injection Hd as <-. cbn [sd_reasons unavailable].
    apply search_error in Hs as [k Hk]. apply sizing_error in Hk; [|done].
    by rewrite recognised_cons, Hk. }
  apply res_bind_inr in Hd as (gain & _ & Hd). apply res_bind_inr in Hd as (rr & _ & Hd).
  destruct (dec_lt rr _); [by injection Hd as <-|].
  destruct (_ <=? t); [by injection Hd as <-|].
  apply res_bind_inr in Hd as (g' & _ & [= <-]). done.
Qed.

Lemma technical_limitations s lim :
  technical_atr s = inr (inl lim) → lim = ["TA_LIB_WARMUP_INSUFFICIENT"].
Proof.
  unfold technical_atr. case_match; [by intros [= <-]|]. intros Ht. by res_inv.
Qed.

Lemma suppressed_recognised rid m s reports lean audit red state t q a policy rounds d ind rs :
  generate_signal rid m s reports lean audit red state t q a policy rounds = inr d →
  sd_signal d = None → state ∈ [WATCH; RESEARCH_CANDIDATE] →
  evidence_independence s reports = inr ind →
  consensus m s reports lean audit red ind t rounds false = inr (state, rs) →
  recognised (mq_reasons q) = true →
  sd_reasons d ≠ [] ∧ recognised (sd_reasons d) = true.
Proof.
  intros Hd Hg Hst Hi Hc Hq. unfold generate_signal in Hd.
  apply res_bind_inr in Hd as (p & _ & Hd).
  rewrite (proj2 (mem_spec state _)) in Hd by set_solver. rewrite Hi in Hd.
  cbn [negb mbind res_bind] in Hd. rewrite Hc in Hd. cbn [mbind res_bind fst] in Hd.
  rewrite bool_decide_true in Hd by done. cbn [negb] in Hd.
  destruct (_ || _) in Hd; [by injection Hd as <-|].
  destruct (mq_spread_bps q) as [qs|]; [|injection Hd as <-; cbn [sd_reasons unavailable]; by rewrite recognised_cons, Hq].
  destruct (mq_passed q); simpl in Hd; [|injection Hd as <-; cbn [sd_reasons unavailable]; by rewrite recognised_cons, Hq].
  destruct (mem _ _) in Hd; simpl in Hd; [|by injection Hd as <-].
  apply res_bind_inr in Hd as (checked & Hcheck & Hd).
  destruct (mq_passed checked); simpl in Hd.
  2:{ injection Hd as <-. cbn [sd_reasons unavailable]. apply quality_recognised in Hcheck.
      by rewrite recognised_cons, Hcheck. }
  destruct (lv_spread_bps lean) as [spread|]; [|by injection Hd as <-].
  destruct (lv_slippage_bps lean) as [slippage|]; [|by injection Hd as <-].
  destruct (negb _) in Hd; [by injection Hd as <-|].
  destruct (technical_atr s) as [e|[lim|atr]] eqn:Ht.
  - destruct (is_instance e ValueError); [by injection Hd as <-|done].
  - apply technical_limitations in Ht as ->. by injection Hd as <-.
  - destruct (decimal_of_float atr); [|done].
    apply res_bind_inr in Hd as (atr' & _ & Hd). by eapply design_scenario_recognised.
Qed.
End suppression.

(** ** Properties *)


(** When [generate_signal] suppresses a state that consensus confirmed, its
    reasons are non-empty and all belong to the set the completion boundary
    accepts as a downgrade. *)
Theorem suppression_is_downgrade `{ContentHash, Pydantic, PolicyHash, TaLib, SignalPolicyHash}
    rid m s reports lean audit red state t q a policy rounds d ind rs now spread basis ok pol :
  evaluate_market_quality s now spread basis ok pol = inr q →
  generate_signal rid m s reports lean audit red state t q a policy rounds = inr d →
  sd_signal d = None → state ∈ [WATCH; RESEARCH_CANDIDATE] →
  evidence_independence s reports = inr ind →
  consensus m s reports lean audit red ind t rounds false = inr (state, rs) →
  sd_reasons d ≠ [] ∧ ∀ r, r ∈ sd_reasons d → r ∈ DOWNGRADE_REASONS.
Proof.
  intros Hq%quality_recognised Hd Hg Hst Hi Hc.
  rewrite <- subset_of_spec. by eapply suppressed_recognised.
Qed.


(** ** A live run on concrete inputs *)
Definition live_policy_hash : PolicyHash := λ _, zero_sha.
Definition live_signal_hash : SignalPolicyHash := λ _, zero_sha.
(** An ATR of five pence. *)
Definition live_talib : TaLib :=
  {| ta_atr := λ _, float_lit 5 2; ta_finite := λ _, true |}.
Definition live_now : Z := days (date 2026 9 20) + hours 12.

Definition live_bar (i : nat) : EvidenceRecord :=
  let seen := live_now - days (60 - Z.of_nat i) in
  mkEvidence ("bar-" +:+ int_text (Z.of_nat i)) "snapshot-1" "Exchange" "exchange" "eod"
    ("eod:" +:+ int_text (Z.of_nat i)) seen (Some seen) live_now (live_now + hours 12) true true
    false (Ohlcv (mkBar (dec 200) (dec 202) (dec 198) (dec 200) 200000 GBX)) zero_sha.
Definition live_instrument : InstrumentMetadata :=
  mkInstrument "ACME.L" "Acme plc" "STOCK" "GBX" None (Some true) ["software"] true
    (live_now - hours 1) "Broker list" "trading212" "list-1" None.
Definition live_snapshot : ResearchSnapshot :=
  mkSnapshot PRODUCTION_QUALIFICATION [] [] companies_house "snapshot-1" "ACME.L" live_now
    live_now live_now live_now live_now live_instrument (map live_bar (seq 0 60)) false true
    HOSTED_COMMERCIAL_PRODUCTION None zero_sha.

Definition live_report (f : Firm) (family : Family) (evidence : string) : FirmReport :=
  mkReport f "snapshot-1" zero_sha "Evidence reviewed."
    [mkClaim (firm_name f +:+ ":1") family "A claim." [evidence] INFERENCE]
    "model-v1" "prompt-v1" "0000000000000000000000000000000000000000" (firm_name f) None
    [firm_name f] [firm_name f] live_now (mkUsage None None None) live None
    (match f with qlib => Some (mkQlib None None None "calm" None []) | _ => None end).
Definition live_reports : list FirmReport :=
  [live_report tradingagents fam_technical "bar-0"; live_report ai_hedge_fund fam_fundamental "bar-1";
   live_report qlib fam_quantitative "bar-2"].
Definition live_lean (policy_hash : option string) : LeanValidationReport :=
  mkLean LEAN_PASS "snapshot-1" "lean-1" 60 true true true true true true policy_hash
    (Some (float_of_Z 10)) (Some (float_of_Z 5)) None None None [].
Definition live_audit : CIOAuditReport :=
  mkAudit "snapshot-1" true
    (flat_map (λ r, map (λ c, mkFinding "Evidence Auditor" (Some (cl_claim_id c)) VERIFIED
       "Checked." (cl_evidence_ids c)) (fr_claims r)) live_reports) ["auditor"] false.
Definition live_red_team : RedTeamReport := mkRedTeam RED_PASS [].
Definition live_costs : CostApplicability :=
  mkApplicability SDRT_APPLIES "issuer record" None (Some (dec 0)) (Some "tariff")
    (Some (dec 0)) (Some "tariff").

Definition no_quality : MarketQuality := mkQuality "" false [] 0 None None None "UNKNOWN".
Definition live_quality : MarketQuality :=
  get_or no_quality (evaluate_market_quality live_snapshot live_now (Some (Finite (dec 10)))
    "SPLIT_ADJUSTED" true default_quality_policy).
Definition live_design (policy_hash : option string) : Res SignalDesign :=
  @generate_signal constant_hash any_shape live_policy_hash live_talib live_signal_hash "job-1"
    default_mandate live_snapshot live_reports (live_lean policy_hash) live_audit live_red_team
    RESEARCH_CANDIDATE live_now live_quality live_costs None 0.
Definition no_design : SignalDesign :=
  mkDesign "" None None None None None [] None None None None None None [] None None None [] [].
Definition some_signal : ResearchSignal :=
  mkSignal "" "" WATCH 0 0 (dec 0) (dec 0) GBP [] [] [] (dec 0) (dec 0) (dec 0) 0 None None.

Example live_design_issues :
  (sg_illustrative_allocation_gbp <$> (sd_signal (get_or no_design (live_design (Some zero_sha)))))
  = Some (Dec 6355 (-2)).
Proof. vm_compute. reflexivity. Qed.


Lemma suppression_is_downgrade_witness :
  sd_signal (get_or no_design (live_design None)) = None ∧
  ∀ r, r ∈ sd_reasons (get_or no_design (live_design None)) → r ∈ DOWNGRADE_REASONS.
Proof.
  set (d := get_or no_design (live_design None)).
  set (ind := get_or (mkIndependence 0 0 [] (float_of_Z 0) (float_of_Z 0) (float_of_Z 0)
                        (float_of_Z 0) LOW []) (evidence_independence live_snapshot live_reports)).
  split; [vm_compute; reflexivity|].
  apply (@suppression_is_downgrade constant_hash any_shape live_policy_hash live_talib
    live_signal_hash "job-1" default_mandate live_snapshot live_reports (live_lean None) live_audit
    live_red_team RESEARCH_CANDIDATE live_now live_quality live_costs None 0 d ind
    ["REQUIRED_EVIDENCE_GATES_PASSED"] live_now (Some (Finite (dec 10))) "SPLIT_ADJUSTED" true
    default_quality_policy).
  - vm_compute. reflexivity.
  - vm_compute. reflexivity.
  - vm_compute. reflexivity.
  - right. left.
  - vm_compute. reflexivity.
  - vm_compute. reflexivity.
Defined.

Definition live_levels : Levels :=
  mkLevels (dec 2) (Dec 1987500 (-6)) (Dec 2012500 (-6)) (Dec 1900000 (-6)) (Dec 2300000 (-6)).
