(* ===== verification/CrossExam.v ===== *)
(** * Bounded cross-examination ([src/money/crews/cross_examination.py])

    The challenge contracts, the seal of a correspondence packet and the
    post-lock driver. Responders and the verifier are native capabilities
    behind the Protocols [ResponseCapability] and [VerificationCapability];
    they are arguments of [run_cross_examination]. *)

From S2P Require Import Prelude Effects PyNum PyText Contracts Demo Eligibility Governance.
#[local] Open Scope Z_scope.

(** ** Contracts *)
Inductive Respondent := R_firm (f : Firm) | R_lean | R_cio.
#[export] Instance respondent_eq_dec : EqDecision Respondent.
Proof. solve_decision. Defined.

Record Challenge := mkChallenge {
  ch_challenge_id : string;
  ch_respondent : Respondent;
  ch_claim_id : option string;
  ch_original_report_hash : string;
  ch_question : string;
  ch_evidence_ids : list string;
  ch_original_claim : option ResearchClaim
}.
#[export] Instance challenge_eq_dec : EqDecision Challenge.
Proof. solve_decision. Defined.

Inductive InvocationRuntime := INV_live | INV_demo | INV_deterministic.
#[export] Instance invocation_runtime_eq_dec : EqDecision InvocationRuntime.
Proof. solve_decision. Defined.
Inductive Component := C_tradingagents | C_ai_hedge_fund | C_crewai | C_qlib | C_lean.
#[export] Instance component_eq_dec : EqDecision Component.
Proof. solve_decision. Defined.
Record ChallengeInvocation := mkInvocation {
  iv_component : Component;
  iv_provider : string;
  iv_model : string;
  iv_prompt_version : string;
  iv_upstream_sha : string;
  iv_calls : Z;
  iv_usage : Usage;
  iv_runtime : InvocationRuntime
}.
#[export] Instance invocation_eq_dec : EqDecision ChallengeInvocation.
Proof. solve_decision. Defined.

Inductive Position := MAINTAIN | WITHDRAW | POSITION_INSUFFICIENT_EVIDENCE.
#[export] Instance position_eq_dec : EqDecision Position.
Proof. solve_decision. Defined.
Record ChallengeResponse := mkResponse {
  rp_challenge_id : string;
  rp_respondent : Respondent;
  rp_snapshot_hash : string;
  rp_original_report_hash : string;
  rp_position : Position;
  rp_explanation : string;
  rp_evidence_ids : list string;
  rp_corrected_claim : option ResearchClaim;
  rp_invocation : option ChallengeInvocation
}.
#[export] Instance response_eq_dec : EqDecision ChallengeResponse.
Proof. solve_decision. Defined.

Record ChallengeSourceCheck := mkSourceCheck {
  sc_evidence_id : string; sc_record_hash : string; sc_quoted_fact : string
}.
#[export] Instance source_check_eq_dec : EqDecision ChallengeSourceCheck.
Proof. solve_decision. Defined.
Record ChallengeVerification := mkVerification {
  vf_finding : AuditFinding;
  vf_invocation : option ChallengeInvocation;
  vf_evidence_checks : list ChallengeSourceCheck
}.

Record ChallengeExchange := mkExchange {
  ex_challenge : Challenge;
  ex_response : option ChallengeResponse;
  ex_verification : option AuditFinding;
  ex_verification_invocation : option ChallengeInvocation;
  ex_verification_evidence_checks : list ChallengeSourceCheck;
  ex_resolved : bool;
  ex_reason : string
}.
#[export] Instance exchange_eq_dec : EqDecision ChallengeExchange.
Proof. solve_decision. Defined.
Record CrossExaminationRound := mkRound { rd_number : Z; rd_exchanges : list ChallengeExchange }.
#[export] Instance round_eq_dec : EqDecision CrossExaminationRound.
Proof. solve_decision. Defined.

Record CrossExaminationPacket := mkCross {
  cx_snapshot_id : string;
  cx_snapshot_hash : string;
  cx_report_hashes : list (Firm * string);
  cx_lean_hash : string;
  cx_initial_audit_hash : string;
  cx_challenges : list Challenge;
  cx_rounds : list CrossExaminationRound;
  cx_unresolved_challenge_ids : list string;
  cx_material_disagreement : bool;
  cx_issued_at : Z;
  cx_qlib_enabled : bool;
  cx_hash : string
}.
#[export] Instance cross_eq_dec : EqDecision CrossExaminationPacket.
Proof. solve_decision. Defined.
#[export] Instance cross_rebuild : Rebuild CrossExaminationPacket := λ r,
  mkCross (cx_snapshot_id r) (cx_snapshot_hash r) (cx_report_hashes r) (cx_lean_hash r)
    (cx_initial_audit_hash r) (cx_challenges r) (cx_rounds r) (cx_unresolved_challenge_ids r)
    (cx_material_disagreement r) (cx_issued_at r) (cx_qlib_enabled r) (cx_hash r).

(** [content_hash] of a packet with its [hash] field left out. *)
Class CrossHash := hash_cross : CrossExaminationPacket → string.

(** ** Field and identity checks *)
Definition validate_challenge (c : Challenge) : Res Challenge :=
  require (len_between 1 4000 (ch_question c)) ;;
  reject (match ch_original_claim c with
          | Some k => negb (bool_decide (Some (cl_claim_id k) = ch_claim_id c))
          | None => false
          end) ValueError "challenge original claim identity differs" ;;
  mret c.

Definition invocation_fields (i : ChallengeInvocation) : bool :=
  (0 <=? iv_calls i) && (iv_calls i <=? 2) && usage_fields (iv_usage i).
Definition claim_fields (c : ResearchClaim) : bool := len_between 1 4000 (cl_statement c).
Definition validate_response (r : ChallengeResponse) : Res ChallengeResponse :=
  require (len_between 1 4000 (rp_explanation r) && opt_ok claim_fields (rp_corrected_claim r) &&
           opt_ok invocation_fields (rp_invocation r)) ;;
  mret r.
Definition source_check_fields (c : ChallengeSourceCheck) : bool :=
  is_sha256 (sc_record_hash c) && len_between 5 500 (sc_quoted_fact c).

Definition is_demo (i : option ChallengeInvocation) : bool :=
  match i with Some v => bool_decide (iv_runtime v = INV_demo) | None => false end.

(** The sealed hash a respondent is challenged on. *)
Definition original_hash (p : CrossExaminationPacket) (r : Respondent) : option string :=
  match r with
  | R_firm f => snd <$> List.find (λ fh, bool_decide (fh.1 = f)) (reverse (cx_report_hashes p))
  | R_lean => Some (cx_lean_hash p)
  | R_cio => Some (cx_initial_audit_hash p)
  end.

Definition find_challenge (id : string) (pending : list Challenge) : option Challenge :=
  List.find (λ c, bool_decide (ch_challenge_id c = id)) pending.
Definition drop_challenge (id : string) (pending : list Challenge) : list Challenge :=
  List.filter (λ c, negb (bool_decide (ch_challenge_id c = id))) pending.

(** An exchange that closes its challenge needs a maintained position and an
    independent verified finding that shares cited evidence. *)
Definition resolution_ok (c : Challenge) (ex : ChallengeExchange) : bool :=
  match ex_response ex, ex_verification ex with
  | Some r, Some v =>
      bool_decide (rp_position r = MAINTAIN) && bool_decide (af_state v = VERIFIED) &&
      bool_decide (af_claim_id v = ch_claim_id c) &&
      intersects (af_evidence_ids v) (rp_evidence_ids r)
  | _, _ => false
  end.

(** One pass of the inner loop of [seal]; returns the remaining pending set. *)
Definition seal_exchange (p : CrossExaminationPacket) (pending : list Challenge)
    (ex : ChallengeExchange) : Res (list Challenge) :=
  let id := ch_challenge_id (ex_challenge ex) in
  match find_challenge id pending with
  | None => fail KeyError id
  | Some c =>
      reject (negb (bool_decide (ex_challenge ex = c)))
        ValueError "cross-examination cannot revise an original challenge" ;;
      reject (match ex_response ex with Some r => is_demo (rp_invocation r) | None => false end ||
              is_demo (ex_verification_invocation ex))
        ValueError "unqualified native correspondence cannot enter a sealed packet" ;;
      reject (match ex_response ex with
              | Some r =>
                  negb (bool_decide (rp_challenge_id r = ch_challenge_id c)) ||
                  negb (bool_decide (rp_respondent r = ch_respondent c)) ||
                  negb (bool_decide (rp_snapshot_hash r = cx_snapshot_hash p)) ||
                  negb (bool_decide (rp_original_report_hash r = ch_original_report_hash c)) ||
                  negb (subset_of (rp_evidence_ids r) (ch_evidence_ids c)) ||
                  match rp_corrected_claim r with
                  | Some k => negb (subset_of (cl_evidence_ids k) (ch_evidence_ids c))
                  | None => false
                  end
              | None => false
              end) ValueError "cross-examination response identity differs" ;;
      reject (match ex_verification ex with
              | Some v => negb (subset_of (af_evidence_ids v) (ch_evidence_ids c))
              | None => false
              end) ValueError "cross-examination verification exceeded permitted evidence" ;;
      reject (existsb (λ k, negb (mem (sc_evidence_id k) (ch_evidence_ids c)))
                (ex_verification_evidence_checks ex))
        ValueError "cross-examination source check exceeded permitted evidence" ;;
      if ex_resolved ex then
        reject (negb (resolution_ok c ex))
          ValueError "cross-examination resolution needs independent cited verification" ;;
        mret (drop_challenge id pending)
      else mret pending
  end.

Fixpoint fold_res {A B} (f : B → A → Res B) (b : B) (l : list A) : Res B :=
  match l with
  | [] => mret b
  | x :: l' => b' ← f b x; fold_res f b' l'
  end.

Definition seal_round (p : CrossExaminationPacket) (pending : list Challenge)
    (r : CrossExaminationRound) : Res (list Challenge) :=
  let ids := map (λ ex, ch_challenge_id (ex_challenge ex)) (rd_exchanges r) in
  reject (negb (same_set ids (map ch_challenge_id pending)))
    ValueError "each round must address exactly the pending challenges" ;;
  reject (negb (bool_decide (length (rd_exchanges r) = length pending)))
    ValueError "cross-examination exchange identities must be unique" ;;
  fold_res (seal_exchange p) pending (rd_exchanges r).

Section sealing.
Context `{CrossHash}.

Definition cross_digest (p : CrossExaminationPacket) : string :=
  hash_cross (p <| cx_hash := "" |>).

Definition seal (p : CrossExaminationPacket) : Res CrossExaminationPacket :=
  reject (negb (bool_decide (map rd_number (cx_rounds p) =
                             map Z.of_nat (seq 1 (length (cx_rounds p))))))
    ValueError "cross-examination rounds must be consecutive and bounded" ;;
  reject (negb (Bool.eqb (cx_material_disagreement p)
                  (negb (bool_decide (cx_unresolved_challenge_ids p = [])))))
    ValueError "unresolved cross-examination cannot be hidden" ;;
  reject (negb (distinct (map ch_challenge_id (cx_challenges p))))
    ValueError "cross-examination challenge identities must be unique" ;;
  let required := required_first_pass_firms (cx_qlib_enabled p) in
  reject (negb (bool_decide (length (cx_report_hashes p) = length required)) ||
          negb (same_set (map fst (cx_report_hashes p)) required))
    ValueError "cross-examination requires exactly the configured original firm hashes" ;;
  reject (existsb (λ c, negb (bool_decide (original_hash p (ch_respondent c) =
                                            Some (ch_original_report_hash c))))
            (cx_challenges p))
    ValueError "challenge original report hash differs from sealed provenance" ;;
  pending ← fold_res (seal_round p) (cx_challenges p) (cx_rounds p);
  reject (negb (same_set (cx_unresolved_challenge_ids p) (map ch_challenge_id pending)) ||
          negb (bool_decide (length (cx_unresolved_challenge_ids p) = length pending)))
    ValueError "cross-examination unresolved set differs from actual exchanges" ;;
  reject (truthy (cx_hash p) && negb (bool_decide (cx_hash p = cross_digest p)))
    ValueError "cross-examination artifact hash differs" ;;
  mret (p <| cx_hash := cross_digest p |>).

(** [CrossExaminationPacket.model_validate]: fields, nested contracts, seal. *)
Definition exchange_fields (ex : ChallengeExchange) : bool :=
  opt_ok (λ r, passes (validate_response r)) (ex_response ex) &&
  passes (validate_challenge (ex_challenge ex)) &&
  opt_ok invocation_fields (ex_verification_invocation ex) &&
  forallb source_check_fields (ex_verification_evidence_checks ex).
Definition validate_cross (p : CrossExaminationPacket) : Res CrossExaminationPacket :=
  require ((Z.of_nat (length (cx_challenges p)) <=? 24) &&
           (Z.of_nat (length (cx_rounds p)) <=? 2) &&
           forallb (λ r, (1 <=? rd_number r) && (rd_number r <=? 2) &&
                         forallb exchange_fields (rd_exchanges r)) (cx_rounds p) &&
           forallb (λ c, passes (validate_challenge c)) (cx_challenges p)) ;;
  seal p.
End sealing.

(** ** The driver *)

(** A native responder sees the frozen snapshot, its own sealed report, one
    challenge and the round number; it may raise. *)
Definition ResponseCapability : Type :=
  ResearchSnapshot → option FirmReport → Challenge → Z → Res ChallengeResponse.
Definition VerificationCapability : Type :=
  ResearchSnapshot → Challenge → ChallengeResponse → Res (AuditFinding + ChallengeVerification).

Definition contradiction_analyst : string := "CIO Contradiction Analyst".

(** [by_claim]: the reports indexed by their claims. *)
Definition claim_owners (reports : list FirmReport) : list (string * FirmReport) :=
  flat_map (λ r, map (λ c, (cl_claim_id c, r)) (fr_claims r)) reports.
Definition owner_of (owners : list (string * FirmReport)) (id : string) : option FirmReport :=
  snd <$> List.find (λ o, bool_decide (o.1 = id)) owners.

(** The findings that become challenges. *)
Definition challenged_findings (audit : CIOAuditReport) (owners : list (string * FirmReport))
    : list AuditFinding :=
  let findings := List.filter (λ f, bool_decide (af_state f ∈ [UNSUPPORTED; CONTRADICTED]))
                    (ci_findings audit) in
  if ci_material_disagreement audit && bool_decide (findings = []) then
    if bool_decide (owners = [])
    then [mkFinding contradiction_analyst None UNSUPPORTED
            "Initial CIO audit records unresolved material disagreement without supported claims." []]
    else map (λ o, mkFinding contradiction_analyst (Some o.1) UNSUPPORTED
            "Initial CIO audit records unresolved material disagreement." []) owners
  else findings.

Section driver.
Context `{ContentHash, Pydantic, CrossHash}.

(** The body of the loop that builds one challenge. *)
Definition make_challenge (s : ResearchSnapshot) (lean : LeanValidationReport)
    (audit : CIOAuditReport) (owners : list (string * FirmReport)) (index : nat)
    (f : AuditFinding) : Res Challenge :=
  let owner := owner_of owners (str_or (af_claim_id f) "") in
  reject (truthy_opt (af_claim_id f) && negb (is_set owner))
    InvalidUpstreamReport "cross-examination audit references an unknown claim" ;;
  let target := match owner with
                | Some r => R_firm (fr_firm r)
                | None => if bool_decide (af_auditor f = "LEAN Auditor") then R_lean else R_cio
                end in
  let original := match owner with
                  | Some r => hash_report r
                  | None => match target with R_lean => hash_lean lean | _ => hash_audit audit end
                  end in
  let claim := owner ≫= λ r,
    List.find (λ c, bool_decide (Some (cl_claim_id c) = af_claim_id f)) (fr_claims r) in
  let permitted := from_keys (af_evidence_ids f ++
    match claim with Some c => cl_evidence_ids c | None => [] end) in
  c ← validate_challenge
        (mkChallenge ("challenge-" +:+ int_text (Z.of_nat index + 1)) target (af_claim_id f)
           original (af_explanation f) permitted claim);
  reject (negb (subset_of (ch_evidence_ids c) (snapshot_evidence_ids s)))
    InvalidUpstreamReport "challenge cites evidence outside the locked snapshot" ;;
  mret c.

Fixpoint make_challenges (s : ResearchSnapshot) (lean : LeanValidationReport)
    (audit : CIOAuditReport) (owners : list (string * FirmReport)) (index : nat)
    (l : list AuditFinding) : Res (list Challenge) :=
  match l with
  | [] => mret []
  | f :: l' =>
      c ← make_challenge s lean audit owners index f;
      rest ← make_challenges s lean audit owners (S index) l';
      mret (c :: rest)
  end.

Context (responders : Respondent → option ResponseCapability)
  (verifier : option VerificationCapability).

(** The verification of a maintained position. *)
Definition verify_response (s : ResearchSnapshot) (c : Challenge) (r : ChallengeResponse)
    (verify : VerificationCapability) : Res ChallengeExchange :=
  checked ← verify s c r;
  let '(v, invocation, checks) := match checked with
    | inr k => (vf_finding k, vf_invocation k, vf_evidence_checks k)
    | inl f => (f, None, [])
    end in
  reject (existsb (λ k, negb (bool_decide ((ev_hash <$> by_id s !! sc_evidence_id k) =
                                            Some (sc_record_hash k))) ||
                        negb (mem (sc_evidence_id k) (ch_evidence_ids c))) checks)
    InvalidUpstreamReport "challenge source check differs from frozen evidence hash" ;;
  reject (is_demo invocation)
    InvalidUpstreamReport "unqualified native verification cannot resolve a live challenge" ;;
  reject (negb (bool_decide (af_claim_id v = ch_claim_id c)) ||
          negb (subset_of (af_evidence_ids v) (ch_evidence_ids c)))
    InvalidUpstreamReport "challenge verification provenance differs" ;;
  let resolved := bool_decide (af_state v = VERIFIED) &&
                  negb (bool_decide (af_evidence_ids v = [])) &&
                  intersects (af_evidence_ids v) (rp_evidence_ids r) in
  mret (mkExchange c (Some r) (Some v) invocation checks resolved
          (if resolved then "INDEPENDENTLY_VERIFIED"
           else "MATERIAL_DISAGREEMENT_UNRESOLVED")).

(** One challenge of one round. *)
Definition run_exchange (s : ResearchSnapshot) (reports : list FirmReport)
    (owners : list (string * FirmReport)) (number : Z) (c : Challenge)
    : Res ChallengeExchange :=
  match responders (ch_respondent c) with
  | None => mret (mkExchange c None None None [] false "RESPONDER_UNAVAILABLE")
  | Some capability =>
      let own := match ch_respondent c with
                 | R_firm f => List.find (λ r, bool_decide (fr_firm r = f)) reports
                 | _ => None
                 end in
      answered ← capability s own c number;
      r ← validate_response answered;
      reject (is_demo (rp_invocation r)) InvalidUpstreamReport
        "unqualified native challenge response cannot enter live cross-examination" ;;
      reject (negb (bool_decide (rp_challenge_id r = ch_challenge_id c)) ||
              negb (bool_decide (rp_respondent r = ch_respondent c)) ||
              negb (bool_decide (rp_snapshot_hash r = rs_hash s)) ||
              negb (bool_decide (rp_original_report_hash r = ch_original_report_hash c)) ||
              negb (subset_of (rp_evidence_ids r) (ch_evidence_ids c)))
        InvalidUpstreamReport "cross-examination response provenance differs" ;;
      reject (match rp_corrected_claim r with
              | Some k => is_set (owner_of owners (cl_claim_id k)) ||
                          bool_decide (cl_evidence_ids k = []) ||
                          negb (subset_of (cl_evidence_ids k) (ch_evidence_ids c))
              | None => false
              end) InvalidUpstreamReport
        "correction cannot overwrite original claim or add external evidence" ;;
      match verifier, rp_position r with
      | Some verify, MAINTAIN => verify_response s c r verify
      | None, MAINTAIN =>
          mret (mkExchange c (Some r) None None [] false "INDEPENDENT_VERIFICATION_UNAVAILABLE")
      | _, _ =>
          mret (mkExchange c (Some r) None None [] false
                  "ORIGINAL_MATERIAL_CLAIM_WITHDRAWN_OR_UNSUPPORTED")
      end
  end.

Definition still_open (exchanges : list ChallengeExchange) : list Challenge :=
  map ex_challenge (List.filter (λ e, negb (ex_resolved e)) exchanges).

(** The rounds loop; [fuel] is [maximum_rounds]. *)
Fixpoint run_rounds (s : ResearchSnapshot) (reports : list FirmReport)
    (owners : list (string * FirmReport)) (fuel : nat) (number : Z)
    (unresolved : list Challenge) : Res (list CrossExaminationRound * list Challenge) :=
  match fuel with
  | O => mret ([], unresolved)
  | S fuel' =>
      if bool_decide (unresolved = []) then mret ([], unresolved) else
      exchanges ← map_res (run_exchange s reports owners number) unresolved;
      let left_open := still_open exchanges in
      if existsb (λ e, is_set (ex_response e)) exchanges then
        rest ← run_rounds s reports owners fuel' (number + 1) left_open;
        mret (mkRound number exchanges :: rest.1, rest.2)
      else mret ([mkRound number exchanges], left_open)
  end.

(** [sorted((name, content_hash(report)) ...)] *)
Definition sorted_report_hashes (reports : list FirmReport) : list (Firm * string) :=
  omap (λ f, (λ r, (f, hash_report r)) <$> List.find (λ r, bool_decide (fr_firm r = f)) reports)
    [ai_hedge_fund; qlib; tradingagents].

Definition run_cross_examination (snapshot : ResearchSnapshot) (reports : list FirmReport)
    (lean : LeanValidationReport) (audit : CIOAuditReport) (first_pass_locked : bool)
    (maximum_rounds maximum_challenges now : Z) : Res CrossExaminationPacket :=
  reject (negb first_pass_locked || negb (ci_completed audit)) InvalidUpstreamReport
    "cross-examination requires locked first pass and completed initial CIO audit" ;;
  reject (negb ((0 <=? maximum_rounds) && (maximum_rounds <=? 2)))
    ValueError "cross-examination allows at most two rounds" ;;
  reject (negb ((1 <=? maximum_challenges) && (maximum_challenges <=? 24)))
    ValueError "cross-examination allows at most 24 challenges" ;;
  let required := snapshot_required_firms snapshot in
  reject (negb (bool_decide (length reports = length required)) ||
          negb (same_set (map fr_firm reports) required)) InvalidUpstreamReport
    "cross-examination requires all configured sealed first-pass reports" ;;
  reject (negb (bool_decide (lv_snapshot_id lean = rs_snapshot_id snapshot)) ||
          negb (bool_decide (ci_snapshot_id audit = rs_snapshot_id snapshot)) ||
          existsb (λ r, negb (bool_decide (fr_snapshot_id r = rs_snapshot_id snapshot)) ||
                        negb (bool_decide (fr_snapshot_hash r = rs_hash snapshot))) reports)
    InvalidUpstreamReport "cross-examination snapshot identity differs" ;;
  facts ← validate_snapshot snapshot;
  sealed ← map_res validate_report reports;
  let owners := claim_owners sealed in
  reject (negb (distinct (map fst owners))) InvalidUpstreamReport
    "cross-examination found duplicate original claim identities" ;;
  let findings := challenged_findings audit owners in
  reject (maximum_challenges <? Z.of_nat (length findings))
    InvalidUpstreamReport "cross-examination challenge budget exceeded" ;;
  challenges ← make_challenges facts lean audit owners 0 findings;
  result ← run_rounds facts sealed owners (Z.to_nat maximum_rounds) 1 challenges;
  validate_cross
    (mkCross (rs_snapshot_id facts) (rs_hash facts) (sorted_report_hashes sealed)
       (hash_lean lean) (hash_audit audit) challenges result.1
       (map ch_challenge_id result.2) (negb (bool_decide (result.2 = []))) now
       (rs_qlib_enabled facts) "").
End driver.

(** ** Facts about sealing *)

(** [ex] closes challenge [c] with an independent, cited, non-demo verification. *)
Record Resolves (c : Challenge) (ex : ChallengeExchange) : Prop := {
  resolves_challenge : ex_challenge ex = c;
  resolves_flag : ex_resolved ex = true;
  resolves_evidence : ∃ r v, ex_response ex = Some r ∧ ex_verification ex = Some v ∧
    rp_position r = MAINTAIN ∧ rp_respondent r = ch_respondent c ∧ af_state v = VERIFIED ∧
    af_claim_id v = ch_claim_id c ∧
    (∀ i, i ∈ af_evidence_ids v → i ∈ ch_evidence_ids c) ∧
    ∃ i, i ∈ af_evidence_ids v ∧ i ∈ rp_evidence_ids r;
  resolves_native : is_demo (ex_verification_invocation ex) = false ∧
    ∀ r, ex_response ex = Some r → is_demo (rp_invocation r) = false;
}.

Lemma find_challenge_some id pending c :
  find_challenge id pending = Some c → c ∈ pending ∧ ch_challenge_id c = id.
Proof.
  unfold find_challenge. intros Hf%find_some. destruct Hf as [Hin Hid].
  split; [by apply list_elem_of_In|]. by apply bool_decide_eq_true in Hid.
Qed.

Lemma elem_of_drop_challenge id pending c :
  c ∈ drop_challenge id pending ↔ c ∈ pending ∧ ch_challenge_id c ≠ id.
Proof.
  unfold drop_challenge. rewrite elem_of_List_filter, negb_true_iff, bool_decide_eq_false. done.
Qed.

Lemma drop_challenge_ids id pending :
  NoDup (map ch_challenge_id pending) → NoDup (map ch_challenge_id (drop_challenge id pending)).
Proof.
  unfold drop_challenge. induction pending as [|c l IH]; simpl; [done|].
  intros [Hc Hl]%NoDup_cons. case_match; simpl; [|by apply IH].
  constructor; [|by apply IH]. intros Hin. destruct Hc.
  apply list_elem_of_fmap in Hin as (d & Hd & [Hin _]%elem_of_List_filter).
  rewrite Hd. by apply list_elem_of_fmap_2.
Qed.

Lemma challenge_id_inj l c d :
  NoDup (map ch_challenge_id l) → c ∈ l → d ∈ l → ch_challenge_id c = ch_challenge_id d → c = d.
Proof.
  induction l as [|x l IH]; simpl; [by intros _ []%not_elem_of_nil|].
  intros [Hx Hl]%NoDup_cons [->|Hc]%elem_of_cons [->|Hd]%elem_of_cons Heq; [done| | |by apply IH].
  - destruct Hx. rewrite Heq. by apply list_elem_of_fmap_2.
  - destruct Hx. rewrite <- Heq. by apply list_elem_of_fmap_2.
Qed.

Lemma resolution_ok_spec p pending ex pending' :
  seal_exchange p pending ex = inr pending' →
  ∃ c, c ∈ pending ∧ ex_challenge ex = c ∧
    ((ex_resolved ex = false ∧ pending' = pending) ∨
     (Resolves c ex ∧ pending' = drop_challenge (ch_challenge_id c) pending)).
Proof.
  unfold seal_exchange. intros Hs.
  destruct (find_challenge _ pending) as [c|] eqn:Hf; [|done].
  apply find_challenge_some in Hf as [Hin Hid].
  apply res_bind_inr in Hs as ([] & Hc%reject_inr & Hs). bool_norm. subst c.
  apply res_bind_inr in Hs as ([] & Hdemo%reject_inr & Hs).
  apply res_bind_inr in Hs as ([] & Hresp%reject_inr & Hs).
  apply res_bind_inr in Hs as ([] & Hver%reject_inr & Hs).
  apply res_bind_inr in Hs as ([] & _ & Hs).
  exists (ex_challenge ex). split; [done|]. split; [done|].
  destruct (ex_resolved ex) eqn:Hr; [|injection Hs as <-; by left].
  apply res_bind_inr in Hs as ([] & Hok%reject_inr & [= <-]). right. split; [|done].
  apply orb_false_iff in Hdemo as [Hd1 Hd2]. apply negb_false_iff in Hok.
  unfold resolution_ok in Hok.
  destruct (ex_response ex) as [r|] eqn:Er; [|done].
  destruct (ex_verification ex) as [v|] eqn:Ev; [|done]. bool_norm.
  split; [done..| |].
  - exists r, v. rewrite <- subset_of_spec, <- intersects_spec. split_and!; done.
  - split; [done|]. intros r' Hr'. congruence.
Qed.

(** What has been resolved by a list of exchanges. *)
Definition accounted (challenges pending : list Challenge) (exs : list ChallengeExchange) : Prop :=
  NoDup (map ch_challenge_id pending) ∧ (∀ c, c ∈ pending → c ∈ challenges) ∧
  ∀ c, c ∈ challenges → c ∉ pending → ∃ ex, ex ∈ exs ∧ Resolves c ex.

Lemma accounted_exchanges p challenges pending exs done_ pending' :
  NoDup (map ch_challenge_id challenges) →
  accounted challenges pending done_ →
  fold_res (seal_exchange p) pending exs = inr pending' →
  accounted challenges pending' (done_ ++ exs).
Proof.
  intros Hnd. revert pending done_. induction exs as [|ex exs IH]; intros pending done_ Hacc Hf.
  { simpl in Hf. injection Hf as <-. by rewrite app_nil_r. }
  simpl in Hf. apply res_bind_inr in Hf as (mid & Hex & Hf).
  apply resolution_ok_spec in Hex as (c & Hc & Hce & Hcase).
  change (ex :: exs) with ([ex] ++ exs). rewrite app_assoc. eapply IH; [|exact Hf].
  destruct Hacc as (Hids & Hsub & Hres). destruct Hcase as [[_ ->]|[Hr ->]].
  - split_and!; [done..|]. intros d Hd Hnot. destruct (Hres d Hd Hnot) as (e & He & ?).
    exists e. split; [set_solver|done].
  - split_and!; [by apply drop_challenge_ids|by intros d [Hd _]%elem_of_drop_challenge; auto|].
    intros d Hd Hnot. destruct (decide (d ∈ pending)) as [Hp|Hp].
    + exists ex. split; [set_solver|].
      assert (d = c) as ->; [|done]. apply (challenge_id_inj challenges); [done..|by apply Hsub|].
      destruct (decide (ch_challenge_id d = ch_challenge_id c)); [done|].
      destruct Hnot. by apply elem_of_drop_challenge.
    + destruct (Hres d Hd Hp) as (e & He & ?). exists e. split; [set_solver|done].
Qed.

Lemma accounted_rounds p challenges pending rs done_ pending' :
  NoDup (map ch_challenge_id challenges) →
  accounted challenges pending done_ →
  fold_res (seal_round p) pending rs = inr pending' →
  accounted challenges pending' (done_ ++ flat_map rd_exchanges rs).
Proof.
  intros Hnd. revert pending done_. induction rs as [|r rs IH]; intros pending done_ Hacc Hf.
  { simpl in Hf. injection Hf as <-. simpl. by rewrite app_nil_r. }
  simpl in Hf. apply res_bind_inr in Hf as (mid & Hr & Hf). unfold seal_round in Hr. res_inv.
  simpl. rewrite app_assoc. eapply IH; [|exact Hf]. by eapply accounted_exchanges.
Qed.

(** C35: in a sealed packet nothing is resolved silently: every challenge that is
    not listed as unresolved was closed by an exchange with a maintained
    position and an independent VERIFIED finding that cites permitted evidence
    shared with the response, with no demonstration runtime involved; material
    disagreement is declared exactly when a challenge remains. *)
Theorem sealed_packet_sound `{CrossHash} p p' :
  validate_cross p = inr p' →
  (length (cx_challenges p') ≤ 24)%nat ∧ (length (cx_rounds p') ≤ 2)%nat ∧
  (∀ c, c ∈ cx_challenges p' → ch_challenge_id c ∉ cx_unresolved_challenge_ids p' →
     ∃ r ex, r ∈ cx_rounds p' ∧ ex ∈ rd_exchanges r ∧ Resolves c ex) ∧
  (cx_material_disagreement p' = true ↔
   ∃ c, c ∈ cx_challenges p' ∧ ch_challenge_id c ∈ cx_unresolved_challenge_ids p').
Proof.
  unfold validate_cross, seal. intros Hp.
  apply res_bind_inr in Hp as ([] & Hreq & Hp). unfold require in Hreq.
  destruct (_ && _) eqn:Hb in Hreq; [clear Hreq|done]. bool_norm.
  apply res_bind_inr in Hp as ([] & _ & Hp).
  apply res_bind_inr in Hp as ([] & Hmat%reject_inr & Hp).
  apply res_bind_inr in Hp as ([] & Hdis%reject_inr & Hp).
  apply res_bind_inr in Hp as ([] & _ & Hp). apply res_bind_inr in Hp as ([] & _ & Hp).
  apply res_bind_inr in Hp as (pending & Hpend & Hp).
  apply res_bind_inr in Hp as ([] & Hun%reject_inr & Hp).
  apply res_bind_inr in Hp as ([] & _ & [= <-]).
  apply negb_false_iff, distinct_NoDup in Hdis.
  apply negb_false_iff, eqb_prop in Hmat.
  apply orb_false_iff in Hun as [Hun%negb_false_iff _]. rewrite same_set_spec in Hun.
  apply (accounted_rounds _ (cx_challenges p) _ _ []) in Hpend as (_ & Hsub & Hres); [|done|].
  2:{ split_and!; [done..|]. by intros c ? []. }
  simpl. split_and!; [lia..| |].
  - intros c Hc Hno. destruct (Hres c Hc) as (ex & Hex & Hr).
    { intros Hp. apply Hno, Hun. by apply list_elem_of_fmap_2. }
    apply list_elem_of_In, in_flat_map in Hex as (r & Hr1 & Hr2).
    exists r, ex. rewrite !list_elem_of_In. done.
  - rewrite Hmat, negb_true_iff, bool_decide_eq_false. split.
    + destruct (cx_unresolved_challenge_ids p) as [|i l] eqn:Eu; [done|]. intros _.
      assert (i ∈ map ch_challenge_id pending) as Hi by (apply Hun; left).
      apply list_elem_of_fmap in Hi as (c & -> & Hc). exists c. split; [by apply Hsub|left].
    + intros (c & _ & Hc) He. rewrite He in Hc. by apply not_elem_of_nil in Hc.
Qed.

(** ** The driver cannot certify itself *)
Section no_verifier.
Context `{ContentHash, Pydantic, CrossHash}.
Context (responders : Respondent → option ResponseCapability).

Lemma run_exchange_open s reports owners n c ex :
  run_exchange responders None s reports owners n c = inr ex →
  ex_challenge ex = c ∧ ex_resolved ex = false.
Proof.
  unfold run_exchange. destruct (responders (ch_respondent c)); [|by intros [= <-]].
  intros He. res_inv. by destruct (rp_position _); injection He as <-.
Qed.

Lemma run_exchanges_open s reports owners n cs exs :
  map_res (run_exchange responders None s reports owners n) cs = inr exs →
  still_open exs = cs.
Proof.
  revert exs. induction cs as [|c cs IH]; simpl; intros exs Hm; [by injection Hm as <-|].
  apply res_bind_inr in Hm as (ex & Hex & Hm). apply res_bind_inr in Hm as (rest & Hr & [= <-]).
  apply run_exchange_open in Hex as [Hc Ho]. unfold still_open. simpl. rewrite Ho. simpl.
  rewrite Hc. f_equal. by apply IH.
Qed.

Lemma run_rounds_open s reports owners fuel n cs rs u :
  run_rounds responders None s reports owners fuel n cs = inr (rs, u) →
  u = cs ∧ (length rs ≤ fuel)%nat.
Proof.
  revert n cs rs u. induction fuel as [|f IH]; intros n cs rs u; simpl.
  { intros [= <- <-]. done. }
  case_bool_decide; [intros [= <- <-]; simpl; split; [done|lia]|]. intros Hr.
  apply res_bind_inr in Hr as (exs & Hexs%run_exchanges_open & Hr). rewrite Hexs in Hr.
  case_match; [|injection Hr as <- <-; simpl; split; [done|lia]].
  apply res_bind_inr in Hr as ([rs' u'] & [-> Hlen]%IH & [= <- <-]). simpl. split; [done|lia].
Qed.

Lemma make_challenges_length s lean audit owners i fs cs :
  make_challenges s lean audit owners i fs = inr cs → length cs = length fs.
Proof.
  revert i cs. induction fs as [|f fs IH]; simpl; intros i cs Hc; [by injection Hc as <-|].
  apply res_bind_inr in Hc as (c & _ & Hc). apply res_bind_inr in Hc as (cs' & Hc' & [= <-]).
  simpl. f_equal. by eapply IH.
Qed.
End no_verifier.

Lemma seal_fields `{CrossHash} p p' :
  validate_cross p = inr p' → p' = p <| cx_hash := cross_digest p |>.
Proof. unfold validate_cross, seal. intros Hp. by res_inv. Qed.

(** Without an independent verifier the correspondence cannot resolve
    anything: whatever the responders answer, every challenge stays unresolved,
    and material disagreement is declared exactly when the audit left findings
    to challenge. *)
Theorem no_self_certification `{ContentHash, Pydantic, CrossHash}
    responders s reports lean audit locked rounds limit now p :
  run_cross_examination responders None s reports lean audit locked rounds limit now = inr p →
  cx_unresolved_challenge_ids p = map ch_challenge_id (cx_challenges p) ∧
  (length (cx_rounds p) ≤ 2)%nat ∧
  ∃ sealed, map_res validate_report reports = inr sealed ∧
    (cx_material_disagreement p = true ↔
     challenged_findings audit (claim_owners sealed) ≠ []).
Proof.
  unfold run_cross_examination. intros Hp.
  apply res_bind_inr in Hp as ([] & _ & Hp).
  apply res_bind_inr in Hp as ([] & Hr%reject_inr & Hp).
  do 3 (apply res_bind_inr in Hp as ([] & _ & Hp)).
  apply res_bind_inr in Hp as (facts & _ & Hp). apply res_bind_inr in Hp as (sealed & Hs & Hp).
  do 2 (apply res_bind_inr in Hp as ([] & _ & Hp)).
  apply res_bind_inr in Hp as (cs & Hcs%make_challenges_length & Hp).
  apply res_bind_inr in Hp as ([rs u] & [-> Hlen]%run_rounds_open & Hp).
  apply seal_fields in Hp as ->. bool_norm.
  cbn [cx_unresolved_challenge_ids cx_challenges cx_rounds cx_material_disagreement fst snd
       updater rebuild cross_rebuild].
  split; [done|]. split; [lia|]. exists sealed. split; [done|].
  rewrite negb_true_iff, bool_decide_eq_false.
  split; intros Hne He; apply Hne; apply length_zero_iff_nil; [rewrite Hcs|rewrite <- Hcs];
    by apply length_zero_iff_nil.
Qed.

(** ** A concrete correspondence *)
Definition cross_now : Z := hours 10.
Definition cross_reports : list FirmReport := demo_reports cross_now.
(** The demo audit with one unsupported claim. *)
Definition cross_audit : CIOAuditReport :=
  mkAudit "snapshot-1" true
    [mkFinding "Evidence Auditor" (Some "qlib:coverage") UNSUPPORTED "Unsupported." []] [] true.
(** A responder that maintains its position on the cited evidence. *)
Definition maintaining : ResponseCapability := λ s _ c _,
  mret (mkResponse (ch_challenge_id c) (ch_respondent c) (rs_hash s) (ch_original_report_hash c)
          MAINTAIN "Maintained." (ch_evidence_ids c) None None).
Definition confirming : VerificationCapability := λ s c r,
  mret (inl (mkFinding "Independent verifier" (ch_claim_id c) VERIFIED "Confirmed."
               (ch_evidence_ids c))).
Definition cross_run (verifier : option VerificationCapability) : Res CrossExaminationPacket :=
  @run_cross_examination constant_hash any_shape (λ _, zero_sha) (λ _, Some maintaining) verifier
    (sample_snapshot cross_now) cross_reports
    (unavailable_validation (sample_snapshot cross_now)) cross_audit true 2 24 cross_now.
Definition no_cross : CrossExaminationPacket := mkCross "" "" [] "" "" [] [] [] false 0 true "".

Example cross_run_resolves :
  (λ p, (cx_material_disagreement p, length (cx_rounds p))) (get_or no_cross (cross_run (Some confirming)))
  = (false, 1%nat).
Proof. vm_compute. reflexivity. Qed.

Lemma no_self_certification_witness :
  cx_unresolved_challenge_ids (get_or no_cross (cross_run None)) = ["challenge-1"].
Proof.
  pose proof (@no_self_certification constant_hash any_shape (λ _, zero_sha) (λ _, Some maintaining)
    (sample_snapshot cross_now) cross_reports
    (unavailable_validation (sample_snapshot cross_now)) cross_audit true 2 24 cross_now
    (get_or no_cross (cross_run None)) ltac:(vm_compute; reflexivity)) as [H _].
  exact (eq_trans H ltac:(vm_compute; reflexivity)).
Defined.

Lemma sealed_packet_sound_witness :
  ∃ c r ex, c ∈ cx_challenges (get_or no_cross (cross_run (Some confirming))) ∧
    r ∈ cx_rounds (get_or no_cross (cross_run (Some confirming))) ∧
    ex ∈ rd_exchanges r ∧ Resolves c ex.
Proof.
  pose (p := get_or no_cross (cross_run (Some confirming))).
  destruct (@sealed_packet_sound (λ _, zero_sha) p p ltac:(vm_compute; reflexivity))
    as (_ & _ & H & _).
  pose (c := hd (mkChallenge "" R_cio None "" "" [] None) (cx_challenges p)).
  destruct (H c) as (r & ex & Hr & Hex & Hres).
  - vm_compute. left.
  - vm_compute. intros Hn. inversion Hn.
  - exists c, r, ex. split; [vm_compute; left|]. split; [exact Hr|]. split; [exact Hex|exact Hres].
Defined.
