(* ===== verification/Universe.v ===== *)
(** * The frozen research universe

    [src/money/data/identifiers.py], the review contract of
    [src/money/data/live_eligibility.py] and [src/money/scanner/universe.py]:
    the complete admitted membership is frozen with content hashes, screened
    for attention by traded value, and re-verified from the stored context. *)

From S2P Require Import Prelude Effects PyNum PyText Contracts Demo Eligibility Governance.
From S2P Require Import Market Signals.
#[local] Open Scope Z_scope.

(** ** Identifiers *)
Record InstrumentIdentifiers := mkIdentifiers {
  id_ticker : string;
  id_company_name : string;
  id_trading212_id : string;
  id_exchange_ticker : string;
  id_exchange : string;
  id_isin : string;
  id_quote_currency : string;
  id_companies_house_number : option string;
  id_provider_symbols : list (string * string);
  id_verified_at : Z;
  id_valid_until : Z;
  id_source : string
}.
#[export] Instance identifiers_eq_dec : EqDecision InstrumentIdentifiers.
Proof. solve_decision. Defined.

(** [r"[a-z0-9][a-z0-9_-]{0,49}"] and [r"[A-Za-z0-9][A-Za-z0-9._/-]{0,99}"] *)
Definition is_alnum_lower (c : ascii) : bool := is_lower c || is_digit c.
Definition provider_name (s : string) : bool :=
  match s with
  | EmptyString => false
  | String c s' =>
      is_alnum_lower c && (slen s' <=? 49) &&
      all_chars (λ c, is_alnum_lower c || bool_decide (c ∈ ["_"; "-"]%char)) s'
  end.
Definition provider_symbol (s : string) : bool :=
  let alnum c := is_upper c || is_alnum_lower c in
  match s with
  | EmptyString => false
  | String c s' =>
      alnum c && (slen s' <=? 99) &&
      all_chars (λ c, alnum c || bool_decide (c ∈ ["."; "_"; "/"; "-"]%char)) s'
  end.

(** The ISIN digits: a letter becomes the two digits of [ord(c) - 55]. *)
Fixpoint isin_digits (s : string) : list Z :=
  match s with
  | EmptyString => []
  | String c s' =>
      let n := Z.of_nat (nat_of_ascii c) in
      if is_upper c then (n - 55) / 10 :: (n - 55) mod 10 :: isin_digits s'
      else n - 48 :: isin_digits s'
  end.
Fixpoint luhn (double : bool) (l : list Z) : Z :=
  match l with
  | [] => 0
  | d :: l' =>
      let v := d * (if double then 2 else 1) in
      v / 10 + v mod 10 + luhn (negb double) l'
  end.
Definition isin_check (s : string) : bool := luhn false (reverse (isin_digits s)) mod 10 =? 0.

Definition unique_mapping (i : InstrumentIdentifiers) : Res InstrumentIdentifiers :=
  reject (existsb (λ ps, negb (provider_name ps.1) || negb (provider_symbol ps.2))
            (id_provider_symbols i)) ValueError "invalid provider mapping" ;;
  reject (negb (distinct (map fst (id_provider_symbols i))))
    ValueError "ambiguous provider mapping" ;;
  reject (id_valid_until i <=? id_verified_at i) ValueError "invalid identifier validity" ;;
  reject (negb (isin_check (id_isin i))) ValueError "invalid ISIN check digit" ;;
  mret i.
Definition validate_identifiers (i : InstrumentIdentifiers) : Res InstrumentIdentifiers :=
  require (is_ticker (id_ticker i) && len_between 1 200 (id_company_name i) &&
           len_between 1 100 (id_trading212_id i) && len_between 1 32 (id_exchange_ticker i) &&
           len_between 1 20 (id_exchange i) && is_isin (id_isin i) &&
           mem (id_quote_currency i) ["GBP"; "GBX"] &&
           opt_ok (λ s, (slen s =? 8) && all_chars (λ c, is_upper c || is_digit c) s)
             (id_companies_house_number i) && truthy (id_source i)) ;;
  unique_mapping i.

Definition require_current (i : InstrumentIdentifiers) (at_ : Z) : Res () :=
  reject (negb ((id_verified_at i <=? at_) && (at_ <? id_valid_until i)))
    ValueError "IDENTIFIER_MAPPING_STALE".
Definition symbol_for (i : InstrumentIdentifiers) (provider : string) (at_ : Z) : Res string :=
  require_current i at_ ;;
  match List.find (λ ps, bool_decide (ps.1 = provider)) (id_provider_symbols i) with
  | Some ps => mret ps.2
  | None => fail ValueError "IDENTIFIER_MAPPING_MISSING"
  end.

(** ** Contracts *)
Record EligibilityReview := mkReview {
  rv_metadata : InstrumentMetadata;
  rv_identifiers : InstrumentIdentifiers;
  rv_eligibility_proof_hash : string;
  rv_ethical_proof_hash : string
}.

Record FrozenUniverseMember := mkMember {
  fm_instrument : InstrumentMetadata;
  fm_qualification_hash : string;
  fm_valid_until : Z;
  fm_snapshot_hash : option string;
  fm_evidence_status : string
}.
#[export] Instance member_eq_dec : EqDecision FrozenUniverseMember.
Proof. solve_decision. Defined.

Record QualifiedUniverseSnapshot := mkUniverse {
  qu_observed_at : Z;
  qu_valid_until : Z;
  qu_members : list FrozenUniverseMember;
  qu_source_universe_hash : option string;
  qu_hash : string
}.
#[export] Instance universe_eq_dec : EqDecision QualifiedUniverseSnapshot.
Proof. solve_decision. Defined.
#[export] Instance universe_rebuild : Rebuild QualifiedUniverseSnapshot := λ r,
  mkUniverse (qu_observed_at r) (qu_valid_until r) (qu_members r) (qu_source_universe_hash r)
    (qu_hash r).

Record UniverseScreenPolicy := mkScreenPolicy {
  up_maximum_candidates : Z; up_observation_window : Z
}.
#[export] Instance screen_policy_eq_dec : EqDecision UniverseScreenPolicy.
Proof. solve_decision. Defined.
Definition default_screen_policy : UniverseScreenPolicy := mkScreenPolicy 5 20.

Inductive EntryState := SELECTED | OUTSIDE_ATTENTION_BOUND | UNRESOLVED_DATA.
#[export] Instance entry_state_eq_dec : EqDecision EntryState.
Proof. solve_decision. Defined.
Record UniverseScreenEntry := mkEntry {
  se_ticker : string;
  se_snapshot_hash : option string;
  se_average_daily_value_gbp : option Decimal;
  se_evidence_ids : list string;
  se_state : EntryState;
  se_reason : string
}.
#[export] Instance entry_eq_dec : EqDecision UniverseScreenEntry.
Proof. solve_decision. Defined.

Record UniverseScreen := mkScreen {
  us_universe_hash : string;
  us_policy : UniverseScreenPolicy;
  us_methodology_hash : string;
  us_entries : list UniverseScreenEntry;
  us_selected_tickers : list string;
  us_hash : string
}.
#[export] Instance screen_eq_dec : EqDecision UniverseScreen.
Proof. solve_decision. Defined.
#[export] Instance screen_rebuild : Rebuild UniverseScreen := λ r,
  mkScreen (us_universe_hash r) (us_policy r) (us_methodology_hash r) (us_entries r)
    (us_selected_tickers r) (us_hash r).

Record UniverseResearchContext := mkContext {
  uc_universe : QualifiedUniverseSnapshot;
  uc_screen : UniverseScreen;
  uc_snapshots : list ResearchSnapshot
}.
#[export] Instance context_eq_dec : EqDecision UniverseResearchContext.
Proof. solve_decision. Defined.

(** [content_hash] of the universe contracts; a self-hashed one without its hash. *)
Class UniverseHash := {
  hash_universe : QualifiedUniverseSnapshot → string;
  hash_screen : UniverseScreen → string;
  hash_screen_policy : UniverseScreenPolicy → string;
  hash_review : EligibilityReview → string;
}.

Definition status_code (s : string) : bool :=
  truthy s && all_chars (λ c, is_upper c || is_digit c || bool_decide (c = "_"%char)) s.

Section universe.
Context `{ContentHash, Pydantic, PolicyHash, UniverseHash}.

(** [EligibilityReview.matching_identity] *)
Definition matching_identity (r : EligibilityReview) : Res EligibilityReview :=
  reject (negb (bool_decide (im_ticker (rv_metadata r) = id_ticker (rv_identifiers r))) ||
          negb (bool_decide (im_quote_currency (rv_metadata r) =
                             id_quote_currency (rv_identifiers r))) ||
          bool_decide (im_provider (rv_metadata r) = "money-demo"))
    ValueError "LIVE_ELIGIBILITY_IDENTITY_MISMATCH" ;;
  match im_ethical_clearance (rv_metadata r) with
  | None => mret r
  | Some c =>
      reject (negb (mem (id_isin (rv_identifiers r)) (ec_isins c)))
        ValueError "ETHICAL_CLEARANCE_IDENTITY_MISMATCH" ;;
      reject (negb (bool_decide (rv_ethical_proof_hash r = hash_clearance c)))
        ValueError "ETHICAL_CLEARANCE_PROOF_MISMATCH" ;;
      mret r
  end.

Definition member_ticker (m : FrozenUniverseMember) : string := im_ticker (fm_instrument m).

(** The body of the loop over [self.members]. *)
Definition check_member (observed_at : Z) (m : FrozenUniverseMember) : Res () :=
  failures ← eligibility_failures (Some (fm_instrument m)) default_mandate observed_at;
  reject (negb (bool_decide (failures = []))) ValueError "UNIVERSE_MEMBER_NOT_QUALIFIED" ;;
  reject (negb ((observed_at <? fm_valid_until m) &&
                (fm_valid_until m <=? im_verified_at (fm_instrument m) +
                                      ELIGIBILITY_MAXIMUM_AGE)))
    ValueError "UNIVERSE_MEMBER_EXPIRED" ;;
  reject (match im_ethical_clearance (fm_instrument m) with
          | Some c => ec_valid_until c <? fm_valid_until m
          | None => false
          end) ValueError "UNIVERSE_MEMBER_ETHICAL_EXPIRY_EXCEEDED" ;;
  reject (negb (Bool.eqb (is_set (fm_snapshot_hash m))
                  (bool_decide (fm_evidence_status m = "READY"))))
    ValueError "UNIVERSE_EVIDENCE_STATUS_INVALID".

Definition universe_digest (u : QualifiedUniverseSnapshot) : string :=
  hash_universe (u <| qu_hash := "" |>).
Definition least_validity (l : list FrozenUniverseMember) : option Z :=
  match l with
  | [] => None
  | m :: l' => Some (min_all (fm_valid_until m) (map fm_valid_until l'))
  end.

Definition frozen_membership (u : QualifiedUniverseSnapshot) : Res QualifiedUniverseSnapshot :=
  let tickers := map member_ticker (qu_members u) in
  reject (negb (bool_decide (tickers = sorted_strings (from_keys tickers))))
    ValueError "UNIVERSE_MEMBERSHIP_NOT_CANONICAL" ;;
  reject (qu_valid_until u <=? qu_observed_at u) ValueError "UNIVERSE_MEMBERSHIP_EXPIRED" ;;
  all_res (check_member (qu_observed_at u)) (qu_members u) ;;
  reject (match least_validity (qu_members u) with
          | Some v => negb (qu_valid_until u =? v)
          | None => false
          end) ValueError "UNIVERSE_VALIDITY_MISMATCH" ;;
  reject (truthy (qu_hash u) && negb (bool_decide (qu_hash u = universe_digest u)))
    ValueError "UNIVERSE_SNAPSHOT_HASH_MISMATCH" ;;
  mret (u <| qu_hash := universe_digest u |>).

Definition validate_universe (u : QualifiedUniverseSnapshot) : Res QualifiedUniverseSnapshot :=
  require (opt_ok is_sha256 (qu_source_universe_hash u) &&
           forallb (λ m, is_sha256 (fm_qualification_hash m) &&
                         opt_ok is_sha256 (fm_snapshot_hash m) &&
                         status_code (fm_evidence_status m)) (qu_members u)) ;;
  map_res (λ m, validate_instrument (fm_instrument m)) (qu_members u) ;;
  frozen_membership u.

(** One review of [freeze_qualified_universe]. *)
Definition freeze_member (at_ : Z) (snapshots : list ResearchSnapshot)
    (missing : gmap string string) (r : EligibilityReview) : Res FrozenUniverseMember :=
  let ticker := im_ticker (rv_metadata r) in
  require_current (rv_identifiers r) at_ ;;
  let base := Z.min (id_valid_until (rv_identifiers r))
                    (im_verified_at (rv_metadata r) + ELIGIBILITY_MAXIMUM_AGE) in
  let expiry := match im_ethical_clearance (rv_metadata r) with
                | Some c => Z.min base (ec_valid_until c)
                | None => base
                end in
  match List.find (λ s, bool_decide (rs_ticker s = ticker)) snapshots with
  | None =>
      mret (mkMember (rv_metadata r) (hash_review r) expiry None
              (default "RESEARCH_EVIDENCE_REQUIRED" (missing !! ticker)))
  | Some s =>
      reject (negb (bool_decide (rs_instrument s = rv_metadata r)) || (at_ <? rs_created_at s))
        ValueError "UNIVERSE_SNAPSHOT_IDENTITY_MISMATCH" ;;
      reject (is_set (rs_universe_hash s)) ValueError "UNIVERSE_SNAPSHOT_ALREADY_BOUND" ;;
      reject (bool_decide (rs_evidence s = []) ||
              existsb (λ e, (ev_fresh_until e <=? at_) || ev_conflicting e ||
                            negb (available_at e (cutoff_for s e))) (rs_evidence s))
        ValueError "UNIVERSE_SNAPSHOT_EVIDENCE_INVALID" ;;
      mret (mkMember (rv_metadata r) (hash_review r)
              (min_all expiry (map ev_fresh_until (rs_evidence s)))
              (Some (rs_hash s)) "READY")
  end.

Definition freeze_qualified_universe (reviews : list EligibilityReview)
    (snapshots : list ResearchSnapshot) (at_ : Z) (missing : gmap string string)
    (source_hash : option string) : Res QualifiedUniverseSnapshot :=
  reject (bool_decide (length reviews = 0%nat))
    ValueError "UNIVERSE_QUALIFIED_MEMBERS_REQUIRED" ;;
  let tickers := map (λ r, im_ticker (rv_metadata r)) reviews in
  reject (negb (distinct tickers) ||
          negb (distinct (map (λ r, id_trading212_id (rv_identifiers r)) reviews)))
    ValueError "UNIVERSE_DUPLICATE_IDENTITY" ;;
  reject (negb (distinct (map rs_ticker snapshots)) ||
          negb (subset_of (map rs_ticker snapshots) tickers))
    ValueError "UNIVERSE_SNAPSHOT_MEMBERSHIP_MISMATCH" ;;
  members ← map_res (freeze_member at_ snapshots missing)
    (sort_by (λ a b, String.ltb (im_ticker (rv_metadata a)) (im_ticker (rv_metadata b)))
       reviews);
  match least_validity members with
  | None => fail ValueError "min() arg is an empty sequence"
  | Some valid => validate_universe (mkUniverse at_ valid members source_hash "")
  end.

Definition bind_universe_snapshot (s : ResearchSnapshot) (u : QualifiedUniverseSnapshot)
    : Res ResearchSnapshot :=
  match List.find (λ m, bool_decide (member_ticker m = rs_ticker s)) (qu_members u) with
  | None => fail ValueError "UNIVERSE_SNAPSHOT_BINDING_MISMATCH"
  | Some m =>
      reject (negb (bool_decide (fm_snapshot_hash m = Some (rs_hash s))))
        ValueError "UNIVERSE_SNAPSHOT_BINDING_MISMATCH" ;;
      validate_snapshot (s <| rs_universe_hash := Some (qu_hash u) |> <| rs_hash := "" |>)
  end.

(** ** Attention screen *)
Definition screen_digest (v : UniverseScreen) : string := hash_screen (v <| us_hash := "" |>).
Definition auditable (v : UniverseScreen) : Res UniverseScreen :=
  reject (negb (bool_decide (us_methodology_hash v = hash_screen_policy (us_policy v))))
    ValueError "UNIVERSE_SCREEN_METHODOLOGY_MISMATCH" ;;
  reject (negb (bool_decide (us_selected_tickers v =
             map se_ticker (List.filter (λ e, bool_decide (se_state e = SELECTED))
                              (us_entries v)))) ||
          (up_maximum_candidates (us_policy v) <? Z.of_nat (length (us_selected_tickers v))))
    ValueError "UNIVERSE_SCREEN_BOUND_INVALID" ;;
  reject (negb (distinct (map se_ticker (us_entries v))))
    ValueError "UNIVERSE_SCREEN_DUPLICATE_IDENTITY" ;;
  reject (truthy (us_hash v) && negb (bool_decide (us_hash v = screen_digest v)))
    ValueError "UNIVERSE_SCREEN_HASH_MISMATCH" ;;
  mret (v <| us_hash := screen_digest v |>).
Definition validate_screen (v : UniverseScreen) : Res UniverseScreen :=
  require ((1 <=? up_maximum_candidates (us_policy v)) &&
           (up_maximum_candidates (us_policy v) <=? 20) &&
           (20 <=? up_observation_window (us_policy v)) &&
           (up_observation_window (us_policy v) <=? 60) &&
           is_sha256 (us_universe_hash v) && is_sha256 (us_methodology_hash v)) ;;
  auditable v.

Record Score := mkScore {
  sco_value : Decimal; sco_ticker : string; sco_hash : string; sco_evidence : list string
}.
(** [scores.sort(key=lambda item: (-item[0], item[1]))] *)
Definition ranks_before (a b : Score) : bool :=
  dec_lt (sco_value b) (sco_value a) ||
  (dec_eq (sco_value a) (sco_value b) && String.ltb (sco_ticker a) (sco_ticker b)).

Definition earlier_record (a b : EvidenceRecord) : bool :=
  (ev_observation_time a <? ev_observation_time b) ||
  ((ev_observation_time a =? ev_observation_time b) &&
   String.ltb (ev_evidence_id a) (ev_evidence_id b)).

Definition unresolved_entry (ticker : string) (hash : option string) (reason : string)
    : UniverseScreenEntry := mkEntry ticker hash None [] UNRESOLVED_DATA reason.

(** One member of the screen: an unresolved entry or a score. *)
Definition screen_member (at_ : Z) (snapshots : list ResearchSnapshot)
    (p : UniverseScreenPolicy) (m : FrozenUniverseMember)
    : Res (UniverseScreenEntry + Score) :=
  let ticker := member_ticker m in
  let snapshot := List.find (λ s, bool_decide (rs_ticker s = ticker)) snapshots in
  match fm_snapshot_hash m, snapshot with
  | None, Some _ => fail ValueError "UNIVERSE_SCREEN_EVIDENCE_NOT_FROZEN"
  | None, None => mret (inl (unresolved_entry ticker None (fm_evidence_status m)))
  | Some _, None => fail ValueError "UNIVERSE_SCREEN_EVIDENCE_NOT_FROZEN"
  | Some hash, Some s =>
      reject (negb (bool_decide (rs_hash s = hash)))
        ValueError "UNIVERSE_SCREEN_EVIDENCE_NOT_FROZEN" ;;
      let records := last_n (Z.to_nat (up_observation_window p))
                       (sort_by earlier_record (price_records s)) in
      if negb (Z.of_nat (length records) =? up_observation_window p) ||
         existsb (λ r, (ev_fresh_until r <=? at_) || ev_conflicting r ||
                       negb (available_at r (rs_price_cutoff s))) records ||
         negb (distinct (map ev_observation_time records))
      then mret (inl (unresolved_entry ticker (Some (rs_hash s))
                        "SCREEN_CURRENT_PIT_HISTORY_REQUIRED"))
      else
        values ← map_res (λ b, reject (negb (bool_decide (currency_name (pb_currency b) =
                                              im_quote_currency (rs_instrument s))))
                                 ValueError "UNIVERSE_SCREEN_CURRENCY_MISMATCH" ;;
                               traded_value b) (omap bar_of records);
        mean ← dec_mean values;
        mret (inr (mkScore mean (rs_ticker s) (rs_hash s) (map ev_evidence_id records)))
  end.

Definition ranked_entry (limit : Z) (rank : nat) (v : Score) : UniverseScreenEntry :=
  mkEntry (sco_ticker v) (Some (sco_hash v)) (Some (sco_value v)) (sco_evidence v)
    (if Z.of_nat rank <? limit then SELECTED else OUTSIDE_ATTENTION_BOUND)
    "AUDITABLE_LIQUIDITY_ATTENTION_ORDER".

Definition screen_qualified_universe (u : QualifiedUniverseSnapshot)
    (snapshots : list ResearchSnapshot) (at_ : Z) (p : UniverseScreenPolicy)
    : Res UniverseScreen :=
  reject (negb ((qu_observed_at u <=? at_) && (at_ <? qu_valid_until u)))
    ValueError "UNIVERSE_SCREEN_EXPIRED" ;;
  reject (negb (distinct (map rs_ticker snapshots)) ||
          negb (subset_of (map rs_ticker snapshots) (map member_ticker (qu_members u))))
    ValueError "UNIVERSE_SCREEN_MEMBERSHIP_MISMATCH" ;;
  screened ← map_res (screen_member at_ snapshots p) (qu_members u);
  let scores := sort_by ranks_before
                  (omap (λ r, match r with inr v => Some v | inl _ => None end) screened) in
  let unresolved := omap (λ r, match r with inl e => Some e | inr _ => None end) screened in
  let ranked := imap (ranked_entry (up_maximum_candidates p)) scores in
  validate_screen
    (mkScreen (qu_hash u) p (hash_screen_policy p)
       (ranked ++ sort_by (λ a b, String.ltb (se_ticker a) (se_ticker b)) unresolved)
       (map se_ticker (List.filter (λ e, bool_decide (se_state e = SELECTED)) ranked)) "").

(** ** The stored context *)
Definition complete_frozen_context (c : UniverseResearchContext)
    : Res UniverseResearchContext :=
  let u := uc_universe c in
  reject (negb (bool_decide (us_universe_hash (uc_screen c) = qu_hash u)))
    ValueError "UNIVERSE_CONTEXT_SCREEN_MISMATCH" ;;
  reject (negb (same_set (map se_ticker (us_entries (uc_screen c)))
                  (map member_ticker (qu_members u))))
    ValueError "UNIVERSE_CONTEXT_MEMBERSHIP_MISMATCH" ;;
  let expected := omap (λ m, pair (member_ticker m) <$> fm_snapshot_hash m) (qu_members u) in
  reject (negb (bool_decide (length (uc_snapshots c) = length expected)) ||
          negb (same_set (map (λ s, (rs_ticker s, rs_hash s)) (uc_snapshots c)) expected))
    ValueError "UNIVERSE_CONTEXT_EVIDENCE_INCOMPLETE" ;;
  recomputed ← screen_qualified_universe u (uc_snapshots c) (qu_observed_at u)
                 (us_policy (uc_screen c));
  reject (negb (bool_decide (recomputed = uc_screen c)))
    ValueError "UNIVERSE_CONTEXT_SCREEN_NOT_REPRODUCIBLE" ;;
  mret c.

Definition validate_context (c : UniverseResearchContext) : Res UniverseResearchContext :=
  u ← validate_universe (uc_universe c);
  v ← validate_screen (uc_screen c);
  snapshots ← map_res validate_snapshot (uc_snapshots c);
  complete_frozen_context (mkContext u v snapshots).
End universe.

(** ** Facts about the screen *)
Definition scored (l : list (UniverseScreenEntry + Score)) : list Score :=
  omap (λ r, match r with inr v => Some v | inl _ => None end) l.
Definition unscored (l : list (UniverseScreenEntry + Score)) : list UniverseScreenEntry :=
  omap (λ r, match r with inl e => Some e | inr _ => None end) l.
Definition descending (a b : Score) : Prop := dec_le (sco_value b) (sco_value a) = true.

Lemma dec_eq_le x y : dec_eq x y = true → dec_le x y = true ∧ dec_le y x = true.
Proof.
  unfold dec_eq, dec_le. rewrite (Z.min_comm (expo y)), Z.eqb_eq, !Z.leb_le. lia.
Qed.
Lemma dec_lt_le x y : dec_lt x y = true → dec_le x y = true.
Proof. unfold dec_lt, dec_le. rewrite Z.ltb_lt, Z.leb_le. lia. Qed.

Lemma insert_ranked_sorted x l :
  StronglySorted descending l → StronglySorted descending (insert_by ranks_before x l).
Proof.
  induction l as [|y l IH]; intros Hs; simpl; [by repeat constructor|].
  apply StronglySorted_inv in Hs as [Hl Hy]. destruct (ranks_before y x) eqn:Hb.
  - constructor; [by apply IH|]. unfold ranks_before in Hb.
    assert (descending y x) as Hyx.
    { unfold descending. apply orb_true_iff in Hb as [Hb%dec_lt_le|Hb]; [done|].
      apply andb_true_iff in Hb as [Hb%dec_eq_le _]. apply Hb. }
    rewrite insert_by_perm. by constructor.
  - assert (descending x y) as Hxy.
    { unfold descending. unfold ranks_before in Hb. apply orb_false_iff in Hb as [Hb _].
      rewrite dec_lt_not_le in Hb. by apply negb_false_iff in Hb. }
    constructor; [by constructor|]. constructor; [done|].
    eapply Forall_impl; [exact Hy|]. intros z Hz. unfold descending in *. by eapply dec_le_trans.
Qed.
Lemma ranked_sorted l : StronglySorted descending (sort_by ranks_before l).
Proof. unfold sort_by. induction l; simpl; [constructor|by apply insert_ranked_sorted]. Qed.

Lemma StronglySorted_lookup {A} (R : A → A → Prop) l i j x y :
  StronglySorted R l → l !! i = Some x → l !! j = Some y → (i < j)%nat → R x y.
Proof.
  intros Hs. revert i j. induction Hs as [|z l Hl IH Hz]; intros i j Hi Hj Hlt; [done|].
  destruct j as [|j]; [lia|]. simpl in Hj. destruct i as [|i]; simpl in Hi.
  - injection Hi as <-. rewrite Forall_forall in Hz. apply Hz. by eapply list_elem_of_lookup_2.
  - eapply IH; [done..|lia].
Qed.

Lemma filter_ranked_length limit l k :
  0 ≤ limit →
  Z.of_nat (length (List.filter (λ e, bool_decide (se_state e = SELECTED))
                      (imap (λ i, ranked_entry limit (k + i)) l))) =
  Z.max 0 (Z.min (limit - Z.of_nat k) (Z.of_nat (length l))).
Proof.
  intros Hl. revert k. induction l as [|v l IH]; intros k; simpl; [lia|].
  replace (imap _ l) with (imap (λ i, ranked_entry limit (S k + i)) l).
  2:{ apply imap_ext. intros i v' _. simpl. f_equal. lia. }
  specialize (IH (S k)). unfold ranked_entry at 1. rewrite Nat.add_0_r. simpl.
  destruct (Z.ltb_spec (Z.of_nat k) limit);
    [rewrite bool_decide_true by done|rewrite bool_decide_false by done]; simpl in *; lia.
Qed.

(** The tickers of the rows one screening pass produces. *)
Definition row_ticker (r : UniverseScreenEntry + Score) : string :=
  match r with inl e => se_ticker e | inr v => sco_ticker v end.

Section screen_facts.
Context `{ContentHash, Pydantic, PolicyHash, UniverseHash}.

Lemma screen_member_ticker at_ snapshots p m r :
  screen_member at_ snapshots p m = inr r → row_ticker r = member_ticker m.
Proof.
  unfold screen_member. destruct (fm_snapshot_hash m) as [h|].
  - destruct (List.find _ snapshots) as [s|] eqn:Hf; [|done].
    apply find_some in Hf as [_ Ht]. apply bool_decide_eq_true in Ht. intros Hr.
    apply res_bind_inr in Hr as ([] & _ & Hr).
    destruct (_ || _ || _) in Hr; [by injection Hr as <-|].
    apply res_bind_inr in Hr as (vs & _ & Hr). by apply res_bind_inr in Hr as (mean & _ & [= <-]).
  - destruct (List.find _ snapshots); [done|]. by intros [= <-].
Qed.

Lemma screened_tickers at_ snapshots p ms rs :
  map_res (screen_member at_ snapshots p) ms = inr rs →
  map row_ticker rs = map member_ticker ms.
Proof.
  revert rs. induction ms as [|m ms IH]; simpl; intros rs Hm; [by injection Hm as <-|].
  apply res_bind_inr in Hm as (r & Hr%screen_member_ticker & Hm).
  apply res_bind_inr in Hm as (rs' & Hrs & [= <-]). simpl. by rewrite Hr, (IH rs').
Qed.

Lemma rows_split rs :
  map row_ticker rs ≡ₚ map sco_ticker (scored rs) ++ map se_ticker (unscored rs).
Proof.
  unfold scored, unscored. induction rs as [|[e|v] rs IH]; simpl; [done|..]; rewrite IH.
  - by rewrite Permutation_middle.
  - done.
Qed.

Lemma map_ranked_ticker limit l k :
  map se_ticker (imap (λ i, ranked_entry limit (k + i)) l) = map sco_ticker l.
Proof.
  revert k. induction l as [|v l IH]; intros k; simpl; [done|]. f_equal.
  rewrite <- (IH (S k)). f_equal. apply imap_ext. intros i v' _. simpl. f_equal. lia.
Qed.

Lemma screen_inv u snapshots at_ p v :
  screen_qualified_universe u snapshots at_ p = inr v →
  ∃ rs, map_res (screen_member at_ snapshots p) (qu_members u) = inr rs ∧
    let scores := sort_by ranks_before (scored rs) in
    let ranked := imap (ranked_entry (up_maximum_candidates p)) scores in
    us_entries v = ranked ++ sort_by (λ a b, String.ltb (se_ticker a) (se_ticker b)) (unscored rs) ∧
    us_selected_tickers v =
      map se_ticker (List.filter (λ e, bool_decide (se_state e = SELECTED)) ranked) ∧
    1 ≤ up_maximum_candidates p ≤ 20.
Proof.
  unfold screen_qualified_universe, validate_screen, auditable. intros Hv.
  do 2 (apply res_bind_inr in Hv as ([] & _ & Hv)).
  apply res_bind_inr in Hv as (rs & Hrs & Hv). exists rs. split; [done|].
  apply res_bind_inr in Hv as ([] & Hreq & Hv). unfold require in Hreq.
  destruct (_ && _) eqn:Hb in Hreq; [clear Hreq|done].
  do 4 (apply res_bind_inr in Hv as ([] & _ & Hv)). injection Hv as <-.
  cbn [us_policy up_maximum_candidates] in Hb. bool_norm. split_and!; [done..|lia|lia].
Qed.
End screen_facts.

(** The attention screen covers every frozen member exactly once, selects
    as many scored members as the policy allows and no more, and never selects
    a member whose mean traded value is below that of a member it leaves out. *)
Theorem attention_screen_order `{ContentHash, Pydantic, PolicyHash, UniverseHash}
    u snapshots at_ p v :
  screen_qualified_universe u snapshots at_ p = inr v →
  map se_ticker (us_entries v) ≡ₚ map member_ticker (qu_members u) ∧
  Z.of_nat (length (us_selected_tickers v)) =
    Z.min (up_maximum_candidates p)
      (count_by (λ e, is_set (se_average_daily_value_gbp e)) (us_entries v)) ∧
  ∀ i j a b x y, us_entries v !! i = Some a → us_entries v !! j = Some b → (i < j)%nat →
    se_average_daily_value_gbp a = Some x → se_average_daily_value_gbp b = Some y →
    dec_le y x = true ∧ (se_state b = SELECTED → se_state a = SELECTED).
Proof.
  intros (rs & Hrs & He & Hsel & Hlim)%screen_inv. cbv zeta in He, Hsel.
  set (scores := sort_by ranks_before (scored rs)) in *.
  set (rest := sort_by _ (unscored rs)) in *.
  assert (∀ e, e ∈ rest → se_average_daily_value_gbp e = None) as Hrest.
  { intros e Hin. unfold rest in Hin. rewrite sort_by_perm in Hin.
    unfold unscored in Hin. apply list_elem_of_omap in Hin as ([e'|] & Hr & [= ->]).
    apply (map_res_elem _ _ _ _ Hrs) in Hr as (m & _ & Hm). unfold screen_member in Hm.
    destruct (fm_snapshot_hash m), (List.find _ snapshots); try done; [|by injection Hm as <-].
    apply res_bind_inr in Hm as ([] & _ & Hm).
    destruct (_ || _ || _) in Hm; [by injection Hm as <-|].
    apply res_bind_inr in Hm as (vs & _ & Hm). by apply res_bind_inr in Hm as (mean & _ & [=]). }
  assert (∀ i e x, us_entries v !! i = Some e → se_average_daily_value_gbp e = Some x →
            ∃ c, scores !! i = Some c ∧ e = ranked_entry (up_maximum_candidates p) i c ∧
                 x = sco_value c) as Hrank.
  { intros i e x Hi Hx. rewrite He in Hi. apply lookup_app_Some in Hi as [Hi|[_ Hi]].
    - rewrite list_lookup_imap in Hi. destruct (scores !! i) as [c|]; [|done]. simpl in Hi.
      injection Hi as <-. exists c. simpl in Hx. by injection Hx as <-.
    - apply list_elem_of_lookup_2, Hrest in Hi. congruence. }
  split_and!.
  - rewrite He, map_app, <- (screened_tickers _ _ _ _ _ Hrs), rows_split.
    rewrite (map_ranked_ticker _ scores 0 : map se_ticker (imap (ranked_entry _) scores) = _).
    unfold scores, rest. by rewrite (fmap_Permutation _ _ _ (sort_by_perm ranks_before _)),
      (fmap_Permutation _ _ _ (sort_by_perm _ (unscored rs))).
  - rewrite Hsel, length_map. rewrite (filter_ranked_length _ scores 0) by lia.
    rewrite He. unfold count_by. rewrite List.filter_app, length_app.
    assert (List.filter (λ e, is_set (se_average_daily_value_gbp e)) rest = []) as ->.
    { destruct (List.filter _ rest) as [|e l] eqn:Hf; [done|].
      assert (e ∈ List.filter (λ e, is_set (se_average_daily_value_gbp e)) rest) as Hin
        by (rewrite Hf; left).
      apply elem_of_List_filter in Hin as [Hin Hs]. rewrite (Hrest e Hin) in Hs. done. }
    assert (length (List.filter (λ e, is_set (se_average_daily_value_gbp e))
              (imap (ranked_entry (up_maximum_candidates p)) scores)) = length scores) as ->.
    { rewrite (forallb_filter_id _ _), length_imap; [done|]. apply forallb_forall.
      intros e Hin. apply list_elem_of_In, elem_of_lookup_imap in Hin as (i & c & -> & _). done. }
    simpl. lia.
  - intros i j a b x y Hi Hj Hlt Hx Hy.
    destruct (Hrank i a x Hi Hx) as (c & Hc & -> & ->).
    destruct (Hrank j b y Hj Hy) as (d & Hd & -> & ->). split.
    + apply (StronglySorted_lookup descending scores i j c d); [apply ranked_sorted|done..].
    + simpl. repeat case_match; try done. lia.
Qed.

(** ** Soundness of a stored context *)
Lemma least_validity_le l v m : least_validity l = Some v → m ∈ l → v ≤ fm_valid_until m.
Proof.
  destruct l as [|x l]; [done|]. intros [= <-].
  pose proof (min_all_le (fm_valid_until x) (map fm_valid_until l)) as [Hx Hl].
  intros [->|Hm]%elem_of_cons; [done|]. apply Hl. by apply list_elem_of_fmap_2.
Qed.

Section context_facts.
Context `{ContentHash, Pydantic, PolicyHash, UniverseHash}.

Lemma check_member_sound t m :
  check_member t m = inr () →
  Eligible (fm_instrument m) default_mandate t ∧
  fm_valid_until m ≤ im_verified_at (fm_instrument m) + hours 24 ∧
  (∀ c, im_ethical_clearance (fm_instrument m) = Some c → fm_valid_until m ≤ ec_valid_until c) ∧
  (is_set (fm_snapshot_hash m) = true ↔ fm_evidence_status m = "READY").
Proof.
  unfold check_member. intros Hm.
  apply res_bind_inr in Hm as (fs & Hfs & Hm).
  apply res_bind_inr in Hm as ([] & Hq%reject_inr & Hm).
  apply res_bind_inr in Hm as ([] & Hv%reject_inr & Hm).
  apply res_bind_inr in Hm as ([] & Hc%reject_inr & Hs%reject_inr).
  apply negb_false_iff, bool_decide_eq_true in Hq as ->. bool_norm.
  split_and!; [by apply no_failures_iff|done|..].
  - intros c Hc'. rewrite Hc' in Hc. bool_norm. done.
  - apply eqb_prop in Hs. rewrite Hs. apply bool_decide_eq_true.
Qed.

Lemma validate_universe_sound u u' :
  validate_universe u = inr u' →
  u' = u <| qu_hash := universe_digest u |> ∧
  ∀ m, m ∈ qu_members u → check_member (qu_observed_at u) m = inr () ∧
    qu_observed_at u < qu_valid_until u ≤ fm_valid_until m.
Proof.
  unfold validate_universe, frozen_membership. intros Hu.
  do 3 (apply res_bind_inr in Hu as (? & _ & Hu)).
  apply res_bind_inr in Hu as ([] & Hexp%reject_inr & Hu).
  apply res_bind_inr in Hu as ([] & Hall & Hu). rewrite all_res_inr in Hall.
  apply res_bind_inr in Hu as ([] & Hmin%reject_inr & Hu).
  apply res_bind_inr in Hu as ([] & _ & [= <-]). split; [done|]. intros m Hm.
  split; [by apply Hall|]. bool_norm.
  destruct (least_validity (qu_members u)) as [v|] eqn:Hl.
  - apply negb_false_iff, Z.eqb_eq in Hmin. pose proof (least_validity_le _ _ _ Hl Hm). lia.
  - destruct (qu_members u); [by apply not_elem_of_nil in Hm|done].
Qed.

Lemma screen_member_scored at_ snapshots p m v :
  screen_member at_ snapshots p m = inr (inr v) →
  ∃ s, s ∈ snapshots ∧ rs_ticker s = member_ticker m ∧ sco_ticker v = member_ticker m ∧
       fm_snapshot_hash m = Some (rs_hash s).
Proof.
  intros Hm. pose proof (screen_member_ticker _ _ _ _ _ Hm) as Ht. unfold screen_member in Hm.
  destruct (fm_snapshot_hash m) as [h|], (List.find _ snapshots) as [s|] eqn:Hf; try done.
  apply find_some in Hf as [Hin Hs]. apply bool_decide_eq_true in Hs.
  apply res_bind_inr in Hm as ([] & Hh%reject_inr & _). bool_norm. subst h.
  exists s. by rewrite list_elem_of_In.
Qed.
End context_facts.


(** ** A concrete universe *)
Definition live_identifiers : InstrumentIdentifiers :=
  mkIdentifiers "ACME.L" "Acme plc" "ACMEl_EQ" "ACME" "LSE" "GB0002634946" "GBX" (Some "00123456")
    [("eodhd", "ACME.LSE")] (live_now - hours 1) (live_now + days 1) "Broker list".
Example live_identifiers_valid : passes (validate_identifiers live_identifiers) = true.
Proof. vm_compute. reflexivity. Qed.
Definition live_review : EligibilityReview := mkReview live_instrument live_identifiers zero_sha zero_sha.
Definition live_universe_hash : UniverseHash :=
  {| hash_universe _ := zero_sha; hash_screen _ := zero_sha; hash_screen_policy _ := zero_sha;
     hash_review _ := zero_sha |}.
Definition no_universe : QualifiedUniverseSnapshot := mkUniverse 0 0 [] None "".
Definition live_universe : QualifiedUniverseSnapshot :=
  get_or no_universe (@freeze_qualified_universe constant_hash live_policy_hash live_universe_hash
    [live_review] [live_snapshot] live_now ∅ None).
Definition no_screen : UniverseScreen := mkScreen "" default_screen_policy "" [] [] "".
Definition live_screen : UniverseScreen :=
  get_or no_screen (@screen_qualified_universe live_universe_hash live_universe [live_snapshot]
    live_now default_screen_policy).
Definition live_context : UniverseResearchContext :=
  mkContext live_universe live_screen [live_snapshot].

Lemma attention_screen_order_witness :
  Z.of_nat (length (us_selected_tickers live_screen)) = 1.
Proof.
  destruct (@attention_screen_order constant_hash any_shape live_policy_hash live_universe_hash
    live_universe [live_snapshot] live_now default_screen_policy live_screen
    ltac:(vm_compute; reflexivity)) as (_ & H & _).
  refine (eq_trans H _). vm_compute. reflexivity.
Defined.

