(* ===== verification/Customers.v ===== *)
(** * Customer records

    The tables of [src/money/accounts/models.py] and the customer tables of
    [src/money/product/models.py], grouped in one record that is a field of the
    database. Roles and states are inductive types; the check constraints of the
    tables admit nothing else. *)

From S2P Require Import Prelude Effects PyNum PyText Contracts.
#[local] Open Scope Z_scope.

Inductive Role := OWNER | ADMIN | MEMBER | VIEWER.
#[export] Instance role_eq_dec : EqDecision Role.
Proof. solve_decision. Defined.

(** ** Accounts *)
Record UserRow := mkUser {
  us_email : string;
  us_display_name : string;
  us_password_hash : string;
  us_email_verified_at : option Z;
  us_deletion_requested_at : option Z;
  us_email_notifications : bool;
  us_created_at : Z
}.
#[export] Instance user_rebuild : Rebuild UserRow := λ r,
  mkUser (us_email r) (us_display_name r) (us_password_hash r) (us_email_verified_at r)
    (us_deletion_requested_at r) (us_email_notifications r) (us_created_at r).
Record OrgRow := mkOrg { og_name : string; og_created_by : string; og_created_at : Z }.
Record MemberRow := mkMember { mb_role : Role; mb_created_at : Z }.
#[export] Instance member_rebuild : Rebuild MemberRow := λ r, mkMember (mb_role r) (mb_created_at r).
Record AccountSession := mkAccountSession {
  as_user_id : string; as_created_at : Z; as_expires_at : Z; as_revoked_at : option Z
}.
#[export] Instance account_session_rebuild : Rebuild AccountSession := λ r,
  mkAccountSession (as_user_id r) (as_created_at r) (as_expires_at r) (as_revoked_at r).
Inductive TokenPurpose := verify | reset.
#[export] Instance token_purpose_eq_dec : EqDecision TokenPurpose.
Proof. solve_decision. Defined.
Record TokenRow := mkToken {
  tk_user_id : string;
  tk_purpose : TokenPurpose;
  tk_created_at : Z;
  tk_expires_at : Z;
  tk_used_at : option Z
}.
#[export] Instance token_rebuild : Rebuild TokenRow := λ r,
  mkToken (tk_user_id r) (tk_purpose r) (tk_created_at r) (tk_expires_at r) (tk_used_at r).
Record AccountEvent := mkAccountEvent {
  ev_event : string;
  ev_user_id : option string;
  ev_workspace_id : option string;
  ev_payload : jobj;
  ev_created_at : Z
}.
Inductive EmailState :=
  | EMAIL_QUEUED | EMAIL_SENDING | EMAIL_DELIVERED | EMAIL_FAILED | EMAIL_CANCELLED.
#[export] Instance email_state_eq_dec : EqDecision EmailState.
Proof. solve_decision. Defined.
Record EmailRow := mkEmail {
  em_user_id : string;
  em_kind : string;
  em_encrypted_payload : string;
  em_recipient_hash : option string;
  em_state : EmailState;
  em_attempts : Z;
  em_available_at : Z;
  em_lease_token : option string;
  em_lease_until : option Z;
  em_created_at : Z;
  em_delivered_at : option Z;
  em_failure_code : option string
}.
#[export] Instance email_rebuild : Rebuild EmailRow := λ r,
  mkEmail (em_user_id r) (em_kind r) (em_encrypted_payload r) (em_recipient_hash r) (em_state r)
    (em_attempts r) (em_available_at r) (em_lease_token r) (em_lease_until r) (em_created_at r)
    (em_delivered_at r) (em_failure_code r).
Record InvitationRow := mkInvitation {
  in_workspace_id : string;
  in_invited_by : string;
  in_email : string;
  in_role : Role;
  in_created_at : Z;
  in_expires_at : Z;
  in_used_at : option Z
}.
#[export] Instance invitation_rebuild : Rebuild InvitationRow := λ r,
  mkInvitation (in_workspace_id r) (in_invited_by r) (in_email r) (in_role r) (in_created_at r)
    (in_expires_at r) (in_used_at r).
Inductive DeletionState := REQUESTED | REVIEWED | ERASED.
#[export] Instance deletion_state_eq_dec : EqDecision DeletionState.
Proof. solve_decision. Defined.
Record DeletionRow := mkDeletion {
  dl_state : DeletionState;
  dl_requested_at : Z;
  dl_recipient_hash : string;
  dl_policy_version : option string;
  dl_policy_hash : option string;
  dl_reviewed_by : option string;
  dl_reviewed_at : option Z;
  dl_erasure_after : option Z;
  dl_erased_at : option Z
}.
#[export] Instance deletion_rebuild : Rebuild DeletionRow := λ r,
  mkDeletion (dl_state r) (dl_requested_at r) (dl_recipient_hash r) (dl_policy_version r)
    (dl_policy_hash r) (dl_reviewed_by r) (dl_reviewed_at r) (dl_erasure_after r) (dl_erased_at r).
Inductive ClosureState := CLOSURE_PENDING | CLOSURE_SCHEDULED | CLOSURE_CLOSED | CLOSURE_FAILED.
#[export] Instance closure_state_eq_dec : EqDecision ClosureState.
Proof. solve_decision. Defined.
Record ClosureRow := mkClosure {
  cl_requested_by : string;
  cl_requested_at : Z;
  cl_state : ClosureState;
  cl_customer_id : option string;
  cl_subscription_id : option string;
  cl_cancellation_key : string;
  cl_attempts : Z;
  cl_available_at : Z;
  cl_failure_code : option string;
  cl_billing_reviewed_at : option Z;
  cl_billing_reviewed_by : option string
}.
#[export] Instance closure_rebuild : Rebuild ClosureRow := λ r,
  mkClosure (cl_requested_by r) (cl_requested_at r) (cl_state r) (cl_customer_id r)
    (cl_subscription_id r) (cl_cancellation_key r) (cl_attempts r) (cl_available_at r)
    (cl_failure_code r) (cl_billing_reviewed_at r) (cl_billing_reviewed_by r).

(** ** Subscriptions and product records *)
Record Subscription := mkSubscription {
  sb_plan : string;
  sb_status : string;
  sb_customer_id : option string;
  sb_subscription_id : option string;
  sb_checkout_key : option string;
  sb_checkout_plan : option string;
  sb_checkout_url : option string;
  sb_checkout_until : option Z;
  sb_checkout_payload : option (list (string * string));
  sb_period_start : Z;
  sb_period_end : Z;
  sb_updated_at : Z
}.
#[export] Instance subscription_rebuild : Rebuild Subscription := λ r,
  mkSubscription (sb_plan r) (sb_status r) (sb_customer_id r) (sb_subscription_id r)
    (sb_checkout_key r) (sb_checkout_plan r) (sb_checkout_url r) (sb_checkout_until r)
    (sb_checkout_payload r) (sb_period_start r) (sb_period_end r) (sb_updated_at r).
Inductive BillingState := BILLING_PENDING | BILLING_PROCESSED | BILLING_FAILED | BILLING_IGNORED.
#[export] Instance billing_state_eq_dec : EqDecision BillingState.
Proof. solve_decision. Defined.
Record BillingEvent := mkBillingEvent {
  be_kind : string;
  be_subscription_id : option string;
  be_customer_id : option string;
  be_content_hash : string;
  be_state : BillingState;
  be_attempts : Z;
  be_available_at : Z;
  be_created_at : Z;
  be_processed_at : option Z
}.
#[export] Instance billing_event_rebuild : Rebuild BillingEvent := λ r,
  mkBillingEvent (be_kind r) (be_subscription_id r) (be_customer_id r) (be_content_hash r)
    (be_state r) (be_attempts r) (be_available_at r) (be_created_at r) (be_processed_at r).
Record WatchRow := mkWatch { wa_created_by : string; wa_created_at : Z }.
Record ReadRow := mkRead { rd_workspace_id : string; rd_read_at : Z }.
Record ProductEvent := mkProductEvent {
  pe_workspace_id : string;
  pe_user_id : string;
  pe_event : string;
  pe_reference_id : option string;
  pe_created_at : Z
}.

Record PreferencesRow := mkPreferences {
  pf_mandate : ResearchMandate; pf_research_email : bool; pf_updated_at : Z
}.

Record Customers := mkCustomers {
  cu_users : gmap string UserRow;
  cu_orgs : gmap string OrgRow;
  cu_members : gmap (string * string) MemberRow;   (** workspace, user *)
  cu_sessions : gmap string AccountSession;
  cu_tokens : gmap string TokenRow;
  cu_audit : gmap string AccountEvent;
  cu_email : gmap string EmailRow;
  cu_invitations : gmap string InvitationRow;
  cu_deletions : gmap string DeletionRow;
  cu_closures : gmap string ClosureRow;
  cu_subscriptions : gmap string Subscription;
  cu_billing : gmap string BillingEvent;
  cu_watchlist : gmap (string * string) WatchRow;  (** workspace, ticker *)
  cu_reads : gmap (string * string) ReadRow;       (** user, notification *)
  cu_events : gmap string ProductEvent;
  cu_preferences : gmap string PreferencesRow
}.
#[export] Instance customers_rebuild : Rebuild Customers := λ r,
  mkCustomers (cu_users r) (cu_orgs r) (cu_members r) (cu_sessions r) (cu_tokens r) (cu_audit r)
    (cu_email r) (cu_invitations r) (cu_deletions r) (cu_closures r) (cu_subscriptions r)
    (cu_billing r) (cu_watchlist r) (cu_reads r) (cu_events r)
    (cu_preferences r).
Definition no_customers : Customers := mkCustomers ∅ ∅ ∅ ∅ ∅ ∅ ∅ ∅ ∅ ∅ ∅ ∅ ∅ ∅ ∅ ∅.

(** The identity tables: who exists, belongs where and may act. *)
Definition identity (c : Customers) :=
  (cu_users c, cu_orgs c, cu_members c, cu_sessions c, cu_tokens c, cu_invitations c,
   cu_deletions c, cu_closures c).
(** All tables but the subscriptions and the product events, which the admission
    of research writes. *)
Definition tenant (c : Customers) :=
  (identity c, cu_audit c, cu_email c, cu_billing c, cu_watchlist c, cu_reads c, cu_preferences c).
