(* ===== verification/Schema.v ===== *)
(** * Durable records and transactions

    The tables of [src/money/storage/models.py],
    [src/money/storage/production_models.py], the admission and metering tables
    of [src/money/product], and the database handle of
    [src/money/storage/store.py]. A table is a map from its primary or unique
    key to a row; append-only record tables are lists in insertion order. Typed
    contracts stand for their JSON documents; documents without a contract are
    [jobj].

    One transaction is one atomic step of the world, the guarantee of
    [BEGIN IMMEDIATE] and of the row locks the code takes. The clock, fresh
    identifiers, randomness and rows skipped because another transaction holds
    them come from [Env], indexed by a tick every read consumes. *)

From S2P Require Import Prelude Effects PyNum PyText Contracts Demo Eligibility Governance.
From S2P Require Import Market Signals CrossExam Universe Customers.
#[local] Open Scope Z_scope.

(** ** Job rows *)
Definition status_name (s : JobStatus) : string :=
  match s with
  | QUEUED => "QUEUED" | ELIGIBILITY_CHECK => "ELIGIBILITY_CHECK" | DISCOVERY => "DISCOVERY"
  | SNAPSHOT_BUILD => "SNAPSHOT_BUILD" | FIRST_PASS_RESEARCH => "FIRST_PASS_RESEARCH"
  | FIRST_PASS_LOCKED => "FIRST_PASS_LOCKED" | LEAN_VALIDATION => "LEAN_VALIDATION"
  | CREWAI_AUDIT => "CREWAI_AUDIT" | CROSS_EXAMINATION => "CROSS_EXAMINATION"
  | CONSENSUS => "CONSENSUS" | COMPLETE => "COMPLETE" | REJECTED => "REJECTED"
  | FAILED => "FAILED"
  end.
Definition state_name (s : ResearchState) : string :=
  match s with
  | STRONG_RESEARCH_CANDIDATE => "STRONG_RESEARCH_CANDIDATE"
  | RESEARCH_CANDIDATE => "RESEARCH_CANDIDATE" | WATCH => "WATCH" | REJECT => "REJECT"
  | INSUFFICIENT_EVIDENCE => "INSUFFICIENT_EVIDENCE" | EXPIRED => "EXPIRED"
  end.
Inductive ResearchKind := standard | live_rnd.
#[export] Instance research_kind_eq_dec : EqDecision ResearchKind.
Proof. solve_decision. Defined.

Record Job := mkJob {
  j_ticker : string;
  j_research_kind : ResearchKind;
  j_mandate_id : string;
  j_workspace_id : string;
  j_idempotency_key : option string;
  j_request_hash : option string;
  j_attempt_count : Z;
  j_max_attempts : Z;
  j_available_at : option Z;
  j_deadline_at : option Z;
  j_resume_stage : option JobStatus;
  j_candidate_id : option string;
  j_snapshot_id : option string;
  j_status : JobStatus;
  j_current_stage : JobStatus;
  j_created_at : Z;
  j_updated_at : Z;
  j_started_at : option Z;
  j_completed_at : option Z;
  j_locked_at : option Z;
  j_worker_id : option string;
  j_lease_token : option string;
  j_lease_until : option Z;
  j_error_code : option string;
  j_error_message : option string
}.
#[export] Instance job_eq_dec : EqDecision Job.
Proof. solve_decision. Defined.
#[export] Instance job_rebuild : Rebuild Job := λ r,
  mkJob (j_ticker r) (j_research_kind r) (j_mandate_id r) (j_workspace_id r)
    (j_idempotency_key r) (j_request_hash r) (j_attempt_count r) (j_max_attempts r)
    (j_available_at r) (j_deadline_at r) (j_resume_stage r) (j_candidate_id r)
    (j_snapshot_id r) (j_status r) (j_current_stage r) (j_created_at r) (j_updated_at r)
    (j_started_at r) (j_completed_at r) (j_locked_at r) (j_worker_id r) (j_lease_token r)
    (j_lease_until r) (j_error_code r) (j_error_message r).

(** ** Other rows *)
Record SnapshotRow := mkSnapshotRow {
  sn_job : string; sn_payload : ResearchSnapshot; sn_created_at : Z
}.
Record EvidenceRow := mkEvidenceRow {
  er_job : string; er_payload : EvidenceRecord; er_created_at : Z
}.
Record ReportRow := mkReportRow {
  re_payload : FirmReport; re_content_hash : string; re_created_at : Z
}.
(** The documents saved under an artifact kind. *)
Inductive ArtifactValue :=
  | ArtLean (l : LeanValidationReport)
  | ArtAudit (a : CIOAuditReport)
  | ArtRedTeam (r : RedTeamReport)
  | ArtIndependence (i : EvidenceIndependenceReport)
  | ArtCross (c : CrossExaminationPacket)
  | ArtUniverse (u : UniverseResearchContext)
  | ArtDesign (d : SignalDesign)
  | ArtJson (o : jobj).
Record ArtifactRow := mkArtifactRow { ar_payload : ArtifactValue; ar_created_at : Z }.
(** A decision packet: the validated contract, or the document of an early
    rejection, which never passes [DecisionPacket]. *)
Inductive PacketValue := PacketDoc (p : DecisionPacket) | RejectionDoc (o : jobj).
Record PacketRow := mkPacketRow {
  pk_payload : PacketValue; pk_content_hash : string; pk_created_at : Z
}.
Record SignalRow := mkSignalRow {
  si_payload : ResearchSignal; si_valid_until : Z; si_created_at : Z
}.
(** [record_table(..., job=True)] *)
Record RecordRow := mkRecordRow {
  rc_job : string; rc_payload : ArtifactValue; rc_created_at : Z
}.
Record AuditEvent := mkAuditEvent {
  ae_job : option string; ae_event : string; ae_payload : jobj; ae_created_at : Z
}.
Record HealthRow := mkHealth { he_healthy : bool; he_mode : string; he_updated_at : Z }.
Record SessionRow := mkSession {
  se_workspace_id : string;
  se_credential_version : string;
  se_created_at : Z;
  se_expires_at : Z;
  se_revoked_at : option Z
}.
#[export] Instance session_rebuild : Rebuild SessionRow := λ r,
  mkSession (se_workspace_id r) (se_credential_version r) (se_created_at r) (se_expires_at r)
    (se_revoked_at r).
Record RateLimitRow := mkRateLimit { rl_window_started_at : Z; rl_count : Z }.
#[export] Instance rate_limit_rebuild : Rebuild RateLimitRow := λ r,
  mkRateLimit (rl_window_started_at r) (rl_count r).

Inductive AlertChannel := web | email | telegram.
#[export] Instance alert_channel_eq_dec : EqDecision AlertChannel.
Proof. solve_decision. Defined.
Inductive AlertState :=
  | PENDING | RETRY | DELIVERING | DELIVERED | ALERT_FAILED | BLOCKED_CONFIGURATION.
#[export] Instance alert_state_eq_dec : EqDecision AlertState.
Proof. solve_decision. Defined.
Record OutboxRow := mkOutbox {
  ob_job : string;
  ob_workspace_id : string;
  ob_channel : AlertChannel;
  ob_state : AlertState;
  ob_attempts : Z;
  ob_event : string;
  ob_message : string;
  ob_delivery_token : option string;
  ob_delivery_lease_until : option Z;
  ob_created_at : Z;
  ob_delivered_at : option Z
}.
#[export] Instance outbox_rebuild : Rebuild OutboxRow := λ r,
  mkOutbox (ob_job r) (ob_workspace_id r) (ob_channel r) (ob_state r) (ob_attempts r)
    (ob_event r) (ob_message r) (ob_delivery_token r) (ob_delivery_lease_until r)
    (ob_created_at r) (ob_delivered_at r).

(** [product.models.usage_records]: the immutable admission of a SaaS job. *)
Record UsageRecord := mkUsageRecord {
  ur_workspace_id : string;
  ur_user_id : string;
  ur_period_start : Z;
  ur_period_end : Z;
  ur_plan : string;
  ur_max_tokens : Z;
  ur_max_seconds : Z;
  ur_data_version : string;
  ur_created_at : Z
}.
Record Reservation := mkReservation {
  br_job_id : string;
  br_workspace_id : string;
  br_candidate : string;
  br_stage : string;
  br_agent : string;
  br_provider : string;
  br_model : string;
  br_reserved_tokens : Z;
  br_actual_tokens : option Z;
  br_prompt_version : string;
  br_usage : option Usage;
  br_cost_status : string;
  br_overrun : bool;
  br_created_at : Z
}.
#[export] Instance reservation_rebuild : Rebuild Reservation := λ r,
  mkReservation (br_job_id r) (br_workspace_id r) (br_candidate r) (br_stage r) (br_agent r)
    (br_provider r) (br_model r) (br_reserved_tokens r) (br_actual_tokens r)
    (br_prompt_version r) (br_usage r) (br_cost_status r) (br_overrun r) (br_created_at r).
Record ProviderState := mkProvider {
  ps_failures : Z;
  ps_open_until : option Z;
  ps_calls : Z;
  ps_total_failures : Z;
  ps_last_duration : option spec_float;
  ps_last_success : option bool;
  ps_generation : Z;
  ps_updated_at : Z
}.
#[export] Instance provider_rebuild : Rebuild ProviderState := λ r,
  mkProvider (ps_failures r) (ps_open_until r) (ps_calls r) (ps_total_failures r)
    (ps_last_duration r) (ps_last_success r) (ps_generation r) (ps_updated_at r).

(** [product.metering.call_metering]: the accounting of calls. The values of a
    row are what its fingerprint covers. *)
Inductive CallKind := NATIVE_INVOCATION | PROVIDER_OPERATION | INFERENCE_CALL | REPORTED_USAGE.
#[export] Instance call_kind_eq_dec : EqDecision CallKind.
Proof. solve_decision. Defined.
Inductive CallStatus := STARTED | SUCCEEDED | CALL_FAILED.
#[export] Instance call_status_eq_dec : EqDecision CallStatus.
Proof. solve_decision. Defined.
Record CallValues := mkCallValues {
  cv_invocation_id : string;
  cv_sequence : Z;
  cv_job_id : string;
  cv_workspace_id : string;
  cv_user_id : option string;
  cv_period_start : option Z;
  cv_period_end : option Z;
  cv_reservation_id : option string;
  cv_lease_token : option string;
  cv_attempt : Z;
  cv_kind : CallKind;
  cv_component : string;
  cv_provider : string;
  cv_model : option string;
  cv_stage : string;
  cv_status : CallStatus;
  cv_input_tokens : option Z;
  cv_output_tokens : option Z;
  cv_provider_calls : option Z;
  cv_duration_ms : option Z;
  cv_actual_cost : option Decimal;
  cv_estimated_cost : option Decimal;
  cv_currency : option string;
  cv_cache_hit : option bool;
  cv_retry : bool;
  cv_error_code : option string
}.
#[export] Instance call_values_rebuild : Rebuild CallValues := λ r,
  mkCallValues (cv_invocation_id r) (cv_sequence r) (cv_job_id r) (cv_workspace_id r)
    (cv_user_id r) (cv_period_start r) (cv_period_end r) (cv_reservation_id r)
    (cv_lease_token r) (cv_attempt r) (cv_kind r) (cv_component r) (cv_provider r) (cv_model r)
    (cv_stage r) (cv_status r) (cv_input_tokens r) (cv_output_tokens r) (cv_provider_calls r)
    (cv_duration_ms r) (cv_actual_cost r) (cv_estimated_cost r) (cv_currency r)
    (cv_cache_hit r) (cv_retry r) (cv_error_code r).
Record CallRow := mkCallRow {
  cr_values : CallValues; cr_content_hash : string; cr_created_at : Z
}.

(** ** The database and its environment *)
Record DB := mkDB {
  t_mandates : gmap string ResearchMandate;
  t_jobs : gmap string Job;
  t_snapshots : gmap string SnapshotRow;
  t_evidence : gmap string EvidenceRow;
  t_reports : gmap (string * Firm) ReportRow;
  t_artifacts : gmap (string * string) ArtifactRow;
  t_packets : gmap string PacketRow;
  t_signals : gmap string SignalRow;
  t_eligibility : list RecordRow;
  t_discoveries : list RecordRow;
  t_token_usage : list RecordRow;
  t_audit : list AuditEvent;
  t_health : gmap string HealthRow;
  t_sessions : gmap string SessionRow;
  t_rate_limits : gmap string RateLimitRow;
  t_outbox : gmap string OutboxRow;
  t_usage : gmap string UsageRecord;
  t_reservations : gmap string Reservation;
  t_providers : gmap string ProviderState;
  t_calls : gmap string CallRow;
  t_customers : Customers
}.
#[export] Instance db_rebuild : Rebuild DB := λ r,
  mkDB (t_mandates r) (t_jobs r) (t_snapshots r) (t_evidence r) (t_reports r) (t_artifacts r)
    (t_packets r) (t_signals r) (t_eligibility r) (t_discoveries r) (t_token_usage r)
    (t_audit r) (t_health r) (t_sessions r) (t_rate_limits r) (t_outbox r) (t_usage r)
    (t_reservations r) (t_providers r) (t_calls r) (t_customers r).
Definition empty_db : DB :=
  mkDB ∅ ∅ ∅ ∅ ∅ ∅ ∅ ∅ [] [] [] [] ∅ ∅ ∅ ∅ ∅ ∅ ∅ ∅ no_customers.

Record World := mkWorld { w_db : DB; w_tick : nat }.

(** The clock, [monotonic], [uuid4], [secrets.randbelow(1000)] and the rows
    another transaction has locked at that moment. *)
Class Env := {
  now_at : nat → Z;
  monotonic_at : nat → spec_float;
  uuid_at : nat → string;
  rand_at : nat → Z;
  row_locked : nat → string → bool;
}.

(** [digest] of the documents the store hashes. *)
Class Digests := {
  digest_request : string → ResearchMandate → ResearchKind → string;
  digest_report : FirmReport → string;
  digest_packet : PacketValue → string;
  digest_alert : string → string → string → AlertChannel → string;
}.

Section world.
Context `{Env}.

Definition next_tick : M World nat := λ w, (inr (w_tick w), mkWorld (w_db w) (S (w_tick w))).
(** [datetime.now(UTC)], [monotonic()], [str(uuid4())] and [secrets.randbelow(1000)] *)
Definition now_utc : M World Z := k ← next_tick; mret (now_at k).
Definition monotonic : M World spec_float := k ← next_tick; mret (monotonic_at k).
Definition uuid4 : M World string := k ← next_tick; mret (uuid_at k).
Definition randbelow_1000 : M World Z := k ← next_tick; mret (rand_at k `mod` 1000).
(** [with_for_update(skip_locked=True)]: which rows are locked by others. *)
Definition skip_locked : M World (string → bool) := k ← next_tick; mret (row_locked k).
Definition select {A} (f : DB → A) : M World A := gets (λ w, f (w_db w)).
Definition execute (f : DB → DB) : M World () := modify (λ w, mkWorld (f (w_db w)) (w_tick w)).
(** An insert under a primary key or unique constraint. *)
Definition insert_unique `{Countable K} {V} (table : DB → gmap K V) (key : K) (f : DB → DB)
    : M World () :=
  taken ← select (λ d, is_set (table d !! key));
  raise_if taken IntegrityError "duplicate key value violates unique constraint" ;;
  execute f.

(** [with self.transaction() as connection]: a raised exception rolls the
    database back; time does not run backwards. *)
Definition transaction {A} (m : M World A) : M World A := λ w,
  match m w with
  | (inl e, w') => (inl e, mkWorld (w_db w) (w_tick w'))
  | r => r
  end.
End world.

(** [ResearchStore.claim] and [.workspace_id]: what a handle may touch. *)
Record Claim := mkWorkerClaim { c_job_id : string; c_token : string; c_worker_id : string }.
#[export] Instance worker_claim_eq_dec : EqDecision Claim.
Proof. solve_decision. Defined.
Record Handle := mkHandle { h_claim : option Claim; h_workspace : option string }.
Definition for_claim (h : Handle) (c : Claim) : Handle := mkHandle (Some c) (h_workspace h).
Definition for_workspace (h : Handle) (workspace : string) : Handle :=
  mkHandle None (Some workspace).
(** [_workspace_filter] and [self.workspace_id or "private"] *)
Definition workspace_filter (h : Handle) (j : Job) : bool :=
  match h_workspace h with
  | Some w => if truthy w then bool_decide (j_workspace_id j = w) else true
  | None => true
  end.
Definition workspace_or_private (h : Handle) : string := str_or (h_workspace h) "private".
