(* ===== verification/Models.v ===== *)
(** * Qualified models

    The offline promotion gate ([src/money/offline_research/promotion.py]), the
    qualified linear artifact of [src/money/adapters/native_qlib.py] and the
    registry that activates it ([src/money/models/registry.py]). The registry
    has two tables of its own, kept here as a state beside the other tables. *)

From S2P Require Import Prelude Effects PyNum PyText Contracts Demo Eligibility Governance Market.
From S2P Require Import Signals CrossExam Universe Customers Schema.
#[local] Open Scope Z_scope.

(** ** The promotion gate *)
Inductive ValidationKind := POINT_IN_TIME | WALK_FORWARD | OUT_OF_SAMPLE | REGRESSION.
#[export] Instance validation_kind_eq_dec : EqDecision ValidationKind.
Proof. solve_decision. Defined.
Definition kind_text (k : ValidationKind) : string :=
  match k with
  | POINT_IN_TIME => "POINT_IN_TIME" | WALK_FORWARD => "WALK_FORWARD"
  | OUT_OF_SAMPLE => "OUT_OF_SAMPLE" | REGRESSION => "REGRESSION"
  end.
Definition REQUIRED_VALIDATIONS : list ValidationKind :=
  [POINT_IN_TIME; WALK_FORWARD; OUT_OF_SAMPLE; REGRESSION].
Record OfflineValidationEvidence := mkValidation {
  va_kind : ValidationKind;
  va_passed : bool;
  va_tested_artifact_hash : string;
  va_dataset_hash : string;
  va_report_hash : string;
  va_completed_at : Z
}.
#[export] Instance validation_eq_dec : EqDecision OfflineValidationEvidence.
Proof. solve_decision. Defined.
Record IndependentApproval := mkApproval {
  ia_reviewer_id : string;
  ia_approved : bool;
  ia_reviewed_artifact_hash : string;
  ia_reviewed_validation_hashes : list string;
  ia_reviewed_at : Z
}.
#[export] Instance approval_eq_dec : EqDecision IndependentApproval.
Proof. solve_decision. Defined.
Record PromotionEvidence := mkPromotion {
  pm_artifact_id : string;
  pm_artifact_hash : string;
  pm_proposed_by : string;
  pm_validations : list OfflineValidationEvidence;
  pm_approval : option IndependentApproval
}.
#[export] Instance promotion_eq_dec : EqDecision PromotionEvidence.
Proof. solve_decision. Defined.
Inductive PromotionState := BLOCKED | ELIGIBLE_FOR_MANUAL_PROMOTION.
#[export] Instance promotion_state_eq_dec : EqDecision PromotionState.
Proof. solve_decision. Defined.
Record PromotionAssessment := mkAssessment {
  as_artifact_id : string;
  as_artifact_hash : string;
  as_assessed_at : Z;
  as_state : PromotionState;
  as_reasons : list string
}.

Definition validate_promotion (p : PromotionEvidence) : Res PromotionEvidence :=
  require (len_between 1 200 (pm_artifact_id p) && is_sha256 (pm_artifact_hash p) &&
           len_between 1 200 (pm_proposed_by p) &&
           forallb (λ v, is_sha256 (va_tested_artifact_hash v) && is_sha256 (va_dataset_hash v) &&
                         is_sha256 (va_report_hash v)) (pm_validations p) &&
           opt_ok (λ a, len_between 1 200 (ia_reviewer_id a) && is_sha256 (ia_reviewed_artifact_hash a) &&
                        forallb is_sha256 (ia_reviewed_validation_hashes a)) (pm_approval p)) ;;
  mret p.
Definition when (b : bool) (reason : string) : list string := if b then [reason] else [].
Definition validation_reasons (artifact : string) (as_of : Z) (v : OfflineValidationEvidence) : list string :=
  when (negb (va_passed v)) (kind_text (va_kind v) +:+ "_FAILED") ++
  when (negb (bool_decide (va_tested_artifact_hash v = artifact))) "VALIDATION_ARTIFACT_MISMATCH" ++
  when (as_of <? va_completed_at v) "VALIDATION_FROM_FUTURE".
Definition same_person (a b : string) : bool := bool_decide (casefold (strip a) = casefold (strip b)).
Definition approval_reasons (p : PromotionEvidence) (as_of : Z) : list string :=
  match pm_approval p with
  | Some a =>
      if negb (ia_approved a) then ["INDEPENDENT_APPROVAL_REQUIRED"] else
      if negb (truthy (strip (ia_reviewer_id a))) || same_person (ia_reviewer_id a) (pm_proposed_by p)
      then ["REVIEWER_NOT_INDEPENDENT"] else
      when (negb (bool_decide (ia_reviewed_artifact_hash a = pm_artifact_hash p)))
        "APPROVAL_ARTIFACT_MISMATCH" ++
      when (negb (same_set (ia_reviewed_validation_hashes a) (va_report_hash <$> pm_validations p)))
        "APPROVAL_VALIDATION_MISMATCH" ++
      when ((as_of <? ia_reviewed_at a) ||
            existsb (λ v, ia_reviewed_at a <? va_completed_at v) (pm_validations p)) "APPROVAL_TIME_INVALID"
  | None => ["INDEPENDENT_APPROVAL_REQUIRED"]
  end.
Definition promotion_reasons (p : PromotionEvidence) (as_of : Z) : list string :=
  let kinds := va_kind <$> pm_validations p in
  when (negb (truthy (strip (pm_proposed_by p)))) "PROPOSER_IDENTITY_MISSING" ++
  when (negb (same_set kinds REQUIRED_VALIDATIONS)) "REQUIRED_VALIDATION_MISSING" ++
  when (negb (distinct kinds)) "DUPLICATE_VALIDATION_KIND" ++
  flat_map (validation_reasons (pm_artifact_hash p) as_of) (pm_validations p) ++
  approval_reasons p as_of.
Definition assess_promotion (evidence : PromotionEvidence) (as_of : Z) : Res PromotionAssessment :=
  p ← validate_promotion evidence;
  let reasons := promotion_reasons p as_of in
  mret (mkAssessment (pm_artifact_id p) (pm_artifact_hash p) as_of
          (if bool_decide (reasons = []) then ELIGIBLE_FOR_MANUAL_PROMOTION else BLOCKED)
          (from_keys reasons)).

(** ** Artifacts *)
Definition FEATURES : list string :=
  ["momentum_5"; "momentum_20"; "volatility_20"; "relative_volume_20"; "range_fraction"].
Definition QLIB_SHA : string := "be725493eb1a6bbb42bf11b37aa7669f59610ff1".
Record LinearModelArtifact := mkArtifact {
  lm_model_id : string;
  lm_model_version : string;
  lm_model_kind : string;
  lm_feature_set_version : string;
  lm_features : list string;
  lm_coefficients : list spec_float;
  lm_intercept : spec_float;
  lm_training_data_version : string;
  lm_dataset_hash : string;
  lm_training_start : Z;
  lm_training_cutoff : Z;
  lm_validation_start : Z;
  lm_validation_end : Z;
  lm_oos_observations : Z;
  lm_walk_forward_folds : Z;
  lm_oos_rmse : spec_float;
  lm_pit_validated : bool;
  lm_upstream_sha : string
}.
#[export] Instance artifact_eq_dec : EqDecision LinearModelArtifact.
Proof. solve_decision. Defined.
Record QualifiedLinearModel := mkQualified { qm_artifact : LinearModelArtifact; qm_promotion : PromotionEvidence }.
#[export] Instance qualified_eq_dec : EqDecision QualifiedLinearModel.
Proof. solve_decision. Defined.

Definition validate_artifact (a : LinearModelArtifact) : Res LinearModelArtifact :=
  require (len_between 1 100 (lm_model_id a) && len_between 1 100 (lm_model_version a) &&
           bool_decide (lm_model_kind a = "qlib-linear-v1") &&
           bool_decide (lm_feature_set_version a = "money-ohlcv-v1") &&
           forallb is_finite_float (lm_coefficients a) && is_finite_float (lm_intercept a) &&
           len_between 1 200 (lm_training_data_version a) && is_sha256 (lm_dataset_hash a) &&
           (30 <=? lm_oos_observations a) && (3 <=? lm_walk_forward_folds a) &&
           nonneg_float (lm_oos_rmse a) && bool_decide (lm_upstream_sha a = QLIB_SHA)) ;;
  reject (negb (bool_decide (lm_features a = FEATURES)) ||
          negb (bool_decide (length (lm_coefficients a) = length FEATURES))) ValueError
    "model features do not match the Money feature implementation" ;;
  reject (negb ((lm_training_start a <=? lm_training_cutoff a) &&
                (lm_training_cutoff a <? lm_validation_start a) &&
                (lm_validation_start a <=? lm_validation_end a))) ValueError
    "training and validation windows overlap or are reversed" ;;
  mret a.
Definition validate_model (m : QualifiedLinearModel) : Res QualifiedLinearModel :=
  validate_artifact (qm_artifact m) ;; validate_promotion (qm_promotion m) ;; mret m.

(** [sha256(artifact.model_dump_json())] and [sha256(report)]. *)
Class ArtifactHash := { artifact_hash : LinearModelArtifact → string; report_digest : string → string }.

Section models.
Context `{ArtifactHash}.

Definition require_qualified (m : QualifiedLinearModel) (cutoff : Z) : Res () :=
  reject (negb (lm_pit_validated (qm_artifact m))) UpstreamUnavailable
    "Qlib artifact requires independently reviewed point-in-time qualification" ;;
  reject (negb (bool_decide (pm_artifact_hash (qm_promotion m) = artifact_hash (qm_artifact m))))
    InvalidUpstreamReport "promoted artifact hash differs from model bytes" ;;
  reject (existsb (λ v, negb (bool_decide (va_dataset_hash v = lm_dataset_hash (qm_artifact m))))
            (pm_validations (qm_promotion m))) InvalidUpstreamReport
    "model validation dataset hash mismatch" ;;
  reject (cutoff <=? lm_validation_end (qm_artifact m)) UnsupportedSnapshotData
    "model validation was unavailable at prediction cutoff" ;;
  assessment ← assess_promotion (qm_promotion m) cutoff;
  reject (negb (bool_decide (as_state assessment = ELIGIBLE_FOR_MANUAL_PROMOTION))) UpstreamUnavailable
    "Qlib model is not manually approved with complete validation".
End models.

(** ** The registry's tables *)
Inductive EventPayload :=
  | Approved (promoted_by : string) (promoted_at : Z) (hash : string) (rollback_target : option string)
      (assessment : PromotionAssessment)
  | Withdrawn (reviewer_id reason : string).
Record PromotionEvent := mkEvent {
  ev_model_id : string; ev_revision : Z; ev_created_at : Z; ev_payload : EventPayload
}.
Record ModelRow := mkModelRow { mr_artifact_hash : string; mr_payload : QualifiedLinearModel; mr_created_at : Z }.
Record Registry := mkRegistry { rg_models : gmap string ModelRow; rg_events : gmap string PromotionEvent }.
#[export] Instance registry_rebuild : Rebuild Registry := λ r, mkRegistry (rg_models r) (rg_events r).
Record RegistryWorld := mkRegistryWorld { rw_db : Registry; rw_tick : nat }.

(** Payloads as JSON documents: [0.0] and [-0.0] are equal. *)
Definition plain_zero (x : spec_float) : spec_float :=
  match x with S754_zero _ => S754_zero false | _ => x end.
Definition plain_artifact (a : LinearModelArtifact) : LinearModelArtifact :=
  mkArtifact (lm_model_id a) (lm_model_version a) (lm_model_kind a) (lm_feature_set_version a) (lm_features a)
    (plain_zero <$> lm_coefficients a) (plain_zero (lm_intercept a)) (lm_training_data_version a)
    (lm_dataset_hash a) (lm_training_start a) (lm_training_cutoff a) (lm_validation_start a)
    (lm_validation_end a) (lm_oos_observations a) (lm_walk_forward_folds a) (plain_zero (lm_oos_rmse a))
    (lm_pit_validated a) (lm_upstream_sha a).
Definition same_payload (a b : QualifiedLinearModel) : bool :=
  bool_decide (plain_artifact (qm_artifact a) = plain_artifact (qm_artifact b)) &&
  bool_decide (qm_promotion a = qm_promotion b).

Definition revisions (id : string) (r : Registry) : Z :=
  count_by (λ e, bool_decide (ev_model_id e = id)) (rows (rg_events r)).
(** [ORDER BY created_at DESC, revision DESC LIMIT 1] among the events [p] holds of. *)
Definition newer (a b : PromotionEvent) : bool :=
  (ev_created_at b <? ev_created_at a) ||
  ((ev_created_at b =? ev_created_at a) && (ev_revision b <? ev_revision a)).
Definition latest_event (p : PromotionEvent → bool) (r : Registry) : option PromotionEvent :=
  head (sort_by newer (List.filter p (rows (rg_events r)))).
Definition is_approved (e : option PromotionEvent) : bool :=
  match e with Some e => match ev_payload e with Approved _ _ _ _ _ => true | _ => false end | None => false end.

Section registry.
Context `{Env, ArtifactHash}.

Definition reg_tick : M RegistryWorld nat := λ w, (inr (rw_tick w), mkRegistryWorld (rw_db w) (S (rw_tick w))).
Definition reg_now : M RegistryWorld Z := k ← reg_tick; mret (now_at k).
Definition reg_uuid : M RegistryWorld string := k ← reg_tick; mret (uuid_at k).
Definition reg_select {A} (f : Registry → A) : M RegistryWorld A := gets (λ w, f (rw_db w)).
Definition reg_execute (f : Registry → Registry) : M RegistryWorld () :=
  modify (λ w, mkRegistryWorld (f (rw_db w)) (rw_tick w)).
Definition reg_transaction {A} (m : M RegistryWorld A) : M RegistryWorld A := λ w,
  match m w with
  | (inl e, w') => (inl e, mkRegistryWorld (rw_db w) (rw_tick w'))
  | r => r
  end.
Definition insert_event (id : string) (e : PromotionEvent) : M RegistryWorld () :=
  taken ← reg_select (λ r, is_set (rg_events r !! id));
  raise_if taken IntegrityError "duplicate key value violates unique constraint" ;;
  reg_execute (λ r, r <| rg_events ::= insert id e |>).

Definition register (model : QualifiedLinearModel) (reports : string → option string)
    : M RegistryWorld string :=
  m ← lift (validate_model model);
  let a := qm_artifact m in
  let hash := artifact_hash a in
  raise_if (negb (bool_decide (hash = pm_artifact_hash (qm_promotion m)))) StoreError
    "Model and promotion hashes differ" ;;
  raise_if (existsb (λ v, negb (bool_decide (va_dataset_hash v = lm_dataset_hash a)))
              (pm_validations (qm_promotion m))) StoreError "Model and validation datasets differ" ;;
  raise_if (existsb (λ v, match reports (va_report_hash v) with
                          | None => true
                          | Some report => (2000000 <? slen report) ||
                                           negb (bool_decide (report_digest report = va_report_hash v))
                          end) (pm_validations (qm_promotion m))) StoreError
    "Validation report bytes do not match the reviewed evidence" ;;
  let id := lm_model_id a +:+ ":" +:+ lm_model_version a in
  raise_if (128 <? slen id) StoreError "Model registry identity is too long" ;;
  reg_transaction (
    previous ← reg_select (λ r, rg_models r !! id);
    match previous with
    | Some row =>
        raise_if (negb (same_payload (mr_payload row) m)) StoreError
          "A registered model version is immutable" ;;
        mret id
    | None =>
        created ← reg_now;
        taken ← reg_select (λ r, existsb (λ row, bool_decide (mr_artifact_hash row = hash)) (rows (rg_models r)));
        raise_if taken IntegrityError "duplicate key value violates unique constraint" ;;
        reg_execute (λ r, r <| rg_models ::= insert id (mkModelRow hash m created) |>) ;;
        mret id
    end).
Definition promote (id reviewer : string) (manual : bool) (rollback_target : option string)
    : M RegistryWorld string :=
  raise_if (negb manual) StoreError "Model activation requires explicit manual promotion" ;;
  stamp ← reg_now;
  reg_transaction (
    record ← reg_select (λ r, rg_models r !! id);
    row ← expect record StoreError "Model version is not registered";
    model ← lift (validate_model (mr_payload row));
    assessment ← lift (assess_promotion (qm_promotion model) stamp);
    raise_if (negb (bool_decide (as_state assessment = ELIGIBLE_FOR_MANUAL_PROMOTION))) StoreError
      "Model validation or independent approval is incomplete" ;;
    approval ← expect (pm_approval (qm_promotion model)) StoreError
      "Model validation or independent approval is incomplete";
    raise_if (negb (bool_decide (reviewer = ia_reviewer_id approval))) StoreError
      "The authenticated operator must match the independent reviewer" ;;
    lift (require_qualified model stamp) ;;
    known ← reg_select (λ r, match rollback_target with Some t => is_set (rg_models r !! t) | None => true end);
    raise_if (negb known) StoreError "Rollback target is not registered" ;;
    event ← reg_uuid;
    count ← reg_select (revisions id);
    insert_event event (mkEvent id (count + 1) stamp
      (Approved reviewer stamp (mr_artifact_hash row) rollback_target assessment)) ;;
    mret event).
Definition withdraw_model (id reviewer reason : string) : M RegistryWorld () :=
  raise_if (negb (truthy (strip reviewer)) || negb (truthy (strip reason)) || (512 <? slen reason)) StoreError
    "Withdrawal requires bounded operator identity and reason" ;;
  reg_transaction (
    known ← reg_select (λ r, is_set (rg_models r !! id));
    raise_if (negb known) StoreError "Model version is not registered" ;;
    count ← reg_select (revisions id);
    event ← reg_uuid;
    created ← reg_now;
    insert_event event (mkEvent id (count + 1) created (Withdrawn reviewer reason))).
Definition load_active (id expected_hash : string) (as_of : Z) : M RegistryWorld QualifiedLinearModel :=
  record ← reg_select (λ r, rg_models r !! id);
  latest ← reg_select (latest_event (λ e, bool_decide (ev_model_id e = id) && (ev_created_at e <=? as_of)));
  current ← reg_select (latest_event (λ e, bool_decide (ev_model_id e = id)));
  row ← expect record StoreError "No manually promoted model matches the selected artifact";
  raise_if (negb (bool_decide (mr_artifact_hash row = expected_hash)) || negb (is_approved latest) ||
            negb (is_approved current)) StoreError
    "No manually promoted model matches the selected artifact" ;;
  model ← lift (validate_model (mr_payload row));
  raise_if (negb (bool_decide (artifact_hash (qm_artifact model) = expected_hash))) StoreError
    "Stored model artifact failed its integrity check" ;;
  lift (require_qualified model as_of) ;;
  mret model.
End registry.
