(* ===== verification/Activation.v ===== *)
(** * Activated models are qualified

    The promotion gate is exact, and over any sequence of registry operations a
    model that can be loaded is registered unchanged, fully validated on its own
    artifact and data set, approved by someone who did not propose it, and not
    withdrawn since. *)

From S2P Require Import Prelude Effects PyNum PyText Contracts Demo Eligibility Governance Market.
From S2P Require Import Signals CrossExam Universe Customers Schema Models.
#[local] Open Scope Z_scope.

(** ** The gate *)
Record promotable (p : PromotionEvidence) (as_of : Z) : Prop := {
  gate_proposer : strip (pm_proposed_by p) ≠ EmptyString;
  gate_kinds : (va_kind <$> pm_validations p) ≡ₚ REQUIRED_VALIDATIONS;
  gate_validations : ∀ v, v ∈ pm_validations p →
    va_passed v = true ∧ va_tested_artifact_hash v = pm_artifact_hash p ∧ va_completed_at v ≤ as_of;
  gate_approval : ∃ a, pm_approval p = Some a ∧ ia_approved a = true ∧
    strip (ia_reviewer_id a) ≠ EmptyString ∧
    casefold (strip (ia_reviewer_id a)) ≠ casefold (strip (pm_proposed_by p)) ∧
    ia_reviewed_artifact_hash a = pm_artifact_hash p ∧
    (∀ h, h ∈ ia_reviewed_validation_hashes a ↔ h ∈ va_report_hash <$> pm_validations p) ∧
    ia_reviewed_at a ≤ as_of ∧ ∀ v, v ∈ pm_validations p → va_completed_at v ≤ ia_reviewed_at a;
}.
Lemma when_nil b r : when b r = [] ↔ b = false.
Proof. by destruct b. Qed.
Lemma app_nil_iff {A} (l1 l2 : list A) : l1 ++ l2 = [] ↔ l1 = [] ∧ l2 = [].
Proof. split; [apply app_eq_nil|by intros [-> ->]]. Qed.
Lemma negb_decide `{Decision P} : negb (bool_decide P) = false ↔ P.
Proof. by rewrite negb_false_iff, bool_decide_eq_true. Qed.
Lemma truthy_nonempty s : negb (truthy s) = false ↔ s ≠ EmptyString.
Proof. unfold truthy. apply negb_decide. Qed.
Lemma kinds_exact l : same_set l REQUIRED_VALIDATIONS = true ∧ distinct l = true ↔ l ≡ₚ REQUIRED_VALIDATIONS.
Proof.
  assert (NoDup REQUIRED_VALIDATIONS) as Hr by (apply (bool_decide_unpack _); vm_compute; exact I).
  rewrite same_set_spec, distinct_NoDup. split.
  - intros [Hs Hd]. by apply NoDup_Permutation.
  - intros Hp. split; [intros x; by rewrite Hp|by rewrite Hp].
Qed.
Lemma validation_reasons_nil artifact as_of v : validation_reasons artifact as_of v = [] ↔
  va_passed v = true ∧ va_tested_artifact_hash v = artifact ∧ va_completed_at v ≤ as_of.
Proof.
  unfold validation_reasons.
  by rewrite !app_nil_iff, !when_nil, negb_false_iff, negb_decide, Z.ltb_ge.
Qed.
Lemma approval_reasons_nil p as_of : approval_reasons p as_of = [] ↔
  ∃ a, pm_approval p = Some a ∧ ia_approved a = true ∧ strip (ia_reviewer_id a) ≠ EmptyString ∧
    casefold (strip (ia_reviewer_id a)) ≠ casefold (strip (pm_proposed_by p)) ∧
    ia_reviewed_artifact_hash a = pm_artifact_hash p ∧
    (∀ h, h ∈ ia_reviewed_validation_hashes a ↔ h ∈ va_report_hash <$> pm_validations p) ∧
    ia_reviewed_at a ≤ as_of ∧ ∀ v, v ∈ pm_validations p → va_completed_at v ≤ ia_reviewed_at a.
Proof.
  unfold approval_reasons. destruct (pm_approval p) as [a|]; [|split; [done|by intros (? & ? & _)]].
  assert (∀ P : IndependentApproval → Prop, (∃ a', Some a = Some a' ∧ P a') ↔ P a) as ->
    by (intros P; split; [by intros (? & [= <-] & ?)|eauto]).
  destruct (ia_approved a); simpl; [|split; [done|by intros []]].
  assert (negb (truthy (strip (ia_reviewer_id a))) || same_person (ia_reviewer_id a) (pm_proposed_by p) = false ↔
    strip (ia_reviewer_id a) ≠ EmptyString ∧
    casefold (strip (ia_reviewer_id a)) ≠ casefold (strip (pm_proposed_by p))) as Hind.
  { unfold same_person. by rewrite orb_false_iff, truthy_nonempty, bool_decide_eq_false. }
  destruct (_ || same_person _ _); [split; [done|]|].
  - intros (_ & H1 & H2 & _). by discriminate (proj2 Hind (conj H1 H2)).
  - destruct (proj1 Hind eq_refl) as [H1 H2]. rewrite !app_nil_iff, !when_nil, negb_decide, negb_false_iff,
      same_set_spec, orb_false_iff, Z.ltb_ge, existsb_false.
    setoid_rewrite Z.ltb_ge. naive_solver.
Qed.
Lemma promotion_reasons_nil p as_of : promotion_reasons p as_of = [] ↔ promotable p as_of.
Proof.
  unfold promotion_reasons. cbv zeta.
  rewrite !app_nil_iff, !when_nil, truthy_nonempty, !negb_false_iff, flat_map_nil, approval_reasons_nil.
  setoid_rewrite validation_reasons_nil. split.
  - intros (H1 & H2 & H3 & H4 & H5). split; [done| |done..]. by apply kinds_exact.
  - intros [H1 H2%kinds_exact H3 H4]. naive_solver.
Qed.
(** Every outcome of the gate. *)
Lemma promotion_gate_exact `{ArtifactHash} p as_of a : assess_promotion p as_of = inr a →
  as_state a = ELIGIBLE_FOR_MANUAL_PROMOTION ↔ promotable p as_of.
Proof.
  unfold assess_promotion. intros (? & Hv & [= <-])%res_bind_inr. simpl.
  unfold validate_promotion in Hv. res_inv. rewrite <- promotion_reasons_nil. by case_bool_decide.
Qed.

(** ** Any sequence of registry operations *)
Section registry.
Context `{Env, ArtifactHash}.

Inductive RegistryOp :=
  | Register (model : QualifiedLinearModel) (reports : string → option string)
  | Promote (id reviewer : string) (manual : bool) (rollback_target : option string)
  | Withdraw_model (id reviewer reason : string).
Definition run_registry (op : RegistryOp) : M RegistryWorld () :=
  match op with
  | Register model reports => register model reports ;; mret ()
  | Promote id reviewer manual target => promote id reviewer manual target ;; mret ()
  | Withdraw_model id reviewer reason => withdraw_model id reviewer reason
  end.
Inductive registry_step (r : Registry) : Registry → Prop :=
  | registry_run op k res w : run_registry op (mkRegistryWorld r k) = (res, w) → registry_step r (rw_db w).
Definition empty_registry : Registry := mkRegistry ∅ ∅.
Definition registry_reachable (r : Registry) : Prop := rtc registry_step empty_registry r.

(** What registration checked of a row. *)
Record row_registered (id : string) (row : ModelRow) : Prop := {
  rr_id : id = lm_model_id (qm_artifact (mr_payload row)) +:+ ":" +:+ lm_model_version (qm_artifact (mr_payload row));
  rr_hash : mr_artifact_hash row = artifact_hash (qm_artifact (mr_payload row));
  rr_promotion : pm_artifact_hash (qm_promotion (mr_payload row)) = mr_artifact_hash row;
  rr_dataset : ∀ v, v ∈ pm_validations (qm_promotion (mr_payload row)) →
    va_dataset_hash v = lm_dataset_hash (qm_artifact (mr_payload row));
  rr_valid : validate_model (mr_payload row) = inr (mr_payload row);
}.
(** What an event records. *)
Definition event_ok (r : Registry) (e : PromotionEvent) : Prop :=
  ∃ row, rg_models r !! ev_model_id e = Some row ∧ 1 ≤ ev_revision e ≤ revisions (ev_model_id e) r ∧
  match ev_payload e with
  | Approved by_ at_ hash target a =>
      at_ = ev_created_at e ∧ hash = mr_artifact_hash row ∧ promotable (qm_promotion (mr_payload row)) at_ ∧
      ia_reviewer_id <$> pm_approval (qm_promotion (mr_payload row)) = Some by_
  | Withdrawn reviewer reason => strip reviewer ≠ EmptyString ∧ strip reason ≠ EmptyString
  end.
Record RegistryOk (r : Registry) : Prop := {
  ok_rows : ∀ id row, rg_models r !! id = Some row → row_registered id row;
  ok_hashes : ∀ i j a b, rg_models r !! i = Some a → rg_models r !! j = Some b →
    mr_artifact_hash a = mr_artifact_hash b → i = j;
  ok_events : ∀ i e, rg_events r !! i = Some e → event_ok r e;
  ok_revisions : ∀ i j a b, rg_events r !! i = Some a → rg_events r !! j = Some b →
    ev_model_id a = ev_model_id b → ev_revision a = ev_revision b → i = j;
}.
Lemma registry_empty : RegistryOk empty_registry.
Proof. split; simpl; intros *; by rewrite lookup_empty. Qed.
Lemma revisions_new id i e r : rg_events r !! i = None →
  revisions id (r <| rg_events ::= insert i e |>) =
  revisions id r + if bool_decide (ev_model_id e = id) then 1 else 0.
Proof.
  intros Hi. unfold revisions. simpl. rewrite (count_by_perm _ _ _ (rows_insert_new _ i e Hi)), count_by_cons.
  case_bool_decide; lia.
Qed.
Lemma event_ok_models r r' e : event_ok r e → rg_events r' = rg_events r →
  (∀ id row, rg_models r !! id = Some row → rg_models r' !! id = Some row) → event_ok r' e.
Proof.
  intros (row & Hrow & Hr & Hp) He Hm. exists row. split; [by apply Hm|]. split; [|done].
  unfold revisions in *. by rewrite He.
Qed.
Lemma registry_new_model r id row : RegistryOk r → rg_models r !! id = None → row_registered id row →
  (∀ j b, rg_models r !! j = Some b → mr_artifact_hash b ≠ mr_artifact_hash row) →
  RegistryOk (r <| rg_models ::= insert id row |>).
Proof.
  intros [R1 R2 R3 R4] Hn Hrow Hh. split; simpl; [| | |done].
  - intros i b [[<- <-]|[_ Hi]]%lookup_insert_Some; [done|by apply R1].
  - intros i j a b [[<- <-]|[Hi Ha]]%lookup_insert_Some [[<- <-]|[Hj Hb]]%lookup_insert_Some Heq; [done| | |by eapply R2].
    + by destruct (Hh _ _ Hb).
    + by destruct (Hh _ _ Ha).
  - intros i e Hi. eapply event_ok_models; [by eapply R3|done|]. intros k b Hb. simpl.
    rewrite lookup_insert_ne; [done|]. intros <-. congruence.
Qed.
Lemma registry_new_event r i id payload t : RegistryOk r → rg_events r !! i = None →
  (∀ r', rg_models r' = rg_models r → 1 ≤ revisions id r + 1 ≤ revisions id r' →
     event_ok r' (mkEvent id (revisions id r + 1) t payload)) →
  RegistryOk (r <| rg_events ::= insert i (mkEvent id (revisions id r + 1) t payload) |>).
Proof.
  intros [R1 R2 R3 R4] Hn Hev. set (e := mkEvent id (revisions id r + 1) t payload) in *.
  assert (∀ m, revisions m r ≤ revisions m (r <| rg_events ::= insert i e |>)) as Hmono.
  { intros m. rewrite revisions_new by done. case_bool_decide; lia. }
  assert (∀ j b, rg_events r !! j = Some b → ev_model_id b = id → ev_revision b ≤ revisions id r) as Hrev.
  { intros j b (row & _ & Hb & _)%R3 <-. lia. }
  split; [done..| |].
  - intros j b Hjb. simpl in Hjb. apply lookup_insert_Some in Hjb as [[<- <-]|[_ Hj]].
    + apply Hev; [done|]. rewrite revisions_new by done. simpl. rewrite bool_decide_eq_true_2 by done.
      pose proof (count_by_nonneg (λ e, bool_decide (ev_model_id e = id)) (rows (rg_events r))). unfold revisions. lia.
    + destruct (R3 _ _ Hj) as (row & Hrow & Hr & Hp). exists row. split; [done|]. split; [|done].
      pose proof (Hmono (ev_model_id b)). lia.
  - intros j k a b Hja Hkb. simpl in Hja, Hkb.
    apply lookup_insert_Some in Hja as [[<- <-]|[Hj Ha]], Hkb as [[<- <-]|[Hk Hb]]; simpl; [done| | |by eauto].
    + intros Hid Hr. pose proof (Hrev _ _ Hb (eq_sym Hid)). lia.
    + intros Hid Hr. pose proof (Hrev _ _ Ha Hid). lia.
Qed.
Lemma validate_model_inr m m' : validate_model m = inr m' → m' = m.
Proof. unfold validate_model. intros Hm. by res_inv. Qed.

(** *** Stepping through registry operations *)
Lemma wp_reg_now r k Q E : Q (now_at k) (mkRegistryWorld r (S k)) → wp reg_now Q E (mkRegistryWorld r k).
Proof. done. Qed.
Lemma wp_reg_uuid r k Q E : Q (uuid_at k) (mkRegistryWorld r (S k)) → wp reg_uuid Q E (mkRegistryWorld r k).
Proof. done. Qed.
Lemma wp_reg_transaction {A} (m : M RegistryWorld A) Q E w :
  wp m Q (λ e w', E e (mkRegistryWorld (rw_db w) (rw_tick w'))) w → wp (reg_transaction m) Q E w.
Proof. unfold wp, reg_transaction. by destruct (m w) as [[e|a] w']. Qed.
Lemma wp_insert_event r k i e Q E :
  (rg_events r !! i = None → Q () (mkRegistryWorld (r <| rg_events ::= insert i e |>) k)) →
  (∀ x, E x (mkRegistryWorld r k)) → wp (insert_event i e) Q E (mkRegistryWorld r k).
Proof.
  intros HQ HE. unfold insert_event, reg_select, reg_execute. wp_steps. apply HQ.
  simpl in *. by destruct (rg_events r !! i).
Qed.
Ltac reg_step :=
  lazymatch goal with
  | |- wp reg_now _ _ _ => apply wp_reg_now
  | |- wp reg_uuid _ _ _ => apply wp_reg_uuid
  | |- wp (reg_select _) _ _ _ => apply wp_gets
  | |- wp (reg_execute _) _ _ _ => apply wp_modify
  | |- wp (reg_transaction _) _ _ _ => apply wp_reg_transaction
  | |- wp (insert_event _ _) _ _ _ => apply wp_insert_event; [intro|]
  | _ => wp_step
  end.
Ltac reg_run := repeat (reg_step; simpl; try done).
Definition keeps_registry (m : M RegistryWorld ()) : Prop :=
  ∀ r k, RegistryOk r → wp m (λ _ w, RegistryOk (rw_db w)) (λ _ w, RegistryOk (rw_db w)) (mkRegistryWorld r k).

Lemma register_keeps model reports : keeps_registry (register model reports ;; mret ()).
Proof.
  intros r k Hok. unfold register. reg_run.
  match goal with Hv : validate_model _ = _ |- _ => pose proof (validate_model_inr _ _ Hv) as -> end.
  bool_norm. apply registry_new_model; [done..| |].
  - split; simpl; try done. intros v Hv.
    match goal with Hd : existsb (λ v, negb (bool_decide (va_dataset_hash v = _))) _ = false |- _ =>
      exact (proj1 negb_decide (proj1 (existsb_false _ _) Hd v Hv)) end.
  - intros j b Hb Heq.
    match goal with Ht : existsb _ (rows _) = false |- _ => rename Ht into Htaken end.
    assert (b ∈ rows (rg_models r)) as Hin by (apply elem_of_rows; by exists j).
    pose proof (proj1 (existsb_false _ _) Htaken b Hin) as Hne. by apply bool_decide_eq_false in Hne.
Qed.
Lemma promote_keeps id reviewer manual target : keeps_registry (promote id reviewer manual target ;; mret ()).
Proof.
  intros r k Hok. unfold promote. reg_run.
  match goal with Hv : validate_model _ = _ |- _ => pose proof (validate_model_inr _ _ Hv) as -> end.
  bool_norm. apply registry_new_event; [done..|]. intros r' Hm Hrev.
  eexists. rewrite Hm. split; [done|]. split; [done|]. simpl. split; [done|]. split; [done|].
  match goal with Ha : pm_approval _ = Some _ |- _ => rewrite Ha end. simpl. split; [|congruence].
  by eapply promotion_gate_exact.
Qed.
Lemma withdraw_keeps id reviewer reason : keeps_registry (withdraw_model id reviewer reason).
Proof.
  intros r k Hok. unfold withdraw_model. reg_run. bool_norm. apply registry_new_event; [done..|].
  intros r' Hm Hrev. destruct (rg_models r !! id) as [row|] eqn:Hrow; [|done].
  exists row. simpl. rewrite Hm. split; [done|]. split; [done|].
  unfold truthy in *. by bool_norm.
Qed.
Lemma registry_reachable_ok r : registry_reachable r → RegistryOk r.
Proof.
  intros Hr. cut (RegistryOk empty_registry → RegistryOk r); [intros Hc; apply Hc, registry_empty|].
  induction Hr as [r|r1 r2 r3 [op k res w Hrun] _ IH]; [done|]. intros Hok. apply IH.
  assert (keeps_registry (run_registry op)) as Hk
    by (destruct op; [apply register_keeps|apply promote_keeps|apply withdraw_keeps]).
  specialize (Hk r1 k Hok). unfold wp in Hk. rewrite Hrun in Hk. by destruct res.
Qed.

(** *** Loading *)
Definition newest (p : PromotionEvent → bool) (r : Registry) (e : PromotionEvent) : Prop :=
  (∃ i, rg_events r !! i = Some e) ∧ p e = true ∧
  ∀ i e', rg_events r !! i = Some e' → p e' = true → newer e' e = false.
Lemma latest_newest p r e : latest_event p r = Some e → newest p r e.
Proof.
  unfold latest_event. intros Hh.
  assert (StronglySorted (λ x y, newer y x = false) (sort_by newer (List.filter p (rows (rg_events r))))) as Hs.
  { apply sort_by_sorted; [|done|]; unfold newer; intros *;
      rewrite ?orb_true_iff, ?orb_false_iff, ?andb_true_iff, ?andb_false_iff, ?Z.ltb_lt, ?Z.ltb_ge, ?Z.eqb_eq,
        ?Z.eqb_neq; lia. }
  pose proof (sort_by_perm newer (List.filter p (rows (rg_events r)))) as Hp.
  destruct (sort_by newer _) as [|x l]; [done|]. injection Hh as ->.
  assert (∀ y, y ∈ e :: l ↔ y ∈ rows (rg_events r) ∧ p y = true) as Hin
    by (intros y; by rewrite Hp, elem_of_List_filter).
  destruct (proj1 (Hin e) ltac:(left)) as [Hrow Hpe]. split; [by apply elem_of_rows|]. split; [done|].
  intros i e' He' Hpe'. assert (e' ∈ e :: l) as Hel by (apply Hin; split; [apply elem_of_rows; by exists i|done]).
  apply StronglySorted_inv in Hs as [_ Hl]. apply elem_of_cons in Hel as [->|Hel].
  - unfold newer. apply orb_false_iff. split; [apply Z.ltb_irrefl|]. by rewrite Z.ltb_irrefl, andb_false_r.
  - by eapply Forall_forall in Hl.
Qed.
Definition of_model (id : string) (e : PromotionEvent) : bool := bool_decide (ev_model_id e = id).
Definition of_model_by (id : string) (as_of : Z) (e : PromotionEvent) : bool :=
  bool_decide (ev_model_id e = id) && (ev_created_at e <=? as_of).
(** An approval of this model, by the reviewer its evidence names. *)
Definition approved_as (m : QualifiedLinearModel) (hash : string) (e : PromotionEvent) : Prop :=
  ∃ by_ target a, ev_payload e = Approved by_ (ev_created_at e) hash target a ∧
    promotable (qm_promotion m) (ev_created_at e) ∧
    ia_reviewer_id <$> pm_approval (qm_promotion m) = Some by_.
Lemma approved_event r id row p e : RegistryOk r → rg_models r !! id = Some row →
  (∀ e, p e = true → ev_model_id e = id) → latest_event p r = Some e → is_approved (Some e) = true →
  newest p r e ∧ approved_as (mr_payload row) (mr_artifact_hash row) e.
Proof.
  intros Hok Hrow Hp Hl%latest_newest Ha. split; [done|]. destruct Hl as ([i Hi] & Hpe & _).
  destruct (ok_events _ Hok _ _ Hi) as (row' & Hrow' & _ & Hpay). rewrite (Hp _ Hpe) in Hrow'.
  assert (row' = row) as -> by congruence. simpl in Ha. unfold approved_as.
  destruct (ev_payload e) as [by_ at_ hash target a|]; [|done].
  destruct Hpay as (-> & -> & Hprom & Hby). by exists by_, target, a.
Qed.

(** C18. Only qualified models are active: in every reachable registry, a model that
    loads under an identity, an artifact hash and a cutoff is the registered
    payload, unchanged, with that hash; it passed all four validations on its
    own artifact and data set, before the cutoff; a named reviewer other than
    its proposer approved exactly those reports; and both its newest event by
    the cutoff and its newest event of all are approvals by that reviewer, so
    no withdrawal has followed. *)
Theorem active_model_approved r k id hash as_of m w :
  registry_reachable r → load_active id hash as_of (mkRegistryWorld r k) = (inr m, w) →
  rw_db w = r ∧ ∃ row, rg_models r !! id = Some row ∧ mr_payload row = m ∧
    artifact_hash (qm_artifact m) = hash ∧ pm_artifact_hash (qm_promotion m) = hash ∧
    lm_pit_validated (qm_artifact m) = true ∧ lm_validation_end (qm_artifact m) < as_of ∧
    (∀ v, v ∈ pm_validations (qm_promotion m) → va_dataset_hash v = lm_dataset_hash (qm_artifact m)) ∧
    promotable (qm_promotion m) as_of ∧
    (∃ e, newest (of_model_by id as_of) r e ∧ approved_as m hash e) ∧
    (∃ e, newest (of_model id) r e ∧ approved_as m hash e).
Proof.
  intros Hr%registry_reachable_ok Hrun. revert Hrun.
  cut (wp (load_active id hash as_of) (λ m w, rw_db w = r ∧ ∃ row, rg_models r !! id = Some row ∧
    mr_payload row = m ∧ mr_artifact_hash row = hash ∧ artifact_hash (qm_artifact m) = hash ∧
    require_qualified m as_of = inr () ∧
    is_approved (latest_event (of_model_by id as_of) r) = true ∧
    is_approved (latest_event (of_model id) r) = true) (λ _ _, True) (mkRegistryWorld r k)).
  - intros Hwp Hrun. destruct (wp_inr _ _ _ _ _ _ Hwp Hrun) as (Hw & row & Hrow & Hm & Hh & Hah & Hq & Hl & Hc).
    split; [done|]. exists row. destruct (ok_rows _ Hr _ _ Hrow) as [_ _ Hpm Hds _]. subst m hash.
    unfold require_qualified in Hq. res_inv. bool_norm.
    split; [done|]. split; [done|]. split; [done|]. split; [done|]. split; [done|]. split; [done|].
    split; [done|]. split; [by eapply promotion_gate_exact|]. split.
    + destruct (latest_event (of_model_by id as_of) r) as [e|] eqn:He; [|done]. exists e.
      apply (approved_event r id); try done. unfold of_model_by. intros. by bool_norm.
    + destruct (latest_event (of_model id) r) as [e|] eqn:He; [|done]. exists e.
      apply (approved_event r id); try done. unfold of_model. intros. by bool_norm.
  - unfold load_active. reg_run.
    match goal with Hv : validate_model _ = _ |- _ => pose proof (validate_model_inr _ _ Hv) as -> end.
    bool_norm. split; [done|]. eexists. split; [done|]. by destruct a1.
Qed.
End registry.

(** ** A registered and promoted model *)
Section witness.
Definition sha (c : string) : string := String.concat "" (repeat c 64).
#[local] Instance demo_artifacts : ArtifactHash :=
  {| artifact_hash := λ _, sha "a"; report_digest := λ s, sha s |}.
#[local] Instance demo_clock : Env :=
  {| now_at := λ k, 1000 + Z.of_nat k; monotonic_at := λ _, float_of_Z 0; uuid_at := λ k, "event-" +:+ int_text (Z.of_nat k);
     rand_at := λ _, 0; row_locked := λ _ _, false |}.
Definition demo_artifact : LinearModelArtifact :=
  mkArtifact "momentum" "1" "qlib-linear-v1" "money-ohlcv-v1" FEATURES (repeat (float_of_Z 1) 5) (float_of_Z 0)
    "2024-01" (sha "d") 0 10 20 30 60 4 (float_of_Z 1) true QLIB_SHA.
Definition demo_validation (k : ValidationKind) (report : string) : OfflineValidationEvidence :=
  mkValidation k true (sha "a") (sha "d") (sha report) 40.
Definition demo_promotion : PromotionEvidence :=
  mkPromotion "momentum" (sha "a") "Proposer"
    [demo_validation POINT_IN_TIME "1"; demo_validation WALK_FORWARD "2";
     demo_validation OUT_OF_SAMPLE "3"; demo_validation REGRESSION "4"]
    (Some (mkApproval "Reviewer" true (sha "a") [sha "4"; sha "3"; sha "2"; sha "1"] 50)).
Definition demo_model : QualifiedLinearModel := mkQualified demo_artifact demo_promotion.
(** The report a hash names. *)
Definition demo_reports (h : string) : option string :=
  match h with String c _ => Some (String c EmptyString) | EmptyString => None end.
Definition registered_w : RegistryWorld :=
  (run_registry (Register demo_model demo_reports) (mkRegistryWorld empty_registry 0)).2.
Definition promoted_w : RegistryWorld :=
  (run_registry (Promote "momentum:1" "Reviewer" true None) (mkRegistryWorld (rw_db registered_w) (rw_tick registered_w))).2.
Lemma pair_eta {A B} (p : A * B) : p = (p.1, p.2).
Proof. by destruct p. Qed.
Lemma promoted_reachable : registry_reachable (rw_db promoted_w).
Proof.
  eapply rtc_l; [exact (registry_run _ (Register demo_model demo_reports) 0 _ registered_w (pair_eta _))|].
  eapply rtc_l; [|apply rtc_refl].
  exact (registry_run _ (Promote "momentum:1" "Reviewer" true None) (rw_tick registered_w) _ promoted_w (pair_eta _)).
Qed.
Lemma demo_load : (load_active "momentum:1" (sha "a") 2000 (mkRegistryWorld (rw_db promoted_w) 9)).1 = inr demo_model.
Proof. vm_compute. reflexivity. Qed.
Lemma active_model_approved_witness : promotable demo_promotion 2000.
Proof.
  assert (load_active "momentum:1" (sha "a") 2000 (mkRegistryWorld (rw_db promoted_w) 9) =
    (inr demo_model, (load_active "momentum:1" (sha "a") 2000 (mkRegistryWorld (rw_db promoted_w) 9)).2)) as Hrun
    by (etransitivity; [apply pair_eta|by rewrite demo_load]).
  destruct (active_model_approved (rw_db promoted_w) 9 "momentum:1" (sha "a") 2000 demo_model _ promoted_reachable Hrun)
    as (_ & row & _ & _ & _ & _ & _ & _ & _ & Hp & _).
  exact Hp.
Defined.
(** The proposer cannot approve its own model, whatever the spelling. *)
Example self_approval : promotion_reasons
  (mkPromotion "momentum" (sha "a") " proposer" (pm_validations demo_promotion)
    (Some (mkApproval "Proposer " true (sha "a") [sha "1"] 50))) 2000 = ["REVIEWER_NOT_INDEPENDENT"].
Proof. vm_compute. reflexivity. Qed.
End witness.
