(* ===== verification/Calendar.v ===== *)
(** * The civil calendar and billing months

    [datetime] computes calendar dates from ordinals of the proleptic Gregorian
    calendar; [ord2ymd] and [ymd2ord] are its two conversions, an instant is a
    number of microseconds since 1970-01-01T00:00Z. [month_window] is the
    allowance period of [src/money/product/service.py]. Years are unbounded
    here, where [datetime] stops at 9999. *)

From S2P Require Import Prelude.
#[local] Open Scope Z_scope.

(** ** Dates *)
Definition is_leap (y : Z) : bool :=
  (y `mod` 4 =? 0) && (negb (y `mod` 100 =? 0) || (y `mod` 400 =? 0)).
Definition days_before_year (y : Z) : Z :=
  (y - 1) * 365 + (y - 1) `div` 4 - (y - 1) `div` 100 + (y - 1) `div` 400.
(** [_DAYS_BEFORE_MONTH] and [_DAYS_IN_MONTH] of a common year, months from 1. *)
Definition common_before (m : Z) : Z :=
  nth (Z.to_nat m) [-1; 0; 31; 59; 90; 120; 151; 181; 212; 243; 273; 304; 334] 0.
Definition common_length (m : Z) : Z :=
  nth (Z.to_nat m) [-1; 31; 28; 31; 30; 31; 30; 31; 31; 30; 31; 30; 31] 0.
Definition plus_leap (b : bool) (n : Z) : Z := if b then n + 1 else n.
Definition days_in_month (y m : Z) : Z := plus_leap ((m =? 2) && is_leap y) (common_length m).
Definition days_before_month (y m : Z) : Z := plus_leap ((2 <? m) && is_leap y) (common_before m).
Record Date := mkDate { d_year : Z; d_month : Z; d_day : Z }.
Definition ymd2ord (c : Date) : Z :=
  days_before_year (d_year c) + days_before_month (d_year c) (d_month c) + d_day c.
Definition valid_date (c : Date) : Prop :=
  1 ≤ d_month c ≤ 12 ∧ 1 ≤ d_day c ≤ days_in_month (d_year c) (d_month c).

(** Month and day of the [n]-th day, from 0, of a year. *)
Definition month_day (leap : bool) (n : Z) : Z * Z :=
  let month := Z.shiftr (n + 50) 5 in
  let preceding := plus_leap ((2 <? month) && leap) (common_before month) in
  if n <? preceding then
    let month := month - 1 in
    (month, n - (preceding - plus_leap ((month =? 2) && leap) (common_length month)) + 1)
  else (month, n - preceding + 1).
Definition ord2ymd (ordinal : Z) : Date :=
  let n := ordinal - 1 in
  let n400 := n `div` 146097 in let n := n `mod` 146097 in
  let n100 := n `div` 36524 in let n := n `mod` 36524 in
  let n4 := n `div` 1461 in let n := n `mod` 1461 in
  let n1 := n `div` 365 in let n := n `mod` 365 in
  let year := n400 * 400 + 1 + n100 * 100 + n4 * 4 + n1 in
  if (n1 =? 4) || (n100 =? 4) then mkDate (year - 1) 12 31
  else
    let leap := (n1 =? 3) && (negb (n4 =? 24) || (n100 =? 3)) in
    let md := month_day leap n in
    mkDate year md.1 md.2.

(** ** Instants *)
Definition epoch : Z := 719163.
(** [now.date().toordinal()] and midnight of an ordinal. *)
Definition ordinal (now : Z) : Z := now `div` days 1 + epoch.
Definition instant (o : Z) : Z := (o - epoch) * days 1.
Definition date_of (now : Z) : Date := ord2ymd (ordinal now).
(** [now.replace(day=1, hour=0, minute=0, second=0, microsecond=0)] *)
Definition first_of_month (now : Z) : Z :=
  let c := date_of now in instant (ymd2ord (mkDate (d_year c) (d_month c) 1)).
Definition month_window (now : Z) : Z * Z :=
  let start := first_of_month now in (start, first_of_month (start + days 32)).

(** ** The two conversions are inverse *)
Lemma month_day_table (leap : bool) (n : Z) :
  0 ≤ n < plus_leap leap 365 →
  let md := month_day leap n in
  1 ≤ md.1 ≤ 12 ∧ 1 ≤ md.2 ≤ plus_leap ((md.1 =? 2) && leap) (common_length md.1) ∧
  plus_leap ((2 <? md.1) && leap) (common_before md.1) + md.2 = n + 1.
Proof.
  intros Hn.
  set (ok := λ i, let md := month_day leap (Z.of_nat i) in
    (1 <=? md.1) && (md.1 <=? 12) && (1 <=? md.2) &&
    (md.2 <=? plus_leap ((md.1 =? 2) && leap) (common_length md.1)) &&
    (plus_leap ((2 <? md.1) && leap) (common_before md.1) + md.2 =? Z.of_nat i + 1)).
  assert (∀ i, (i < Z.to_nat (plus_leap leap 365))%nat → ok i = true) as Hok.
  { intros i Hi. eapply (proj1 (forallb_forall ok (List.seq 0 (Z.to_nat (plus_leap leap 365))))).
    - unfold ok. clear. destruct leap; vm_compute; reflexivity.
    - apply in_seq. lia. }
  specialize (Hok (Z.to_nat n) ltac:(lia)). unfold ok in Hok. rewrite Z2Nat.id in Hok by lia.
  cbv zeta. bool_norm. apply Z.eqb_eq in H0. lia.
Qed.

(** The parts of a year: [y - 1 = 400 a + 100 b + 4 c + e]. *)
Lemma days_before_parts a b c e : 0 ≤ b ≤ 3 → 0 ≤ c ≤ 24 → 0 ≤ e ≤ 3 →
  days_before_year (400 * a + 1 + b * 100 + c * 4 + e) = 146097 * a + 36524 * b + 1461 * c + 365 * e.
Proof.
  intros Hb Hc He. unfold days_before_year.
  replace (400 * a + 1 + b * 100 + c * 4 + e - 1) with (400 * a + 100 * b + 4 * c + e) by lia.
  assert ((400 * a + 100 * b + 4 * c + e) `div` 4 = 100 * a + 25 * b + c) as -> by
    (symmetry; apply (Z.div_unique _ _ _ e); lia).
  assert ((400 * a + 100 * b + 4 * c + e) `div` 100 = 4 * a + b) as -> by
    (symmetry; apply (Z.div_unique _ _ _ (4 * c + e)); lia).
  assert ((400 * a + 100 * b + 4 * c + e) `div` 400 = a) as -> by
    (symmetry; apply (Z.div_unique _ _ _ (100 * b + 4 * c + e)); lia).
  lia.
Qed.
Lemma leap_parts a b c e : 0 ≤ b ≤ 3 → 0 ≤ c ≤ 24 → 0 ≤ e ≤ 3 →
  is_leap (400 * a + 1 + b * 100 + c * 4 + e) = (e =? 3) && (negb (c =? 24) || (b =? 3)).
Proof.
  intros Hb Hc He. unfold is_leap. set (y := 400 * a + 1 + b * 100 + c * 4 + e).
  assert (y `mod` 4 = (e + 1) `mod` 4) as -> by
    (unfold y; rewrite <- (Z.mod_add (e + 1) (100 * a + 25 * b + c) 4); f_equal; lia).
  assert (y `mod` 100 = (4 * c + e + 1) `mod` 100) as -> by
    (unfold y; rewrite <- (Z.mod_add (4 * c + e + 1) (4 * a + b) 100); f_equal; lia).
  assert (y `mod` 400 = (100 * b + 4 * c + e + 1) `mod` 400) as -> by
    (unfold y; rewrite <- (Z.mod_add (100 * b + 4 * c + e + 1) a 400); f_equal; lia).
  clear y. apply eq_bool_prop_intro.
  rewrite !Is_true_true, !andb_true_iff, !orb_true_iff, !negb_true_iff, !Z.eqb_eq, !Z.eqb_neq.
  Z.to_euclidean_division_equations; lia.
Qed.
Lemma days_before_next y : days_before_year (y + 1) = days_before_year y + plus_leap (is_leap y) 365.
Proof.
  set (r := (y - 1) `mod` 400). set (a := (y - 1) `div` 400).
  set (b := r `div` 100). set (c := (r `mod` 100) `div` 4). set (e := r `mod` 4).
  assert (0 ≤ b ≤ 3 ∧ 0 ≤ c ≤ 24 ∧ 0 ≤ e ≤ 3 ∧ y = 400 * a + 1 + b * 100 + c * 4 + e) as
    (Hb & Hc & He & Hy).
  { unfold b, c, e, a, r. Z.to_euclidean_division_equations. lia. }
  rewrite Hy, leap_parts, days_before_parts by done.
  unfold days_before_year. clearbody a b c e. clear Hy r.
  destruct ((e =? 3) && (negb (c =? 24) || (b =? 3))) eqn:Hl; simpl.
  - Z.to_euclidean_division_equations. lia.
  - Z.to_euclidean_division_equations. lia.
Qed.
Lemma days_before_mono y y' : y < y' → days_before_year y + plus_leap (is_leap y) 365 ≤ days_before_year y'.
Proof.
  intros Hy. rewrite <- days_before_next.
  unfold days_before_year. Z.to_euclidean_division_equations. lia.
Qed.

(** An ordinal's date is valid, and is the ordinal's. *)
Lemma ord2ymd_valid n : valid_date (ord2ymd n) ∧ ymd2ord (ord2ymd n) = n.
Proof.
  unfold ord2ymd. set (n0 := n - 1). set (a := n0 `div` 146097). set (r0 := n0 `mod` 146097).
  set (b := r0 `div` 36524). set (r1 := r0 `mod` 36524). set (c := r1 `div` 1461).
  set (r2 := r1 `mod` 1461). set (e := r2 `div` 365). set (r := r2 `mod` 365).
  assert (n = 1 + 146097 * a + 36524 * b + 1461 * c + 365 * e + r ∧ 0 ≤ r < 365 ∧
    0 ≤ e ≤ 4 ∧ 0 ≤ c ≤ 24 ∧ 0 ≤ b ≤ 4 ∧ 365 * e + r < 1461 ∧ 1461 * c + 365 * e + r < 36524 ∧
    36524 * b + 1461 * c + 365 * e + r < 146097) as (Hn & Hr & He & Hc & Hb & H4 & H100 & H400).
  { unfold r, e, r2, c, r1, b, r0, a, n0. Z.to_euclidean_division_equations. lia. }
  clearbody a b c e r. clear n0 r0 r1 r2. cbv zeta.
  destruct ((e =? 4) || (b =? 4)) eqn:Hlast.
  - assert (∃ b' c', 0 ≤ b' ≤ 3 ∧ 0 ≤ c' ≤ 24 ∧ (c' = 24 → b' = 3) ∧
      a * 400 + 1 + b * 100 + c * 4 + e - 1 = 400 * a + 1 + b' * 100 + c' * 4 + 3 ∧
      n = 146097 * a + 36524 * b' + 1461 * c' + 365 * 3 + 366) as (b' & c' & Hb' & Hc' & Hbc & Hy & Hn').
    { destruct (e =? 4) eqn:He4; simpl in Hlast.
      - exists b, c. lia.
      - exists 3, 24. lia. }
    rewrite Hy. unfold valid_date, ymd2ord, days_in_month, days_before_month. simpl.
    rewrite leap_parts, days_before_parts by lia.
    assert ((3 =? 3) && (negb (c' =? 24) || (b' =? 3)) = true) as -> by lia. simpl.
    unfold common_length, common_before. simpl. lia.
  - apply orb_false_iff in Hlast as [He4 Hb4].
    assert (b ≤ 3 ∧ e ≤ 3) as [Hb3 He3] by lia.
    replace (a * 400 + 1 + b * 100 + c * 4 + e) with (400 * a + 1 + b * 100 + c * 4 + e) by lia.
    unfold valid_date, ymd2ord, days_in_month, days_before_month. simpl.
    rewrite leap_parts, days_before_parts by lia.
    set (leap := (e =? 3) && (negb (c =? 24) || (b =? 3))).
    pose proof (month_day_table leap r) as Hmd. cbv zeta in Hmd.
    assert (0 ≤ r < plus_leap leap 365) as Hrange by (destruct leap; simpl; lia).
    specialize (Hmd Hrange). lia.
Qed.

(** ** Dates are ordered as their ordinals *)
Lemma month_end y m m' : 1 ≤ m → m < m' → m' ≤ 12 →
  days_before_month y m + days_in_month y m ≤ days_before_month y m'.
Proof.
  intros H1 Hm H12. unfold days_before_month, days_in_month.
  set (ok := λ l i j, (Z.of_nat j <=? Z.of_nat i) ||
    (plus_leap ((2 <? Z.of_nat i) && l) (common_before (Z.of_nat i)) +
     plus_leap ((Z.of_nat i =? 2) && l) (common_length (Z.of_nat i)) <=?
     plus_leap ((2 <? Z.of_nat j) && l) (common_before (Z.of_nat j)))).
  assert (∀ l i j, i ∈ seq 1 12 → j ∈ seq 1 12 → ok l i j = true) as Hok.
  { intros l i j Hi%list_elem_of_In Hj%list_elem_of_In.
    revert j Hj. apply forallb_forall. revert i Hi. apply forallb_forall.
    destruct l; vm_compute; reflexivity. }
  specialize (Hok (is_leap y) (Z.to_nat m) (Z.to_nat m')).
  unfold ok in Hok. rewrite !elem_of_seq, !Z2Nat.id in Hok by lia.
  specialize (Hok ltac:(lia) ltac:(lia)). apply orb_true_iff in Hok as [Hok|Hok]; bool_norm; lia.
Qed.
Lemma year_range y m d : 1 ≤ m ≤ 12 → 1 ≤ d ≤ days_in_month y m →
  1 ≤ days_before_month y m + d ≤ plus_leap (is_leap y) 365.
Proof.
  intros Hm Hd.
  assert (days_before_month y 1 = 0) as H1 by done.
  assert (days_before_month y 12 + days_in_month y 12 = plus_leap (is_leap y) 365) as H12
    by (unfold days_before_month, days_in_month; simpl; by destruct (is_leap y)).
  assert (0 ≤ days_before_month y m) as Hlow.
  { destruct (decide (m = 1)) as [->|]; [lia|]. pose proof (month_end y 1 m).
    assert (days_in_month y 1 = 31) by done. lia. }
  destruct (decide (m = 12)) as [->|]; [lia|]. pose proof (month_end y m 12).
  assert (days_in_month y 12 = 31) by done. lia.
Qed.
Lemma ymd2ord_inj c c' : valid_date c → valid_date c' → ymd2ord c = ymd2ord c' → c = c'.
Proof.
  destruct c as [y m d], c' as [y' m' d']. unfold valid_date, ymd2ord. simpl.
  intros [Hm Hd] [Hm' Hd'] Heq.
  pose proof (year_range y m d Hm Hd). pose proof (year_range y' m' d' Hm' Hd').
  assert (y = y') as <-.
  { destruct (Z.lt_total y y') as [Hl|[->|Hl]]; [|done|];
      apply days_before_mono in Hl; lia. }
  assert (m = m') as <-.
  { destruct (Z.lt_total m m') as [Hl|[->|Hl]]; [|done|].
    - pose proof (month_end y m m'). lia.
    - pose proof (month_end y m' m). lia. }
  f_equal. lia.
Qed.
Lemma ord2ymd_ymd2ord c : valid_date c → ord2ymd (ymd2ord c) = c.
Proof.
  intros Hc. pose proof (ord2ymd_valid (ymd2ord c)) as [Hv Ho]. by apply ymd2ord_inj.
Qed.

(** ** Billing months *)
Definition next_month (c : Date) : Date :=
  if d_month c =? 12 then mkDate (d_year c + 1) 1 1 else mkDate (d_year c) (d_month c + 1) 1.
Definition month_start (c : Date) : Date := mkDate (d_year c) (d_month c) 1.

Lemma month_length y m : 1 ≤ m ≤ 12 → 28 ≤ days_in_month y m ≤ 31.
Proof.
  intros Hm. unfold days_in_month.
  assert (m = 1 ∨ m = 2 ∨ m = 3 ∨ m = 4 ∨ m = 5 ∨ m = 6 ∨ m = 7 ∨ m = 8 ∨ m = 9 ∨ m = 10 ∨
    m = 11 ∨ m = 12) as Hcases by lia.
  repeat destruct Hcases as [->|Hcases]; try subst m; simpl; destruct (is_leap y);
    vm_compute; split; discriminate.
Qed.
Lemma month_follows y m : 1 ≤ m < 12 →
  days_before_month y (m + 1) = days_before_month y m + days_in_month y m.
Proof.
  intros Hm. unfold days_before_month, days_in_month.
  assert (m = 1 ∨ m = 2 ∨ m = 3 ∨ m = 4 ∨ m = 5 ∨ m = 6 ∨ m = 7 ∨ m = 8 ∨ m = 9 ∨ m = 10 ∨
    m = 11) as Hcases by lia.
  repeat destruct Hcases as [->|Hcases]; try subst m; simpl; destruct (is_leap y); reflexivity.
Qed.
Lemma next_month_ordinal c : valid_date c →
  valid_date (next_month c) ∧
  ymd2ord (next_month c) = ymd2ord (month_start c) + days_in_month (d_year c) (d_month c).
Proof.
  destruct c as [y m d]. unfold valid_date, next_month, month_start, ymd2ord. simpl. intros [Hm _].
  destruct (m =? 12) eqn:H12; simpl.
  - apply Z.eqb_eq in H12 as ->. rewrite days_before_next.
    pose proof (year_range y 12 31 ltac:(lia) ltac:(done)).
    assert (days_before_month y 12 + 31 = plus_leap (is_leap y) 365)
      by (unfold days_before_month; simpl; by destruct (is_leap y)).
    assert (days_in_month y 12 = 31) as -> by done.
    assert (days_in_month (y + 1) 1 = 31) as -> by done.
    assert (days_before_month (y + 1) 1 = 0) as -> by done. lia.
  - apply Z.eqb_neq in H12. pose proof (month_follows y m). pose proof (month_length y (m + 1)). lia.
Qed.

Lemma ordinal_spec now o : ordinal now = o ↔ instant o ≤ now < instant (o + 1).
Proof.
  unfold ordinal, instant. pose proof (Z.div_mod now (days 1)). pose proof (Z.mod_pos_bound now (days 1)).
  assert (0 < days 1) by done. split; [nia|]. intros Hn.
  assert (now `div` days 1 = o - epoch); [|lia]. symmetry.
  apply (Z.div_unique _ _ _ (now - (o - epoch) * days 1)); lia.
Qed.
Lemma ordinal_instant o : ordinal (instant o) = o.
Proof. apply ordinal_spec. unfold instant. assert (0 < days 1) by done. nia. Qed.
Lemma instant_mono o o' : o ≤ o' ↔ instant o ≤ instant o'.
Proof. unfold instant. assert (0 < days 1) by done. nia. Qed.

Lemma ordinal_between lo hi t : instant lo ≤ t < instant hi → lo ≤ ordinal t < hi.
Proof.
  intros Ht. destruct (proj1 (ordinal_spec t (ordinal t)) eq_refl) as [Hlo Hhi].
  assert (¬ ordinal t + 1 ≤ lo) by (rewrite instant_mono; lia).
  assert (¬ hi ≤ ordinal t) by (rewrite instant_mono; lia). lia.
Qed.

Lemma first_of_month_next c : valid_date c →
  first_of_month (instant (ymd2ord (month_start c)) + days 32) = instant (ymd2ord (next_month c)).
Proof.
  intros Hc. pose proof (next_month_ordinal c Hc) as [Hv Ho].
  pose proof (month_length (d_year c) (d_month c) ltac:(apply Hc)) as Hlen.
  set (day := 33 - days_in_month (d_year c) (d_month c)).
  assert (ordinal (instant (ymd2ord (month_start c)) + days 32) = ymd2ord (month_start c) + 32) as Hord.
  { replace (instant (ymd2ord (month_start c)) + days 32) with (instant (ymd2ord (month_start c) + 32)).
    - apply ordinal_instant.
    - unfold instant, days, seconds. lia. }
  assert (d_day (next_month c) = 1) as Hone by (unfold next_month; by destruct (_ =? _)).
  set (next := next_month c) in *.
  assert (valid_date (mkDate (d_year next) (d_month next) day)) as Hvd.
  { unfold valid_date in *. simpl. destruct Hv as [Hm _]. split; [done|].
    pose proof (month_length (d_year next) (d_month next) Hm). lia. }
  unfold first_of_month, date_of. rewrite Hord.
  assert (ymd2ord (month_start c) + 32 = ymd2ord (mkDate (d_year next) (d_month next) day)) as ->.
  { unfold ymd2ord in *. simpl in *. lia. }
  rewrite ord2ymd_ymd2ord by done. simpl. do 2 f_equal. destruct next; simpl in *. by f_equal.
Qed.

Lemma date_valid now : valid_date (date_of now).
Proof. unfold date_of. apply ord2ymd_valid. Qed.
(** The window is the civil month: from the first instant of the month that
    contains [now] to the first instant of the next. *)
Lemma month_window_eq now :
  month_window now = (instant (ymd2ord (month_start (date_of now))),
                      instant (ymd2ord (next_month (date_of now)))).
Proof.
  unfold month_window. f_equal. unfold first_of_month at 2.
  apply first_of_month_next, date_valid.
Qed.
Lemma month_window_contains now : (month_window now).1 ≤ now < (month_window now).2.
Proof.
  rewrite month_window_eq. simpl. pose proof (ord2ymd_valid (ordinal now)) as [Hv Ho].
  fold (date_of now) in Hv, Ho. pose proof (next_month_ordinal _ Hv) as [_ Hn].
  destruct (proj1 (ordinal_spec now (ordinal now)) eq_refl) as [Hlo Hhi].
  rewrite <- Ho in Hlo, Hhi. destruct Hv as [Hm Hd]. rewrite Hn.
  assert (ymd2ord (date_of now) = ymd2ord (month_start (date_of now)) + d_day (date_of now) - 1) as Heq
    by (unfold ymd2ord, month_start; simpl; lia).
  rewrite Heq in Hlo, Hhi. split.
  - etrans; [|exact Hlo]. apply (proj1 (instant_mono _ _)). lia.
  - eapply Z.lt_le_trans; [exact Hhi|]. apply (proj1 (instant_mono _ _)). lia.
Qed.
Lemma date_in_month c t : valid_date c →
  ymd2ord (month_start c) ≤ ordinal t < ymd2ord (next_month c) →
  d_year (date_of t) = d_year c ∧ d_month (date_of t) = d_month c.
Proof.
  intros Hc Hr. pose proof (next_month_ordinal _ Hc) as [_ Hn]. destruct Hc as [Hm _].
  set (day := ordinal t - ymd2ord (month_start c) + 1).
  assert (ymd2ord (mkDate (d_year c) (d_month c) day) = ordinal t) as Ho.
  { unfold day, ymd2ord, month_start. simpl. lia. }
  unfold date_of. rewrite <- Ho, ord2ymd_ymd2ord; [done|].
  split; simpl; [done|]. unfold day. lia.
Qed.
(** Instants of one window have the same window: months do not overlap. *)
Lemma month_window_same now t :
  (month_window now).1 ≤ t < (month_window now).2 → month_window t = month_window now.
Proof.
  rewrite !month_window_eq. cbn [fst snd]. intros Ht.
  destruct (date_in_month (date_of now) t (date_valid now) (ordinal_between _ _ _ Ht)) as [Hy Hm].
  unfold month_start, next_month. by rewrite Hy, Hm.
Qed.

(** C29. The allowance month: [month_window now], computed by adding 32 days to
    the first of the month and going back to the first, is exactly the civil
    month of the calendar (the first instant of [now]'s month and the first
    instant of the month after it, December wrapping to January); it contains
    [now]; and two instants have the same window exactly when one lies in the
    other's, so months partition time and no usage record is counted in two. *)
Theorem month_window_is_civil_month now t :
  month_window now = (instant (ymd2ord (month_start (date_of now))),
                      instant (ymd2ord (next_month (date_of now)))) ∧
  (month_window now).1 ≤ now < (month_window now).2 ∧
  (month_window t = month_window now ↔ (month_window now).1 ≤ t < (month_window now).2).
Proof.
  split; [apply month_window_eq|]. split; [apply month_window_contains|].
  split; [|apply month_window_same]. intros <-. apply month_window_contains.
Qed.
