(* ===== verification/Security.v ===== *)
(** * Passwords and tokens ([src/money/accounts/security.py])

    A password is stored as [scrypt-v1$salt$digest] with hexadecimal salt and
    digest. The key derivation function, SHA-256 and the random generator are
    parameters; the free slots of the semaphore that bounds concurrent
    derivations come from the environment. Byte strings are [string]. *)

From S2P Require Import Prelude Effects PyNum PyText Contracts Demo Eligibility Governance.
From S2P Require Import Market Signals CrossExam Universe Customers Schema.
#[local] Open Scope Z_scope.

(** [secrets.token_urlsafe(32)], [secrets.token_bytes(16)], [hashlib.scrypt],
    [hashlib.sha256(...).hexdigest()] and the semaphore's
    [acquire(blocking=False)]. *)
Class Secrets := {
  urlsafe_at : nat → string;
  salt_at : nat → string;
  scrypt : string → string → string;
  sha256_hex : string → string;
  capacity_free : nat → bool;
}.

(** ** Text and bytes *)

(** [s.split(c)] for a one-character separator. *)
Fixpoint split_on (c : Ascii.ascii) (s : string) : list string :=
  match s with
  | EmptyString => [EmptyString]
  | String x s' =>
      if bool_decide (x = c) then EmptyString :: split_on c s'
      else match split_on c s' with
           | [] => [String x EmptyString]
           | part :: rest => String x part :: rest
           end
  end.
Definition hex_digit (n : nat) : Ascii.ascii :=
  if (n <? 10)%nat then Ascii.ascii_of_nat (48 + n) else Ascii.ascii_of_nat (87 + n).
(** [data.hex()] *)
Fixpoint hex (s : string) : string :=
  match s with
  | EmptyString => EmptyString
  | String x s' =>
      let n := Ascii.nat_of_ascii x in
      String (hex_digit (n / 16)) (String (hex_digit (n mod 16)) (hex s'))
  end.
Definition hex_value (c : Ascii.ascii) : option nat :=
  let n := Ascii.nat_of_ascii c in
  if ((48 <=? n) && (n <=? 57))%nat then Some (n - 48)%nat
  else if ((97 <=? n) && (n <=? 102))%nat then Some (n - 87)%nat
  else if ((65 <=? n) && (n <=? 70))%nat then Some (n - 55)%nat
  else None.
Definition is_ascii_space (c : Ascii.ascii) : bool :=
  let n := Ascii.nat_of_ascii c in ((9 <=? n) && (n <=? 13) || (n =? 32))%nat.
(** [bytes.fromhex(s)], [None] for its [ValueError]: whitespace is skipped
    between bytes. *)
Fixpoint from_hex (s : string) : option string :=
  match s with
  | EmptyString => Some EmptyString
  | String x s' =>
      if is_ascii_space x then from_hex s'
      else match s' with
           | EmptyString => None
           | String y s'' =>
               hi ← hex_value x; lo ← hex_value y; rest ← from_hex s'';
               Some (String (Ascii.ascii_of_nat (16 * hi + lo)) rest)
           end
  end.

(** ** The module *)
Section security.
Context `{Env, Secrets}.

Definition token_digest (value : string) : string := sha256_hex value.
Definition token_urlsafe : M World string := k ← next_tick; mret (urlsafe_at k).
Definition derive (password salt : string) : M World string :=
  k ← next_tick;
  raise_if (negb (capacity_free k)) PasswordCapacityExceeded "PASSWORD_CAPACITY" ;;
  mret (scrypt password salt).
Definition password_hash (password : string) : M World string :=
  k ← next_tick;
  let salt := salt_at k in
  digest ← derive password salt;
  mret ("scrypt-v1$" +:+ hex salt +:+ "$" +:+ hex digest).
Definition dummy_password_hash : M World string := token_urlsafe ≫= password_hash.
Definition password_valid (password encoded : string) : M World bool :=
  match split_on "$" encoded with
  | [version; salt_hex; expected] =>
      if negb (bool_decide (version = "scrypt-v1")) ||
         negb (bool_decide (String.length salt_hex = 32%nat)) ||
         negb (bool_decide (String.length expected = 64%nat))
      then mret false
      else match from_hex salt_hex with
           | None => mret false
           | Some salt => digest ← derive password salt; mret (bool_decide (hex digest = expected))
           end
  | _ => mret false
  end.
End security.

(** ** Hexadecimal and splitting *)
Definition byte_hex_ok (n : nat) : bool :=
  let hi := hex_digit (n / 16) in let lo := hex_digit (n mod 16) in
  negb (is_ascii_space hi) && bool_decide (hex_value hi = Some (n / 16)%nat) &&
  bool_decide (hex_value lo = Some (n mod 16)%nat) &&
  bool_decide (hi ≠ "$"%char) && bool_decide (lo ≠ "$"%char).
Lemma byte_hex n : (n < 256)%nat → byte_hex_ok n = true.
Proof.
  intros Hn. apply (proj1 (forallb_forall byte_hex_ok (List.seq 0 256))); [by vm_compute|].
  apply in_seq. lia.
Qed.
Lemma byte_bound x : (Ascii.nat_of_ascii x < 256)%nat.
Proof. apply Ascii.nat_ascii_bounded. Qed.
Lemma from_hex_hex s : from_hex (hex s) = Some s.
Proof.
  induction s as [|x s IH]; [done|]. cbn [hex]. cbv zeta.
  pose proof (byte_hex _ (byte_bound x)) as Hb. unfold byte_hex_ok in Hb. bool_norm.
  cbn [from_hex]. rewrite H, H2, H3. cbn [mbind option_bind]. rewrite IH. cbn [mbind option_bind]. do 2 f_equal.
  rewrite <- (Ascii.ascii_nat_embedding x) at 3. f_equal.
  symmetry. by apply Nat.div_mod.
Qed.
Lemma hex_length s : String.length (hex s) = (2 * String.length s)%nat.
Proof. induction s as [|x s IH]; simpl; [done|]. rewrite IH. lia. Qed.
Fixpoint lacks (c : Ascii.ascii) (s : string) : bool :=
  match s with EmptyString => true | String x s' => bool_decide (x ≠ c) && lacks c s' end.
Lemma hex_lacks s : lacks "$" (hex s) = true.
Proof.
  induction s as [|x s IH]; [done|]. cbn [hex]. cbv zeta. cbn [lacks].
  pose proof (byte_hex _ (byte_bound x)) as Hb. unfold byte_hex_ok in Hb.
  apply andb_true_iff in Hb as [Hb Hlo]. apply andb_true_iff in Hb as [_ Hhi].
  by rewrite Hhi, Hlo, IH.
Qed.
Lemma split_on_lacks c s : lacks c s = true → split_on c s = [s].
Proof.
  induction s as [|x s IH]; simpl; [done|]. intros [Hx Hs]%andb_true_iff. bool_norm.
  rewrite bool_decide_eq_false_2 by done. by rewrite IH.
Qed.
Lemma split_on_app c s t : lacks c s = true → split_on c (s +:+ String c t) = s :: split_on c t.
Proof.
  induction s as [|x s IH]; simpl.
  - by rewrite bool_decide_eq_true_2.
  - intros [Hx Hs]%andb_true_iff. bool_norm. rewrite bool_decide_eq_false_2 by done. by rewrite IH.
Qed.

(** ** Stored passwords *)
Section passwords.
Context `{Env, Secrets}.
(** [token_bytes(16)] has 16 bytes and [scrypt(..., dklen=32)] has 32. *)
Context (salt_bytes : ∀ k, String.length (salt_at k) = 16%nat).
Context (scrypt_bytes : ∀ p s, String.length (scrypt p s) = 32%nat).

Lemma hex_inj s t : hex s = hex t → s = t.
Proof. intros Heq. apply (f_equal from_hex) in Heq. rewrite !from_hex_hex in Heq. by injection Heq. Qed.
Lemma split_encoded salt digest :
  split_on "$" ("scrypt-v1$" +:+ hex salt +:+ "$" +:+ hex digest) =
  ["scrypt-v1"; hex salt; hex digest].
Proof.
  transitivity ("scrypt-v1" :: split_on "$" (hex salt +:+ String "$" (hex digest))).
  - by rewrite <- (split_on_app "$" "scrypt-v1").
  - rewrite split_on_app by apply hex_lacks. by rewrite split_on_lacks by apply hex_lacks.
Qed.
Lemma password_valid_encoded guess salt digest w :
  String.length salt = 16%nat → String.length digest = 32%nat → capacity_free (w_tick w) = true →
  password_valid guess ("scrypt-v1$" +:+ hex salt +:+ "$" +:+ hex digest) w =
  (inr (bool_decide (scrypt guess salt = digest)), mkWorld (w_db w) (S (w_tick w))).
Proof.
  intros Hs Hd Hc. unfold password_valid. rewrite split_encoded, !hex_length, Hs, Hd, from_hex_hex.
  simpl. unfold derive, mbind, m_bind, next_tick. rewrite Hc. simpl. unfold mret, m_ret.
  do 2 f_equal. apply bool_decide_ext. split; [apply hex_inj|by intros ->].
Qed.

(** C32. A stored password: [password_hash] yields a versioned string of 107
    characters, within its column, that [password_valid] accepts for the
    password it was made from and for no other whose derived key differs; the
    marker written over an erased account's password is accepted for none. *)
Theorem password_roundtrip password w h w' guess w1 :
  password_hash password w = (inr h, w') → capacity_free (w_tick w1) = true →
  String.length h = 107%nat ∧
  ∃ salt, (password_valid guess h w1).1 = inr (bool_decide (scrypt guess salt = scrypt password salt)) ∧
          (password_valid password h w1).1 = inr true ∧
          (password_valid guess "disabled" w1).1 = inr false.
Proof.
  unfold password_hash, derive, mbind, m_bind, next_tick. simpl.
  destruct (capacity_free (S (w_tick w))); simpl; [|done]. intros [= <- _] Hc.
  set (salt := salt_at (w_tick w)). split.
  - assert (∀ a b, String.length (a +:+ b) = (String.length a + String.length b)%nat) as Happ.
    { intros a b. induction a as [|x a IH]; simpl; [done|]. by rewrite IH. }
    rewrite !Happ, !hex_length, scrypt_bytes. unfold salt.
    by rewrite salt_bytes.
  - exists salt. rewrite !password_valid_encoded by (done || apply salt_bytes || apply scrypt_bytes).
    simpl. by rewrite (bool_decide_eq_true_2 (scrypt password salt = _)).
Qed.
End passwords.
