(* ===== verification/Store.v ===== *)
(** * The research store ([src/money/storage/store.py])

    Transactional jobs, worker leases, report seals and publication. Each
    method is one definition in the same order of checks, reads and writes;
    [complete_job] is in [Complete]. The clock is read once per call to
    [now_utc()]; reading it where Python's short-circuit would skip the call
    only renumbers later ticks. *)

From S2P Require Import Prelude Effects PyNum PyText Contracts Demo Eligibility Governance.
From S2P Require Import Market Signals CrossExam Universe Schema.
#[local] Open Scope Z_scope.

(** ** Constants *)
Definition FIRST_PASS_FIRMS : list Firm := [tradingagents; ai_hedge_fund; qlib].
Definition STAGES : list JobStatus :=
  [QUEUED; ELIGIBILITY_CHECK; DISCOVERY; SNAPSHOT_BUILD; FIRST_PASS_RESEARCH; FIRST_PASS_LOCKED;
   LEAN_VALIDATION; CREWAI_AUDIT; CROSS_EXAMINATION; CONSENSUS; COMPLETE].
Definition TERMINAL : list JobStatus := [COMPLETE; REJECTED; FAILED].
Definition terminal (s : JobStatus) : bool := mem s TERMINAL.
(** [STAGES.index(stage)]; the two statuses outside [STAGES] raise [ValueError]. *)
Fixpoint index_of `{EqDecision A} (x : A) (l : list A) : option nat :=
  match l with
  | [] => None
  | y :: l' => if bool_decide (x = y) then Some O else S <$> index_of x l'
  end.
Definition stage_index (s : JobStatus) : option nat := index_of s STAGES.
(** The member of [STAGES] a status string names. *)
Definition parse_stage (s : string) : option JobStatus :=
  List.find (λ st, bool_decide (status_name st = s)) STAGES.

(** ** Views *)

(** The columns a caller may see: the four private ones are popped. *)
Definition public (j : Job) : Job :=
  j <| j_lease_token := None |> <| j_worker_id := None |> <| j_lease_until := None |>
    <| j_request_hash := None |>.
Record JobView := mkView {
  v_id : string;
  v_job : Job;
  v_packet : option PacketValue;
  v_final_state : json;
  v_invalidated_at : option Z
}.
Definition packet_final_state (p : PacketValue) : json :=
  match p with
  | PacketDoc d => JStr (state_name (dp_final_state d))
  | RejectionDoc o => jget o "final_state"
  end.
(** [min(created_at)] of the invalidation events recorded up to [t]. *)
Definition invalidation_events (d : DB) (job : string) (t : Z) : list AuditEvent :=
  List.filter (λ e, bool_decide (ae_job e = Some job) &&
                    bool_decide (ae_event e = "SIGNAL_INVALIDATED") && (ae_created_at e <=? t))
    (t_audit d).
Definition invalidated_at (d : DB) (job : string) (t : Z) : option Z :=
  ae_created_at <$> min_by ae_created_at (invalidation_events d job t).

Section store.
Context `{ContentHash, Pydantic, PolicyHash, TaLib, SignalPolicyHash, CrossHash, UniverseHash}.
Context `{Env, Digests}.

Definition put_job (id : string) (j : Job) : M World () :=
  execute (λ d, d <| t_jobs ::= insert id j |>).
(** [_audit] *)
Definition audit (job : option string) (event : string) (data : jobj) : M World () :=
  t ← now_utc;
  execute (λ d, d <| t_audit ::= λ l, l ++ [mkAuditEvent job event data t] |>).

(** [_owned_job] *)
Definition lease_valid (c : option Claim) (id : string) (j : Job) (t1 t2 : Z) : bool :=
  match c with
  | None => false
  | Some c =>
      bool_decide (c_job_id c = id) && bool_decide (j_lease_token j = Some (c_token c)) &&
      bool_decide (j_worker_id j = Some (c_worker_id c)) &&
      match j_lease_until j with Some u => t1 <? u | None => false end &&
      negb (match j_deadline_at j with Some u => u <=? t2 | None => false end) &&
      negb (terminal (j_status j))
  end.
Definition owned_job (h : Handle) (id : string) : M World Job :=
  row ← select (λ d, t_jobs d !! id);
  j ← expect row StoreError "Research job does not exist";
  t1 ← now_utc;
  t2 ← now_utc;
  raise_if (negb (lease_valid (h_claim h) id j t1 t2)) LeaseLost
    "Worker lease is no longer valid" ;;
  mret j.

(** [_retry_delay], in microseconds. *)
Definition retry_delay (attempt : Z) : M World Z :=
  r ← randbelow_1000;
  mret (seconds (Z.min 300 (2 ^ Z.min attempt 8)) + r * millisecond).

(** The rows [_expire_leases] selects. *)
Definition lease_expired (h : Handle) (only : option string) (t : Z) (id : string) (j : Job)
    : bool :=
  negb (terminal (j_status j)) &&
  (null_le (j_lease_until j) t || null_le (j_deadline_at j) t) && workspace_filter h j &&
  match only with Some o => bool_decide (id = o) | None => true end.
Definition expire_lease (t : Z) (id : string) (j : Job) : M World () :=
  let timed_out := null_le (j_deadline_at j) t in
  let code := if timed_out then "JOB_TIMEOUT" else "WORKER_LEASE_EXPIRED" in
  let retry := (j_attempt_count j <? j_max_attempts j) && negb timed_out in
  delay ← retry_delay (j_attempt_count j);
  let status := if retry then QUEUED else FAILED in
  put_job id (j <| j_status := status |> <| j_current_stage := status |>
    <| j_resume_stage := Some (j_status j) |>
    <| j_completed_at := if retry then None else Some t |> <| j_updated_at := t |>
    <| j_lease_token := None |> <| j_lease_until := None |> <| j_deadline_at := None |>
    <| j_available_at := Some (t + delay) |>
    <| j_error_code := Some (if retry || timed_out then code else "JOB_RETRY_EXHAUSTED") |>
    <| j_error_message := Some (if retry
         then "Research compute was interrupted; retry is pending."
         else "Research compute failed; no research signal was issued.") |>) ;;
  audit (Some id) code [("retry", JBool retry)].
Definition expire_leases (h : Handle) (only : option string) : M World () :=
  t ← now_utc;
  locked ← skip_locked;
  rows ← select (λ d, List.filter
    (λ ij, lease_expired h only t ij.1 ij.2 && negb (locked ij.1)) (map_to_list (t_jobs d)));
  for_each rows (λ ij, expire_lease t ij.1 ij.2).

(** ** Reads *)
Definition get_job (h : Handle) (id : string) : M World (option JobView) :=
  transaction (expire_leases h (Some id)) ;;
  row ← select (λ d, t_jobs d !! id);
  match row with
  | None => mret None
  | Some j =>
      if negb (workspace_filter h j) then mret None else
      packet ← select (λ d, pk_payload <$> t_packets d !! id);
      stored ← select (λ d, si_payload <$> t_signals d !! id);
      let base := match packet with Some p => packet_final_state p | None => JNull end in
      match stored with
      | None => mret (Some (mkView id (public j) packet base None))
      | Some raw =>
          g ← lift (validate_signal raw);
          t1 ← now_utc;
          t2 ← now_utc;
          inval ← select (λ d, invalidated_at d id t2);
          mret (Some (mkView id (public j) packet
            (JStr (state_name (if is_set inval then EXPIRED else effective_state g t1))) inval))
      end
  end.

Definition get_mandate (h : Handle) (id : string) : M World ResearchMandate :=
  found ← select (λ d, j ← t_jobs d !! id;
                       if workspace_filter h j then t_mandates d !! j_mandate_id j else None);
  expect found StoreError "Research mandate does not exist".

(** ** Enqueue *)

(** The first job of the workspace with this idempotency key. *)
Definition find_replay (d : DB) (workspace : string) (key : string) : option (string * Job) :=
  List.find (λ ij, bool_decide (j_workspace_id ij.2 = workspace) &&
                   bool_decide (j_idempotency_key ij.2 = Some key)) (map_to_list (t_jobs d)).
Definition active_jobs (d : DB) : Z := count_by (λ j, negb (terminal (j_status j))) (rows (t_jobs d)).
Definition recent_jobs (d : DB) (workspace : string) (since : Z) : Z :=
  count_by (λ j, (since <=? j_created_at j) && bool_decide (j_workspace_id j = workspace))
    (rows (t_jobs d)).
Definition new_job (ticker : string) (kind : ResearchKind) (mandate_id workspace : string)
    (key : option string) (request_hash : string) (max_attempts stamp : Z) : Job :=
  mkJob ticker kind mandate_id workspace key (Some request_hash) 0 max_attempts None None None
    None None QUEUED QUEUED stamp stamp None None None None None None None None.

Record EnqueueOptions := mkEnqueue {
  eq_capacity : Z;
  eq_rate_per_minute : Z;
  eq_idempotency_key : option string;
  eq_max_attempts : Z;
  eq_admission : option (string → M World ());
  eq_research_kind : ResearchKind
}.

(** The transaction of [create_job]: [inl] is an idempotent replay. *)
Definition enqueue (h : Handle) (ticker : string) (mandate : ResearchMandate)
    (o : EnqueueOptions) (stamp : Z) (job_id mandate_id : string)
    : M World (JobView + string) :=
  let workspace := workspace_or_private h in
  let request_hash := digest_request ticker mandate (eq_research_kind o) in
  existing ← select (λ d, eq_idempotency_key o ≫= find_replay d workspace);
  match existing with
  | Some (id, j) =>
      raise_if (negb (bool_decide (j_request_hash j = Some request_hash))) IdempotencyConflict
        "Idempotency key was used with different input" ;;
      mret (inl (mkView id (public j) None JNull None))
  | None =>
      active ← select active_jobs;
      raise_if (eq_capacity o <=? active) QueueCapacityExceeded
        "Research queue is at capacity" ;;
      recent ← select (λ d, recent_jobs d workspace (stamp - minutes 1));
      raise_if (eq_rate_per_minute o <=? recent) EnqueueRateExceeded
        "Research submission rate exceeded" ;;
      insert_unique t_mandates mandate_id (λ d, d <| t_mandates ::= insert mandate_id mandate |>) ;;
      insert_unique t_jobs job_id
        (λ d, d <| t_jobs ::= insert job_id
           (new_job ticker (eq_research_kind o) mandate_id workspace (eq_idempotency_key o)
              request_hash (eq_max_attempts o) stamp) |>) ;;
      match eq_admission o with Some callback => callback job_id | None => mret () end ;;
      audit (Some job_id) "JOB_ENQUEUED" [] ;;
      mret (inr job_id)
  end.

Definition create_job (h : Handle) (ticker : string) (mandate : ResearchMandate)
    (o : EnqueueOptions) : M World JobView :=
  checked ← lift (validate_mandate mandate);
  stamp ← now_utc;
  job_id ← uuid4;
  mandate_id ← uuid4;
  result ← transaction (enqueue h ticker checked o stamp job_id mandate_id);
  match result with
  | inl replay => mret replay
  | inr id =>
      view ← get_job h id;
      expect view AssertionError "result is not None"
  end.

(** ** Worker leases *)
Definition claimable (h : Handle) (kind : ResearchKind) (only : option string) (t : Z)
    (id : string) (j : Job) : bool :=
  bool_decide (j_status j = QUEUED) && bool_decide (j_research_kind j = kind) &&
  workspace_filter h j && match only with Some o => bool_decide (id = o) | None => true end &&
  match j_available_at j with None => true | Some a => a <=? t end.
Definition first_stage (kind : ResearchKind) : JobStatus :=
  match kind with live_rnd => SNAPSHOT_BUILD | standard => ELIGIBILITY_CHECK end.
(** The row a successful claim writes. *)
Definition claimed (j : Job) (stage : JobStatus) (worker token : string)
    (stamp timeout lease : Z) : Job :=
  j <| j_status := stage |> <| j_current_stage := stage |>
    <| j_started_at := Some (default stamp (j_started_at j)) |> <| j_updated_at := stamp |>
    <| j_attempt_count := j_attempt_count j + 1 |> <| j_error_code := None |>
    <| j_error_message := None |> <| j_deadline_at := Some (stamp + seconds timeout) |>
    <| j_worker_id := Some worker |> <| j_lease_token := Some token |>
    <| j_lease_until := Some (stamp + seconds lease) |>.

Definition claim_job (h : Handle) (worker : string) (lease_seconds job_timeout_seconds : Z)
    (kind : ResearchKind) (only : option string) : M World (option Claim) :=
  raise_if (lease_seconds <? 10) ValueError "Worker leases must last at least ten seconds" ;;
  transaction (
    stamp ← now_utc;
    expire_leases h None ;;
    locked ← skip_locked;
    row ← select (λ d, min_by (λ ij, j_created_at ij.2)
      (List.filter (λ ij, claimable h kind only stamp ij.1 ij.2 && negb (locked ij.1))
         (map_to_list (t_jobs d))));
    match row with
    | None => mret None
    | Some (id, j) =>
        admitted ← select (λ d, ur_max_seconds <$> t_usage d !! id);
        let timeout := match admitted with
                       | Some s => Z.min job_timeout_seconds s
                       | None => job_timeout_seconds
                       end in
        token ← uuid4;
        let stage := default (first_stage kind) (j_resume_stage j) in
        put_job id (claimed j stage worker token stamp timeout lease_seconds) ;;
        audit (Some id) "WORKER_CLAIMED"
          [("attempt", JInt (j_attempt_count j + 1)); ("stage", JStr (status_name stage))] ;;
        mret (Some (mkWorkerClaim id token worker))
    end).

Definition renew_lease (h : Handle) (id : string) (lease_seconds : Z) : M World () :=
  transaction (
    j ← owned_job h id;
    t ← now_utc;
    put_job id (j <| j_lease_until := Some (t + seconds lease_seconds) |>)).

(** The firms with a sealed report, and the artifacts, of one job. *)
Definition report_rows (d : DB) (id : string) : list (Firm * ReportRow) :=
  omap (λ kr : (string * Firm) * ReportRow,
          if bool_decide (kr.1.1 = id) then Some (kr.1.2, kr.2) else None)
    (map_to_list (t_reports d)).
Definition sealed_firms (d : DB) (id : string) : list Firm := map fst (report_rows d id).
Definition artifact (d : DB) (id kind : string) : option ArtifactValue :=
  ar_payload <$> t_artifacts d !! (id, kind).
Definition artifact_rows (d : DB) (id : string) : list (string * ArtifactValue) :=
  omap (λ kr : (string * string) * ArtifactRow,
          if bool_decide (kr.1.1 = id) then Some (kr.1.2, ar_payload kr.2) else None)
    (map_to_list (t_artifacts d)).
(** [select(snapshots.payload).where(snapshots.job_id == job_id)] *)
Definition snapshot_of_job (d : DB) (id : string) : option ResearchSnapshot :=
  sn_payload <$> List.find (λ r, bool_decide (sn_job r = id)) (rows (t_snapshots d)).
(** [select(snapshots.payload).where(snapshots.id == row["snapshot_id"])] *)
Definition frozen_snapshot (d : DB) (j : Job) : option ResearchSnapshot :=
  sid ← j_snapshot_id j; sn_payload <$> t_snapshots d !! sid.

Record Checkpoint := mkCheckpoint {
  cp_stage : JobStatus;
  cp_snapshot : option ResearchSnapshot;
  cp_artifacts : list (string * ArtifactValue);
  cp_sealed_firms : list Firm
}.
Definition get_checkpoint (h : Handle) (id : string) : M World Checkpoint :=
  transaction (
    j ← owned_job h id;
    select (λ d, mkCheckpoint (j_status j) (snapshot_of_job d id) (artifact_rows d id)
                   (sealed_firms d id))).

Definition retry_job (h : Handle) (id code : string) : M World bool :=
  transaction (
    j ← owned_job h id;
    let retry := j_attempt_count j <? j_max_attempts j in
    stamp ← now_utc;
    delay ← retry_delay (j_attempt_count j);
    let status := if retry then QUEUED else FAILED in
    put_job id (j <| j_status := status |> <| j_current_stage := status |>
      <| j_resume_stage := Some (j_status j) |> <| j_updated_at := stamp |>
      <| j_available_at := Some (stamp + delay) |>
      <| j_completed_at := if retry then None else Some stamp |> <| j_deadline_at := None |>
      <| j_lease_token := None |> <| j_lease_until := None |>
      <| j_error_code := Some (if retry then code else "JOB_RETRY_EXHAUSTED") |>
      <| j_error_message := Some (if retry then "A transient service failure delayed research."
           else "Research retry limit reached; no signal was issued.") |>) ;;
    audit (Some id) (if retry then "JOB_RETRY_SCHEDULED" else "JOB_RETRY_EXHAUSTED")
      [("failure_code", JStr code); ("attempt", JInt (j_attempt_count j))] ;;
    mret retry).

(** ** Stages and sealed evidence *)
Definition update_stage (h : Handle) (id status : string) (fields : list (string * option string))
    : M World () :=
  match parse_stage status with
  | None => raise StoreError "Use the dedicated operation for this stage"
  | Some stage =>
      raise_if (mem stage [QUEUED; FIRST_PASS_LOCKED; COMPLETE]) StoreError
        "Use the dedicated operation for this stage" ;;
      raise_if (existsb (λ f, negb (bool_decide (f.1 = "candidate_id"))) fields) StoreError
        "Unsupported job field" ;;
      transaction (
        j ← owned_job h id;
        to_ ← expect (stage_index stage) ValueError "tuple.index(x): x not in tuple";
        from ← expect (stage_index (j_status j)) ValueError "tuple.index(x): x not in tuple";
        raise_if (to_ <? from)%nat StoreError "Research stages cannot move backwards" ;;
        raise_if ((5 <? to_)%nat && negb (is_set (j_locked_at j))) BarrierNotLocked
          "Final validation and audit require locked reports" ;;
        raise_if (bool_decide (stage = FIRST_PASS_RESEARCH) && negb (is_set (j_snapshot_id j)))
          StoreError "First-pass research requires a frozen snapshot" ;;
        t ← now_utc;
        audit (Some id) "STAGE_CHANGED"
          [("from", JStr (status_name (j_status j))); ("to", JStr (status_name stage));
           ("previous_stage_seconds", JSeconds (Z.max 0 (t - j_updated_at j)))] ;;
        t' ← now_utc;
        put_job id (j <| j_status := stage |> <| j_current_stage := stage |>
          <| j_updated_at := t' |>
          <| j_candidate_id := match List.find (λ f, bool_decide (f.1 = "candidate_id")) fields with
                               | Some f => f.2
                               | None => j_candidate_id j
                               end |>))
  end.

(** [_verify_universe_context] *)
Definition verify_universe_context (s : ResearchSnapshot) (raw : option ArtifactValue)
    : M World () :=
  match rs_universe_hash s with
  | None => mret ()
  | Some _ =>
      c ← match raw with
          | Some (ArtUniverse u) => lift (validate_context u)
          | _ => raise ValueError "ValidationError"
          end;
      let mismatch := raise ValueError "RESEARCH_UNIVERSE_CONTEXT_MISMATCH" in
      match List.find (λ i, bool_decide (rs_ticker i = rs_ticker s)) (uc_snapshots c) with
      | None => mismatch
      | Some source =>
          if negb (mem (rs_ticker s) (us_selected_tickers (uc_screen c))) then mismatch else
          bound ← lift (bind_universe_snapshot source (uc_universe c));
          t ← now_utc;
          if negb (bool_decide (s = bound)) ||
             negb ((qu_observed_at (uc_universe c) <=? t) && (t <? qu_valid_until (uc_universe c)))
          then mismatch else mret ()
      end
  end.

Definition evidence_key (job evidence_id : string) : string := job +:+ ":" +:+ evidence_id.

Definition save_snapshot (h : Handle) (id : string) (snapshot : ResearchSnapshot) : M World () :=
  s ← lift (validate_snapshot snapshot);
  transaction (
    j ← owned_job h id;
    raise_if (negb (bool_decide (j_research_kind j = standard))) StoreError
      "Personal R&D requires its own snapshot contract" ;;
    raise_if (negb (bool_decide (j_status j = SNAPSHOT_BUILD)) || is_set (j_snapshot_id j))
      StoreError "A snapshot can only be frozen once during snapshot building" ;;
    raise_if (negb (bool_decide (rs_ticker s = j_ticker j))) StoreError
      "Snapshot ticker differs from the research job" ;;
    (if is_set (rs_universe_hash s) then
       context ← select (λ d, artifact d id "universe_context");
       revalidated ← lift (validate_snapshot s);
       verify_universe_context revalidated context
     else mret ()) ;;
    t ← now_utc;
    insert_unique t_snapshots (rs_snapshot_id s)
      (λ d, d <| t_snapshots ::= insert (rs_snapshot_id s) (mkSnapshotRow id s t) |>) ;;
    for_each (rs_evidence s) (λ e,
      t ← now_utc;
      insert_unique t_evidence (evidence_key id (ev_evidence_id e))
        (λ d, d <| t_evidence ::= insert (evidence_key id (ev_evidence_id e))
                                    (mkEvidenceRow id e t) |>)) ;;
    put_job id (j <| j_snapshot_id := Some (rs_snapshot_id s) |>) ;;
    audit (Some id) "SNAPSHOT_FROZEN" [("snapshot_id", JStr (rs_snapshot_id s))]).

Definition parse_firm (s : string) : option Firm :=
  List.find (λ f, bool_decide (firm_name f = s)) FIRST_PASS_FIRMS.

Definition save_report (h : Handle) (id firm_arg : string) (report : FirmReport) : M World () :=
  firm ← expect (parse_firm firm_arg) StoreError "Unknown first-pass research firm";
  (* the model class of a firm fixes its [firm] literal *)
  r ← lift (require (bool_decide (fr_firm report = firm)) ;; validate_report report);
  transaction (
    j ← owned_job h id;
    raise_if (negb (bool_decide (j_status j = FIRST_PASS_RESEARCH)) || is_set (j_locked_at j))
      StoreError "Reports can only be sealed during first-pass research" ;;
    raise_if (negb (bool_decide (Some (fr_snapshot_id r) = j_snapshot_id j))) StoreError
      "A firm report must reference the job's frozen snapshot" ;;
    found ← select (λ d, frozen_snapshot d j);
    frozen ← expect found StoreError "A firm report must match the frozen snapshot hash";
    raise_if (negb (bool_decide (fr_snapshot_hash r = rs_hash frozen))) StoreError
      "A firm report must match the frozen snapshot hash" ;;
    checked ← lift (validate_snapshot frozen);
    raise_if (negb (mem firm (snapshot_required_firms checked))) StoreError
      "Firm is disabled by the frozen research policy" ;;
    raise_if (existsb (λ c, negb (subset_of (cl_evidence_ids c) (snapshot_evidence_ids frozen)))
                (fr_claims r))
      StoreError "A firm report references evidence outside the frozen snapshot" ;;
    t ← now_utc;
    catch (λ e, is_instance e IntegrityError)
      (insert_unique t_reports (id, firm)
         (λ d, d <| t_reports ::= insert (id, firm) (mkReportRow r (digest_report r) t) |>))
      (λ _, raise StoreError "A sealed report cannot be replaced") ;;
    audit (Some id) "FIRM_REPORT_SEALED" [("firm", JStr (firm_name firm))]).

Definition lock_first_pass (h : Handle) (id : string) : M World () :=
  transaction (
    j ← owned_job h id;
    frozen ← select (λ d, frozen_snapshot d j);
    required ← match frozen with
               | Some s => checked ← lift (validate_snapshot s);
                           mret (snapshot_required_firms checked)
               | None => mret FIRST_PASS_FIRMS
               end;
    firms ← select (λ d, sealed_firms d id);
    raise_if (negb (bool_decide (j_status j = FIRST_PASS_RESEARCH)) || negb (is_set frozen) ||
              negb (same_set firms required)) BarrierNotLocked
      "All configured independent reports must be persisted before locking" ;;
    t1 ← now_utc;
    t2 ← now_utc;
    put_job id (j <| j_status := FIRST_PASS_LOCKED |> <| j_current_stage := FIRST_PASS_LOCKED |>
                  <| j_locked_at := Some t1 |> <| j_updated_at := t2 |>) ;;
    audit (Some id) "FIRST_PASS_LOCKED" []).

Definition get_reports (h : Handle) (id : string) : M World (list (Firm * FirmReport)) :=
  view ← get_job h id;
  expect view StoreError "Research job does not exist" ;;
  locked ← select (λ d, t_jobs d !! id ≫= j_locked_at);
  raise_if (negb (is_set locked)) BarrierNotLocked "First-pass reports remain sealed" ;;
  select (λ d, map (λ fr, (fr.1, re_payload fr.2)) (report_rows d id)).

Inductive ReportDisclosure := Sealed | Pending | Disclosed (r : FirmReport).
Record PublicReports := mkPublicReports {
  pr_locked : bool;
  pr_reports : list (Firm * ReportDisclosure);
  pr_artifacts : list (string * ArtifactValue)
}.
(** [sorted(required)] *)
Definition sorted_firms (l : list Firm) : list Firm :=
  List.filter (λ f, mem f l) [ai_hedge_fund; qlib; tradingagents].
Definition public_reports (h : Handle) (id : string) : M World PublicReports :=
  view ← get_job h id;
  expect view StoreError "Research job does not exist" ;;
  frozen ← select (λ d, snapshot_of_job d id);
  raise_if (match frozen with
            | Some s => bool_decide (rs_usage_mode s = PERSONAL_RESEARCH) | None => false end)
    StoreError "Personal research cannot export reports through the public API" ;;
  required ← match frozen with
             | Some s => checked ← lift (validate_snapshot s);
                         mret (snapshot_required_firms checked)
             | None => mret FIRST_PASS_FIRMS
             end;
  locked ← select (λ d, is_set (t_jobs d !! id ≫= j_locked_at));
  firms ← select (λ d, sealed_firms d id);
  extras ← select (λ d, artifact_rows d id);
  if (locked : bool) then
    reports ← get_reports h id;
    mret (mkPublicReports true (map (λ fr, (fr.1, Disclosed fr.2)) reports) extras)
  else
    mret (mkPublicReports false
      (map (λ f, (f, if mem f firms then Sealed else Pending)) (sorted_firms required)) extras).

Definition get_evidence (h : Handle) (id : string)
    : M World (option ResearchSnapshot * list EvidenceRecord) :=
  view ← get_job h id;
  expect view StoreError "Research job does not exist" ;;
  frozen ← select (λ d, snapshot_of_job d id);
  raise_if (match frozen with
            | Some s => bool_decide (rs_usage_mode s = PERSONAL_RESEARCH) | None => false end)
    StoreError "Personal research cannot redistribute raw evidence through the API" ;;
  items ← select (λ d, map er_payload
    (List.filter (λ r, bool_decide (er_job r = id)) (rows (t_evidence d))));
  mret (frozen, items).

(** ** Artifacts *)
Definition correspondence_call (kind : string) : bool :=
  String.prefix "cross_call_" kind && hex_of_length 24 (String.substring 11 (String.length kind) kind).
Definition ARTIFACT_KINDS : list string :=
  ["eligibility"; "discovery"; "lean"; "audit"; "red_team"; "independence"; "cross_examination";
   "consensus"; "token_usage"; "market_quality"; "compute_budget"; "source_manifest";
   "universe_context"; "cio_runtime"; "signal_design"].
Definition EARLY_KINDS : list string :=
  ["eligibility"; "discovery"; "token_usage"; "market_quality"; "compute_budget";
   "source_manifest"; "universe_context"].
(** [value.get("completed")] of a stored audit *)
Definition audit_completed (v : option ArtifactValue) : bool :=
  match v with
  | Some (ArtAudit a) => ci_completed a
  | Some (ArtJson o) => jtruthy (jget o "completed")
  | _ => false
  end.
Definition put_artifact (id kind : string) (v : ArtifactValue) : M World () :=
  t ← now_utc;
  insert_unique t_artifacts (id, kind)
    (λ d, d <| t_artifacts ::= insert (id, kind) (mkArtifactRow v t) |>).
Definition put_record (kind id : string) (v : ArtifactValue) : M World () :=
  t ← now_utc;
  let row := mkRecordRow id v t in
  execute (λ d,
    if bool_decide (kind = "eligibility") then d <| t_eligibility ::= λ l, l ++ [row] |>
    else if bool_decide (kind = "discovery") then d <| t_discoveries ::= λ l, l ++ [row] |>
    else d <| t_token_usage ::= λ l, l ++ [row] |>).

Definition save_artifact (h : Handle) (id kind : string) (value : ArtifactValue) : M World () :=
  raise_if (negb (correspondence_call kind) && negb (mem kind ARTIFACT_KINDS)) StoreError
    "Unknown research artifact" ;;
  transaction (
    j ← owned_job h id;
    raise_if (bool_decide (kind = "universe_context") &&
              (is_set (j_locked_at j) || negb (bool_decide (j_status j = SNAPSHOT_BUILD))))
      StoreError "Universe context must be frozen before first-pass research" ;;
    raise_if (negb (mem kind EARLY_KINDS) && negb (is_set (j_locked_at j))) BarrierNotLocked
      "Downstream artifacts require locked first-pass reports" ;;
    (if bool_decide (kind = "cross_examination") || correspondence_call kind then
       checked ← (if correspondence_call kind then mret None else
                  match value with
                  | ArtCross c => c' ← lift (validate_cross c); mret (Some c')
                  | _ => raise ValueError "ValidationError"
                  end);
       lean ← select (λ d, artifact d id "lean");
       prior ← select (λ d, artifact d id "audit");
       raise_if (negb (bool_decide (j_status j = CROSS_EXAMINATION)) || negb (is_set lean) ||
                 negb (audit_completed prior) ||
                 match checked with
                 | Some c => negb (bool_decide (Some (cx_snapshot_id c) = j_snapshot_id j))
                 | None => false
                 end) StoreError
         "Cross-examination requires completed validation and initial CIO audit"
     else mret ()) ;;
    put_artifact id kind value ;;
    if mem kind ["eligibility"; "discovery"; "token_usage"] then put_record kind id value
    else mret ()).

Definition save_cio_artifacts (h : Handle) (id : string) (a : CIOAuditReport) (r : RedTeamReport)
    (runtime : option ArtifactValue) : M World () :=
  transaction (
    j ← owned_job h id;
    raise_if (negb (is_set (j_locked_at j)) || negb (bool_decide (j_status j = CREWAI_AUDIT)))
      BarrierNotLocked "CIO artifacts require the audit stage after first-pass lock" ;;
    raise_if (negb (bool_decide (Some (ci_snapshot_id a) = j_snapshot_id j))) StoreError
      "CIO audit differs from the frozen snapshot" ;;
    for_each ([("audit", ArtAudit a); ("red_team", ArtRedTeam r)] ++
              match runtime with Some v => [("cio_runtime", v)] | None => [] end)
      (λ kv, put_artifact id kv.1 kv.2) ;;
    audit (Some id) "CIO_ARTIFACTS_SEALED" []).

Definition fail_job (h : Handle) (id code message : string) : M World () :=
  transaction (
    j ← owned_job h id;
    t1 ← now_utc;
    t2 ← now_utc;
    put_job id (j <| j_status := FAILED |> <| j_current_stage := FAILED |>
      <| j_error_code := Some (String.substring 0 80 code) |>
      <| j_error_message := Some (String.substring 0 512 message) |>
      <| j_completed_at := Some t1 |> <| j_updated_at := t2 |> <| j_lease_token := None |>
      <| j_lease_until := None |>) ;;
    audit (Some id) "JOB_FAILED" [("error_code", JStr (String.substring 0 80 code))]).

(** ** Health, listings and invalidation *)
Definition heartbeat (worker mode : string) (healthy : bool) : M World () :=
  transaction (
    exists_ ← select (λ d, is_set (t_health d !! worker) && truthy worker);
    t ← now_utc;
    let row := mkHealth healthy mode t in
    if (exists_ : bool) then execute (λ d, d <| t_health ::= insert worker row |>)
    else insert_unique t_health worker (λ d, d <| t_health ::= insert worker row |>)).

Record HealthReport := mkHealthReport { hr_ready : bool; hr_mode : string }.
Definition health (mode : string) : M World HealthReport :=
  t ← now_utc;
  active ← select (λ d, count_by (λ r, (t - seconds 90 <=? he_updated_at r) && he_healthy r &&
                                       bool_decide (he_mode r = mode)) (rows (t_health d)));
  mret (mkHealthReport (negb (active =? 0)) mode).

(** The state shown for a job with a stored signal. *)
Definition shown_state (raw : ResearchSignal) (inval : option Z) : M World ResearchState :=
  g ← lift (validate_signal raw);
  t ← now_utc;
  mret (if is_set inval then EXPIRED else effective_state g t).

Definition list_jobs (h : Handle) (limit : Z) : M World (list JobView) :=
  transaction (expire_leases h None) ;;
  t ← now_utc;
  rows_ ← select (λ d, take (Z.to_nat (Z.min (Z.max limit 1) 100))
    (sort_desc (λ ij, j_created_at ij.2)
       (List.filter (λ ij, workspace_filter h ij.2) (map_to_list (t_jobs d)))));
  map_m (λ ij : string * Job,
    packet ← select (λ d, pk_payload <$> t_packets d !! ij.1);
    stored ← select (λ d, si_payload <$> t_signals d !! ij.1);
    inval ← select (λ d, invalidated_at d ij.1 t);
    let base := match packet with Some p => packet_final_state p | None => JNull end in
    match stored with
    | None => mret (mkView ij.1 (public ij.2) None base inval)
    | Some raw =>
        st ← shown_state raw inval;
        mret (mkView ij.1 (public ij.2) None (JStr (state_name st)) inval)
    end) rows_.

(** [list_signals]: at most one hundred signals on one side of expiry. *)
Fixpoint collect_signals (expired : bool) (room : nat) (l : list (string * SignalRow))
    (inval : string → option Z) : M World (list (string * SignalRow * ResearchState)) :=
  match l, room with
  | _, O => mret []
  | [], _ => mret []
  | (id, row) :: l', S room' =>
      st ← shown_state (si_payload row) (inval id);
      if Bool.eqb (bool_decide (st = EXPIRED)) expired then
        rest ← collect_signals expired room' l' inval;
        mret ((id, row, st) :: rest)
      else collect_signals expired room l' inval
  end.
Definition list_signals (h : Handle) (expired : bool)
    : M World (list (string * SignalRow * ResearchState)) :=
  t ← now_utc;
  rows_ ← select (λ d, sort_desc (λ ir, si_created_at ir.2)
    (List.filter (λ ir, match t_jobs d !! ir.1 with
                        | Some j => workspace_filter h j | None => false end)
       (map_to_list (t_signals d))));
  inval ← select (λ d id, invalidated_at d id t);
  collect_signals expired 100 rows_ inval.

(** [list_outcomes], [list_discovery] and [list_universe] share this query. *)
Definition list_records (h : Handle) (table : DB → list RecordRow) : M World (list RecordRow) :=
  select (λ d, take 100 (sort_desc rc_created_at
    (List.filter (λ r, match t_jobs d !! rc_job r with
                       | Some j => workspace_filter h j | None => false end) (table d)))).
Definition list_discovery (h : Handle) : M World (list RecordRow) := list_records h t_discoveries.
Definition list_universe (h : Handle) : M World (list RecordRow) := list_records h t_eligibility.

Definition put_alert (job workspace event key message : string) (created delivered : Z)
    : M World () :=
  let alert_id := digest_alert job event key web in
  insert_unique t_outbox alert_id
    (λ d, d <| t_outbox ::= insert alert_id
       (mkOutbox job workspace web DELIVERED 0 event message None None created
          (Some delivered)) |>).

Definition invalidate_signal (h : Handle) (id reason : string) (evidence : EvidenceRecord)
    : M World () :=
  raise_if (negb (mem reason ["PRICE"; "FUNDAMENTAL"; "EVENT"; "ELIGIBILITY"; "ETHICAL";
                              "DATA_QUALITY"]))
    StoreError "Unknown signal invalidation reason" ;;
  proof ← lift (validate_evidence evidence);
  stamp ← now_utc;
  raise_if (negb (available_at proof stamp) || (ev_fresh_until proof <=? stamp) ||
            ev_conflicting proof)
    StoreError "Signal invalidation requires fresh verified evidence" ;;
  transaction (
    job ← select (λ d, j ← t_jobs d !! id; if workspace_filter h j then Some j else None);
    signal ← select (λ d, t_signals d !! id);
    match job, signal with
    | Some j, Some _ =>
        existing ← select (λ d, existsb (λ e, bool_decide (ae_job e = Some id) &&
          bool_decide (ae_event e = "SIGNAL_INVALIDATED") &&
          is_str (jget (ae_payload e) "evidence_hash") (ev_hash proof)) (t_audit d));
        if (existing : bool) then mret () else
        audit (Some id) "SIGNAL_INVALIDATED"
          [("reason", JStr reason); ("evidence_hash", JStr (ev_hash proof));
           ("evidence", JEvidence proof); ("invalidated_at", JInt stamp)] ;;
        put_alert id (j_workspace_id j) "MATERIAL_INVALIDATION" (ev_hash proof)
          "New evidence has invalidated a research assumption." stamp stamp
    | _, _ => raise StoreError "An accessible published signal is required"
    end).

(** ** Rate limits and sessions *)
Record RateDecision := mkDecision { rd_allowed : bool; rd_retry_after : Z }.
Definition consume_rate_limit (h : Handle) (key : string) (limit window_seconds : Z)
    : M World RateDecision :=
  let bucket := workspace_or_private h +:+ ":" +:+ key in
  stamp ← now_utc;
  let fresh := mkRateLimit stamp 1 in
  transaction (
    row ← select (λ d, t_rate_limits d !! bucket);
    match row with
    | None =>
        insert_unique t_rate_limits bucket (λ d, d <| t_rate_limits ::= insert bucket fresh |>) ;;
        mret (mkDecision true 0)
    | Some r =>
        let elapsed := stamp - rl_window_started_at r in
        if seconds window_seconds <=? elapsed then
          execute (λ d, d <| t_rate_limits ::= insert bucket fresh |>) ;;
          mret (mkDecision true 0)
        else
          let allowed := rl_count r <? limit in
          (if allowed then
             execute (λ d, d <| t_rate_limits ::=
                                  insert bucket (r <| rl_count := rl_count r + 1 |>) |>)
           else mret ()) ;;
          mret (mkDecision allowed
                  (if allowed then 0
                   else Z.max 1 ((seconds window_seconds - elapsed) / seconds 1 + 1)))
    end).

Definition create_session (h : Handle) (token_hash credential_version : string) (expires_at : Z)
    : M World () :=
  stamp ← now_utc;
  raise_if (negb ((stamp <? expires_at) && (expires_at <=? stamp + hours 8 + seconds 5)))
    StoreError "Session expiry exceeds policy" ;;
  transaction (
    insert_unique t_sessions token_hash
      (λ d, d <| t_sessions ::= insert token_hash
         (mkSession (workspace_or_private h) credential_version stamp expires_at None) |>) ;;
    audit None "SESSION_CREATED" [("workspace", JStr (workspace_or_private h))]).

Definition session_matches (h : Handle) (credential_version : string) (s : SessionRow) : bool :=
  bool_decide (se_workspace_id s = workspace_or_private h) &&
  bool_decide (se_credential_version s = credential_version) && negb (is_set (se_revoked_at s)).
Definition session_valid (h : Handle) (token_hash credential_version : string) : M World bool :=
  t ← now_utc;
  select (λ d, match t_sessions d !! token_hash with
               | Some s => session_matches h credential_version s && (t <? se_expires_at s)
               | None => false
               end).
Definition revoke_session (h : Handle) (token_hash credential_version : string) : M World () :=
  transaction (
    t ← now_utc;
    execute (λ d, match t_sessions d !! token_hash with
                  | Some s => if session_matches h credential_version s
                              then d <| t_sessions ::= insert token_hash
                                          (s <| se_revoked_at := Some t |>) |>
                              else d
                  | None => d
                  end) ;;
    audit None "SESSION_REVOKED" [("workspace", JStr (workspace_or_private h))]).
End store.
