(* ===== verification/Complete.v ===== *)
(** * Publication ([ResearchStore.complete_job])

    The final persistence boundary: the packet must match every sealed row, and
    the gates are recomputed so that a caller cannot publish a positive state
    by bypassing the flow. *)

From S2P Require Import Prelude Effects PyNum PyText Contracts Demo Eligibility Governance.
From S2P Require Import Market Signals CrossExam Universe Schema Store.
#[local] Open Scope Z_scope.

(** Pydantic equality of two designs: decimals compare by value. *)
Definition same_opt {A} (eq : A → A → bool) (x y : option A) : bool :=
  match x, y with Some a, Some b => eq a b | None, None => true | _, _ => false end.
Fixpoint same_list {A} (eq : A → A → bool) (x y : list A) : bool :=
  match x, y with
  | [], [] => true
  | a :: x', b :: y' => eq a b && same_list eq x' y'
  | _, _ => false
  end.
Definition same_signal (a b : ResearchSignal) : bool :=
  bool_decide (sg_research_id a = sg_research_id b) && bool_decide (sg_ticker a = sg_ticker b) &&
  bool_decide (sg_state a = sg_state b) && (sg_issued_at a =? sg_issued_at b) &&
  (sg_valid_until a =? sg_valid_until b) && dec_eq (sg_entry_low a) (sg_entry_low b) &&
  dec_eq (sg_entry_high a) (sg_entry_high b) &&
  bool_decide (sg_quote_currency a = sg_quote_currency b) &&
  bool_decide (sg_invalidation_conditions a = sg_invalidation_conditions b) &&
  bool_decide (sg_event_invalidators a = sg_event_invalidators b) &&
  same_list dec_eq (sg_potential_targets a) (sg_potential_targets b) &&
  dec_eq (sg_assumed_capital_gbp a) (sg_assumed_capital_gbp b) &&
  dec_eq (sg_illustrative_allocation_gbp a) (sg_illustrative_allocation_gbp b) &&
  dec_eq (sg_modelled_downside_gbp a) (sg_modelled_downside_gbp b) &&
  (sg_horizon_days a =? sg_horizon_days b) &&
  bool_decide (sg_calibrated_confidence a = sg_calibrated_confidence b) &&
  bool_decide (sg_invalidated_at a = sg_invalidated_at b).
Definition same_policy (a b : SignalPolicy) : bool :=
  bool_decide (sp_version a = sp_version b) &&
  dec_eq (sp_maximum_allocation_gbp a) (sp_maximum_allocation_gbp b) &&
  dec_eq (sp_maximum_downside_gbp a) (sp_maximum_downside_gbp b) &&
  dec_eq (sp_maximum_downside_fraction a) (sp_maximum_downside_fraction b) &&
  dec_eq (sp_entry_half_width_atr a) (sp_entry_half_width_atr b) &&
  dec_eq (sp_invalidation_atr a) (sp_invalidation_atr b) &&
  dec_eq (sp_target_atr a) (sp_target_atr b) &&
  dec_eq (sp_minimum_risk_reward a) (sp_minimum_risk_reward b) &&
  (sp_horizon_days a =? sp_horizon_days b) && bool_decide (sp_rationale a = sp_rationale b).
Definition same_quality (a b : MarketQuality) : bool :=
  bool_decide (mq_policy_version a = mq_policy_version b) &&
  Bool.eqb (mq_passed a) (mq_passed b) && bool_decide (mq_reasons a = mq_reasons b) &&
  (mq_observations a =? mq_observations b) &&
  same_opt dec_eq (mq_average_daily_value_gbp a) (mq_average_daily_value_gbp b) &&
  same_opt dec_eq (mq_median_daily_volume a) (mq_median_daily_volume b) &&
  same_opt dec_eq (mq_spread_bps a) (mq_spread_bps b) &&
  bool_decide (mq_adjustment_basis a = mq_adjustment_basis b).
Definition same_applicability (a b : CostApplicability) : bool :=
  bool_decide (co_sdrt a = co_sdrt b) &&
  bool_decide (co_evidence_source a = co_evidence_source b) &&
  bool_decide (co_exemption_reason a = co_exemption_reason b) &&
  same_opt dec_eq (co_broker_round_trip_fee_gbp a) (co_broker_round_trip_fee_gbp b) &&
  bool_decide (co_broker_fee_source a = co_broker_fee_source b) &&
  same_opt dec_eq (co_other_round_trip_charges_gbp a) (co_other_round_trip_charges_gbp b) &&
  bool_decide (co_other_charge_source a = co_other_charge_source b).
Definition same_costs (a b : ResearchCostEstimate) : bool :=
  bool_decide (ce_version a = ce_version b) && dec_eq (ce_notional_gbp a) (ce_notional_gbp b) &&
  dec_eq (ce_spread_bps a) (ce_spread_bps b) &&
  dec_eq (ce_slippage_per_side_bps a) (ce_slippage_per_side_bps b) &&
  dec_eq (ce_tax_gbp a) (ce_tax_gbp b) && dec_eq (ce_market_levy_gbp a) (ce_market_levy_gbp b) &&
  dec_eq (ce_total_round_trip_gbp a) (ce_total_round_trip_gbp b) &&
  dec_eq (ce_total_round_trip_bps a) (ce_total_round_trip_bps b) &&
  bool_decide (ce_assumptions a = ce_assumptions b) && bool_decide (ce_sources a = ce_sources b).
Definition same_design (a b : SignalDesign) : bool :=
  bool_decide (sd_policy_version a = sd_policy_version b) &&
  same_opt same_policy (sd_policy a) (sd_policy b) &&
  same_opt same_quality (sd_market_quality a) (sd_market_quality b) &&
  same_opt same_applicability (sd_cost_applicability a) (sd_cost_applicability b) &&
  bool_decide (sd_designed_at a = sd_designed_at b) &&
  same_opt same_signal (sd_signal a) (sd_signal b) && bool_decide (sd_reasons a = sd_reasons b) &&
  same_opt dec_eq (sd_current_raw a) (sd_current_raw b) &&
  bool_decide (sd_current_currency a = sd_current_currency b) &&
  same_opt dec_eq (sd_current_gbp a) (sd_current_gbp b) &&
  same_opt dec_eq (sd_entry_low_gbp a) (sd_entry_low_gbp b) &&
  same_opt dec_eq (sd_entry_high_gbp a) (sd_entry_high_gbp b) &&
  same_opt dec_eq (sd_invalidation_gbp a) (sd_invalidation_gbp b) &&
  same_list dec_eq (sd_targets_gbp a) (sd_targets_gbp b) &&
  same_opt dec_eq (sd_atr_gbp a) (sd_atr_gbp b) && same_opt same_costs (sd_costs a) (sd_costs b) &&
  same_opt dec_eq (sd_risk_reward a) (sd_risk_reward b) &&
  bool_decide (sd_evidence_ids a = sd_evidence_ids b) &&
  bool_decide (sd_limitations a = sd_limitations b).

(** [{item["firm"]: item for item in reports}] *)
Definition reports_by_firm (l : list FirmReport) : gmap Firm FirmReport :=
  foldl (λ m r, <[fr_firm r := r]> m) ∅ l.
Definition stored_reports (d : DB) (id : string) : gmap Firm FirmReport :=
  list_to_map (map (λ fr, (fr.1, re_payload fr.2)) (report_rows d id)).

(** A packet document read by [complete_job] when the status is REJECTED. *)
Definition packet_research_id (p : PacketValue) : json :=
  match p with PacketDoc d => JStr (dp_research_id d) | RejectionDoc o => jget o "research_id" end.
(** [data.get("signal")]: the issued signal, or a truthy foreign value. *)
Definition packet_signal (p : PacketValue) : option ResearchSignal + bool :=
  match p with
  | PacketDoc d => inl (dp_signal d)
  | RejectionDoc o => inr (jtruthy (jget o "signal"))
  end.
Definition has_signal (p : PacketValue) : bool :=
  match packet_signal p with inl g => is_set g | inr b => b end.

Section complete.
Context `{ContentHash, Pydantic, PolicyHash, TaLib, SignalPolicyHash, CrossHash, UniverseHash}.
Context `{Env, Digests}.

(** [SignalDesign.model_validate] *)
Definition validate_design (d : SignalDesign) : Res SignalDesign :=
  match sd_policy d with Some p => validate_signal_policy p ;; mret () | None => mret () end ;;
  match sd_cost_applicability d with
  | Some a => validate_applicability a ;; mret () | None => mret () end ;;
  match sd_signal d with Some g => validate_signal g ;; mret () | None => mret () end ;;
  mret d.

(** The packet against the sealed rows of the job; returns the frozen snapshot. *)
Definition check_sealed (id : string) (j : Job) (p : DecisionPacket) : M World ResearchSnapshot :=
  raise_if (negb (bool_decide (j_status j = CONSENSUS)) ||
            negb (bool_decide (dp_research_id p = id))) StoreError
    "Completed research requires consensus and matching job identity" ;;
  stored ← select (λ d, stored_reports d id);
  raise_if (negb (bool_decide (reports_by_firm (dp_reports p) = stored))) StoreError
    "Decision packet reports differ from the sealed reports" ;;
  mandate ← select (λ d, t_mandates d !! j_mandate_id j);
  raise_if (negb (bool_decide (Some (dp_mandate p) = mandate))) StoreError
    "Decision packet mandate differs from the immutable job mandate" ;;
  found ← select (λ d, frozen_snapshot d j);
  frozen ← expect found StoreError "Decision packet evidence differs from the frozen snapshot";
  raise_if (negb (bool_decide (Some (dp_snapshot_id p) = j_snapshot_id j)) ||
            negb (bool_decide (dp_snapshot_hash p = rs_hash frozen)) ||
            negb (bool_decide (dp_sources p = rs_evidence frozen)) ||
            negb (bool_decide (dp_eligibility p = rs_instrument frozen)) ||
            negb (bool_decide (ca_ticker (dp_candidate p) = j_ticker j))) StoreError
    "Decision packet evidence differs from the frozen snapshot" ;;
  lean ← select (λ d, artifact d id "lean");
  audit_ ← select (λ d, artifact d id "audit");
  red ← select (λ d, artifact d id "red_team");
  ind ← select (λ d, artifact d id "independence");
  raise_if (negb (match lean with Some (ArtLean l) => bool_decide (l = dp_lean p) | _ => false end) ||
            negb (match audit_ with Some (ArtAudit a) => bool_decide (a = dp_audit p) | _ => false end) ||
            negb (match red with
                  | Some (ArtRedTeam r) => bool_decide (r = dp_red_team p) | _ => false end) ||
            negb (match ind with
                  | Some (ArtIndependence i) => bool_decide (i = dp_independence p)
                  | _ => false end)) StoreError
    "Decision packet validation differs from persisted audit evidence" ;;
  mret frozen.

(** The stored cross-examination against the packet; returns its disagreement. *)
Definition check_cross (id : string) (s : ResearchSnapshot) (p : DecisionPacket) : M World bool :=
  stored ← select (λ d, artifact d id "cross_examination");
  match stored with
  | Some v =>
      c ← match v with
          | ArtCross x => lift (validate_cross x)
          | _ => raise ValueError "ValidationError"
          end;
      raise_if (negb (bool_decide (cx_snapshot_id c = rs_snapshot_id s)) ||
                negb (bool_decide (cx_snapshot_hash c = rs_hash s)) ||
                negb (Bool.eqb (cx_qlib_enabled c) (rs_qlib_enabled s)) ||
                negb (bool_decide (length (cx_report_hashes c) =
                                   length (snapshot_required_firms s))) ||
                negb (bool_decide ((list_to_map (reverse (cx_report_hashes c)) : gmap Firm string) =
                                   hash_report <$> reports_by_firm (dp_reports p))) ||
                negb (bool_decide (cx_lean_hash c = hash_lean (dp_lean p))) ||
                negb (bool_decide (cx_initial_audit_hash c = hash_audit (dp_audit p))) ||
                negb (Z.of_nat (length (cx_rounds c)) =? dp_cross_examination_rounds p) ||
                negb (bool_decide (Some (cx_hash c) = dp_cross_examination_hash p)) ||
                negb ((rs_created_at s <=? cx_issued_at c) && (cx_issued_at c <=? dp_issued_at p)))
        StoreError "Cross-examination differs from sealed research evidence" ;;
      mret (cx_material_disagreement c)
  | None =>
      raise_if (negb (dp_cross_examination_rounds p =? 0) ||
                truthy_opt (dp_cross_examination_hash p)) StoreError
        "Cross-examination rounds require a persisted immutable artifact" ;;
      mret false
  end.

(** The stored signal design against the packet: the state and reasons it may
    carry, given what consensus calculated. *)
Definition check_design (id : string) (s : ResearchSnapshot) (p : DecisionPacket)
    (state : ResearchState) (reasons : list string) : M World (ResearchState * list string) :=
  stored ← select (λ d, artifact d id "signal_design");
  match stored with
  | Some v =>
      design ← match v with
               | ArtDesign x => lift (validate_design x)
               | _ => raise ValueError "ValidationError"
               end;
      match sd_signal design with
      | Some g =>
          t ← now_utc;
          match sd_policy design, sd_market_quality design, sd_cost_applicability design,
                sd_designed_at design with
          | Some policy, Some quality, Some costs, Some designed =>
              raise_if ((dp_issued_at p <? designed) || (sg_valid_until g <=? t)) StoreError
                "Signal design lacks reproducible current inputs" ;;
              again ← lift (generate_signal id (dp_mandate p) s (dp_reports p) (dp_lean p)
                              (dp_audit p) (dp_red_team p) state designed quality costs
                              (Some policy) (dp_cross_examination_rounds p));
              raise_if (negb (same_design again design) ||
                        negb (same_opt same_signal (dp_signal p) (sd_signal design))) StoreError
                "Published signal differs from its deterministic sealed design" ;;
              mret (state, reasons)
          | _, _, _, _ => raise StoreError "Signal design lacks reproducible current inputs"
          end
      | None =>
          raise_if (is_set (dp_signal p)) StoreError
            "Signal cannot bypass the sealed unavailable design" ;;
          if mem state [RESEARCH_CANDIDATE; WATCH] then
            raise_if (bool_decide (sd_reasons design = []) ||
                      negb (subset_of (sd_reasons design) DOWNGRADE_REASONS)) StoreError
              "Signal design downgrade reasons are invalid" ;;
            mret (INSUFFICIENT_EVIDENCE, sd_reasons design)
          else mret (state, reasons)
      end
  | None =>
      raise_if (is_set (dp_signal p)) StoreError
        "Published signal requires a sealed deterministic design" ;;
      mret (state, reasons)
  end.

(** Everything [complete_job] verifies before a COMPLETE packet is stored. *)
Definition check_complete (id : string) (j : Job) (p : DecisionPacket) : M World () :=
  frozen ← check_sealed id j p;
  s ← lift (validate_snapshot frozen);
  raise_if (bool_decide (rs_usage_mode s = PERSONAL_RESEARCH)) StoreError
    "Personal research cannot publish commercial decision packets or raw sources" ;;
  context ← select (λ d, artifact d id "universe_context");
  verify_universe_context s context ;;
  independence ← lift (evidence_independence s (dp_reports p));
  raise_if (negb (bool_decide (independence = dp_independence p))) StoreError
    "Decision packet evidence independence was not derived from its sources" ;;
  disagreement ← check_cross id s p;
  t ← now_utc;
  calculated ← lift (consensus (dp_mandate p) s (dp_reports p) (dp_lean p) (dp_audit p)
                       (dp_red_team p) independence t (dp_cross_examination_rounds p)
                       disagreement);
  final ← check_design id s p calculated.1 calculated.2;
  raise_if (negb (bool_decide ((dp_final_state p, dp_reasons p) = final))) StoreError
    "Decision packet bypasses deterministic consensus gates".

(** Storing the packet, its signal, the terminal status and the web alert. *)
Definition publish (id : string) (j : Job) (status : JobStatus) (data : PacketValue)
    : M World () :=
  t ← now_utc;
  insert_unique t_packets id
    (λ d, d <| t_packets ::= insert id (mkPacketRow data (digest_packet data) t) |>) ;;
  match packet_signal data with
  | inl (Some g) =>
      t ← now_utc;
      insert_unique t_signals id
        (λ d, d <| t_signals ::= insert id (mkSignalRow g (sg_valid_until g) t) |>)
  | _ => mret ()
  end ;;
  t1 ← now_utc;
  t2 ← now_utc;
  put_job id (j <| j_status := status |> <| j_current_stage := status |>
    <| j_completed_at := Some t1 |> <| j_updated_at := t2 |> <| j_lease_token := None |>
    <| j_lease_until := None |>) ;;
  audit (Some id) "DECISION_PERSISTED" [("final_state", packet_final_state data)] ;;
  t3 ← now_utc;
  t4 ← now_utc;
  put_alert id (j_workspace_id j) "RESEARCH_COMPLETED" "decision"
    "Research is complete and available for human review." t3 t4.

Definition complete_job (h : Handle) (id : string) (packet : PacketValue) (state : string)
    : M World () :=
  if bool_decide (state = "COMPLETE") then
    p ← match packet with
        | PacketDoc raw => lift (validate_packet raw)
        | RejectionDoc _ => raise ValueError "ValidationError"
        end;
    transaction (
      j ← owned_job h id;
      raise_if (negb (bool_decide (j_research_kind j = standard))) StoreError
        "Personal R&D cannot publish commercial decision packets" ;;
      raise_if (negb (is_set (j_locked_at j))) BarrierNotLocked
        "Completed research requires locked reports" ;;
      check_complete id j p ;;
      raise_if (has_signal (PacketDoc p) && negb (bool_decide (j_status j = CONSENSUS)))
        StoreError "Signals can only be published after consensus" ;;
      publish id j COMPLETE (PacketDoc p))
  else if bool_decide (state = "REJECTED") then
    transaction (
      j ← owned_job h id;
      raise_if (negb (bool_decide (j_research_kind j = standard))) StoreError
        "Personal R&D cannot publish commercial decision packets" ;;
      raise_if (negb (is_str (packet_research_id packet) id) ||
                negb (is_str (packet_final_state packet) "REJECT")) StoreError
        "Rejected packets require the job identity and REJECT state" ;;
      raise_if (has_signal packet) StoreError "Signals can only be published after consensus" ;;
      publish id j REJECTED packet)
  else raise StoreError "Invalid completion status".
End complete.
