(* ===== verification/StoreLogic.v ===== *)
(** * Reasoning about database operations

    [wpd m Q E d] is the weakest precondition of [m] on the database alone: it
    holds whatever the clock, identifiers and locks return. [Reads m] says that
    an operation never writes. *)

From S2P Require Import Prelude Effects PyNum PyText Contracts Demo Eligibility Governance.
From S2P Require Import Market Signals CrossExam Universe Schema Store.
#[local] Open Scope Z_scope.

Definition wpd {A} (m : M World A) (Q : A → DB → Prop) (E : exn → DB → Prop) (d : DB) : Prop :=
  ∀ k, wp m (λ a w, Q a (w_db w)) (λ e w, E e (w_db w)) (mkWorld d k).

Section rules.
Context `{Env}.
Implicit Types E : exn → DB → Prop.

Lemma wpd_ret {A} (a : A) Q E d : Q a d → wpd (mret a) Q E d.
Proof. by intros HQ k. Qed.
Lemma wpd_bind {A B} (m : M World A) (f : A → M World B) Q E d :
  wpd m (λ a d', wpd (f a) Q E d') E d → wpd (m ≫= f) Q E d.
Proof.
  intros Hm k. apply wp_bind. eapply wp_mono; [apply (Hm k)| |done].
  intros a [d' k'] Hf. apply Hf.
Qed.
Lemma wpd_raise {A} c msg Q E d : E (Exn c msg) d → wpd (A := A) (raise c msg) Q E d.
Proof. by intros HE k. Qed.
Lemma wpd_raise_if b c msg Q E d :
  (b = true → E (Exn c msg) d) → (b = false → Q () d) → wpd (raise_if b c msg) Q E d.
Proof. intros HE HQ k. apply wp_raise_if; auto. Qed.
Lemma wpd_select {A} (f : DB → A) Q E d : Q (f d) d → wpd (select f) Q E d.
Proof. by intros HQ k. Qed.
Lemma wpd_execute (f : DB → DB) Q E d : Q () (f d) → wpd (execute f) Q E d.
Proof. by intros HQ k. Qed.
Lemma wpd_lift {A} (r : Res A) Q E d :
  (∀ a, r = inr a → Q a d) → (∀ e, r = inl e → E e d) → wpd (lift r) Q E d.
Proof. intros HQ HE k. apply wp_lift; auto. Qed.
Lemma wpd_expect {A} (o : option A) c msg Q E d :
  (∀ a, o = Some a → Q a d) → (o = None → E (Exn c msg) d) → wpd (expect o c msg) Q E d.
Proof. intros HQ HE k. apply wp_expect; auto. Qed.
Lemma wpd_now Q E d : (∀ t, Q t d) → wpd now_utc Q E d.
Proof. intros HQ k. apply HQ. Qed.
Lemma wpd_monotonic (Q : spec_float → DB → Prop) E d : (∀ t, Q t d) → wpd monotonic Q E d.
Proof. intros HQ k. apply HQ. Qed.
Lemma wpd_uuid Q E d : (∀ s, Q s d) → wpd uuid4 Q E d.
Proof. intros HQ k. apply HQ. Qed.
Lemma wpd_rand Q E d : (∀ r : Z, 0 ≤ r < 1000 → Q r d) → wpd randbelow_1000 Q E d.
Proof. intros HQ k. apply HQ. simpl. apply Z.mod_pos_bound. lia. Qed.
Lemma wpd_skip_locked (Q : (string → bool) → DB → Prop) E d : (∀ f : string → bool, Q f d) → wpd skip_locked Q E d.
Proof. intros HQ k. apply HQ. Qed.
Lemma wpd_mono {A} (m : M World A) Q Q' E E' d :
  wpd m Q E d → (∀ a d', Q a d' → Q' a d') → (∀ e d', E e d' → E' e d') → wpd m Q' E' d.
Proof. intros Hm HQ HE k. eapply wp_mono; [apply (Hm k)|auto..]. Qed.
Lemma wpd_catch {A} (p : exn → bool) (m : M World A) (f : exn → M World A) Q E d :
  wpd m Q (λ e d', if p e then wpd (f e) Q E d' else E e d') d → wpd (catch p m f) Q E d.
Proof.
  intros Hm k. apply wp_catch. eapply wp_mono; [apply (Hm k)|done|].
  intros e [d' k'] He. simpl in *. destruct (p e); [apply He|done].
Qed.
Lemma wpd_insert_unique `{Countable K} {V} (table : DB → gmap K V) key f Q E d :
  (table d !! key = None → Q () (f d)) →
  (is_Some (table d !! key) →
   E (Exn IntegrityError "duplicate key value violates unique constraint") d) →
  wpd (insert_unique table key f) Q E d.
Proof.
  intros HQ HE. unfold insert_unique. apply wpd_bind, wpd_select, wpd_bind, wpd_raise_if;
    destruct (table d !! key) eqn:Hk; simpl; try done; intros _; [by apply HE|].
  by apply wpd_execute, HQ.
Qed.
Lemma wpd_transaction {A} (m : M World A) Q E d :
  wpd m Q (λ e _, E e d) d → wpd (transaction m) Q E d.
Proof.
  intros Hm k. specialize (Hm k). unfold wp, transaction in *. simpl.
  by destruct (m (mkWorld d k)) as [[e|a] w'].
Qed.
Lemma wpd_for_each {A} (I : DB → Prop) (l : list A) (f : A → M World ()) Q E d :
  I d → (∀ x d', x ∈ l → I d' → wpd (f x) (λ _, I) E d') → (∀ d', I d' → Q () d') →
  wpd (for_each l f) Q E d.
Proof.
  intros HI Hf HQ k. apply (wp_for_each (λ w, I (w_db w))); [done| |by intros w; apply HQ].
  intros x [d' k'] Hx Hd. by apply Hf.
Qed.

(** A run of an operation satisfies its [wpd]. *)
Lemma wpd_run {A} (m : M World A) Q E d k r w :
  wpd m Q E d → m (mkWorld d k) = (r, w) →
  match r with inr a => Q a (w_db w) | inl e => E e (w_db w) end.
Proof. intros Hm Hr. specialize (Hm k). unfold wp in Hm. rewrite Hr in Hm. by destruct r. Qed.
End rules.

(** ** Operations that only read *)
Class Reads {A} (m : M World A) : Prop :=
  reads : ∀ d, wpd m (λ _ d', d' = d) (λ _ d', d' = d) d.

Section reads.
Context `{Env}.

Lemma wpd_reads {A} (m : M World A) `{!Reads m} Q E d :
  (∀ a, Q a d) → (∀ e, E e d) → wpd m Q E d.
Proof. intros HQ HE. eapply wpd_mono; [apply reads|by intros ? ? ->|by intros ? ? ->]. Qed.

#[export] Instance reads_ret {A} (a : A) : Reads (mret a).
Proof. intros d. by apply wpd_ret. Qed.
#[export] Instance reads_bind {A B} (m : M World A) (f : A → M World B) :
  Reads m → (∀ a, Reads (f a)) → Reads (m ≫= f).
Proof.
  intros Hm Hf d. apply wpd_bind. eapply wpd_mono; [apply Hm| |done].
  intros a d' ->. apply Hf.
Qed.
#[export] Instance reads_raise {A} c msg : Reads (A := A) (raise c msg).
Proof. intros d. by apply wpd_raise. Qed.
#[export] Instance reads_raise_if b c msg : Reads (raise_if b c msg).
Proof. intros d. by apply wpd_raise_if. Qed.
#[export] Instance reads_select {A} (f : DB → A) : Reads (select f).
Proof. intros d. by apply wpd_select. Qed.
#[export] Instance reads_lift {A} (r : Res A) : Reads (lift r).
Proof. intros d. by apply wpd_lift. Qed.
#[export] Instance reads_expect {A} (o : option A) c msg : Reads (expect o c msg).
Proof. intros d. by apply wpd_expect. Qed.
#[export] Instance reads_now : Reads now_utc.
Proof. intros d. by apply wpd_now. Qed.
#[export] Instance reads_monotonic : Reads monotonic.
Proof. intros d. by apply wpd_monotonic. Qed.
#[export] Instance reads_uuid : Reads uuid4.
Proof. intros d. by apply wpd_uuid. Qed.
#[export] Instance reads_rand : Reads randbelow_1000.
Proof. intros d. by apply wpd_rand. Qed.
#[export] Instance reads_transaction {A} (m : M World A) : Reads m → Reads (transaction m).
Proof. intros Hm d. apply wpd_transaction. eapply wpd_mono; [apply Hm|done..]. Qed.
Lemma reads_if {A} (b : bool) (m1 m2 : M World A) :
  Reads m1 → Reads m2 → Reads (if b then m1 else m2).
Proof. by destruct b. Qed.
Lemma reads_option {A B} (o : option B) (f : B → M World A) (m : M World A) :
  (∀ b, Reads (f b)) → Reads m → Reads (match o with Some b => f b | None => m end).
Proof. by destruct o. Qed.
End reads.
#[export] Hint Extern 2 (Reads (if _ then _ else _)) => apply reads_if : typeclass_instances.
#[export] Hint Extern 3 (Reads (match ?x with _ => _ end)) => destruct x : typeclass_instances.

(** ** Stepping *)
Ltac wpd_step :=
  lazymatch goal with
  | |- wpd (mbind _ _) _ _ _ => apply wpd_bind
  | |- wpd (mret _) _ _ _ => apply wpd_ret
  | |- wpd (raise_if _ _ _) _ _ _ => apply wpd_raise_if; [intros _|intro]
  | |- wpd (raise _ _) _ _ _ => apply wpd_raise
  | |- wpd (select _) _ _ _ => apply wpd_select
  | |- wpd (execute _) _ _ _ => apply wpd_execute
  | |- wpd (lift _) _ _ _ => apply wpd_lift; [intros ? ?|intros ? _]
  | |- wpd (expect _ _ _) _ _ _ => apply wpd_expect; [intros ? ?|intros _]
  | |- wpd now_utc _ _ _ => apply wpd_now; intros ?
  | |- wpd monotonic _ _ _ => apply wpd_monotonic; intros ?
  | |- wpd uuid4 _ _ _ => apply wpd_uuid; intros ?
  | |- wpd randbelow_1000 _ _ _ => apply wpd_rand; intros ? _
  | |- wpd skip_locked _ _ _ => apply wpd_skip_locked; intros ?
  | |- wpd (insert_unique _ _ _) _ _ _ => apply wpd_insert_unique; [intros ?|intros _]
  | |- wpd (transaction _) _ _ _ => apply wpd_transaction
  | |- wpd (audit _ _ _) _ _ _ => unfold audit
  | |- wpd (put_job _ _) _ _ _ => unfold put_job
  | |- wpd (retry_delay _) _ _ _ => unfold retry_delay
  | |- wpd (if ?b then _ else _) _ _ _ => destruct b eqn:?
  | |- wpd (match ?x with _ => _ end) _ _ _ => destruct x eqn:?
  end.
