(* ===== verification/StoreInv.v ===== *)
(** * The store's invariant and the life of a job

    [Life] is the abstract machine of a research job: waiting, running a stage
    under a lease, or done. [Inv] is the invariant of the database, [Extends]
    the order in which records may change, and [good] says that a change keeps
    the invariant and only extends the records. *)

From S2P Require Import Prelude Effects PyNum PyText Contracts Demo Eligibility Governance.
From S2P Require Import Market Signals CrossExam Universe Schema Store Complete StoreLogic.
#[local] Open Scope Z_scope.

(** ** The abstract job *)
Inductive Phase :=
  | Waiting (resume : option JobStatus) (attempts : Z)
  | Running (stage : JobStatus) (attempts : Z)
  | Done (outcome : JobStatus).
Definition working (s : JobStatus) : bool := negb (terminal s) && negb (bool_decide (s = QUEUED)).
Definition rank (s : JobStatus) : nat := default O (stage_index s).
Definition phase_of (j : Job) : Phase :=
  if bool_decide (j_status j = QUEUED) then Waiting (j_resume_stage j) (j_attempt_count j)
  else if terminal (j_status j) then Done (j_status j)
  else Running (j_status j) (j_attempt_count j).

(** What may happen to one job of a given kind and retry limit. *)
Inductive Life (kind : ResearchKind) (limit : Z) : Phase → Phase → Prop :=
  | Life_claim r n :
      Life kind limit (Waiting r n) (Running (default (first_stage kind) r) (n + 1))
  | Life_advance s s' n : working s' = true → (rank s ≤ rank s')%nat →
      Life kind limit (Running s n) (Running s' n)
  | Life_requeue s n : n < limit → Life kind limit (Running s n) (Waiting (Some s) n)
  | Life_fail s n : Life kind limit (Running s n) (Done FAILED)
  | Life_reject s n : Life kind limit (Running s n) (Done REJECTED)
  | Life_complete n : Life kind limit (Running CONSENSUS n) (Done COMPLETE).

(** ** Rows *)

(** The stage a job has reached, whether it is running or waiting to resume. *)
Definition position (j : Job) : JobStatus :=
  if bool_decide (j_status j = QUEUED) then default QUEUED (j_resume_stage j) else j_status j.

Record queued_ok (j : Job) : Prop := {
  qo_token : j_lease_token j = None;
  qo_until : j_lease_until j = None;
  qo_deadline : j_deadline_at j = None;
  qo_completed : j_completed_at j = None;
  qo_attempts : j_attempt_count j = 0 ∨ 0 < j_attempt_count j < j_max_attempts j;
  qo_resume : match j_resume_stage j with
              | Some s => working s = true
              | None => j_attempt_count j = 0
              end;
}.
Record running_ok (j : Job) : Prop := {
  ro_token : is_Some (j_lease_token j);
  ro_worker : is_Some (j_worker_id j);
  ro_until : is_Some (j_lease_until j);
  ro_deadline : is_Some (j_deadline_at j);
  ro_started : is_Some (j_started_at j);
  ro_completed : j_completed_at j = None;
  ro_attempts : 1 ≤ j_attempt_count j ≤ Z.max 1 (j_max_attempts j);
}.
Record done_ok (j : Job) : Prop := {
  do_token : j_lease_token j = None;
  do_until : j_lease_until j = None;
  do_completed : is_Some (j_completed_at j);
  do_attempts : 1 ≤ j_attempt_count j ≤ Z.max 1 (j_max_attempts j);
}.
Record job_ok (j : Job) : Prop := {
  jo_stage : j_current_stage j = j_status j;
  jo_queued : j_status j = QUEUED → queued_ok j;
  jo_running : working (j_status j) = true → running_ok j;
  jo_done : terminal (j_status j) = true → done_ok j;
  jo_locked : terminal (j_status j) = false →
              is_Some (j_locked_at j) ↔ (5 ≤ rank (position j))%nat;
  jo_complete : j_status j = COMPLETE → is_Some (j_locked_at j);
  jo_snapshot : terminal (j_status j) = false → (4 ≤ rank (position j))%nat →
                is_Some (j_snapshot_id j);
  jo_frozen : is_Some (j_locked_at j) → is_Some (j_snapshot_id j);
}.

(** A published packet is bound to the sealed records of its job. *)
Record packet_bound (d : DB) (id : string) (j : Job) (p : DecisionPacket) : Prop := {
  pb_id : dp_research_id p = id;
  pb_ticker : ca_ticker (dp_candidate p) = j_ticker j;
  pb_mandate : t_mandates d !! j_mandate_id j = Some (dp_mandate p);
  pb_reports : ∀ f, reports_by_firm (dp_reports p) !! f = re_payload <$> t_reports d !! (id, f);
  pb_snapshot : ∃ s, frozen_snapshot d j = Some s ∧ Some (dp_snapshot_id p) = j_snapshot_id j ∧
                     dp_snapshot_hash p = rs_hash s ∧ dp_sources p = rs_evidence s ∧
                     dp_eligibility p = rs_instrument s;
  pb_lean : artifact d id "lean" = Some (ArtLean (dp_lean p));
  pb_audit : artifact d id "audit" = Some (ArtAudit (dp_audit p));
  pb_red_team : artifact d id "red_team" = Some (ArtRedTeam (dp_red_team p));
  pb_independence : artifact d id "independence" = Some (ArtIndependence (dp_independence p));
}.
(** What a stored report refers to. *)
Record report_bound (d : DB) (f : Firm) (j : Job) (r : FirmReport) : Prop := {
  rb_firm : fr_firm r = f;
  rb_snapshot : ∃ s, frozen_snapshot d j = Some s ∧ Some (fr_snapshot_id r) = j_snapshot_id j ∧
                     fr_snapshot_hash r = rs_hash s ∧ f ∈ snapshot_required_firms s ∧
                     ∀ c e, c ∈ fr_claims r → e ∈ cl_evidence_ids c → e ∈ snapshot_evidence_ids s;
}.

(** ** The invariant *)
Record Inv (d : DB) : Prop := {
  in_jobs : ∀ id j, t_jobs d !! id = Some j → job_ok j;
  in_mandates : ∀ id j, t_jobs d !! id = Some j → is_Some (t_mandates d !! j_mandate_id j);
  in_replay : ∀ id1 id2 j1 j2 key,
    t_jobs d !! id1 = Some j1 → t_jobs d !! id2 = Some j2 →
    j_workspace_id j1 = j_workspace_id j2 →
    j_idempotency_key j1 = Some key → j_idempotency_key j2 = Some key → id1 = id2;
  in_frozen : ∀ id j sid, t_jobs d !! id = Some j → j_snapshot_id j = Some sid →
    ∃ r, t_snapshots d !! sid = Some r ∧ sn_job r = id;
  in_snapshots : ∀ sid r, t_snapshots d !! sid = Some r →
    rs_snapshot_id (sn_payload r) = sid ∧
    ∃ j, t_jobs d !! sn_job r = Some j ∧ j_snapshot_id j = Some sid ∧
         j_ticker j = rs_ticker (sn_payload r);
  in_reports : ∀ id f r, t_reports d !! (id, f) = Some r →
    ∃ j, t_jobs d !! id = Some j ∧ report_bound d f j (re_payload r);
  in_barrier : ∀ id j, t_jobs d !! id = Some j → is_Some (j_locked_at j) →
    ∃ s, frozen_snapshot d j = Some s ∧
         ∀ f, is_Some (t_reports d !! (id, f)) ↔ f ∈ snapshot_required_firms s;
  in_artifacts : ∀ id kind a, t_artifacts d !! (id, kind) = Some a →
    ∃ j, t_jobs d !! id = Some j ∧ (kind ∈ EARLY_KINDS ∨ is_Some (j_locked_at j));
  in_packets : ∀ id p, t_packets d !! id = Some p →
    ∃ j, t_jobs d !! id = Some j ∧
      ((j_status j = COMPLETE ∧ ∃ doc, pk_payload p = PacketDoc doc ∧ packet_bound d id j doc) ∨
       (j_status j = REJECTED ∧ packet_final_state (pk_payload p) = JStr "REJECT"));
  in_published : ∀ id j, t_jobs d !! id = Some j → j_status j = COMPLETE ∨ j_status j = REJECTED →
    is_Some (t_packets d !! id);
  in_signals : ∀ id g, t_signals d !! id = Some g →
    ∃ j p doc, t_jobs d !! id = Some j ∧ j_status j = COMPLETE ∧
      t_packets d !! id = Some p ∧ pk_payload p = PacketDoc doc ∧
      dp_signal doc = Some (si_payload g) ∧ si_valid_until g = sg_valid_until (si_payload g);
  in_sessions : ∀ k s, t_sessions d !! k = Some s →
    se_created_at s < se_expires_at s ≤ se_created_at s + hours 8 + seconds 5;
}.

(** ** How records may change *)

(** The columns [create_job] writes once. *)
Definition request (j : Job) :=
  (j_ticker j, j_research_kind j, j_mandate_id j, j_workspace_id j, j_idempotency_key j,
   j_request_hash j, j_max_attempts j, j_created_at j).
(** A nullable column that is written at most once. *)
Definition once {A} (x y : option A) : Prop := x = None ∨ y = x.

Record evolves (j j' : Job) : Prop := {
  eo_request : request j' = request j;
  eo_attempts : j_attempt_count j ≤ j_attempt_count j';
  eo_snapshot : once (j_snapshot_id j) (j_snapshot_id j');
  eo_locked : once (j_locked_at j) (j_locked_at j');
  eo_started : once (j_started_at j) (j_started_at j');
  eo_terminal : terminal (j_status j) = true → j' = j;
  eo_life : rtc (Life (j_research_kind j) (j_max_attempts j)) (phase_of j) (phase_of j');
}.

(** A session is only ever revoked, and stays revoked. *)
Record session_evolves (s s' : SessionRow) : Prop := {
  sv_terms : (se_workspace_id s', se_credential_version s', se_created_at s', se_expires_at s') =
             (se_workspace_id s, se_credential_version s, se_created_at s, se_expires_at s);
  sv_revoked : once (se_revoked_at s) (se_revoked_at s');
}.
Lemma session_evolves_trans s1 s2 s3 :
  session_evolves s1 s2 → session_evolves s2 s3 → session_evolves s1 s3.
Proof. intros [T1 R1] [T2 R2]. split; [congruence|]. destruct R1 as [R1|R1]; [by left|].
  destruct R2 as [R2|R2]; [left|right]; congruence. Qed.

Record Extends (d d' : DB) : Prop := {
  ex_mandates : t_mandates d ⊆ t_mandates d';
  ex_jobs : ∀ id j, t_jobs d !! id = Some j → ∃ j', t_jobs d' !! id = Some j' ∧ evolves j j';
  ex_snapshots : t_snapshots d ⊆ t_snapshots d';
  ex_evidence : t_evidence d ⊆ t_evidence d';
  ex_reports : t_reports d ⊆ t_reports d';
  ex_sealed : ∀ id j, t_jobs d !! id = Some j → is_Some (j_locked_at j) →
    ∀ f, t_reports d' !! (id, f) = t_reports d !! (id, f);
  ex_artifacts : t_artifacts d ⊆ t_artifacts d';
  ex_packets : t_packets d ⊆ t_packets d';
  ex_signals : t_signals d ⊆ t_signals d';
  ex_eligibility : t_eligibility d `prefix_of` t_eligibility d';
  ex_discoveries : t_discoveries d `prefix_of` t_discoveries d';
  ex_token_usage : t_token_usage d `prefix_of` t_token_usage d';
  ex_audit : t_audit d `prefix_of` t_audit d';
  ex_sessions : ∀ k s, t_sessions d !! k = Some s →
    ∃ s', t_sessions d' !! k = Some s' ∧ session_evolves s s';
}.

Lemma once_refl {A} (x : option A) : once x x.
Proof. by right. Qed.
Lemma once_trans {A} (x y z : option A) : once x y → once y z → once x z.
Proof. unfold once. intros [-> | ->] Hz; [by left|done]. Qed.
Lemma once_some {A} (x y : option A) : once x y → is_Some x → y = x.
Proof. intros [-> | Hy] [a Hx]; [done|congruence]. Qed.
#[export] Hint Resolve once_refl : money.

#[export] Instance evolves_preorder : PreOrder evolves.
Proof.
  split.
  - intros j. split; auto with money; try done; lia.
  - intros j1 j2 j3 [R1 A1 S1 L1 B1 T1 Y1] [R2 A2 S2 L2 B2 T2 Y2]. split.
    + congruence.
    + lia.
    + by eapply once_trans.
    + by eapply once_trans.
    + by eapply once_trans.
    + intros Ht. assert (j2 = j1) as -> by auto. auto.
    + etrans; [done|]. unfold request in R1. assert (j_research_kind j2 = j_research_kind j1) by congruence.
      assert (j_max_attempts j2 = j_max_attempts j1) by congruence. congruence.
Qed.

#[export] Instance extends_preorder : PreOrder Extends.
Proof.
  split.
  - intros d. split; try done; [intros id j Hj; by exists j|].
    intros k s Hs. exists s. split; [done|]. by split; [|right].
  - intros d1 d2 d3 E1 E2. split; try (by etrans; [apply E1|apply E2]).
    + intros id j Hj. destruct (ex_jobs _ _ E1 _ _ Hj) as (j2 & Hj2 & H2).
      destruct (ex_jobs _ _ E2 _ _ Hj2) as (j3 & Hj3 & H3). exists j3. split; [done|by etrans].
    + intros id j Hj Hl f. destruct (ex_jobs _ _ E1 _ _ Hj) as (j2 & Hj2 & H2).
      rewrite (ex_sealed _ _ E2 id j2 Hj2), (ex_sealed _ _ E1 id j Hj Hl); [done|].
      by rewrite (once_some _ _ (eo_locked _ _ H2) Hl).
    + intros k s Hs. destruct (ex_sessions _ _ E1 _ _ Hs) as (s2 & Hs2 & H2).
      destruct (ex_sessions _ _ E2 _ _ Hs2) as (s3 & Hs3 & H3). exists s3. split; [done|].
      by eapply session_evolves_trans.
Qed.
(** The usual case: the sessions are those of before. *)
Lemma same_sessions (m : gmap string SessionRow) k s : m !! k = Some s →
  ∃ s', m !! k = Some s' ∧ session_evolves s s'.
Proof. intros Hs. exists s. split; [done|]. by split; [|right]. Qed.
#[export] Hint Resolve same_sessions : money.

(** A change that keeps the invariant and only extends the records. *)
Definition good (d d' : DB) : Prop := Inv d → Inv d' ∧ Extends d d'.
#[export] Instance good_preorder : PreOrder good.
Proof.
  split; [by intros d Hd|]. intros d1 d2 d3 G1 G2 I1.
  destruct (G1 I1) as [I2 E1], (G2 I2) as [I3 E2]. split; [done|by etrans].
Qed.

(** ** Stability of the references *)
Lemma frozen_snapshot_stable d d' j j' s :
  t_snapshots d ⊆ t_snapshots d' → once (j_snapshot_id j) (j_snapshot_id j') →
  frozen_snapshot d j = Some s → frozen_snapshot d' j' = Some s.
Proof.
  unfold frozen_snapshot. intros Hs Ho Hj.
  destruct (j_snapshot_id j) as [sid|] eqn:Hsid; [|done]. simpl in Hj.
  rewrite (once_some _ _ Ho) by eauto. simpl.
  destruct (t_snapshots d !! sid) as [r|] eqn:Hr; [|done].
  by rewrite (lookup_weaken _ _ _ _ Hr Hs).
Qed.
Lemma artifact_stable d d' id kind a :
  t_artifacts d ⊆ t_artifacts d' → artifact d id kind = Some a → artifact d' id kind = Some a.
Proof.
  unfold artifact. intros Ha. destruct (t_artifacts d !! _) as [r|] eqn:Hr; [|done].
  by rewrite (lookup_weaken _ _ _ _ Hr Ha).
Qed.
Lemma report_bound_stable d d' f j j' r :
  t_snapshots d ⊆ t_snapshots d' → once (j_snapshot_id j) (j_snapshot_id j') →
  report_bound d f j r → report_bound d' f j' r.
Proof.
  intros Hs Ho [Hf (s & H1 & H2 & H3)]. split; [done|]. exists s.
  split; [by eapply frozen_snapshot_stable|]. split; [|done].
  rewrite (once_some _ _ Ho); [done|]. rewrite <- H2. eauto.
Qed.
Lemma packet_bound_stable d d' id j p :
  Extends d d' → t_jobs d !! id = Some j → is_Some (j_locked_at j) →
  packet_bound d id j p → packet_bound d' id j p.
Proof.
  intros E Hj Hl [? ? Hm Hr (s & Hs & ?) Hl1 Ha1 Hr1 Hi1].
  split; eauto using artifact_stable, ex_artifacts.
  - eapply lookup_weaken; [done|apply E].
  - intros f. by rewrite Hr, (ex_sealed _ _ E id j Hj Hl).
  - exists s. split; [|done]. eapply frozen_snapshot_stable; [apply E|apply once_refl|done].
Qed.

(** ** One job row changes

    [Change d d' id j j'] is the shape of every worker operation: one row of
    [jobs] moves forward, and new records, if any, belong to that job. *)
Record Change (d d' : DB) (id : string) (j j' : Job) : Prop := {
  ch_from : t_jobs d !! id = Some j;
  ch_to : t_jobs d' = <[id := j']> (t_jobs d);
  ch_active : terminal (j_status j) = false;
  ch_ok : job_ok j';
  ch_reports : t_reports d' = t_reports d;
  ch_artifacts : t_artifacts d' = t_artifacts d;
  ch_sessions : t_sessions d' = t_sessions d;
  ch_frozen : ∀ sid, j_snapshot_id j' = Some sid →
    ∃ r, t_snapshots d' !! sid = Some r ∧ sn_job r = id;
  ch_snapshots : ∀ sid r, t_snapshots d' !! sid = Some r → t_snapshots d !! sid = Some r ∨
    (rs_snapshot_id (sn_payload r) = sid ∧ sn_job r = id ∧ j_snapshot_id j' = Some sid ∧
     j_ticker j' = rs_ticker (sn_payload r));
  ch_barrier : is_Some (j_locked_at j') → ∃ s, frozen_snapshot d' j' = Some s ∧
    ∀ f, is_Some (t_reports d' !! (id, f)) ↔ f ∈ snapshot_required_firms s;
  ch_packets : ∀ i p, t_packets d' !! i = Some p → t_packets d !! i = Some p ∨
    (i = id ∧
      ((j_status j' = COMPLETE ∧ ∃ doc, pk_payload p = PacketDoc doc ∧ packet_bound d' id j' doc) ∨
       (j_status j' = REJECTED ∧ packet_final_state (pk_payload p) = JStr "REJECT")));
  ch_published : j_status j' = COMPLETE ∨ j_status j' = REJECTED → is_Some (t_packets d' !! id);
  ch_signals : ∀ i g, t_signals d' !! i = Some g → t_signals d !! i = Some g ∨
    (i = id ∧ j_status j' = COMPLETE ∧
      ∃ p doc, t_packets d' !! id = Some p ∧ pk_payload p = PacketDoc doc ∧
        dp_signal doc = Some (si_payload g) ∧ si_valid_until g = sg_valid_until (si_payload g));
}.

Section change.
Context (d d' : DB) (id : string) (j j' : Job).
Context (HI : Inv d) (HE : Extends d d') (HC : Change d d' id j j').

Lemma change_evolves : evolves j j'.
Proof.
  destruct (ex_jobs _ _ HE id j (ch_from _ _ _ _ _ HC)) as (j2 & Hj2 & Hev).
  rewrite (ch_to _ _ _ _ _ HC), lookup_insert_eq in Hj2. by simplify_eq.
Qed.
Lemma change_lookup i jj : t_jobs d' !! i = Some jj →
  ∃ j0, t_jobs d !! i = Some j0 ∧ evolves j0 jj ∧ ((i = id ∧ j0 = j ∧ jj = j') ∨ (i ≠ id ∧ jj = j0)).
Proof.
  rewrite (ch_to _ _ _ _ _ HC). intros [[Hid Hj']|[Hne Hi]]%lookup_insert_Some.
  - exists j. rewrite <- Hid, <- Hj'. split; [apply HC|]. split; [apply change_evolves|auto].
  - exists jj. split; [done|]. split; [done|]. right. by split; [intros ->|].
Qed.
(** A record of a finished job still belongs to it. *)
Lemma change_done i j0 : t_jobs d !! i = Some j0 → terminal (j_status j0) = true →
  t_jobs d' !! i = Some j0.
Proof.
  intros Hi Ht. rewrite (ch_to _ _ _ _ _ HC). apply lookup_insert_Some. right. split; [|done].
  intros Hid. rewrite <- Hid, (ch_from _ _ _ _ _ HC) in Hi. injection Hi as Hi.
  pose proof (ch_active _ _ _ _ _ HC). congruence.
Qed.

Lemma change_inv_jobs :
  (∀ i jj, t_jobs d' !! i = Some jj → job_ok jj) ∧
  (∀ i jj, t_jobs d' !! i = Some jj → is_Some (t_mandates d' !! j_mandate_id jj)) ∧
  (∀ id1 id2 j1 j2 key, t_jobs d' !! id1 = Some j1 → t_jobs d' !! id2 = Some j2 →
    j_workspace_id j1 = j_workspace_id j2 →
    j_idempotency_key j1 = Some key → j_idempotency_key j2 = Some key → id1 = id2).
Proof.
  split_and!.
  - intros i jj (j0 & Hi & _ & [(-> & -> & ->)|(_ & ->)])%change_lookup; [apply HC|].
    by eapply (in_jobs _ HI).
  - intros i jj (j0 & Hi & Hev & _)%change_lookup.
    destruct (in_mandates _ HI i j0 Hi) as [m Hm]. exists m.
    pose proof (eo_request _ _ Hev) as [=]. replace (j_mandate_id jj) with (j_mandate_id j0) by congruence.
    eapply lookup_weaken; [done|apply HE].
  - intros id1 id2 j1 j2 key (j01 & Hi1 & Hev1 & _)%change_lookup
      (j02 & Hi2 & Hev2 & _)%change_lookup Hw Hk1 Hk2.
    pose proof (eo_request _ _ Hev1) as [=]. pose proof (eo_request _ _ Hev2) as [=].
    eapply (in_replay _ HI id1 id2 j01 j02 key); congruence.
Qed.

Lemma change_inv_snapshots :
  (∀ i jj sid, t_jobs d' !! i = Some jj → j_snapshot_id jj = Some sid →
     ∃ r, t_snapshots d' !! sid = Some r ∧ sn_job r = i) ∧
  (∀ sid r, t_snapshots d' !! sid = Some r → rs_snapshot_id (sn_payload r) = sid ∧
     ∃ jj, t_jobs d' !! sn_job r = Some jj ∧ j_snapshot_id jj = Some sid ∧
           j_ticker jj = rs_ticker (sn_payload r)).
Proof.
  split.
  - intros i jj sid (j0 & Hi & _ & [(-> & -> & ->)|(_ & ->)])%change_lookup Hs; [by apply HC|].
    destruct (in_frozen _ HI i j0 sid Hi Hs) as (r & Hr & Hj). exists r. split; [|done].
    eapply lookup_weaken; [done|apply HE].
  - intros sid r [Hr|(H1 & H2 & H3 & H4)]%(ch_snapshots _ _ _ _ _ HC).
    + destruct (in_snapshots _ HI sid r Hr) as (Hs & j0 & Hj & Hs' & Ht). split; [done|].
      destruct (ex_jobs _ _ HE _ _ Hj) as (j2 & Hj2 & Hev). exists j2. split; [done|].
      rewrite (once_some _ _ (eo_snapshot _ _ Hev)) by eauto. split; [done|].
      pose proof (eo_request _ _ Hev) as [=]. congruence.
    + split; [done|]. exists j'. rewrite H2, (ch_to _ _ _ _ _ HC), lookup_insert_eq. done.
Qed.

Lemma change_inv_records :
  (∀ i f r, t_reports d' !! (i, f) = Some r →
    ∃ jj, t_jobs d' !! i = Some jj ∧ report_bound d' f jj (re_payload r)) ∧
  (∀ i jj, t_jobs d' !! i = Some jj → is_Some (j_locked_at jj) →
    ∃ s, frozen_snapshot d' jj = Some s ∧
         ∀ f, is_Some (t_reports d' !! (i, f)) ↔ f ∈ snapshot_required_firms s) ∧
  (∀ i kind a, t_artifacts d' !! (i, kind) = Some a →
    ∃ jj, t_jobs d' !! i = Some jj ∧ (kind ∈ EARLY_KINDS ∨ is_Some (j_locked_at jj))).
Proof.
  split_and!.
  - intros i f r. rewrite (ch_reports _ _ _ _ _ HC). intros Hr.
    destruct (in_reports _ HI i f r Hr) as (j0 & Hi & Hb).
    destruct (ex_jobs _ _ HE _ _ Hi) as (j2 & Hj2 & Hev). exists j2. split; [done|].
    eapply report_bound_stable; [apply HE|apply Hev|done].
  - intros i jj (j0 & Hi & _ & [(-> & -> & ->)|(_ & ->)])%change_lookup Hl; [by apply HC|].
    rewrite (ch_reports _ _ _ _ _ HC).
    destruct (in_barrier _ HI i j0 Hi Hl) as (s & Hs & Hf). exists s. split; [|done].
    eapply frozen_snapshot_stable; [apply HE|apply once_refl|done].
  - intros i kind a. rewrite (ch_artifacts _ _ _ _ _ HC). intros Ha.
    destruct (in_artifacts _ HI i kind a Ha) as (j0 & Hi & Hk).
    destruct (ex_jobs _ _ HE _ _ Hi) as (j2 & Hj2 & Hev). exists j2. split; [done|].
    destruct Hk as [Hk|Hk]; [by left|right]. by rewrite (once_some _ _ (eo_locked _ _ Hev)).
Qed.

Lemma change_inv_published :
  (∀ i p, t_packets d' !! i = Some p →
    ∃ jj, t_jobs d' !! i = Some jj ∧
      ((j_status jj = COMPLETE ∧ ∃ doc, pk_payload p = PacketDoc doc ∧ packet_bound d' i jj doc) ∨
       (j_status jj = REJECTED ∧ packet_final_state (pk_payload p) = JStr "REJECT"))) ∧
  (∀ i jj, t_jobs d' !! i = Some jj → j_status jj = COMPLETE ∨ j_status jj = REJECTED →
    is_Some (t_packets d' !! i)) ∧
  (∀ i g, t_signals d' !! i = Some g →
    ∃ jj p doc, t_jobs d' !! i = Some jj ∧ j_status jj = COMPLETE ∧
      t_packets d' !! i = Some p ∧ pk_payload p = PacketDoc doc ∧
      dp_signal doc = Some (si_payload g) ∧ si_valid_until g = sg_valid_until (si_payload g)).
Proof.
  split_and!.
  - intros i p [Hp|[-> Hp]]%(ch_packets _ _ _ _ _ HC).
    + destruct (in_packets _ HI i p Hp) as (j0 & Hi & Hs).
      exists j0. split; [eapply change_done; [done|]; by destruct Hs as [[-> _]|[-> _]]|].
      destruct Hs as [(Hst & doc & Hd & Hb)|Hs]; [left|by right]. split; [done|].
      exists doc. split; [done|]. eapply packet_bound_stable; [done|done| |done].
      eapply jo_complete; [|done]. by eapply (in_jobs _ HI).
    + exists j'. by rewrite (ch_to _ _ _ _ _ HC), lookup_insert_eq.
  - intros i jj (j0 & Hi & _ & [(-> & -> & ->)|(_ & ->)])%change_lookup Hl; [by apply HC|].
    destruct (in_published _ HI i j0 Hi Hl) as [p Hp]. exists p.
    eapply lookup_weaken; [done|apply HE].
  - intros i g [Hg|(-> & Hst & p & doc & Hp)]%(ch_signals _ _ _ _ _ HC).
    + destruct (in_signals _ HI i g Hg) as (j0 & p & doc & Hi & Hst & Hp & Hrest).
      exists j0, p, doc. split; [eapply change_done; [done|by rewrite Hst]|].
      split; [done|]. split; [|done]. eapply lookup_weaken; [done|apply HE].
    + exists j', p, doc. by rewrite (ch_to _ _ _ _ _ HC), lookup_insert_eq.
Qed.

Lemma change_inv : Inv d'.
Proof.
  destruct change_inv_jobs as (? & ? & ?), change_inv_snapshots as [? ?],
    change_inv_records as (? & ? & ?), change_inv_published as (? & ? & ?).
  split; try done. rewrite (ch_sessions _ _ _ _ _ HC). apply HI.
Qed.
End change.

(** ** The basic changes *)
Lemma insert_new_subseteq `{Countable K} {V} (m : gmap K V) k v :
  m !! k = None → m ⊆ <[k := v]> m.
Proof. apply insert_subseteq. Qed.
#[export] Hint Resolve insert_new_subseteq prefix_app_r : money.

(** The row of an active job moves forward; nothing else changes. *)
Lemma good_put_job d id j j' :
  t_jobs d !! id = Some j → terminal (j_status j) = false →
  j_snapshot_id j' = j_snapshot_id j → j_locked_at j' = j_locked_at j →
  j_status j' ≠ COMPLETE → j_status j' ≠ REJECTED →
  (job_ok j → job_ok j' ∧ evolves j j') →
  good d (d <| t_jobs ::= insert id j' |>).
Proof.
  intros Hj Ht Hs Hl Hc Hr Hok HI. destruct (Hok (in_jobs _ HI _ _ Hj)) as [Hj' Hev].
  assert (Extends d (d <| t_jobs ::= insert id j' |>)) as HE.
  { split; simpl; try done; [|apply same_sessions]. intros i ji Hi. destruct (decide (i = id)) as [->|Hne].
    - exists j'. rewrite lookup_insert_eq. by simplify_eq.
    - exists ji. by rewrite lookup_insert_ne. }
  split; [|done]. eapply (change_inv d _ id j j'); [done..|]. split; simpl; try done; auto.
  - intros sid. rewrite Hs. by apply (in_frozen _ HI).
  - unfold frozen_snapshot. rewrite Hs, Hl. by apply (in_barrier _ HI).
  - by intros [?|?].
Qed.

(** New records appear and the job rows stay. *)
Lemma grow_inv d d' :
  Inv d → Extends d d' → t_jobs d' = t_jobs d → t_snapshots d' = t_snapshots d →
  t_packets d' = t_packets d → t_signals d' = t_signals d → t_sessions d' = t_sessions d →
  (∀ i f r, t_reports d' !! (i, f) = Some r → t_reports d !! (i, f) = Some r ∨
    ∃ j, t_jobs d !! i = Some j ∧ report_bound d f j (re_payload r)) →
  (∀ i kind a, t_artifacts d' !! (i, kind) = Some a → t_artifacts d !! (i, kind) = Some a ∨
    ∃ j, t_jobs d !! i = Some j ∧ (kind ∈ EARLY_KINDS ∨ is_Some (j_locked_at j))) →
  Inv d'.
Proof.
  intros HI HE Hj Hs Hp Hg Hse Hr Ha.
  split; rewrite ?Hj, ?Hs, ?Hp, ?Hg, ?Hse; try apply HI.
  - intros id j Hid. destruct (in_mandates _ HI id j Hid) as [m Hm]. exists m.
    eapply lookup_weaken; [done|apply HE].
  - intros i f r Hrow. assert (∃ j, t_jobs d !! i = Some j ∧ report_bound d f j (re_payload r))
      as (j & Hi & Hb) by (destruct (Hr i f r Hrow); [by eapply (in_reports _ HI)|done]).
    exists j. split; [done|]. apply (report_bound_stable d _ f j j); [by rewrite Hs|apply once_refl|done].
  - intros i j Hi Hl. destruct (in_barrier _ HI i j Hi Hl) as (s & Hsn & Hf). exists s. split.
    + unfold frozen_snapshot. by rewrite Hs.
    + intros f. by rewrite (ex_sealed _ _ HE i j Hi Hl).
  - intros i kind a Hrow. destruct (Ha i kind a Hrow); [by eapply (in_artifacts _ HI)|done].
  - intros i p Hrow. destruct (in_packets _ HI i p Hrow) as (j & Hi & Hst). exists j.
    split; [done|]. destruct Hst as [(Hst & doc & Hd & Hb)|Hst]; [left|by right].
    split; [done|]. exists doc. split; [done|]. eapply packet_bound_stable; [done|done| |done].
    eapply jo_complete; [|done]. by eapply (in_jobs _ HI).
Qed.

(** A report of an unlocked job, and an artifact. *)
Lemma good_put_report d id firm row j :
  t_reports d !! (id, firm) = None → t_jobs d !! id = Some j → j_locked_at j = None →
  report_bound d firm j (re_payload row) → good d (d <| t_reports ::= insert (id, firm) row |>).
Proof.
  intros Hnew Hj Hl Hb HI.
  assert (Extends d (d <| t_reports ::= insert (id, firm) row |>)) as HE.
  { split; simpl; try done; auto using same_sessions with money; [intros i ji Hi; by exists ji|].
    intros i ji Hi [t Hli] f. apply lookup_insert_ne. intros [= -> ->]. congruence. }
  split; [|done]. eapply grow_inv; simpl; try done; [|auto].
  intros i f r [[[= <- <-] <-]|[_ Hr]]%lookup_insert_Some; [right; eauto|by left].
Qed.
Lemma good_put_artifact d id kind row j :
  t_artifacts d !! (id, kind) = None → t_jobs d !! id = Some j →
  kind ∈ EARLY_KINDS ∨ is_Some (j_locked_at j) →
  good d (d <| t_artifacts ::= insert (id, kind) row |>).
Proof.
  intros Hnew Hj Hk HI.
  assert (Extends d (d <| t_artifacts ::= insert (id, kind) row |>)) as HE.
  { split; simpl; try done; auto using same_sessions with money. intros i ji Hi; by exists ji. }
  split; [|done]. eapply grow_inv; simpl; try done; [auto|].
  intros i f r [[[= <- <-] <-]|[_ Hr]]%lookup_insert_Some; [right; eauto|by left].
Qed.

(** ** Sealed reports *)
Lemma elem_of_report_rows d id f r :
  (f, r) ∈ report_rows d id ↔ t_reports d !! (id, f) = Some r.
Proof.
  unfold report_rows. rewrite list_elem_of_omap. split.
  - intros ([[i g] q] & Hin & Hq). simpl in Hq. case_bool_decide; simplify_eq.
    by apply elem_of_map_to_list in Hin.
  - intros Hr. exists ((id, f), r). split; [by apply elem_of_map_to_list|]. simpl.
    by rewrite bool_decide_eq_true_2.
Qed.
Lemma elem_of_sealed_firms d id f : f ∈ sealed_firms d id ↔ is_Some (t_reports d !! (id, f)).
Proof.
  unfold sealed_firms. rewrite list_elem_of_fmap. split.
  - intros ([g r] & -> & Hr%elem_of_report_rows). eauto.
  - intros [r Hr]. exists (f, r). split; [done|]. by apply elem_of_report_rows.
Qed.
Lemma NoDup_report_firms d id : NoDup (sealed_firms d id).
Proof.
  unfold sealed_firms, report_rows.
  assert (∀ l : list (string * Firm * ReportRow), NoDup l.*1 →
    NoDup (map fst (omap (λ kr : (string * Firm) * ReportRow,
      if bool_decide (kr.1.1 = id) then Some (kr.1.2, kr.2) else None) l))) as Hgen.
  { induction l as [|[[i g] q] l IH]; intros Hl; simpl; [constructor|].
    inversion_clear Hl as [|?? Hni Hl']. case_bool_decide as Hi; [|by apply IH]. simpl.
    constructor; [|by apply IH]. intros ([g' q'] & Hg & Hin)%list_elem_of_fmap.
    apply list_elem_of_omap in Hin as ([[i' g2] q2] & Hin & Hq). simpl in Hq.
    case_bool_decide; simplify_eq/=. apply Hni. apply list_elem_of_fmap.
    eexists. by split; [|exact Hin]. }
  apply Hgen, NoDup_fst_map_to_list.
Qed.
Lemma stored_reports_lookup d id f :
  stored_reports d id !! f = re_payload <$> t_reports d !! (id, f).
Proof.
  unfold stored_reports. set (l := map _ (report_rows d id)).
  assert (NoDup l.*1) as Hnd.
  { unfold l. replace (map _ _).*1 with (sealed_firms d id); [apply NoDup_report_firms|].
    unfold sealed_firms. by rewrite map_map. }
  destruct (t_reports d !! (id, f)) as [r|] eqn:Hr; simpl.
  - apply elem_of_list_to_map_1; [done|]. apply list_elem_of_fmap. exists (f, r).
    split; [done|]. by apply elem_of_report_rows.
  - apply not_elem_of_list_to_map_1. intros ([g q] & -> & Hin)%list_elem_of_fmap.
    apply list_elem_of_fmap in Hin as ([g' r] & [= -> ->] & Hin%elem_of_report_rows). simpl in Hr.
    congruence.
Qed.

(** ** A new job *)
Lemma good_put_mandate d mid m : t_mandates d !! mid = None →
  good d (d <| t_mandates ::= insert mid m |>).
Proof.
  intros Hnew HI. assert (Extends d (d <| t_mandates ::= insert mid m |>)) as HE.
  { split; simpl; try done; auto using same_sessions with money. intros i ji Hi; by exists ji. }
  split; [|done]. eapply grow_inv; simpl; try done; auto.
Qed.
Section new_job.
Context (d : DB) (id : string) (row : Job).
Context (Hnew : t_jobs d !! id = None) (Hok : job_ok row).
Context (Hmandate : is_Some (t_mandates d !! j_mandate_id row)).
Context (Hstatus : j_status row = QUEUED).
Context (Hlock : j_locked_at row = None) (Hsnap : j_snapshot_id row = None).
Context (Hkey : ∀ key i j, j_idempotency_key row = Some key → t_jobs d !! i = Some j →
  j_workspace_id j = j_workspace_id row → j_idempotency_key j ≠ Some key).

Lemma good_put_new_job : good d (d <| t_jobs ::= insert id row |>).
Proof.
  intros HI. assert (∀ i j, t_jobs d !! i = Some j → <[id := row]> (t_jobs d) !! i = Some j) as Hold.
  { intros i j Hi. rewrite lookup_insert_ne; [done|]. intros <-. congruence. }
  assert (Extends d (d <| t_jobs ::= insert id row |>)) as HE.
  { split; simpl; try done; [|apply same_sessions]. intros i ji Hi. exists ji. by split; [apply Hold|]. }
  split; [|done]. split; simpl.
  - intros i j [[_ <-]|[_ Hi]]%lookup_insert_Some; [done|by eapply (in_jobs _ HI)].
  - intros i j [[_ <-]|[_ Hi]]%lookup_insert_Some; [done|by eapply (in_mandates _ HI)].
  - intros i1 i2 j1 j2 key H1 H2 Hw Hk1 Hk2.
    apply lookup_insert_Some in H1 as [[<- <-]|[_ H1]], H2 as [[<- <-]|[_ H2]]; [done| | |].
    + by destruct (Hkey key i2 j2 Hk1 H2).
    + by destruct (Hkey key i1 j1 Hk2 H1).
    + by eapply (in_replay _ HI).
  - intros i j sid [[_ <-]|[_ Hi]]%lookup_insert_Some Hs; [congruence|by eapply (in_frozen _ HI)].
  - intros sid r Hr. destruct (in_snapshots _ HI sid r Hr) as (? & j & Hj & ?).
    split; [done|]. exists j. split; [by apply Hold|done].
  - intros i f r Hr. destruct (in_reports _ HI i f r Hr) as (j & Hj & Hb). exists j.
    split; [by apply Hold|]. by apply (report_bound_stable d _ f j j); auto with money.
  - intros i j [[_ <-]|[_ Hi]]%lookup_insert_Some Hl; [rewrite Hlock in Hl; by destruct Hl|].
    by apply (in_barrier _ HI).
  - intros i k a Ha. destruct (in_artifacts _ HI i k a Ha) as (j & Hj & Hb). exists j. auto.
  - intros i p Hp. destruct (in_packets _ HI i p Hp) as (j & Hj & Hs). exists j.
    split; [by apply Hold|]. destruct Hs as [(Hst & doc & Hd & Hb)|Hs]; [left|by right].
    split; [done|]. exists doc. split; [done|]. by destruct Hb.
  - intros i j [[_ <-]|[_ Hi]]%lookup_insert_Some Hs; [rewrite Hstatus in Hs; by destruct Hs|].
    by eapply (in_published _ HI).
  - intros i g Hg. destruct (in_signals _ HI i g Hg) as (j & p & doc & Hj & ?).
    exists j, p, doc. split; [by apply Hold|done].
  - apply HI.
Qed.
End new_job.
