(* ===== verification/StoreOps.v ===== *)
(** * Every operation of the store is good

    The changes one row of [jobs] goes through, then each operation of
    [Store] and [Complete]: it keeps [Inv] and only extends the records. *)

From S2P Require Import Prelude Effects PyNum PyText Contracts Demo Eligibility Governance.
From S2P Require Import Market Signals CrossExam Universe Customers Schema Store Complete StoreLogic.
From S2P Require Import StoreInv.
#[local] Open Scope Z_scope.

(** ** Row changes *)
Lemma working_spec s : working s = true ↔ terminal s = false ∧ s ≠ QUEUED.
Proof.
  unfold working. rewrite andb_true_iff, !negb_true_iff, bool_decide_eq_false. done.
Qed.
Lemma phase_running j : working (j_status j) = true →
  phase_of j = Running (j_status j) (j_attempt_count j).
Proof.
  intros [Ht Hq]%working_spec. unfold phase_of. by rewrite bool_decide_eq_false_2, Ht.
Qed.
Lemma position_running j : j_status j ≠ QUEUED → position j = j_status j.
Proof. intros Hq. unfold position. by rewrite bool_decide_eq_false_2. Qed.
(** A job with a lease is running. *)
Lemma leased_working j : job_ok j → is_Some (j_lease_token j) → terminal (j_status j) = false →
  working (j_status j) = true.
Proof.
  intros Hok [k Hk] Ht. apply working_spec. split; [done|]. intros Hq.
  pose proof (qo_token _ (jo_queued _ Hok Hq)). congruence.
Qed.

(** Releasing a running job: back to the queue while attempts remain, else failed. *)
Section release.
Context (j j' : Job) (retry : bool) (t : Z).
Context (Hok : job_ok j) (Hw : working (j_status j) = true).
Context (Hretry : retry = true → j_attempt_count j < j_max_attempts j).
Context (Hstatus : j_status j' = if retry then QUEUED else FAILED).
Context (Hstage : j_current_stage j' = j_status j').
Context (Hresume : retry = true → j_resume_stage j' = Some (j_status j)).
Context (Hdone : j_completed_at j' = if retry then None else Some t).
Context (Htoken : j_lease_token j' = None) (Huntil : j_lease_until j' = None).
Context (Hdeadline : retry = true → j_deadline_at j' = None).
Context (Hatt : j_attempt_count j' = j_attempt_count j) (Hreq : request j' = request j).
Context (Hsnap : j_snapshot_id j' = j_snapshot_id j) (Hlock : j_locked_at j' = j_locked_at j).
Context (Hstart : j_started_at j' = j_started_at j).

Lemma release_ok : job_ok j'.
Proof.
  pose proof (ro_attempts _ (jo_running _ Hok Hw)) as Ha.
  assert (j_max_attempts j' = j_max_attempts j) as Hm by (unfold request in Hreq; congruence).
  apply working_spec in Hw as [Ht Hq].
  split; try rewrite Hlock; try rewrite Hsnap; [done| | | | | | |apply Hok].
  - intros Hs. destruct retry; [|congruence]. split; rewrite ?Hdone, ?Hatt, ?Hm; auto.
    + right. specialize (Hretry eq_refl). lia.
    + rewrite Hresume by done. by apply working_spec.
  - rewrite Hstatus. by destruct retry.
  - intros Ht'. destruct retry; [by rewrite Hstatus in Ht'|].
    split; rewrite ?Hatt, ?Hm, ?Hdone; eauto.
  - intros Ht'. destruct retry; [|by rewrite Hstatus in Ht'].
    unfold position at 1. rewrite bool_decide_eq_true_2, Hresume by done. simpl.
    rewrite <- (position_running j Hq). by apply Hok.
  - rewrite Hstatus. by destruct retry.
  - intros Ht'. destruct retry; [|by rewrite Hstatus in Ht'].
    unfold position. rewrite bool_decide_eq_true_2, Hresume by done. simpl.
    rewrite <- (position_running j Hq). by apply Hok.
Qed.
Lemma release_evolves : evolves j j'.
Proof.
  split; rewrite ?Hatt, ?Hsnap, ?Hlock, ?Hstart; try apply once_refl; try done.
  - apply working_spec in Hw as [Ht _]. by rewrite Ht.
  - rewrite (phase_running j Hw). apply rtc_once. unfold phase_of. rewrite Hstatus.
    destruct retry; simpl; [rewrite Hresume, Hatt by done; constructor; auto|constructor].
Qed.
End release.

(** A running job keeps or renews its lease and moves to a later stage. *)
Lemma advance_ok j j' :
  job_ok j → working (j_status j) = true → working (j_status j') = true →
  (rank (j_status j) ≤ rank (j_status j'))%nat → j_current_stage j' = j_status j' →
  is_Some (j_lease_until j') →
  (j_lease_token j', j_worker_id j', j_deadline_at j', j_started_at j', j_completed_at j',
   j_attempt_count j', j_snapshot_id j') =
  (j_lease_token j, j_worker_id j, j_deadline_at j, j_started_at j, j_completed_at j,
   j_attempt_count j, j_snapshot_id j) →
  request j' = request j → once (j_locked_at j) (j_locked_at j') →
  (is_Some (j_locked_at j') ↔ (5 ≤ rank (j_status j'))%nat) →
  ((4 ≤ rank (j_status j'))%nat → is_Some (j_snapshot_id j)) →
  job_ok j' ∧ evolves j j'.
Proof.
  intros Hok Hw Hw' Hrank Hstage Huntil [=] Hreq Honce Hlock Hsnap.
  pose proof (jo_running _ Hok Hw) as [? ? ? ? ? ? Ha].
  pose proof Hw as [Ht Hq]%working_spec. pose proof Hw' as [Ht' Hq']%working_spec.
  assert (j_max_attempts j' = j_max_attempts j) as Hm by (unfold request in Hreq; congruence).
  split.
  - split; rewrite ?position_running by done; try done.
    + intros _. split; congruence.
    + by rewrite Ht'.
    + intros Hs. by rewrite Hs in Ht'.
    + replace (j_snapshot_id j') with (j_snapshot_id j) by done. auto.
    + intros Hl. replace (j_snapshot_id j') with (j_snapshot_id j) by done.
      apply Hsnap. apply Hlock in Hl. lia.
  - split; try done; try (by right); try lia; [by rewrite Ht|].
    rewrite !phase_running by done. replace (j_attempt_count j') with (j_attempt_count j) by done.
    apply rtc_once. by constructor.
Qed.

(** A waiting job is claimed. *)
Lemma claim_ok j worker token stamp timeout lease :
  job_ok j → j_status j = QUEUED →
  let stage := default (first_stage (j_research_kind j)) (j_resume_stage j) in
  let j' := claimed j stage worker token stamp timeout lease in
  working stage = true ∧ job_ok j' ∧ evolves j j'.
Proof.
  intros Hok Hq stage j'. destruct (jo_queued _ Hok Hq) as [_ _ _ Hc Ha Hr].
  assert (working stage = true) as Hw.
  { unfold stage. destruct (j_resume_stage j); [done|]. by destruct (j_research_kind j). }
  pose proof Hw as [Ht Hnq]%working_spec.
  assert (position j = default QUEUED (j_resume_stage j)) as Hp
    by (unfold position; by rewrite bool_decide_eq_true_2).
  assert (∀ n, (4 ≤ n)%nat → (n ≤ rank stage ↔ n ≤ rank (position j))%nat) as Hrank.
  { intros n Hn. rewrite Hp. unfold stage. destruct (j_resume_stage j); [done|]. simpl.
    destruct (j_research_kind j); vm_compute (rank _); lia. }
  split; [done|]. split.
  - split; rewrite ?position_running by done; simpl; try done.
    + intros _. split; simpl; eauto. lia.
    + by rewrite Ht.
    + intros _. rewrite Hrank by lia. apply Hok. by rewrite Hq.
    + intros Hs. by rewrite Hs in Ht.
    + intros _ Hn. apply Hok; [by rewrite Hq|]. apply Hrank; [lia|done].
    + apply Hok.
  - split; simpl; try done; try apply once_refl; [lia| |by rewrite Hq|].
    + destruct (j_started_at j); [by right|by left].
    + rewrite (phase_running j' Hw). unfold phase_of. rewrite bool_decide_eq_true_2 by done.
      apply rtc_once. apply Life_claim.
Qed.

(** A running job ends. *)
Lemma finish_ok j j' t :
  job_ok j → working (j_status j) = true → terminal (j_status j') = true →
  j_current_stage j' = j_status j' → j_completed_at j' = Some t →
  j_lease_token j' = None → j_lease_until j' = None →
  (j_attempt_count j', j_snapshot_id j', j_locked_at j', j_started_at j') =
  (j_attempt_count j, j_snapshot_id j, j_locked_at j, j_started_at j) → request j' = request j →
  (j_status j' = COMPLETE → j_status j = CONSENSUS) → job_ok j' ∧ evolves j j'.
Proof.
  intros Hok Hw Ht' Hstage Hc Htok Hunt [=] Hreq Hcons.
  pose proof (ro_attempts _ (jo_running _ Hok Hw)) as Ha.
  pose proof Hw as [Ht Hq]%working_spec.
  assert (j_max_attempts j' = j_max_attempts j) as Hm by (unfold request in Hreq; congruence).
  split.
  - split; rewrite ?Ht'; try done.
    + intros Hq'. by rewrite Hq' in Ht'.
    + intros [Hf _]%working_spec. congruence.
    + intros _. split; eauto. rewrite Hm. by replace (j_attempt_count j') with (j_attempt_count j).
    + intros Hco. replace (j_locked_at j') with (j_locked_at j) by done.
      apply (jo_locked _ Hok Ht). rewrite position_running, (Hcons Hco) by done. vm_compute. lia.
    + replace (j_locked_at j') with (j_locked_at j) by done.
      replace (j_snapshot_id j') with (j_snapshot_id j) by done. apply Hok.
  - split; try done; try (by right); try lia; [by rewrite Ht|].
    rewrite (phase_running j Hw). apply rtc_once. unfold phase_of.
    destruct (j_status j') eqn:Hs; try done; simpl.
    + rewrite Hcons by done. constructor.
    + constructor.
    + constructor.
Qed.

(** ** Good operations *)
Class Good {A} (m : M World A) : Prop :=
  good_op : ∀ d, wpd m (λ _ d', good d d') (λ _ d', good d d') d.
#[export] Hint Extern 3 (Good (match ?x with _ => _ end)) => destruct x : typeclass_instances.

(** A change that leaves the job records alone. *)
Lemma good_frame d d' :
  (t_mandates d', t_jobs d', t_snapshots d', t_reports d', t_artifacts d', t_packets d',
   t_signals d', t_sessions d') =
  (t_mandates d, t_jobs d, t_snapshots d, t_reports d, t_artifacts d, t_packets d, t_signals d,
   t_sessions d) →
  t_evidence d ⊆ t_evidence d' → t_eligibility d `prefix_of` t_eligibility d' →
  t_discoveries d `prefix_of` t_discoveries d' → t_token_usage d `prefix_of` t_token_usage d' →
  t_audit d `prefix_of` t_audit d' → good d d'.
Proof.
  intros Heq He Hl Hd Ht Ha HI. destruct d, d'; simpl in *. injection Heq as -> -> -> -> -> -> -> ->.
  split.
  - destruct HI as [I1 I2 I3 I4 I5 I6 I7 I8 I9 I10 I11 I12]; split;
      [exact I1|exact I2|exact I3|exact I4|exact I5| |exact I7|exact I8| |exact I10|exact I11|exact I12].
    + intros id f r Hr. destruct (I6 id f r Hr) as (j & Hj & [Hf Hs]). exists j. by split.
    + intros id p Hp. destruct (I9 id p Hp) as (j & Hj & [(Hs & doc & Hdoc & [])|Hs]);
        exists j; (split; [done|]); [left|by right]. split; [done|]. exists doc. by split.
  - split; simpl; try done; [|apply same_sessions]. intros id j Hj. by exists j.
Qed.
Lemma good_audit d f : good d (d <| t_audit ::= λ l, l ++ f |>).
Proof. apply good_frame; simpl; auto using prefix_app_r. Qed.

Section good.
Context `{ContentHash, Pydantic, PolicyHash, TaLib, SignalPolicyHash, CrossHash, UniverseHash}.
Context `{Env, Digests}.

#[export] Instance good_reads {A} (m : M World A) : Reads m → Good m | 100.
Proof. intros Hm d. by apply wpd_reads. Qed.
#[export] Instance good_bind {A B} (m : M World A) (f : A → M World B) :
  Good m → (∀ a, Good (f a)) → Good (m ≫= f).
Proof.
  intros Hm Hf d. apply wpd_bind. eapply wpd_mono; [apply Hm| |done]. simpl. intros a d1 Hd1.
  eapply wpd_mono; [apply Hf|intros b d2 Hd2; by etrans|intros e d2 Hd2; by etrans].
Qed.
Lemma good_transaction {A} (m : M World A) :
  (∀ d, wpd m (λ _ d', good d d') (λ _ _, True) d) → Good (transaction m).
Proof.
  intros Hm d. apply wpd_transaction. eapply wpd_mono; [apply Hm|done|]. by intros.
Qed.
#[export] Instance good_transaction_good {A} (m : M World A) : Good m → Good (transaction m).
Proof. intros Hm. apply good_transaction. intros d. eapply wpd_mono; [apply Hm|done|done]. Qed.
Lemma wpd_audit job event data Q E d :
  (∀ t, Q () (d <| t_audit ::= λ l, l ++ [mkAuditEvent job event data t] |>)) →
  wpd (audit job event data) Q E d.
Proof. intros HQ. unfold audit. apply wpd_bind, wpd_now. intros t. by apply wpd_execute. Qed.
#[export] Instance good_audit_op job event data : Good (audit job event data).
Proof. intros d. apply wpd_audit. intros t. apply good_audit. Qed.

(** ** Leases *)
Lemma lease_valid_spec c id j t1 t2 : lease_valid c id j t1 t2 = true →
  ∃ k, c = Some k ∧ c_job_id k = id ∧ j_lease_token j = Some (c_token k) ∧
       j_worker_id j = Some (c_worker_id k) ∧ terminal (j_status j) = false ∧
       null_gt (j_lease_until j) t1 = true ∧ null_le (j_deadline_at j) t2 = false.
Proof.
  unfold lease_valid. destruct c as [k|]; [|done]. intros Hv. bool_norm. exists k.
  split_and!; try done.
Qed.

Definition owned (d : DB) (id : string) (j : Job) : Prop :=
  t_jobs d !! id = Some j ∧ is_Some (j_lease_token j) ∧ terminal (j_status j) = false.
Lemma owned_working d id j : owned d id j → job_ok j → working (j_status j) = true.
Proof. intros (_ & Ht & Hs) Hok. by apply leased_working. Qed.

Lemma wpd_owned_job h id Q E d :
  (∀ j, owned d id j → Q j d) → (∀ e, E e d) → wpd (owned_job h id) Q E d.
Proof.
  intros HQ HE. unfold owned_job. do 2 (wpd_step; wpd_step; try apply HE). repeat wpd_step; try apply HE.
  apply HQ. bool_norm.
  match goal with Hv : lease_valid _ _ _ _ _ = true |- _ =>
    apply lease_valid_spec in Hv as (k & _ & _ & Ht & _ & Hs & _) end.
  split_and!; eauto.
Qed.

(** A released job, for [_expire_leases], [retry_job] and [fail_job]. *)
Lemma good_expire_row d id j t delay code msg (retry : bool) :
  t_jobs d !! id = Some j → terminal (j_status j) = false →
  (is_Some (j_lease_until j) ∨ is_Some (j_deadline_at j)) →
  (retry = true → j_attempt_count j < j_max_attempts j) →
  let status := if retry then QUEUED else FAILED in
  good d (d <| t_jobs ::= insert id (j <| j_status := status |> <| j_current_stage := status |>
    <| j_resume_stage := Some (j_status j) |>
    <| j_completed_at := if retry then None else Some t |> <| j_updated_at := t |>
    <| j_lease_token := None |> <| j_lease_until := None |> <| j_deadline_at := None |>
    <| j_available_at := Some (t + delay) |>
    <| j_error_code := Some code |> <| j_error_message := Some msg |>) |>).
Proof.
  intros Hj Ht Hl Hr status. apply (good_put_job _ _ j); try done; simpl.
  - by destruct retry.
  - by destruct retry.
  - intros Hok.
    assert (working (j_status j) = true) as Hw.
    { apply working_spec. split; [done|]. intros Hq. destruct (jo_queued _ Hok Hq) as [_ Hu Hd].
      rewrite Hu, Hd in Hl. by destruct Hl as [[]|[]]. }
    split; [eapply (release_ok j _ retry t)|eapply (release_evolves j _ retry)]; done.
Qed.

Lemma wpd_expire_lease t id j E d :
  t_jobs d !! id = Some j → terminal (j_status j) = false →
  null_le (j_lease_until j) t || null_le (j_deadline_at j) t = true →
  wpd (expire_lease t id j)
    (λ _ d', good d d' ∧ ∀ i, i ≠ id → t_jobs d' !! i = t_jobs d !! i) E d.
Proof.
  intros Hj Ht Hl. unfold expire_lease. wpd_step. unfold retry_delay. do 3 wpd_step.
  wpd_step. wpd_step. wpd_step. apply wpd_audit. intros t'. split.
  - etrans; [apply good_expire_row; try done|apply good_audit].
    + apply orb_true_iff in Hl as [Hl|Hl].
      * left. by destruct (j_lease_until j).
      * right. by destruct (j_deadline_at j).
    + intros Hr. bool_norm. lia.
  - intros i Hi. simpl. by rewrite lookup_insert_ne.
Qed.
Lemma wpd_expire_rows h only t l E d :
  NoDup l.*1 →
  (∀ id j, (id, j) ∈ l → t_jobs d !! id = Some j ∧ lease_expired h only t id j = true) →
  wpd (for_each l (λ ij, expire_lease t ij.1 ij.2)) (λ _ d', good d d') E d.
Proof.
  revert d. induction l as [|[id j] l IH]; intros d Hnd Hl; simpl; [by apply wpd_ret|].
  inversion_clear Hnd as [|?? Hni Hnd']. destruct (Hl id j) as [Hj He]; [left|].
  assert (terminal (j_status j) = false ∧
          null_le (j_lease_until j) t || null_le (j_deadline_at j) t = true) as [Ht Hle]
    by (unfold lease_expired in He; by bool_norm).
  apply wpd_bind. eapply wpd_mono; [by apply (wpd_expire_lease t id j E)| |done]. simpl.
  intros _ d1 [Hg Hframe]. eapply wpd_mono; [apply IH; [done|]|intros u d2 Hg2; by etrans|done].
  intros i ji Hi. destruct (Hl i ji) as [Hji He']; [by right|]. split; [|done].
  rewrite Hframe; [done|]. intros ->. apply Hni. apply list_elem_of_fmap. by exists (id, ji).
Qed.
#[export] Instance good_expire_leases h only : Good (expire_leases h only).
Proof.
  intros d. unfold expire_leases. repeat wpd_step. eapply (wpd_expire_rows h only).
  - eapply NoDup_fmap_2_strong; [|apply NoDup_ListNoDup, List.NoDup_filter, NoDup_ListNoDup, NoDup_map_to_list].
    intros [i1 j1] [i2 j2] [Hi1 _]%elem_of_List_filter [Hi2 _]%elem_of_List_filter. simpl.
    intros ->. apply elem_of_map_to_list in Hi1, Hi2. by simplify_eq.
  - intros id j [Hij Hp]%elem_of_List_filter. apply elem_of_map_to_list in Hij. simpl in Hp.
    by bool_norm.
Qed.

End good.

(** ** Worker operations *)

(** Stepping through an operation: the branches that raise change nothing. *)
Ltac steps := cbv zeta;
  repeat first [ progress cbv zeta | wpd_step | done
               | apply wpd_audit; intros ?
               | apply wpd_owned_job; [intros j Hown|intros ?; reflexivity] ].
Ltac body := intros d; steps.

Section operations.
Context `{ContentHash, Pydantic, PolicyHash, TaLib, SignalPolicyHash, CrossHash, UniverseHash}.
Context `{Env, Digests}.

#[export] Instance good_renew_lease h id s : Good (renew_lease h id s).
Proof.
  unfold renew_lease. body. destruct Hown as (Hj & Ht & Hs).
  apply (good_put_job _ _ j); simpl; try done; try (intros Hc; by rewrite Hc in Hs).
  intros Hok. assert (working (j_status j) = true) as Hw by (by apply leased_working).
  pose proof Hw as [_ Hq]%working_spec.
  apply advance_ok; simpl; try done; try apply once_refl; try apply Hok; eauto.
  - rewrite <- (position_running j) by done. by apply Hok.
  - rewrite <- (position_running j) by done. by apply Hok.
Qed.

#[export] Instance good_retry_job h id code : Good (retry_job h id code).
Proof.
  unfold retry_job. body. etrans; [|apply good_audit]. destruct Hown as (Hj & Ht & Hs).
  apply (good_put_job _ _ j); try done; simpl; [by case_match..|].
  intros Hok. assert (working (j_status j) = true) as Hw by (by apply leased_working).
  split; [eapply (release_ok j _ (j_attempt_count j <? j_max_attempts j))
         |eapply (release_evolves j _ (j_attempt_count j <? j_max_attempts j))]; try done;
    intros Hr; by bool_norm.
Qed.
#[export] Instance good_fail_job h id code message : Good (fail_job h id code message).
Proof.
  unfold fail_job. body. etrans; [|apply good_audit]. destruct Hown as (Hj & Ht & Hs).
  apply (good_put_job _ _ j); try done; simpl.
  intros Hok. eapply finish_ok; try done. by apply leased_working.
Qed.

Lemma parse_stage_working s stage :
  parse_stage s = Some stage → mem stage [QUEUED; FIRST_PASS_LOCKED; COMPLETE] = false →
  working stage = true.
Proof.
  unfold parse_stage. intros [Hin _]%List.find_some Hm. simpl in Hin.
  repeat destruct Hin as [<-|Hin]; by vm_compute in Hm.
Qed.
Lemma stage_index_rank s n : stage_index s = Some n → rank s = n.
Proof. unfold rank. by intros ->. Qed.

#[export] Instance good_update_stage h id status fields : Good (update_stage h id status fields).
Proof.
  unfold update_stage. destruct (parse_stage status) as [stage|] eqn:Hp; body.
  match goal with Hm : mem _ _ = false |- _ =>
    pose proof (parse_stage_working _ _ Hp Hm) as Hw; rename Hm into Hmem end.
  repeat match goal with Hi : stage_index _ = Some _ |- _ => apply stage_index_rank in Hi; subst end.
  etrans; [apply good_audit|]. destruct Hown as (Hj & Ht & Hs).
  pose proof Hw as [Hns Hnq]%working_spec.
  apply (good_put_job _ _ j); try done; simpl; [by intros ->..|].
  intros Hok. assert (working (j_status j) = true) as Hwj by (by apply leased_working).
  pose proof Hwj as [_ Hq]%working_spec.
  assert (5 ≤ rank (j_status j) ↔ is_Some (j_locked_at j))%nat as Hlock.
  { rewrite <- (position_running j) by done. symmetry. by apply Hok. }
  assert ((5 ≤ rank stage)%nat → (5 < rank stage)%nat) as Hgap.
  { destruct stage; vm_compute; try lia. by vm_compute in Hmem. }
  assert (rank (j_status j) ≤ rank stage)%nat as Hle by (by apply Nat.ltb_ge).
  assert (is_Some (j_locked_at j) ↔ (5 ≤ rank stage)%nat) as Hlk.
  { split; [intros Hl%Hlock; lia|]. intros Hr%Hgap. apply Nat.ltb_lt in Hr.
    destruct (j_locked_at j); [eauto|]. rewrite Hr in *. done. }
  apply advance_ok; simpl; try done; try apply once_refl.
  - by destruct (jo_running _ Hok Hwj).
  - intros Hr. destruct (decide (stage = FIRST_PASS_RESEARCH)) as [->|Hne].
    + destruct (j_snapshot_id j); [eauto|done].
    + apply (jo_frozen _ Hok), Hlk. destruct stage; vm_compute in Hr; vm_compute; lia || done.
Qed.

(** Sequencing after a good operation. *)
Lemma wpd_good {A} (m : M World A) Q (E : exn → DB → Prop) d0 d :
  Good m → good d0 d → (∀ a d1, good d0 d1 → Q a d1) → (∀ e d1, good d0 d1 → E e d1) →
  wpd m Q E d.
Proof.
  intros Hm Hd HQ HE. eapply wpd_mono; [apply Hm|intros a d1 Hd1; apply HQ; by etrans|].
  intros e d1 Hd1. apply HE. by etrans.
Qed.

#[export] Instance good_claim_job h worker lease timeout kind only :
  Good (claim_job h worker lease timeout kind only).
Proof.
  unfold claim_job. body.
  apply (wpd_good _ _ _ d); [apply _|done| |done]. intros [] d1 Hd1.
  do 3 wpd_step. wpd_step. destruct (min_by _ _) as [[id j]|] eqn:Hmin; [|by apply wpd_ret].
  apply min_by_elem, elem_of_List_filter in Hmin as [Hj%elem_of_map_to_list Hc].
  unfold claimable in Hc. simpl in Hc.
  apply andb_true_iff in Hc as [[[[[Hq Hk]%andb_true_iff _]%andb_true_iff _]%andb_true_iff _]%andb_true_iff _].
  apply bool_decide_eq_true in Hq, Hk. do 7 wpd_step. wpd_step. wpd_step. apply wpd_audit.
  intros ?. wpd_step. etrans; [done|]. etrans; [|apply good_audit]. subst kind. intros HI.
  pose proof (in_jobs _ HI _ _ Hj) as Hok.
  destruct (claim_ok j worker s t timeout lease Hok Hq) as (Hw & _).
  apply working_spec in Hw as [Hw _].
  apply (good_put_job _ _ j); try done; simpl; [by rewrite Hq|by intros He; rewrite He in Hw..|].
  intros _. by apply claim_ok.
Qed.

(** ** Sealing the first pass *)
Lemma validate_report_id r r' : validate_report r = inr r' → r' = r.
Proof.
  unfold validate_report, cited_analysis. intros (_ & _ & Hr)%res_bind_inr.
  destruct (fr_analysis r); [apply res_bind_inr in Hr as (_ & _ & Hr)|]; by injection Hr.
Qed.
Lemma validate_snapshot_firms s s' :
  validate_snapshot s = inr s' → snapshot_required_firms s' = snapshot_required_firms s.
Proof.
  unfold validate_snapshot, freeze_facts. intros Hs.
  apply res_bind_inr in Hs as (_ & _ & Hs). apply res_bind_inr in Hs as (i & _ & Hs).
  apply res_bind_inr in Hs as (e & _ & Hs).
  repeat (apply res_bind_inr in Hs as (_ & _ & Hs)). by injection Hs as <-.
Qed.

#[export] Instance good_save_report h id firm report : Good (save_report h id firm report).
Proof.
  unfold save_report. body. bool_norm. destruct Hown as (Hj & _ & _).
  match goal with Hv : _ = inr a0 |- _ =>
    apply res_bind_inr in Hv as (_ & Hf%require_inr & Hv%validate_report_id) end.
  match goal with Hs : validate_snapshot _ = inr _ |- _ => apply validate_snapshot_firms in Hs as Hreq end.
  match goal with Hc : existsb _ _ = false |- _ => rename Hc into Hclaims end.
  apply wpd_catch. wpd_step; [|by apply wpd_raise]. apply wpd_audit. intros ?.
  etrans; [|apply good_audit]. apply (good_put_report _ _ _ _ j); try done; simpl.
  { by destruct (j_locked_at j). }
  subst a0. bool_norm. split; [done|]. exists a1. split_and!; try done; [congruence|].
  intros c e Hc He. pose proof (proj1 (existsb_false _ _) Hclaims c Hc) as Hsub%negb_false_iff.
  by apply (proj1 (subset_of_spec _ _) Hsub).
Qed.

Lemma good_lock d id j s t u :
  owned d id j → frozen_snapshot d j = Some s → j_status j = FIRST_PASS_RESEARCH →
  (∀ f, f ∈ sealed_firms d id ↔ f ∈ snapshot_required_firms s) →
  good d (d <| t_jobs ::= insert id (j <| j_status := FIRST_PASS_LOCKED |>
    <| j_current_stage := FIRST_PASS_LOCKED |> <| j_locked_at := Some t |>
    <| j_updated_at := u |>) |>).
Proof.
  intros Hown Hs Hst Hfirms HI. destruct Hown as (Hj & Htok & Hterm).
  pose proof (in_jobs _ HI _ _ Hj) as Hok. set (j' := updater j_updated_at _ _).
  assert (j_locked_at j = None) as Hnl.
  { destruct (j_locked_at j) eqn:Hl; [|done]. exfalso.
    pose proof (proj1 (jo_locked _ Hok Hterm) ltac:(eauto)) as Hr.
    rewrite position_running, Hst in Hr by (by rewrite Hst). vm_compute in Hr. lia. }
  assert (job_ok j' ∧ evolves j j') as [Hok' Hev].
  { assert (working (j_status j) = true) as Hw by (by rewrite Hst).
    apply advance_ok; simpl; try done.
    - rewrite Hst. vm_compute. lia.
    - by apply (jo_running _ Hok Hw).
    - by left.
    - intros _. unfold frozen_snapshot in Hs. destruct (j_snapshot_id j); [eauto|done]. }
  assert (Extends d (d <| t_jobs ::= insert id j' |>)) as HE.
  { split; simpl; try done; [|apply same_sessions]. intros i ji Hi. destruct (decide (i = id)) as [->|Hne].
    - exists j'. rewrite lookup_insert_eq. by simplify_eq.
    - exists ji. by rewrite lookup_insert_ne. }
  split; [|done]. eapply (change_inv d _ id j j'); [done..|]. split; simpl; try done; auto.
  - intros sid Hsid. by eapply (in_frozen _ HI).
  - intros _. exists s. split; [done|]. intros f. by rewrite <- elem_of_sealed_firms.
  - by intros [?|?].
Qed.
#[export] Instance good_lock_first_pass h id : Good (lock_first_pass h id).
Proof.
  unfold lock_first_pass. body; bool_norm; [|done].
  match goal with Hv : validate_snapshot r = inr _ |- _ => apply validate_snapshot_firms in Hv as Hreq end.
  etrans; [|apply good_audit]. apply (good_lock d id j r); try done.
  intros f. rewrite <- Hreq. revert f. by apply same_set_spec.
Qed.

(** ** Snapshots and artifacts *)
#[export] Instance reads_verify_universe_context s raw : Reads (verify_universe_context s raw).
Proof. unfold verify_universe_context. cbv zeta. apply _. Qed.

Lemma good_freeze d id j s t e :
  owned d id j → j_status j = SNAPSHOT_BUILD → j_snapshot_id j = None →
  rs_ticker s = j_ticker j → t_snapshots d !! rs_snapshot_id s = None → t_evidence d ⊆ e →
  good d (d <| t_snapshots ::= insert (rs_snapshot_id s) (mkSnapshotRow id s t) |>
            <| t_evidence := e |>
            <| t_jobs ::= insert id (j <| j_snapshot_id := Some (rs_snapshot_id s) |>) |>).
Proof.
  intros Hown Hst Hnone Htick Hnew He HI. destruct Hown as (Hj & Htok & Hterm).
  pose proof (in_jobs _ HI _ _ Hj) as Hok. set (j' := j <| j_snapshot_id := _ |>).
  set (d' := updater t_jobs _ _).
  assert (j_locked_at j = None) as Hnl.
  { destruct (j_locked_at j) eqn:Hl; [|done]. exfalso.
    pose proof (jo_frozen _ Hok ltac:(eauto)) as [? ?]. congruence. }
  assert (job_ok j') as Hok'.
  { destruct Hok as [O1 O2 O3 O4 O5 O6 O7 O8]. split; simpl; try done; eauto.
    - intros Hq. congruence.
    - intros Hw. by destruct (O3 Hw).
    - congruence. }
  assert (evolves j j') as Hev.
  { split; simpl; try done; try apply once_refl; [by left|congruence]. }
  assert (Extends d d') as HE.
  { split; simpl; try done; auto using same_sessions with money. intros i ji Hi. destruct (decide (i = id)) as [->|Hne].
    - exists j'. rewrite lookup_insert_eq. by simplify_eq.
    - exists ji. by rewrite lookup_insert_ne. }
  split; [|done]. eapply (change_inv d _ id j j'); [done..|]. split; simpl; try done; auto.
  - intros sid [= <-]. rewrite lookup_insert_eq. by eexists.
  - intros sid r [[<- <-]|[_ Hr]]%lookup_insert_Some; [by right|by left].
  - rewrite Hnl. by intros [? ?].
  - rewrite Hst. by intros [?|?].
Qed.
(** The loop over the evidence only adds evidence rows. *)
Lemma wpd_put_evidence id l d1 Q (E : exn → DB → Prop) :
  (∀ e, t_evidence d1 ⊆ e → Q () (d1 <| t_evidence := e |>)) → (∀ x d, E x d) →
  wpd (for_each l (λ e,
      t ← now_utc;
      insert_unique t_evidence (evidence_key id (ev_evidence_id e))
        (λ d, d <| t_evidence ::= insert (evidence_key id (ev_evidence_id e))
                                    (mkEvidenceRow id e t) |>))) Q E d1.
Proof.
  intros HQ HE.
  apply (wpd_for_each (λ d, ∃ e, t_evidence d1 ⊆ e ∧ d = d1 <| t_evidence := e |>)).
  - exists (t_evidence d1). split; [done|]. by destruct d1.
  - intros x d Hx (e & He & ->). wpd_step. wpd_step. wpd_step; [|done].
    eexists. split; [|done]. etrans; [apply He|]. by apply insert_subseteq.
  - intros d (e & He & ->). by apply HQ.
Qed.
#[export] Instance good_save_snapshot h id snapshot : Good (save_snapshot h id snapshot).
Proof.
  unfold save_snapshot. body.
  1: apply wpd_reads; [apply _| |done]; intros []; steps.
  all: apply wpd_put_evidence; [|done]; simpl; intros ev Hev; wpd_step; unfold put_job; wpd_step;
    apply wpd_audit; intros ?; etrans; [|apply good_audit]; bool_norm;
    apply good_freeze; try done; by destruct (j_snapshot_id j).
Qed.

Lemma wpd_put_artifact id kind v j Q (E : exn → DB → Prop) d0 d :
  good d0 d → t_jobs d !! id = Some j → kind ∈ EARLY_KINDS ∨ is_Some (j_locked_at j) →
  (∀ d', good d0 d' → t_jobs d' = t_jobs d → Q () d') → (∀ e d', E e d') →
  wpd (put_artifact id kind v) Q E d.
Proof.
  intros Hd Hj Hk HQ HE. unfold put_artifact. wpd_step. wpd_step. wpd_step; [|done].
  apply HQ; [|done]. etrans; [done|]. by apply (good_put_artifact _ _ _ _ j).
Qed.
#[export] Instance good_put_record kind id v : Good (put_record kind id v).
Proof.
  unfold put_record. body. repeat case_bool_decide; apply good_frame; simpl; auto using prefix_app_r.
Qed.
Lemma artifact_allowed kind j :
  negb (mem kind EARLY_KINDS) && negb (is_set (j_locked_at j)) = false →
  kind ∈ EARLY_KINDS ∨ is_Some (j_locked_at j).
Proof.
  rewrite andb_false_iff, !negb_false_iff. intros [Hk|Hl]; [left|right].
  - by apply mem_spec.
  - destruct (j_locked_at j); [eauto|done].
Qed.
#[export] Instance good_save_artifact h id kind value : Good (save_artifact h id kind value).
Proof.
  unfold save_artifact. body; destruct Hown as (Hj & _ & _).
  all: apply (wpd_put_artifact _ _ _ j _ _ d); [done|done|by apply artifact_allowed| |done].
  all: intros d1 Hd1 _; wpd_step; [|by wpd_step].
  all: by apply (wpd_good _ _ _ d); [apply _|..].
Qed.

#[export] Instance good_save_cio_artifacts h id a r runtime :
  Good (save_cio_artifacts h id a r runtime).
Proof.
  unfold save_cio_artifacts. body. destruct Hown as (Hj & _ & _).
  assert (is_Some (j_locked_at j)) as Hl by (bool_norm; destruct (j_locked_at j); [eauto|done]).
  apply (wpd_for_each (λ d1, good d d1 ∧ t_jobs d1 = t_jobs d)); [done| |].
  - intros kv d1 _ [Hd1 Hjobs]. apply (wpd_put_artifact _ _ _ j _ _ d); try done; [|by right|].
    + by rewrite Hjobs.
    + intros d2 Hd2 Heq. split; [done|congruence].
  - intros d1 [Hd1 _]. apply wpd_audit. intros ?. etrans; [done|apply good_audit].
Qed.

(** ** Enqueue and reads *)
#[export] Instance good_get_job h id : Good (get_job h id).
Proof. unfold get_job. apply _. Qed.
#[export] Instance good_map_m {A B} (f : A → M World B) l :
  (∀ x, Good (f x)) → Good (map_m f l).
Proof. intros Hf. induction l as [|x l IH]; simpl; apply _. Qed.
#[export] Instance good_list_jobs h limit : Good (list_jobs h limit).
Proof. unfold list_jobs, shown_state. apply _. Qed.

(** The admission callback of [create_job] writes the usage record of its own job
    and the customer's own records only, and no identity. *)
Definition admits (id : string) (d d' : DB) : Prop :=
  d' = d <| t_usage := t_usage d' |> <| t_customers := t_customers d' |> ∧
  tenant (t_customers d') = tenant (t_customers d) ∧
  ∀ x, x ≠ id → t_usage d' !! x = t_usage d !! x.
Definition admits_usage (o : EnqueueOptions) : Prop :=
  ∀ callback id, eq_admission o = Some callback → ∀ d,
    wpd (callback id) (λ _ d', admits id d d') (λ _ _, True) d.

Lemma new_job_ok ticker kind mid workspace key hash limit stamp :
  job_ok (new_job ticker kind mid workspace key hash limit stamp).
Proof.
  split; simpl; try done.
  - intros _. split; simpl; auto.
  - intros _. split; [by intros [? ?]|vm_compute; lia].
  - intros _ Hr. vm_compute in Hr. lia.
Qed.
Lemma find_replay_none d workspace key i j :
  find_replay d workspace key = None → t_jobs d !! i = Some j → j_workspace_id j = workspace →
  j_idempotency_key j ≠ Some key.
Proof.
  unfold find_replay. intros Hf Hj Hw Hk.
  apply elem_of_map_to_list, list_elem_of_In in Hj.
  pose proof (List.find_none _ _ Hf _ Hj) as Hn. simpl in Hn.
  by rewrite !bool_decide_eq_true_2 in Hn.
Qed.
Lemma good_usage id d d' : admits id d d' → good d d'.
Proof. intros [Heq _]. apply good_frame; rewrite Heq; simpl; done. Qed.

Lemma wpd_enqueue h ticker mandate o stamp job_id mid d :
  admits_usage o →
  wpd (enqueue h ticker mandate o stamp job_id mid) (λ _ d', good d d') (λ _ _, True) d.
Proof.
  intros Hadm. unfold enqueue. wpd_step. wpd_step.
  destruct (eq_idempotency_key o ≫= find_replay d (workspace_or_private h)) as [[id j]|] eqn:Hf;
    [by steps|].
  do 4 (wpd_step; wpd_step; try done). wpd_step. wpd_step; [|done]. wpd_step. wpd_step; [|done].
  set (row := new_job _ _ _ _ _ _ _ _). set (d2 := updater t_jobs _ _).
  assert (good d d2) as Hg.
  { etrans; [by apply good_put_mandate|]. apply good_put_new_job; try done.
    - apply new_job_ok.
    - simpl. rewrite lookup_insert_eq. eauto.
    - simpl. intros key i j Hkey Hj Hw. rewrite Hkey in Hf. simpl in Hf.
      by eapply find_replay_none. }
  wpd_step.
  assert (∀ d3, good d d3 → wpd (audit (Some job_id) "JOB_ENQUEUED" [] ;; mret (inr job_id))
    (λ (_ : JobView + string) d', good d d') (λ _ _, True) d3) as Hrest.
  { intros d3 Hd3. wpd_step. apply wpd_audit. intros ?. wpd_step. etrans; [done|apply good_audit]. }
  destruct (eq_admission o) as [callback|] eqn:Ha; [|by apply wpd_ret, Hrest].
  eapply wpd_mono; [by apply (Hadm callback job_id)| |done]. simpl. intros [] d3 Hd3.
  apply Hrest. etrans; [done|by eapply good_usage].
Qed.
Lemma good_create_job h ticker mandate o : admits_usage o → Good (create_job h ticker mandate o).
Proof.
  intros Ho. unfold create_job. repeat (apply good_bind; [apply _|intros ?]).
  apply good_bind; [|intros [r|i]; apply _]. apply good_transaction. intros d. by apply wpd_enqueue.
Qed.

(** ** Publication *)
(** What must hold for a packet to be stored with a terminal status. *)
Definition publishable (d : DB) (id : string) (j : Job) (status : JobStatus) (data : PacketValue)
    : Prop :=
  (status = COMPLETE ∧ j_status j = CONSENSUS ∧ ∃ doc, data = PacketDoc doc ∧ packet_bound d id j doc) ∨
  (status = REJECTED ∧ packet_final_state data = JStr "REJECT" ∧ has_signal data = false).

Lemma packet_bound_row d d' id j j' p :
  packet_bound d id j p → t_mandates d' = t_mandates d → t_reports d' = t_reports d →
  t_snapshots d' = t_snapshots d → t_artifacts d' = t_artifacts d →
  j_snapshot_id j' = j_snapshot_id j → request j' = request j → packet_bound d' id j' p.
Proof.
  intros [P1 P2 P3 P4 P5 P6 P7 P8 P9] Hm Hr Hs Ha Hsid [=].
  assert (∀ x y, artifact d x y = artifact d' x y) as Hart by (unfold artifact; by rewrite Ha).
  rewrite Hart in P6, P7, P8, P9. split; try done; try congruence.
  destruct P5 as (s & Hf & P5). exists s. unfold frozen_snapshot in *. by rewrite Hsid, Hs.
Qed.

Section publish.
Context (d : DB) (id : string) (j : Job) (status : JobStatus) (data : PacketValue).
Context (tp t1 t2 : Z) (signals : gmap string SignalRow).
Context (Hown : owned d id j) (Hnew : t_packets d !! id = None).
Context (Hpub : publishable d id j status data).
Context (Hsignals : signals = t_signals d ∨
  ∃ g ts, packet_signal data = inl (Some g) ∧ t_signals d !! id = None ∧
          signals = <[id := mkSignalRow g (sg_valid_until g) ts]> (t_signals d)).
Let row : Job := j <| j_status := status |> <| j_current_stage := status |>
    <| j_completed_at := Some t1 |> <| j_updated_at := t2 |> <| j_lease_token := None |>
    <| j_lease_until := None |>.
Let d' : DB := d <| t_packets ::= insert id (mkPacketRow data (digest_packet data) tp) |>
  <| t_signals := signals |> <| t_jobs ::= insert id row |>.

Lemma publish_row : job_ok j → job_ok row ∧ evolves j row.
Proof.
  intros Hok. apply (finish_ok j row t1); simpl; try done.
  - by eapply owned_working.
  - by destruct Hpub as [(-> & _)|(-> & _)].
  - destruct Hpub as [(_ & Hc & _)|(-> & _)]; done.
Qed.
Lemma publish_extends : job_ok j → Extends d d'.
Proof.
  intros Hok. destruct (publish_row Hok) as [_ Hev]. split; simpl; try done.
  - intros i ji Hi. destruct (decide (i = id)) as [Hid|Hne].
    + exists row. rewrite Hid, lookup_insert_eq. split; [done|].
      destruct Hown as [Hj _]. rewrite Hid, Hj in Hi. by injection Hi as <-.
    + exists ji. by rewrite lookup_insert_ne.
  - by apply insert_subseteq.
  - destruct Hsignals as [Hsg|(g & ts & _ & Hn & Hsg)]; rewrite Hsg; [done|].
    by apply insert_subseteq.
  - apply same_sessions.
Qed.
Lemma good_publish_rows : good d d'.
Proof.
  intros HI. destruct Hown as (Hj & Htok & Hterm).
  pose proof (in_jobs _ HI _ _ Hj) as Hok. destruct (publish_row Hok) as [Hok' _].
  pose proof (publish_extends Hok) as HE. split; [|done].
  eapply (change_inv d _ id j row); [done..|]. split; simpl; try done.
  - intros sid Hs. exact (in_frozen _ HI id j sid Hj Hs).
  - auto.
  - exact (in_barrier _ HI id j Hj).
  - intros i p [[Hid Hp]|[_ Hp]]%lookup_insert_Some; [right|by left]. rewrite <- Hp. simpl.
    split; [done|]. destruct Hpub as [(Hs & _ & doc & Hd & Hb)|(Hs & Hf & _)]; [left|by right].
    split; [done|]. exists doc. split; [done|]. by eapply packet_bound_row.
  - intros _. rewrite lookup_insert_eq. eauto.
  - intros i g Hg. destruct Hsignals as [Hsg|(g' & ts & Hps & _ & Hsg)]; rewrite Hsg in Hg; [by left|].
    apply lookup_insert_Some in Hg as [[Hid Hg]|[_ Hg]]; [right|by left].
    split; [done|]. destruct Hpub as [(Hs & _ & doc & Hd & _)|(_ & _ & Hno)].
    + split; [done|]. rewrite lookup_insert_eq. eexists _, doc. split; [done|]. simpl.
      split; [done|]. rewrite Hd in Hps. simpl in Hps. rewrite <- Hg. simpl. split; congruence.
    + unfold has_signal in Hno. by rewrite Hps in Hno.
Qed.
End publish.

#[export] Instance good_put_alert job workspace event key message c t :
  Good (put_alert job workspace event key message c t).
Proof. unfold put_alert. body. by apply good_frame. Qed.
Lemma wpd_publish id j status data d :
  owned d id j → publishable d id j status data →
  wpd (publish id j status data) (λ _ d', good d d') (λ _ _, True) d.
Proof.
  intros Hown Hpub. unfold publish. do 3 wpd_step. wpd_step; [|done]. wpd_step.
  set (d1 := updater t_packets _ d).
  assert (∀ sg, (sg = t_signals d ∨ ∃ g ts, packet_signal data = inl (Some g) ∧
      t_signals d !! id = None ∧ sg = <[id := mkSignalRow g (sg_valid_until g) ts]> (t_signals d)) →
    wpd (t1 ← now_utc; t2 ← now_utc;
         put_job id (j <| j_status := status |> <| j_current_stage := status |>
           <| j_completed_at := Some t1 |> <| j_updated_at := t2 |> <| j_lease_token := None |>
           <| j_lease_until := None |>) ;;
         audit (Some id) "DECISION_PERSISTED" [("final_state", packet_final_state data)] ;;
         t3 ← now_utc; t4 ← now_utc;
         put_alert id (j_workspace_id j) "RESEARCH_COMPLETED" "decision"
           "Research is complete and available for human review." t3 t4)
      (λ _ d', good d d') (λ _ _, True) (d1 <| t_signals := sg |>)) as Hrest.
  { intros sg Hsg. repeat wpd_step. apply (wpd_good _ _ _ d); [apply _| |done|done].
    etrans; [|apply good_audit]. by apply good_publish_rows. }
  destruct (packet_signal data) as [[g|]|b] eqn:Hps.
  - do 2 wpd_step. wpd_step; [|done]. apply Hrest. right. by eexists _, _.
  - wpd_step. apply (Hrest (t_signals d1)). by left.
  - wpd_step. apply (Hrest (t_signals d1)). by left.
Qed.

Lemma wpd_check_sealed id j p Q (E : exn → DB → Prop) d :
  t_jobs d !! id = Some j →
  (∀ s, packet_bound d id j p → j_status j = CONSENSUS → frozen_snapshot d j = Some s → Q s d) →
  (∀ e, E e d) → wpd (check_sealed id j p) Q E d.
Proof.
  intros Hj HQ HE. unfold check_sealed. steps; bool_norm; try apply HE.
  match goal with Hr : reports_by_firm _ = _ |- _ => rename Hr into Hrep end.
  apply HQ; [|done..]. split; try done.
  - intros f. by rewrite Hrep, stored_reports_lookup.
  - eexists. split_and!; done.
  - destruct (artifact d id "lean") as [[]|]; try done. by bool_norm; subst.
  - destruct (artifact d id "audit") as [[]|]; try done. by bool_norm; subst.
  - destruct (artifact d id "red_team") as [[]|]; try done. by bool_norm; subst.
  - destruct (artifact d id "independence") as [[]|]; try done. by bool_norm; subst.
Qed.
#[export] Instance reads_check_cross id s p : Reads (check_cross id s p).
Proof. unfold check_cross. apply _. Qed.
#[export] Instance reads_check_design id s p state reasons : Reads (check_design id s p state reasons).
Proof. unfold check_design. cbv zeta. apply _. Qed.

(** ** What [complete_job] derives before it publishes *)

(** The state and reasons a packet may carry, given the sealed design. *)
Definition design_outcome (d : DB) (id : string) (s : ResearchSnapshot) (p : DecisionPacket)
    (state : ResearchState) (reasons : list string) (final : ResearchState * list string) : Prop :=
  match artifact d id "signal_design" with
  | None => dp_signal p = None ∧ final = (state, reasons)
  | Some (ArtDesign x) => ∃ design, validate_design x = inr design ∧
      match sd_signal design with
      | Some g => final = (state, reasons) ∧
          ∃ t policy quality costs designed again,
            sd_policy design = Some policy ∧ sd_market_quality design = Some quality ∧
            sd_cost_applicability design = Some costs ∧ sd_designed_at design = Some designed ∧
            designed ≤ dp_issued_at p ∧ t < sg_valid_until g ∧
            generate_signal id (dp_mandate p) s (dp_reports p) (dp_lean p) (dp_audit p)
              (dp_red_team p) state designed quality costs (Some policy)
              (dp_cross_examination_rounds p) = inr again ∧
            same_design again design = true ∧ same_opt same_signal (dp_signal p) (Some g) = true
      | None => dp_signal p = None ∧
          if mem state [RESEARCH_CANDIDATE; WATCH]
          then sd_reasons design ≠ [] ∧ subset_of (sd_reasons design) DOWNGRADE_REASONS = true ∧
               final = (INSUFFICIENT_EVIDENCE, sd_reasons design)
          else final = (state, reasons)
      end
  | Some _ => False
  end.
Definition derived (d : DB) (id : string) (j : Job) (p : DecisionPacket) : Prop :=
  ∃ frozen s disagreement t state reasons,
    frozen_snapshot d j = Some frozen ∧ validate_snapshot frozen = inr s ∧
    rs_usage_mode s ≠ PERSONAL_RESEARCH ∧
    evidence_independence s (dp_reports p) = inr (dp_independence p) ∧
    consensus (dp_mandate p) s (dp_reports p) (dp_lean p) (dp_audit p) (dp_red_team p)
      (dp_independence p) t (dp_cross_examination_rounds p) disagreement = inr (state, reasons) ∧
    design_outcome d id s p state reasons (dp_final_state p, dp_reasons p).

Lemma wpd_check_design id s p state reasons Q (E : exn → DB → Prop) d :
  (∀ final, design_outcome d id s p state reasons final → Q final d) → (∀ e, E e d) →
  wpd (check_design id s p state reasons) Q E d.
Proof.
  intros HQ HE. unfold check_design. wpd_step. wpd_step. unfold design_outcome in HQ.
  destruct (artifact d id "signal_design") as [[| | | | | |x|]|]; steps; try apply HE.
  all: apply HQ; bool_norm; try (exists a; split; [done|]; rewrite Heqo);
    (split; [done || by destruct (dp_signal p)|done || idtac]).
  by eexists _, _, _, _, _, _.
Qed.
Lemma wpd_check_complete id j p Q (E : exn → DB → Prop) d :
  t_jobs d !! id = Some j →
  (packet_bound d id j p → j_status j = CONSENSUS → derived d id j p → Q () d) →
  (∀ e, E e d) → wpd (check_complete id j p) Q E d.
Proof.
  intros Hj HQ HE. unfold check_complete. wpd_step. apply wpd_check_sealed; [done| |done].
  intros frozen Hb Hst Hf. steps; try apply HE.
  apply wpd_reads; [apply _| |done]. intros []. steps; try apply HE.
  apply wpd_reads; [apply _| |done]. intros disagreement. steps; try apply HE.
  apply wpd_check_design; [|done]. intros final Hout. apply wpd_raise_if; intros Hfin; [apply HE|].
  bool_norm. subst. apply HQ; try done.
  eexists frozen, a, disagreement, _, _, _. rewrite <- surjective_pairing. by split_and!.
Qed.

#[export] Instance good_complete_job h id packet state : Good (complete_job h id packet state).
Proof.
  unfold complete_job. body; try (by apply wpd_reads).
  - apply wpd_check_complete; [by destruct Hown| |done]. intros Hb Hst _. steps.
    eapply wpd_mono; [apply wpd_publish; [done|]|done|done]. left. by eauto.
  - eapply wpd_mono; [apply wpd_publish; [done|]|done|done]. right. bool_norm.
    split_and!; try done. by destruct (packet_final_state packet); try done; simpl in *; bool_norm; subst.
Qed.

(** ** Health, invalidation, rate limits and sessions *)
#[export] Instance good_heartbeat worker mode healthy : Good (heartbeat worker mode healthy).
Proof. unfold heartbeat. body; by apply good_frame. Qed.
#[export] Instance good_invalidate_signal h id reason e : Good (invalidate_signal h id reason e).
Proof.
  unfold invalidate_signal. body. destruct (_ ≫= _), (t_signals d !! id); steps.
  apply (wpd_good _ _ _ d); [apply _|apply good_audit|done|done].
Qed.
#[export] Instance good_consume_rate_limit h key limit window :
  Good (consume_rate_limit h key limit window).
Proof. unfold consume_rate_limit. body; by apply good_frame. Qed.
Lemma good_put_session d k s :
  se_created_at s < se_expires_at s ≤ se_created_at s + hours 8 + seconds 5 →
  (∀ s0, t_sessions d !! k = Some s0 → session_evolves s0 s) →
  good d (d <| t_sessions ::= insert k s |>).
Proof.
  intros Hs Hold HI. split.
  2: { split; simpl; try done; [intros i ji Hi; by exists ji|]. intros i si Hi.
    destruct (decide (i = k)) as [->|Hne]; [exists s|exists si].
    - rewrite lookup_insert_eq. auto.
    - rewrite lookup_insert_ne by done. split; [done|]. by split; [|right]. }
  destruct HI as [I1 I2 I3 I4 I5 I6 I7 I8 I9 I10 I11 I12].
  split; [exact I1|exact I2|exact I3|exact I4|exact I5| |exact I7|exact I8| |exact I10|exact I11|].
  - intros id f r Hr. destruct (I6 id f r Hr) as (j & Hj & [Hf Hsn]). exists j. by split.
  - intros id p Hp. destruct (I9 id p Hp) as (j & Hj & [(Hst & doc & Hdoc & [])|Hst]);
      exists j; (split; [done|]); [left|by right]. split; [done|]. exists doc. by split.
  - simpl. intros i si [[_ <-]|[_ Hi]]%lookup_insert_Some; [done|by eapply I12].
Qed.
#[export] Instance good_create_session h token version expires :
  Good (create_session h token version expires).
Proof.
  unfold create_session. body. etrans; [|apply good_audit]. apply good_put_session; simpl.
  - bool_norm. lia.
  - intros s0 Hs0. congruence.
Qed.
#[export] Instance good_revoke_session h token version : Good (revoke_session h token version).
Proof.
  unfold revoke_session. body. etrans; [|apply good_audit].
  destruct (t_sessions d !! token) as [s|] eqn:Hs; [|done]. case_match eqn:Hm; [|done].
  intros HI. apply good_put_session; [|..|exact HI]; [exact (in_sessions _ HI token s Hs)|].
  intros s0 Hs0. assert (s0 = s) as -> by congruence. split; [done|]. left.
  unfold session_matches in Hm. bool_norm. by destruct (se_revoked_at s).
Qed.
#[export] Instance good_get_reports h id : Good (get_reports h id).
Proof. unfold get_reports. apply _. Qed.
#[export] Instance good_public_reports h id : Good (public_reports h id).
Proof. unfold public_reports. apply _. Qed.
#[export] Instance good_get_evidence h id : Good (get_evidence h id).
Proof. unfold get_evidence. apply _. Qed.
End operations.
