(* ===== verification/Frames.v ===== *)
(** * What an operation leaves alone

    [Respects R m]: every run of [m], returning or raising, relates the
    databases before and after by the preorder [R]. [aside] is the relation the
    store's own operations satisfy on the tables of the other components: token
    reservations, call accounting and provider circuits are untouched, and the
    outbox only gains web notifications that are already delivered. *)

From S2P Require Import Prelude Effects PyNum PyText Contracts Demo Eligibility Governance.
From S2P Require Import Market Signals CrossExam Universe Customers Schema Store Complete StoreLogic.
From S2P Require Import StoreInv StoreOps.
#[local] Open Scope Z_scope.

Class Respects (R : DB → DB → Prop) {A} (m : M World A) : Prop :=
  respects : ∀ d, wpd m (λ _ d', R d d') (λ _ d', R d d') d.
(** A write inside [R]. *)
Class Within (R : DB → DB → Prop) (f : DB → DB) : Prop := within : ∀ d, R d (f d).
#[export] Hint Mode Respects - - ! : typeclass_instances.

Section respects.
Context `{Env} (R : DB → DB → Prop) `{!PreOrder R}.

#[export] Instance respects_reads {A} (m : M World A) : Reads m → Respects R m | 100.
Proof. intros Hm d. by apply wpd_reads. Qed.
#[export] Instance respects_bind {A B} (m : M World A) (f : A → M World B) :
  Respects R m → (∀ a, Respects R (f a)) → Respects R (m ≫= f).
Proof.
  intros Hm Hf d. apply wpd_bind. eapply wpd_mono; [apply Hm| |done]. simpl. intros a d1 Hd1.
  eapply wpd_mono; [apply Hf|intros b d2 Hd2; by etrans|intros e d2 Hd2; by etrans].
Qed.
#[export] Instance respects_execute f : Within R f → Respects R (execute f).
Proof. intros Hf d. apply wpd_execute. apply Hf. Qed.
#[export] Instance respects_insert `{Countable K} {V} (table : DB → gmap K V) key f :
  Within R f → Respects R (insert_unique table key f).
Proof. intros Hf. unfold insert_unique. apply _. Qed.
#[export] Instance respects_transaction {A} (m : M World A) :
  Respects R m → Respects R (transaction m).
Proof. intros Hm d. apply wpd_transaction. by eapply wpd_mono; [apply Hm|..]. Qed.
#[export] Instance respects_catch {A} (p : exn → bool) (m : M World A) (f : exn → M World A) :
  Respects R m → (∀ e, Respects R (f e)) → Respects R (catch p m f).
Proof.
  intros Hm Hf d. apply wpd_catch. eapply wpd_mono; [apply Hm|done|]. simpl. intros e d1 Hd1.
  destruct (p e); [|done].
  eapply wpd_mono; [apply Hf|intros b d2 Hd2; by etrans|intros e2 d2 Hd2; by etrans].
Qed.
#[export] Instance respects_for_each {A} (l : list A) (f : A → M World ()) :
  (∀ x, Respects R (f x)) → Respects R (for_each l f).
Proof. intros Hf. induction l as [|x l IH]; simpl; apply _. Qed.
#[export] Instance respects_map_m {A B} (f : A → M World B) l :
  (∀ x, Respects R (f x)) → Respects R (map_m f l).
Proof. intros Hf. induction l as [|x l IH]; simpl; apply _. Qed.
(** A transaction body that runs only on success. *)
Lemma respects_committed {A} (m : M World A) :
  (∀ d, wpd m (λ _ d', R d d') (λ _ _, True) d) → Respects R (transaction m).
Proof. intros Hm d. apply wpd_transaction. eapply wpd_mono; [apply Hm|done|]. by intros. Qed.
Lemma respects_run {A} (m : M World A) d k r w :
  Respects R m → m (mkWorld d k) = (r, w) → R d (w_db w).
Proof. intros Hm Hr. pose proof (wpd_run _ _ _ _ _ _ _ (Hm d) Hr) as Hd. by destruct r. Qed.
End respects.
#[export] Hint Opaque audit put_job put_alert owned_job retry_delay expire_leases get_job
  : typeclass_instances.
#[export] Hint Extern 2 (Respects _ (if _ then _ else _)) => case_match : typeclass_instances.
#[export] Hint Extern 3 (Respects _ (match ?x with _ => _ end)) => destruct x : typeclass_instances.
#[export] Hint Extern 3 (Respects _ (let _ := _ in _)) => cbv zeta : typeclass_instances.

(** The relation that keeps a projection of the database. *)
Definition kept {T} (f : DB → T) (d d' : DB) : Prop := f d' = f d.
#[export] Instance kept_preorder {T} (f : DB → T) : PreOrder (kept f).
Proof. split; [done|]. unfold kept. intros d1 d2 d3. congruence. Qed.
#[export] Hint Extern 1 (Within (kept _) _) =>
  (let d := fresh in intros d; unfold kept; repeat case_match; reflexivity)
  : typeclass_instances.

(** ** The store and the tables beside it *)

(** The tables of the research store itself. *)
Definition records (d : DB) :=
  (t_mandates d, t_jobs d, t_snapshots d, t_evidence d, t_reports d, t_artifacts d, t_packets d,
   t_signals d, t_eligibility d, t_discoveries d, t_token_usage d, t_audit d, t_sessions d).
Lemma good_kept d d' : kept records d d' → good d d'.
Proof.
  unfold kept, records. intros [= Hm Hj Hs He Hr Ha Hp Hg Hl Hd Ht Hau Hse].
  apply good_frame; [congruence|by rewrite ?He, ?Hl, ?Hd, ?Ht, ?Hau..].
Qed.
Lemma good_respects {A} (m : M World A) : Respects (kept records) m → Good m.
Proof. intros Hm d. by eapply wpd_mono; [apply Hm|intros ? ? ?%good_kept..]. Qed.

(** A web notification, delivered when it is written. *)
Definition told (r : OutboxRow) : Prop :=
  ob_channel r = web ∧ ob_state r = DELIVERED ∧ ob_attempts r = 0 ∧
  ob_delivery_token r = None ∧ ob_delivery_lease_until r = None ∧ is_Some (ob_delivered_at r).
(** Jobs stay, and the usage record of a job that exists never changes. *)
Definition known (d d' : DB) : Prop :=
  ∀ x, is_Some (t_jobs d !! x) → is_Some (t_jobs d' !! x) ∧ t_usage d' !! x = t_usage d !! x.
#[export] Instance known_preorder : PreOrder known.
Proof.
  split; [done|]. intros d1 d2 d3 K12 K23 x Hx. destruct (K12 x Hx) as [Hx2 <-]. by apply K23.
Qed.
Record aside (d d' : DB) : Prop := {
  as_reservations : t_reservations d' = t_reservations d;
  as_providers : t_providers d' = t_providers d;
  as_calls : t_calls d' = t_calls d;
  as_tenant : tenant (t_customers d') = tenant (t_customers d);
  as_known : known d d';
  as_outbox : t_outbox d ⊆ t_outbox d';
  as_told : ∀ id r, t_outbox d' !! id = Some r → t_outbox d !! id = None → told r;
}.
#[export] Instance aside_preorder : PreOrder aside.
Proof.
  split; [intros d; split; try done; congruence|].
  intros d1 d2 d3 [R1 P1 C1 I1 K1 O1 T1] [R2 P2 C2 I2 K2 O2 T2]. split; try congruence; [by etrans..|].
  intros id r Hr Hn. destruct (t_outbox d2 !! id) as [r2|] eqn:Hr2; [|by eapply T2].
  pose proof (lookup_weaken _ _ _ _ Hr2 O2). simplify_eq. by eapply T1.
Qed.
Lemma aside_same d d' :
  (t_reservations d', t_providers d', t_calls d', t_outbox d', tenant (t_customers d')) =
  (t_reservations d, t_providers d, t_calls d, t_outbox d, tenant (t_customers d)) →
  known d d' → aside d d'.
Proof.
  intros Heq Hk. assert (t_outbox d' = t_outbox d) as Ho by congruence.
  split; first [done | congruence | by rewrite Ho | rewrite Ho; congruence].
Qed.
Lemma known_same d d' : t_usage d' = t_usage d →
  (∀ x, is_Some (t_jobs d !! x) → is_Some (t_jobs d' !! x)) → known d d'.
Proof. intros Hu Hj x Hx. rewrite Hu. auto. Qed.
Ltac jobs_stay :=
  let x := fresh in let Hx := fresh in
  intros x Hx; simpl; repeat case_match; first [done | rewrite lookup_insert; by case_decide].
#[export] Hint Extern 1 (Within aside _) =>
  (let d := fresh in intros d; apply aside_same;
   [repeat case_match; reflexivity|apply known_same; [repeat case_match; reflexivity|jobs_stay]])
  : typeclass_instances.

Section aside.
Context `{ContentHash, Pydantic, PolicyHash, TaLib, SignalPolicyHash, CrossHash, UniverseHash}.
Context `{Env, Digests}.

#[export] Instance aside_audit job event data : Respects aside (audit job event data).
Proof. unfold audit. apply _. Qed.
#[export] Instance aside_put_job id j : Respects aside (put_job id j).
Proof. unfold put_job. apply _. Qed.
#[export] Instance reads_retry_delay n : Reads (retry_delay n).
Proof. unfold retry_delay. apply _. Qed.
#[export] Instance reads_owned h id : Reads (owned_job h id).
Proof. unfold owned_job. apply _. Qed.
#[export] Instance reads_skip_locked : Reads skip_locked.
Proof. intros d. by apply wpd_skip_locked. Qed.
#[export] Instance aside_expire_leases h only : Respects aside (expire_leases h only).
Proof. unfold expire_leases, expire_lease. cbv zeta. apply _. Qed.
#[export] Instance aside_get_job h id : Respects aside (get_job h id).
Proof. unfold get_job. apply _. Qed.
#[export] Instance aside_put_alert job workspace event key message created delivered :
  Respects aside (put_alert job workspace event key message created delivered).
Proof.
  intros d. unfold put_alert. apply wpd_insert_unique; [|done]. intros Hnew.
  split; simpl; try done; [by apply insert_subseteq|].
  intros id r Hr Hn. apply lookup_insert_Some in Hr as [[<- <-]|[_ Hr]]; [|congruence].
  split_and!; simpl; try done; eauto.
Qed.

(** The admission callback stays aside. *)
Lemma aside_create_job h ticker mandate o : admits_usage o →
  Respects aside (create_job h ticker mandate o).
Proof.
  intros Ho. unfold create_job, enqueue. do 4 (apply respects_bind; [apply _..|intros ?]).
  apply respects_bind; [apply _| |intros [r|i]; apply _]. apply respects_committed; [apply _|].
  intros d. wpd_step. wpd_step. case_match; [case_match; by steps|].
  do 4 (wpd_step; wpd_step; try done). wpd_step. wpd_step; [|done]. wpd_step. wpd_step; [|done].
  wpd_step. destruct (eq_admission o) as [callback|] eqn:Ha; [|by steps; apply aside_same; [|apply known_same; [|jobs_stay]]].
  eapply wpd_mono; [by apply (Ho callback a1)| |done]. simpl. intros [] d3 Hd3.
  destruct Hd3 as (Hd3 & Hid & Hus). steps. apply aside_same; [simpl; rewrite Hid, Hd3; done|].
  intros x Hx. simpl. rewrite Hus; [split; [|done]|].
  2: { intros ->. match goal with Hn : t_jobs _ !! _ = None |- _ => simpl in Hn; rewrite Hn in Hx end.
       by destruct Hx. }
  rewrite Hd3. simpl. rewrite lookup_insert. by case_decide.
Qed.
#[export] Instance aside_list_jobs h limit : Respects aside (list_jobs h limit).
Proof. unfold list_jobs, shown_state. apply _. Qed.
#[export] Instance aside_claim_job h worker lease timeout kind only :
  Respects aside (claim_job h worker lease timeout kind only).
Proof. unfold claim_job. apply _. Qed.
#[export] Instance aside_renew_lease h id s : Respects aside (renew_lease h id s).
Proof. unfold renew_lease. apply _. Qed.
#[export] Instance aside_retry_job h id code : Respects aside (retry_job h id code).
Proof. unfold retry_job. cbv zeta. apply _. Qed.
#[export] Instance aside_update_stage h id status fields :
  Respects aside (update_stage h id status fields).
Proof. unfold update_stage. apply _. Qed.
#[export] Instance reads_verify s raw : Reads (verify_universe_context s raw).
Proof. unfold verify_universe_context. cbv zeta. apply _. Qed.
#[export] Instance aside_save_snapshot h id s : Respects aside (save_snapshot h id s).
Proof. unfold save_snapshot. apply _. Qed.
#[export] Instance aside_save_report h id firm r : Respects aside (save_report h id firm r).
Proof. unfold save_report. apply _. Qed.
#[export] Instance aside_lock_first_pass h id : Respects aside (lock_first_pass h id).
Proof. unfold lock_first_pass. apply _. Qed.
#[export] Instance aside_get_reports h id : Respects aside (get_reports h id).
Proof. unfold get_reports. apply _. Qed.
#[export] Instance aside_public_reports h id : Respects aside (public_reports h id).
Proof. unfold public_reports. apply _. Qed.
#[export] Instance aside_get_evidence h id : Respects aside (get_evidence h id).
Proof. unfold get_evidence. apply _. Qed.
#[export] Instance aside_put_artifact id kind v : Respects aside (put_artifact id kind v).
Proof. unfold put_artifact. apply _. Qed.
#[export] Instance aside_put_record kind id v : Respects aside (put_record kind id v).
Proof. unfold put_record. cbv zeta. apply _. Qed.
#[export] Instance aside_save_artifact h id kind v : Respects aside (save_artifact h id kind v).
Proof. unfold save_artifact. apply _. Qed.
#[export] Instance aside_save_cio h id a r v : Respects aside (save_cio_artifacts h id a r v).
Proof. unfold save_cio_artifacts. apply _. Qed.
#[export] Instance aside_fail_job h id code message : Respects aside (fail_job h id code message).
Proof. unfold fail_job. apply _. Qed.
#[export] Instance aside_heartbeat worker mode healthy :
  Respects aside (heartbeat worker mode healthy).
Proof. unfold heartbeat. cbv zeta. apply _. Qed.
#[export] Instance aside_invalidate h id reason e :
  Respects aside (invalidate_signal h id reason e).
Proof.
  unfold invalidate_signal. do 4 (apply respects_bind; [apply _..|intros ?]).
  apply respects_transaction; [apply _|].
  do 2 (apply respects_bind; [apply _..|]; intros []); apply _.
Qed.
#[export] Instance aside_rate_limit h key limit window :
  Respects aside (consume_rate_limit h key limit window).
Proof. unfold consume_rate_limit. cbv zeta. apply _. Qed.
#[export] Instance aside_create_session h token version expires :
  Respects aside (create_session h token version expires).
Proof. unfold create_session. apply _. Qed.
#[export] Instance aside_revoke_session h token version :
  Respects aside (revoke_session h token version).
Proof. unfold revoke_session. apply _. Qed.
#[export] Instance aside_publish id j status data : Respects aside (publish id j status data).
Proof. unfold publish. apply _. Qed.
Lemma reads_check_complete id j p : Reads (check_complete id j p).
Proof.
  unfold check_complete, check_sealed, check_cross, check_design. cbv zeta. apply _.
Qed.
#[export] Instance aside_complete_job h id packet state :
  Respects aside (complete_job h id packet state).
Proof. pose proof reads_check_complete. unfold complete_job. apply _. Qed.
End aside.
