(* ===== verification/Metering.v ===== *)
(** * Call accounting ([src/money/product/metering.py])

    The content-free inference receipts of [src/money/research/call_telemetry.py]
    and the fenced, append-only accounting of paid calls. [CallMeter.invoke] is
    two transactions around the caller's operation; each is a definition of its
    own, so that runs of several workers interleave between them. *)

From S2P Require Import Prelude Effects PyNum PyText Contracts Demo Eligibility Governance.
From S2P Require Import Market Signals CrossExam Universe Schema Store Complete StoreLogic.
From S2P Require Import StoreInv StoreOps.
#[local] Open Scope Z_scope.

(** ** Receipts ([call_telemetry.py]) *)
Record InferenceReceipt := mkReceipt {
  ir_provider : string;
  ir_model : string;
  ir_duration_seconds : spec_float;
  ir_status : CallStatus;
  ir_input_tokens : option Z;
  ir_output_tokens : option Z;
  ir_estimated_cost : option Decimal;
  ir_actual_cost : option Decimal;
  ir_currency : option string;
  ir_provider_calls : Z;
  ir_cache_hit : option bool;
  ir_retry : bool;
  ir_error_code : option string
}.
(** [[A-Za-z0-9_.:/-]] *)
Definition receipt_char (c : Ascii.ascii) : bool :=
  is_upper c || is_lower c || is_digit c || mem c ["_"%char; "."%char; ":"%char; "/"%char; "-"%char].
Definition CALL_ERRORS : list string :=
  ["INFERENCE_FAILED"; "PROVIDER_TIMEOUT"; "PROVIDER_UNAVAILABLE"; "TOKEN_INPUT_LIMIT";
   "INFERENCE_EMPTY_RESPONSE"; "INFERENCE_OUTPUT_INVALID"; "INFERENCE_INCOMPLETE";
   "INFERENCE_RESPONSE_INVALID"; "INFERENCE_USAGE_INVALID"; "INFERENCE_MODEL_MISMATCH";
   "INFERENCE_TOOL_OUTPUT_DENIED"; "INFERENCE_RESPONSE_TOO_LARGE";
   "INFERENCE_DUPLICATE_JSON_KEY"; "INFERENCE_NONFINITE_JSON"].
Definition receipt_fields (r : InferenceReceipt) : bool :=
  len_between 1 128 (ir_provider r) && all_chars receipt_char (ir_provider r) &&
  len_between 1 200 (ir_model r) && all_chars receipt_char (ir_model r) &&
  is_finite_float (ir_duration_seconds r) && fle (float_of_Z 0) (ir_duration_seconds r) &&
  fle (ir_duration_seconds r) (float_of_Z 86400) &&
  negb (bool_decide (ir_status r = STARTED)) &&
  opt_ok (λ n, 0 <=? n) (ir_input_tokens r) && opt_ok (λ n, 0 <=? n) (ir_output_tokens r) &&
  opt_ok (λ x, dec_le (dec 0) x) (ir_estimated_cost r) &&
  opt_ok (λ x, dec_le (dec 0) x) (ir_actual_cost r) &&
  opt_ok (λ c, mem c ["GBP"; "USD"; "EUR"]) (ir_currency r) &&
  (0 <=? ir_provider_calls r) && (ir_provider_calls r <=? 1) &&
  opt_ok (λ c, mem c CALL_ERRORS) (ir_error_code r).
(** [cost_currency] *)
Definition cost_currency (r : InferenceReceipt) : Res () :=
  reject ((is_set (ir_actual_cost r) || is_set (ir_estimated_cost r)) &&
          negb (is_set (ir_currency r))) ValueError "CALL_COST_CURRENCY_REQUIRED" ;;
  reject (bool_decide (ir_status r = SUCCEEDED) && is_set (ir_error_code r)) ValueError
    "SUCCESS_CANNOT_HAVE_CALL_ERROR".
Definition validate_receipt (r : InferenceReceipt) : Res InferenceReceipt :=
  require (receipt_fields r) ;; cost_currency r ;; mret r.
(** [emit_calls] on the context variable of the current [capture_calls]. *)
Definition emit_calls (destination : option (list InferenceReceipt))
    (values : list InferenceReceipt) : Res (option (list InferenceReceipt)) :=
  match destination with
  | None => mret None
  | Some l =>
      reject (256 <? Z.of_nat (length l) + Z.of_nat (length values)) ValueError
        "CALL_TELEMETRY_LIMIT" ;;
      mret (Some (l ++ values))
  end.

(** ** Accounting rows *)

(** [content_hash] of the documents metering hashes: an invocation and
    sequence, the values of a row, and the two invocations a reservation
    names. *)
Class CallHash := {
  call_identity : string → Z → string;
  call_fingerprint : CallValues → string;
  reservation_invocation : string → string;
  aggregate_invocation : string → string;
}.

(** [uuid4().hex] *)
Fixpoint strip_dashes (s : string) : string :=
  match s with
  | EmptyString => EmptyString
  | String c t => if bool_decide (c = "-"%char) then strip_dashes t else String c (strip_dashes t)
  end.

(** The dictionary [_ownership] returns. *)
Record Ownership := mkOwnership {
  ow_job_id : string;
  ow_workspace_id : string;
  ow_user_id : option string;
  ow_period_start : option Z;
  ow_period_end : option Z;
  ow_lease_token : option string;
  ow_attempt : Z;
  ow_stage : JobStatus
}.
(** [identity] of [CallMeter.invoke], which both transactions write under. *)
Record CallIdentity := mkCallIdentity {
  ci_owner : Ownership;
  ci_invocation_id : string;
  ci_reservation_id : option string;
  ci_component : string;
  ci_provider : string;
  ci_model : option string;
  ci_kind : CallKind
}.
Definition blank_call (i : CallIdentity) (sequence : Z) (status : CallStatus) : CallValues :=
  let o := ci_owner i in
  mkCallValues (ci_invocation_id i) sequence (ow_job_id o) (ow_workspace_id o) (ow_user_id o)
    (ow_period_start o) (ow_period_end o) (ci_reservation_id i) (ow_lease_token o) (ow_attempt o)
    (ci_kind i) (ci_component i) (ci_provider i) (ci_model i) (status_name (ow_stage o)) status
    None None None None None None None None (1 <? ow_attempt o) None.
Definition started_values (i : CallIdentity) : CallValues := blank_call i 0 STARTED.
(** [_receipt_values], with the identity it is merged into. *)
Definition receipt_values (i : CallIdentity) (index : Z) (r : InferenceReceipt) : Res CallValues :=
  ms ← int_of_float (fmul (ir_duration_seconds r) (float_of_Z 1000));
  mret ((blank_call i index (ir_status r)) <| cv_kind := INFERENCE_CALL |>
    <| cv_input_tokens := ir_input_tokens r |> <| cv_output_tokens := ir_output_tokens r |>
    <| cv_provider_calls := Some (ir_provider_calls r) |> <| cv_duration_ms := Some ms |>
    <| cv_actual_cost := ir_actual_cost r |> <| cv_estimated_cost := ir_estimated_cost r |>
    <| cv_currency := ir_currency r |> <| cv_cache_hit := ir_cache_hit r |>
    <| cv_error_code := ir_error_code r |>
    <| cv_retry := ir_retry r || (1 <? ow_attempt (ci_owner i)) |>).
Definition finished_values (i : CallIdentity) (success : bool) (ms : Z) : CallValues :=
  (blank_call i 257 (if success then SUCCEEDED else CALL_FAILED)) <| cv_duration_ms := Some ms |>
    <| cv_error_code := if success then None else Some "COMPONENT_FAILED" |>.
(** [enumerate(receipts, start=n)] *)
Fixpoint enumerate {A} (n : Z) (l : list A) : list (Z * A) :=
  match l with [] => [] | x :: l' => (n, x) :: enumerate (n + 1) l' end.

(** What a metered operation did: the receipts it emitted, and its result. *)
Definition Metered (T : Type) : Type := list InferenceReceipt * (exn + T).

Section metering.
Context `{ContentHash, Pydantic, PolicyHash, TaLib, SignalPolicyHash, CrossHash, UniverseHash}.
Context `{Env, Digests, CallHash}.

(** [_ownership] *)
Definition ownership (id : string) (j : Job) : M World Ownership :=
  admission ← select (λ d, t_usage d !! id);
  raise_if (match admission with
            | Some a => negb (bool_decide (ur_workspace_id a = j_workspace_id j))
            | None => false
            end) StoreError "CALL_ADMISSION_OWNERSHIP_MISMATCH" ;;
  mret (mkOwnership id (j_workspace_id j) (ur_user_id <$> admission)
          (ur_period_start <$> admission) (ur_period_end <$> admission) (j_lease_token j)
          (j_attempt_count j) (j_current_stage j)).

(** [_insert]; the table is keyed by the identity hash and also has a unique
    constraint on the invocation and sequence themselves. *)
Definition same_call (v : CallValues) (r : CallRow) : bool :=
  bool_decide (cv_invocation_id (cr_values r) = cv_invocation_id v) &&
  bool_decide (cv_sequence (cr_values r) = cv_sequence v).
Definition insert_call (v : CallValues) : M World () :=
  let identity := call_identity (cv_invocation_id v) (cv_sequence v) in
  let fingerprint := call_fingerprint v in
  previous ← select (λ d, cr_content_hash <$> t_calls d !! identity);
  match previous with
  | Some p =>
      raise_if (negb (bool_decide (p = fingerprint))) ValueError
        "CALL_METERING_IDEMPOTENCY_CONFLICT"
  | None =>
      t ← now_utc;
      taken ← select (λ d, existsb (same_call v) (rows (t_calls d)));
      raise_if taken IntegrityError "duplicate key value violates unique constraint" ;;
      insert_unique t_calls identity
        (λ d, d <| t_calls ::= insert identity (mkCallRow v fingerprint t) |>)
  end.

(** ** [CallMeter] *)
Definition invocation_started (invocation : string) (d : DB) : bool :=
  existsb (λ r, bool_decide (cv_invocation_id (cr_values r) = invocation)) (rows (t_calls d)).
(** The reservation a call names must be the admitted one, and unsettled. *)
Definition check_reservation (job_id component provider : string) (model : option string)
    (reservation_id : string) : M World () :=
  row ← select (λ d, t_reservations d !! reservation_id);
  match row with
  | Some r =>
      raise_if (negb (bool_decide (br_job_id r = job_id)) ||
                negb (bool_decide (br_provider r = provider)) ||
                negb (bool_decide (Some (br_model r) = model)) ||
                negb (bool_decide (br_agent r = component))) ValueError
        "CALL_BUDGET_IDENTITY_MISMATCH" ;;
      raise_if (is_set (br_usage r)) ValueError "CALL_BUDGET_ALREADY_SETTLED"
  | None => raise ValueError "CALL_BUDGET_IDENTITY_MISMATCH"
  end.
(** The first transaction of [invoke]: the durable start. *)
Definition start_call (h : Handle) (job_id component provider : string) (model : option string)
    (reservation_id : option string) (kind : CallKind) : M World CallIdentity :=
  fresh ← uuid4;
  let invocation :=
    match reservation_id with
    | Some r => if truthy r then reservation_invocation r else strip_dashes fresh
    | None => strip_dashes fresh
    end in
  transaction (
    j ← owned_job h job_id;
    raise_if (match h_workspace h with
              | Some w => negb (bool_decide (w = j_workspace_id j))
              | None => false
              end) StoreError "RESOURCE_NOT_FOUND" ;;
    match reservation_id with
    | Some r => check_reservation job_id component provider model r
    | None => mret ()
    end ;;
    begun ← select (invocation_started invocation);
    raise_if begun ValueError "CALL_INVOCATION_ALREADY_STARTED" ;;
    owner ← ownership job_id j;
    let identity := mkCallIdentity owner invocation reservation_id component provider model kind in
    insert_call (started_values identity) ;;
    mret identity).
Definition insert_receipt (i : CallIdentity) (entry : Z * InferenceReceipt) : M World () :=
  let '(index, r) := entry in
  raise_if (negb (bool_decide (ir_provider r = ci_provider i)) ||
            negb (bool_decide (Some (ir_model r) = ci_model i))) ValueError
    "CALL_PROVIDER_IDENTITY_MISMATCH" ;;
  v ← lift (receipt_values i index r);
  insert_call v.
(** The [finally] transaction of [invoke]. *)
Definition finish_call (h : Handle) (i : CallIdentity) (started : spec_float)
    (receipts : list InferenceReceipt) (success : bool) : M World () :=
  transaction (
    owned_job h (ow_job_id (ci_owner i)) ;;
    for_each (enumerate 1 receipts) (insert_receipt i) ;;
    stop ← monotonic;
    ms ← lift (int_of_float (fmul (fsub stop started) (float_of_Z 1000)));
    insert_call (finished_values i success ms)).
Definition invoke {T} (h : Handle) (job_id component provider : string) (model : option string)
    (operation : M World (Metered T)) (reservation_id : option string) (kind : CallKind)
    : M World T :=
  i ← start_call h job_id component provider model reservation_id kind;
  started ← monotonic;
  outcome ← operation;
  finish_call h i started outcome.1 (match outcome.2 with inr _ => true | inl _ => false end) ;;
  match outcome.2 with inr a => mret a | inl e => throw e end.
Definition invoke_reserved {T} (h : Handle) (reservation_id : string)
    (operation : M World (Metered T)) : M World T :=
  row ← select (λ d, t_reservations d !! reservation_id);
  r ← expect row NoResultFound "No row was found when one was required";
  invoke h (br_job_id r) (br_agent r) (br_provider r) (Some (br_model r)) operation
    (Some reservation_id) NATIVE_INVOCATION.

(** ** [record_reported_usage] *)
Definition receipts_survive (reservation_id : string) (d : DB) : bool :=
  existsb (λ r, bool_decide (cv_reservation_id (cr_values r) = Some reservation_id) &&
                bool_decide (cv_kind (cr_values r) = INFERENCE_CALL)) (rows (t_calls d)).
Definition reported_values (o : Ownership) (reservation_id : string) (r : Reservation) (u : Usage)
    : CallValues :=
  (blank_call (mkCallIdentity o (aggregate_invocation reservation_id) (Some reservation_id)
                 (br_agent r) (br_provider r) (Some (br_model r)) REPORTED_USAGE) 0 SUCCEEDED)
    <| cv_stage := br_stage r |> <| cv_input_tokens := us_input_tokens u |>
    <| cv_output_tokens := us_output_tokens u |> <| cv_estimated_cost := us_cost_gbp u |>
    <| cv_currency := if is_set (us_cost_gbp u) then Some "GBP" else None |>.
Definition record_reported_usage (reservation_id : string) (r : Reservation) (u : Usage)
    (id : string) (j : Job) : M World () :=
  survive ← select (receipts_survive reservation_id);
  if (survive : bool) then mret () else
  owner ← ownership id j;
  insert_call (reported_values owner reservation_id r u).
End metering.
