(* ===== verification/Budgets.v ===== *)
(** * Token budgets ([src/money/research/budgets.py])

    Pessimistic admission of paid inference: a reservation is charged at its
    maximum until its usage is known, and every scope (job, candidate, stage,
    agent, workspace day, model, and for a customer's job the plan) is checked
    before a row is inserted. Each manager method is one definition; the
    serialisation row they all lock makes a method one transaction. *)

From S2P Require Import Prelude Effects PyNum PyText Contracts Demo Eligibility Governance.
From S2P Require Import Market Signals CrossExam Universe Schema Store Complete StoreLogic.
From S2P Require Import StoreInv StoreOps Metering.
#[local] Open Scope Z_scope.

(** ** Contracts *)
Record BudgetLimits := mkLimits {
  bl_per_job : Z;
  bl_per_candidate : Z;
  bl_per_stage : Z;
  bl_per_agent : Z;
  bl_daily : Z;
  bl_per_model : list (string * Z)
}.
Definition default_limits : BudgetLimits := mkLimits 100000 100000 60000 30000 200000 [].
Definition validate_limits (l : BudgetLimits) : Res BudgetLimits :=
  require ((0 <? bl_per_job l) && (0 <? bl_per_candidate l) && (0 <? bl_per_stage l) &&
           (0 <? bl_per_agent l) && (0 <? bl_daily l)) ;;
  mret l.
Record BudgetReservation := mkRequest {
  bq_reservation_id : string;
  bq_job_id : string;
  bq_stage : string;
  bq_agent : string;
  bq_provider : string;
  bq_model : string;
  bq_maximum_tokens : Z;
  bq_prompt_version : string
}.
Definition validate_request (q : BudgetReservation) : Res BudgetReservation :=
  require (len_between 1 128 (bq_reservation_id q) && (0 <? bq_maximum_tokens q)) ;; mret q.

(** [ReferenceCatalog.plan(...).monthly_tokens]: the plan table is a data
    file; an unknown plan raises. *)
Class Plans := monthly_tokens : string → Res Z.

(** ** Sums over reservations *)

(** [coalesce(actual_tokens, reserved_tokens)] *)
Definition charged (r : Reservation) : Z := default (br_reserved_tokens r) (br_actual_tokens r).
(** [select(coalesce(sum(charged), 0)).where(predicate)] *)
Definition used (p : Reservation → bool) (d : DB) : Z :=
  sum_by charged (List.filter p (rows (t_reservations d))).
(** [datetime.combine(now.date(), datetime.min.time(), UTC)] *)
Definition midnight (now : Z) : Z := now - now `mod` days 1.
(** [dict(pairs).get(key)]: the last pair of a key wins. *)
Definition dict_get {A} (l : list (string * A)) (key : string) : option A :=
  snd <$> List.find (λ kv, bool_decide (kv.1 = key)) (rev l).

Definition same_job (id : string) (r : Reservation) : bool := bool_decide (br_job_id r = id).
(** [scopes] of [_reserve], with the model scope appended. *)
Definition scopes (l : BudgetLimits) (j : Job) (q : BudgetReservation) (now : Z)
    : list ((Reservation → bool) * Z) :=
  let of_job := same_job (bq_job_id q) in
  [(of_job, bl_per_job l);
   (λ r, of_job r && bool_decide (br_candidate r = j_ticker j), bl_per_candidate l);
   (λ r, of_job r && bool_decide (br_stage r = bq_stage q), bl_per_stage l);
   (λ r, of_job r && bool_decide (br_agent r = bq_agent q), bl_per_agent l);
   (λ r, bool_decide (br_workspace_id r = j_workspace_id j) && (midnight now <=? br_created_at r),
    bl_daily l)] ++
  match dict_get (bl_per_model l) (bq_provider q +:+ "/" +:+ bq_model q) with
  | Some limit =>
      [(λ r, of_job r && bool_decide (br_provider r = bq_provider q) &&
             bool_decide (br_model r = bq_model q), limit)]
  | None => []
  end.

(** [identity] compared with an existing row. *)
Definition same_identity (j : Job) (q : BudgetReservation) (r : Reservation) : bool :=
  bool_decide (br_job_id r = bq_job_id q) && bool_decide (br_workspace_id r = j_workspace_id j) &&
  bool_decide (br_candidate r = j_ticker j) && bool_decide (br_stage r = bq_stage q) &&
  bool_decide (br_agent r = bq_agent q) && bool_decide (br_provider r = bq_provider q) &&
  bool_decide (br_model r = bq_model q) && (br_reserved_tokens r =? bq_maximum_tokens q) &&
  bool_decide (br_prompt_version r = bq_prompt_version q).
Definition new_reservation (j : Job) (q : BudgetReservation) (now : Z) : Reservation :=
  mkReservation (bq_job_id q) (j_workspace_id j) (j_ticker j) (bq_stage q) (bq_agent q)
    (bq_provider q) (bq_model q) (bq_maximum_tokens q) None (bq_prompt_version q) None "unknown"
    false now.

Definition EXCEEDED : string := "TOKEN_BUDGET_EXCEEDED".
(** [.one()] *)
Definition one {A} (o : option A) : M World A :=
  expect o NoResultFound "No row was found when one was required".

(** ** JSON of sealed results *)
Definition no_usage : Usage := mkUsage None None None.
Definition validate_usage `{Pydantic} (u : Usage) : Res Usage :=
  require (usage_fields u) ;; mret u.
(** [Usage.model_validate(value or {})] *)
Definition usage_of_json `{Pydantic} (v : json) : Res Usage :=
  match v with
  | JUsage u => validate_usage u
  | _ => if jtruthy v then invalid else mret no_usage
  end.
(** [payload["usage"]] and [payload["reservation_id"].as_string()] *)
Definition artifact_field (a : ArtifactValue) (key : string) : json :=
  match a with ArtJson o => jget o key | _ => JNull end.
(** [column.startswith(prefix)] is [LIKE prefix || '%'], in which an
    underscore of the prefix matches any character. *)
Fixpoint like_prefix (prefix s : string) : bool :=
  match prefix, s with
  | EmptyString, _ => true
  | String _ _, EmptyString => false
  | String p ps, String c cs =>
      (bool_decide (p = "_"%char) || bool_decide (p = c)) && like_prefix ps cs
  end.

Section budgets.
Context `{ContentHash, Pydantic, PolicyHash, TaLib, SignalPolicyHash, CrossHash, UniverseHash}.
Context `{Env, Digests, CallHash, Plans}.

(** [TokenBudgetManager._job] *)
Definition budget_job (h : Handle) (id : string) : M World Job :=
  j ← match h_claim h with
      | Some _ => owned_job h id
      | None => row ← select (λ d, t_jobs d !! id); one row
      end;
  raise_if (match h_workspace h with
            | Some w => negb (bool_decide (j_workspace_id j = w))
            | None => false
            end) ValueError "RESOURCE_NOT_FOUND" ;;
  mret j.

(** The plan of a customer's job: its period, its token ceiling and the
    workspace's monthly tokens. *)
Definition check_admission (j : Job) (q : BudgetReservation) (now : Z) : M World () :=
  admission ← select (λ d, t_usage d !! bq_job_id q);
  match admission with
  | None => mret ()
  | Some a =>
      raise_if (ur_period_end a <=? now) ValueError EXCEEDED ;;
      job_used ← select (used (same_job (bq_job_id q)));
      period_used ← select (used (λ r,
        bool_decide (br_workspace_id r = j_workspace_id j) &&
        (ur_period_start a <=? br_created_at r) && (br_created_at r <? ur_period_end a)));
      monthly ← lift (monthly_tokens (ur_plan a));
      raise_if ((ur_max_tokens a <? job_used + bq_maximum_tokens q) ||
                (monthly <? period_used + bq_maximum_tokens q)) ValueError EXCEEDED
  end.
Definition check_scope (tokens : Z) (scope : (Reservation → bool) * Z) : M World () :=
  spent ← select (used scope.1);
  raise_if (scope.2 <? spent + tokens) ValueError EXCEEDED.
(** [_reserve] *)
Definition reserve_one (l : BudgetLimits) (j : Job) (now : Z) (q : BudgetReservation)
    : M World () :=
  raise_if (bl_per_job l <? bq_maximum_tokens q) ValueError EXCEEDED ;;
  existing ← select (λ d, t_reservations d !! bq_reservation_id q);
  match existing with
  | Some r =>
      raise_if (negb (same_identity j q r)) ValueError "BUDGET_IDEMPOTENCY_CONFLICT" ;;
      raise ValueError "BUDGET_INVOCATION_ALREADY_RESERVED"
  | None =>
      check_admission j q now ;;
      for_each (scopes l j q now) (check_scope (bq_maximum_tokens q)) ;;
      insert_unique t_reservations (bq_reservation_id q) (λ d, d <| t_reservations ::=
        insert (bq_reservation_id q) (new_reservation j q now) |>)
  end.
Definition reserve_many (h : Handle) (l : BudgetLimits) (requests : list BudgetReservation)
    : M World () :=
  match requests with
  | [] => mret ()
  | q :: _ =>
      raise_if (negb (bool_decide (length (from_keys (bq_job_id <$> requests)) = 1%nat)))
        ValueError "BUDGET_BATCH_JOB_MISMATCH" ;;
      now ← now_utc;
      transaction (
        j ← budget_job h (bq_job_id q);
        for_each requests (reserve_one l j now))
  end.
Definition reserve (h : Handle) (l : BudgetLimits) (q : BudgetReservation) : M World () :=
  checked ← lift (validate_request q);
  reserve_many h l [checked].

(** [_settle] *)
Definition settled (r : Reservation) (u : Usage) : Reservation :=
  let actual :=
    match us_input_tokens u, us_output_tokens u with
    | Some i, Some o => Some (i + o)
    | _, _ => None
    end in
  r <| br_actual_tokens := actual |> <| br_usage := Some u |>
    <| br_cost_status := if is_set (us_cost_gbp u) then "estimated" else "unknown" |>
    <| br_overrun := match actual with Some n => br_reserved_tokens r <? n | None => false end |>.
Definition settle_row (id : string) (r : Reservation) (u : Usage) : M World () :=
  match br_usage r with
  | Some known => raise_if (negb (bool_decide (known = u))) ValueError "TOKEN_USAGE_CONFLICT"
  | None =>
      execute (λ d, d <| t_reservations ::= insert id (settled r u) |>) ;;
      row ← select (λ d, t_jobs d !! br_job_id r);
      j ← one row;
      record_reported_usage id r u (br_job_id r) j
  end.
Definition settle (h : Handle) (id : string) (u : Usage) : M World () :=
  transaction (
    row ← select (λ d, t_reservations d !! id);
    r ← one row;
    budget_job h (br_job_id r) ;;
    settle_row id r u).

(** ** [reconcile_job] *)
Definition sealed_usage (id : string) (d : DB) : list (string * Usage) :=
  omap (λ kr, if bool_decide (kr.1.1 = id)
              then Some (firm_name kr.1.2, fr_usage (re_payload kr.2)) else None)
    (map_to_list (t_reports d)).
Definition cross_calls (id : string) (d : DB) : list ArtifactValue :=
  omap (λ kr, if bool_decide (kr.1.1 = id) && like_prefix "cross_call_" kr.1.2
              then Some (ar_payload kr.2) else None)
    (map_to_list (t_artifacts d)).
(** The latest reservation of an agent for its stage. *)
Definition later (a b : string * Reservation) : bool :=
  (br_created_at b.2 <? br_created_at a.2) ||
  ((br_created_at b.2 =? br_created_at a.2) && String.ltb b.1 a.1).
Definition agent_stage (agent : string) : string :=
  if bool_decide (agent = "crewai") then "CREWAI_AUDIT" else "FIRST_PASS_RESEARCH".
Definition latest_reservation (id agent : string) (d : DB) : option (string * Reservation) :=
  head (sort_by later (List.filter
    (λ kr, same_job id kr.2 && bool_decide (br_agent kr.2 = agent) &&
           bool_decide (br_stage kr.2 = agent_stage agent)) (map_to_list (t_reservations d)))).
Definition settle_call (id : string) (a : ArtifactValue) : M World () :=
  row ← select (λ d, match artifact_field a "reservation_id" with
                     | JStr key => r ← t_reservations d !! key;
                                   if same_job id r then Some (key, r) else None
                     | _ => None
                     end);
  kr ← one row;
  u ← lift (usage_of_json (artifact_field a "usage"));
  settle_row kr.1 kr.2 u.
Definition settle_agent (id : string) (entry : string * Usage) : M World () :=
  row ← select (latest_reservation id entry.1);
  match row with
  | Some kr => settle_row kr.1 kr.2 entry.2
  | None => mret ()
  end.
Definition reconcile_job (h : Handle) (id : string) : M World () :=
  transaction (
    budget_job h id ;;
    reports ← select (sealed_usage id);
    firms ← lift (map_res (λ e, u ← validate_usage e.2; mret (e.1, u)) reports);
    runtime ← select (λ d, ar_payload <$> t_artifacts d !! (id, "cio_runtime"));
    cio ← match runtime with
          | Some a => u ← lift (usage_of_json (artifact_field a "usage")); mret [("crewai", u)]
          | None => mret []
          end;
    calls ← select (cross_calls id);
    for_each calls (settle_call id) ;;
    for_each (firms ++ cio) (settle_agent id)).
End budgets.

(** [research_depth] *)
Definition research_depth (deterministic_passed : bool) (discovery_channels : Z)
    (qualified_quant : bool) : string :=
  if negb deterministic_passed then "REJECT"
  else if discovery_channels =? 0 then "DETERMINISTIC_ONLY"
  else if negb qualified_quant then "QUANT_QUALIFICATION_REQUIRED"
  else if 2 <=? discovery_channels then "FULL_REVIEW" else "QUANT_ONLY".
