(* ===== verification/Product.v ===== *)
(** * Customer entitlements ([src/money/product/service.py])

    The plan catalogue, a workspace's subscription, the admission of research
    against its allowances, and the tenant's own records: history, watchlist and
    notifications. An operation of [ProductService] is one definition; those
    that take a [connection] run inside the caller's transaction. *)

From S2P Require Import Prelude Effects PyNum PyText Contracts Demo Eligibility Governance.
From S2P Require Import Market Signals CrossExam Universe Customers Schema Store Budgets.
From S2P Require Import Calendar Security.
#[local] Open Scope Z_scope.

(** ** Customer tables *)
Definition customers {A} (f : Customers → A) : M World A := select (λ d, f (t_customers d)).
Definition put_customers (f : Customers → Customers) : M World () :=
  execute (λ d, d <| t_customers ::= f |>).
Definition insert_customer `{Countable K} {V} (table : Customers → gmap K V) (key : K)
    (f : Customers → Customers) : M World () :=
  insert_unique (λ d, table (t_customers d)) key (λ d, d <| t_customers ::= f |>).
(** A foreign key of an inserted row. *)
Definition references (present : DB → bool) : M World () :=
  ok ← select present;
  raise_if (negb ok) IntegrityError "FOREIGN KEY constraint failed".

(** ** The plan catalogue ([src/money/reference/catalog.py]) *)
Record Plan := mkPlan {
  pl_plan_id : string;
  pl_research_jobs_per_period : Z;
  pl_seats : Z;
  pl_retention_days : Z;
  pl_live_research : bool;
  pl_evidence_explorer : bool;
  pl_audit_export : bool;
  pl_monthly_tokens : Z;
  pl_max_job_tokens : Z;
  pl_max_job_seconds : Z
}.
Definition between (lo hi n : Z) : bool := (lo <=? n) && (n <=? hi).
(** The field constraints of [Plan] and [bounded_budget]. *)
Definition validate_plan (p : Plan) : Res Plan :=
  require (mem (pl_plan_id p) ["FREE"; "PRO"; "TEAM"; "ENTERPRISE"] &&
           between 0 100000 (pl_research_jobs_per_period p) && between 1 10000 (pl_seats p) &&
           between 1 3650 (pl_retention_days p) && between 0 100000000 (pl_monthly_tokens p) &&
           between 0 1000000 (pl_max_job_tokens p) && between 30 14400 (pl_max_job_seconds p)) ;;
  reject (pl_monthly_tokens p <? pl_max_job_tokens p) ValueError
    "per-job tokens exceed monthly allowance" ;;
  reject (pl_live_research p && (pl_max_job_tokens p =? 0)) ValueError
    "live allowance requires a positive token ceiling" ;;
  reject (bool_decide (pl_plan_id p = "FREE") &&
          (pl_live_research p || negb (pl_monthly_tokens p =? 0))) ValueError
    "FREE is synthetic only and cannot incur inference tokens" ;;
  mret p.
(** The rows of the loaded table and [str(catalog.diagnostics())]. *)
Class Catalog := { plan_rows : list Plan; diagnostics_text : string }.
Definition plan `{Catalog} (plan_id : string) : Res Plan :=
  match List.find (λ p, bool_decide (pl_plan_id p = plan_id)) plan_rows with
  | Some p => mret p
  | None => fail ReferenceTableError "UNKNOWN_PLAN"
  end.
(** What the token budget reads of it. *)
#[export] Instance catalog_plans `{Catalog} : Plans := λ name,
  p ← plan name; mret (pl_monthly_tokens p).

(** ** Actors *)
Record Principal := mkPrincipal {
  pr_user_id : string; pr_workspace_id : string; pr_role : Role; pr_email : string
}.
Definition may_write (r : Role) : bool := mem r [OWNER; ADMIN; MEMBER].
(** A user that may act: verified and not being deleted. *)
Definition active_user (u : UserRow) : bool :=
  negb (is_set (us_deletion_requested_at u)) && is_set (us_email_verified_at u).

(** [ProductSettings]: the fields the services read. *)
Record ProductSettings := mkProductSettings {
  money_billing_enabled : bool;
  product_web_url : string;
  money_stripe_secret_key : option string;
  money_stripe_webhook_secret : option string;
  money_stripe_prices : list (string * string);
  money_stripe_live : bool;
  money_user_jobs_per_month : Z
}.

Section product.
Context `{Env, Secrets, Catalog}.

(** [require_current_role]: the role the database holds, of a user who may act. *)
Definition durable_role (actor : Principal) (c : Customers) : option Role :=
  m ← cu_members c !! (pr_workspace_id actor, pr_user_id actor);
  u ← cu_users c !! pr_user_id actor;
  if active_user u then Some (mb_role m) else None.
Definition require_current_role (actor : Principal) (roles : list Role) : M World () :=
  workspace ← customers (λ c, is_set (cu_orgs c !! pr_workspace_id actor));
  role ← customers (durable_role actor);
  raise_if (negb workspace || match role with Some r => negb (mem r roles) | None => true end)
    EntitlementDenied "ROLE_FORBIDDEN".
(** [accounts.offboarding.assert_workspace_open] *)
Definition assert_workspace_open (workspace : string) : M World () :=
  closing ← customers (λ c, is_set (cu_closures c !! workspace) && truthy workspace);
  raise_if closing AccountError "WORKSPACE_CLOSING".

Definition event (workspace user name : string) (reference : option string) : M World () :=
  id ← uuid4;
  created ← now_utc;
  insert_customer cu_events id (λ c, c <| cu_events ::=
    insert id (mkProductEvent workspace user name reference created) |>).

Definition free_subscription (now : Z) : Subscription :=
  let window := month_window now in
  mkSubscription "FREE" "active" None None None None None None None window.1 window.2 now.
Definition put_subscription (workspace : string) (s : Subscription) : M World () :=
  put_customers (λ c, c <| cu_subscriptions ::= insert workspace s |>).
Definition subscription (workspace : string) : M World Subscription :=
  row ← customers (λ c, cu_subscriptions c !! workspace);
  now ← now_utc;
  result ← match row with
           | Some s => mret s
           | None => put_subscription workspace (free_subscription now) ;; mret (free_subscription now)
           end;
  if bool_decide (sb_plan result = "FREE") && (sb_period_end result <=? now) then
    let window := month_window now in
    let renewed := result <| sb_period_start := window.1 |> <| sb_period_end := window.2 |>
                          <| sb_updated_at := now |> in
    put_subscription workspace renewed ;; mret renewed
  else mret result.

(** ** Admission *)
Definition period_usage (workspace : string) (start : Z) (d : DB) : Z :=
  count_by (λ u, bool_decide (ur_workspace_id u = workspace) && (ur_period_start u =? start))
    (rows (t_usage d)).
Definition usage_between (user : string) (window : Z * Z) (d : DB) : Z :=
  count_by (λ u, bool_decide (ur_user_id u = user) && (window.1 <=? ur_created_at u) &&
                 (ur_created_at u <? window.2)) (rows (t_usage d)).
Definition user_usage (user : string) : M World Z :=
  now ← now_utc;
  select (usage_between user (month_window now)).
Definition unreconciled (customer : string) (e : BillingEvent) : bool :=
  bool_decide (be_customer_id e = Some customer) &&
  mem (be_state e) [BILLING_PENDING; BILLING_FAILED].
Definition pending_billing (s : Subscription) (c : Customers) : bool :=
  match sb_customer_id s with
  | Some customer => truthy customer && existsb (unreconciled customer) (rows (cu_billing c))
  | None => false
  end.
Definition running_status (status : string) : bool := mem status ["active"; "trialing"].

Definition reserve_research (settings : ProductSettings) (actor : Principal) (ticker : string)
    (personal_rnd : bool) (job_id : string) : M World () :=
  (if personal_rnd then
     kind ← select (λ d, j ← t_jobs d !! job_id;
              if bool_decide (j_workspace_id j = pr_workspace_id actor)
              then Some (j_research_kind j) else None);
     raise_if (negb (bool_decide (kind = Some live_rnd))) EntitlementDenied "RND_JOB_REQUIRED"
   else mret ()) ;;
  raise_if (negb (may_write (pr_role actor))) EntitlementDenied "ROLE_FORBIDDEN" ;;
  sub ← subscription (pr_workspace_id actor);
  assert_workspace_open (pr_workspace_id actor) ;;
  require_current_role actor [OWNER; ADMIN; MEMBER] ;;
  pending ← customers (pending_billing sub);
  raise_if pending EntitlementDenied "BILLING_RECONCILIATION_REQUIRED" ;;
  (if running_status (sb_status sub) then
     now ← now_utc;
     raise_if (sb_period_end sub <=? now) EntitlementDenied "SUBSCRIPTION_INACTIVE"
   else raise EntitlementDenied "SUBSCRIPTION_INACTIVE") ;;
  p ← lift (plan (sb_plan sub));
  let synthetic := bool_decide (ticker = "DEMO.L") in
  raise_if (negb synthetic && negb personal_rnd && negb (pl_live_research p)) EntitlementDenied
    "PLAN_LIVE_RESEARCH_UNAVAILABLE" ;;
  used ← select (period_usage (pr_workspace_id actor) (sb_period_start sub));
  raise_if (pl_research_jobs_per_period p <=? used) EntitlementDenied
    "RESEARCH_ALLOWANCE_EXHAUSTED" ;;
  user_used ← user_usage (pr_user_id actor);
  raise_if (money_user_jobs_per_month settings <=? user_used) EntitlementDenied
    "ACCOUNT_RESEARCH_ALLOWANCE_EXHAUSTED" ;;
  created ← now_utc;
  references (λ d, is_set (t_jobs d !! job_id)) ;;
  insert_unique t_usage job_id (λ d, d <| t_usage ::= insert job_id
    (mkUsageRecord (pr_workspace_id actor) (pr_user_id actor) (sb_period_start sub)
       (sb_period_end sub) (sb_plan sub)
       (if synthetic || personal_rnd then 0 else pl_max_job_tokens p) (pl_max_job_seconds p)
       (sha256_hex diagnostics_text) created) |>) ;;
  event (pr_workspace_id actor) (pr_user_id actor) "research_requested" (Some job_id).

Record Summary := mkSummary {
  sm_plan : string;
  sm_status : string;
  sm_used : Z;
  sm_allowance : Z;
  sm_remaining : Z;
  sm_period : Z * Z;
  sm_billing_available : bool;
  sm_entitlements : Plan;
  sm_account_monthly_limit : Z;
  sm_account_monthly_used : Z
}.
Definition summary (settings : ProductSettings) (actor : Principal) : M World Summary :=
  transaction (
    sub ← subscription (pr_workspace_id actor);
    p ← lift (plan (sb_plan sub));
    used ← select (period_usage (pr_workspace_id actor) (sb_period_start sub));
    account ← user_usage (pr_user_id actor);
    mret (mkSummary (sb_plan sub) (sb_status sub) used (pl_research_jobs_per_period p)
            (Z.max 0 (pl_research_jobs_per_period p - used))
            (sb_period_start sub, sb_period_end sub) (money_billing_enabled settings) p
            (money_user_jobs_per_month settings) account)).

(** ** Tenant records *)

(** [column.contains(needle, autoescape=True)] *)
Fixpoint contains (needle hay : string) : bool :=
  String.prefix needle hay ||
  match hay with EmptyString => false | String _ rest => contains needle rest end.
Inductive HistorySort := newest | oldest.
(** Dates are ordinals: [created_from] from its first instant, [created_to] to
    its last. *)
Record HistoryQuery := mkHistory {
  hq_query : string;
  hq_state : string;
  hq_offset : Z;
  hq_limit : Z;
  hq_created_from : option Z;
  hq_created_to : option Z;
  hq_sort : HistorySort
}.
#[export] Instance history_rebuild : Rebuild HistoryQuery := λ r,
  mkHistory (hq_query r) (hq_state r) (hq_offset r) (hq_limit r) (hq_created_from r)
    (hq_created_to r) (hq_sort r).
Definition history_match (workspace : string) (q : HistoryQuery) (ij : string * Job) : bool :=
  bool_decide (j_workspace_id ij.2 = workspace) &&
  (negb (truthy (hq_query q)) || contains (upper (hq_query q)) (j_ticker ij.2) ||
   bool_decide (ij.1 = hq_query q)) &&
  (negb (truthy (hq_state q)) || bool_decide (status_name (j_status ij.2) = hq_state q)) &&
  match hq_created_from q with Some o => instant o <=? j_created_at ij.2 | None => true end &&
  match hq_created_to q with
  | Some o => j_created_at ij.2 <=? instant (o + 1) - microsecond | None => true end.
Definition history_before (order : HistorySort) (a b : string * Job) : bool :=
  (match order with
   | newest => j_created_at b.2 <? j_created_at a.2
   | oldest => j_created_at a.2 <? j_created_at b.2
   end) ||
  ((j_created_at a.2 =? j_created_at b.2) && String.ltb a.1 b.1).
Definition history_rows (workspace : string) (q : HistoryQuery) (d : DB) : list (string * Job) :=
  sort_by (history_before (hq_sort q))
    (List.filter (history_match workspace q) (map_to_list (t_jobs d))).
Definition history_range (q : HistoryQuery) : bool :=
  between 1 100 (hq_limit q) && between 0 100000 (hq_offset q) &&
  match hq_created_from q, hq_created_to q with Some a, Some b => a <=? b | _, _ => true end.
Definition history (actor : Principal) (q : HistoryQuery)
    : M World (list (string * Job) * option Z) :=
  raise_if (negb (history_range q)) ValueError "INVALID_HISTORY_RANGE" ;;
  page ← select (λ d, take (Z.to_nat (hq_limit q + 1))
                        (drop (Z.to_nat (hq_offset q)) (history_rows (pr_workspace_id actor) q d)));
  mret ((λ ij, (ij.1, public ij.2)) <$> take (Z.to_nat (hq_limit q)) page,
        if hq_limit q <? Z.of_nat (length page) then Some (hq_offset q + hq_limit q) else None).

Definition watch (actor : Principal) (ticker : string) (remove : bool) : M World () :=
  raise_if (bool_decide (pr_role actor = VIEWER)) EntitlementDenied "ROLE_FORBIDDEN" ;;
  transaction (
    subscription (pr_workspace_id actor) ;;
    let key := (pr_workspace_id actor, ticker) in
    (if remove then put_customers (λ c, c <| cu_watchlist ::= delete key |>)
     else
       present ← customers (λ c, is_set (cu_watchlist c !! key));
       if (present : bool) then mret ()
       else
         count ← customers (λ c, count_by (λ k, bool_decide (k.1 = pr_workspace_id actor))
                                   (map_to_list (cu_watchlist c)).*1);
         raise_if (200 <=? count) EntitlementDenied "WATCHLIST_LIMIT" ;;
         created ← now_utc;
         insert_customer cu_watchlist key (λ c, c <| cu_watchlist ::=
           insert key (mkWatch (pr_user_id actor) created) |>)) ;;
    event (pr_workspace_id actor) (pr_user_id actor)
      (if remove then "watchlist_removed" else "watchlist_added") None).
Definition list_watch (actor : Principal) : M World (list (string * WatchRow)) :=
  customers (λ c, take 200 (sort_by (λ a b, String.ltb a.1 b.1)
    (omap (λ kw, if bool_decide (kw.1.1 = pr_workspace_id actor) then Some (kw.1.2, kw.2) else None)
       (map_to_list (cu_watchlist c))))).

(** A notification: its id, job, creation and when this user read it. *)
Record Notification := mkNotification {
  nt_id : string; nt_job : string; nt_created_at : Z; nt_read_at : option Z; nt_message : string
}.
Definition visible_alert (workspace : string) (o : OutboxRow) : bool :=
  bool_decide (ob_workspace_id o = workspace) && bool_decide (ob_channel o = web).
Definition notifications (actor : Principal) : M World (list Notification) :=
  select (λ d, take 100 (sort_desc nt_created_at
    (omap (λ ko, if visible_alert (pr_workspace_id actor) ko.2
                 then Some (mkNotification ko.1 (ob_job ko.2) (ob_created_at ko.2)
                        (r ← cu_reads (t_customers d) !! (pr_user_id actor, ko.1);
                         if bool_decide (rd_workspace_id r = pr_workspace_id actor)
                         then Some (rd_read_at r) else None)
                        "Your research record is ready to review.")
                 else None)
       (map_to_list (t_outbox d))))).
Definition mark_read (actor : Principal) (notification : string) : M World () :=
  transaction (
    subscription (pr_workspace_id actor) ;;
    exists_ ← select (λ d, match t_outbox d !! notification with
                           | Some o => visible_alert (pr_workspace_id actor) o
                           | None => false
                           end);
    raise_if (negb exists_) EntitlementDenied "RESOURCE_NOT_FOUND" ;;
    let key := (pr_user_id actor, notification) in
    found ← customers (λ c, is_set (cu_reads c !! key));
    if (found : bool) then mret ()
    else
      read ← now_utc;
      insert_customer cu_reads key (λ c, c <| cu_reads ::=
        insert key (mkRead (pr_workspace_id actor) read) |>)).

(** ** Endpoints that write ([src/money/product/api.py]) *)

Definition record_event (h : Handle) (actor : Principal) (name : string) (research : option string)
    : M World () :=
  allowed ← consume_rate_limit (for_workspace h (pr_workspace_id actor))
              ("analytics:" +:+ pr_user_id actor) 30 60;
  raise_if (negb (rd_allowed allowed)) HTTPException "Please try again later" ;;
  transaction (
    known ← select (λ d, match research with
                         | Some id => match t_jobs d !! id with
                                      | Some j => bool_decide (j_workspace_id j = pr_workspace_id actor)
                                      | None => false
                                      end
                         | None => true
                         end);
    raise_if (negb known) HTTPException "Research not found" ;;
    event (pr_workspace_id actor) (pr_user_id actor) name research).
Definition set_preferences (actor : Principal) (mandate : ResearchMandate) (research_email : bool)
    : M World () :=
  raise_if (negb (mem (pr_role actor) [OWNER; ADMIN])) EntitlementDenied "ROLE_FORBIDDEN" ;;
  transaction (
    subscription (pr_workspace_id actor) ;;
    updated ← now_utc;
    put_customers (λ c, c <| cu_preferences ::=
      insert (pr_workspace_id actor) (mkPreferences mandate research_email updated) |>) ;;
    event (pr_workspace_id actor) (pr_user_id actor) "preferences_updated" None).
End product.
