(* ===== verification/Accounts.v ===== *)
(** * Identity ([src/money/accounts/service.py])

    Sign-up, verification, sign-in, sessions and password reset of
    [AccountService]. A method that reads, hashes a password and then opens a
    transaction is split where the transaction starts ([open_session],
    [rotate_session]): the transaction takes the user row as it was read, so a
    theorem about it covers every write that happened in between. *)

From S2P Require Import Prelude Effects PyNum PyText Contracts Demo Eligibility Governance.
From S2P Require Import Market Signals CrossExam Universe Customers Schema Store Budgets.
From S2P Require Import Calendar Security Product.
#[local] Open Scope Z_scope.

(** The payload of a transactional email and the Fernet cipher over it. *)
Record Mail := mkMail { ml_to : string; ml_subject : string; ml_body : string }.
Class Vault := { seal_at : nat → Mail → string; unseal : string → option Mail }.

(** [value.isoformat()] of an aware UTC datetime. *)
Fixpoint pad_text (width : nat) (n : Z) : string :=
  match width with
  | O => EmptyString
  | S w => pad_text w (n / 10) +:+ int_text (n `mod` 10)
  end.
Definition isoformat (t : Z) : string :=
  let c := date_of t in
  let s := t `mod` days 1 in
  pad_text 4 (d_year c) +:+ "-" +:+ pad_text 2 (d_month c) +:+ "-" +:+ pad_text 2 (d_day c) +:+ "T" +:+
  pad_text 2 (s / hours 1) +:+ ":" +:+ pad_text 2 (s `mod` hours 1 / minutes 1) +:+ ":" +:+
  pad_text 2 (s `mod` minutes 1 / seconds 1) +:+
  (if s `mod` seconds 1 =? 0 then EmptyString else "." +:+ pad_text 6 (s `mod` seconds 1)) +:+ "+00:00".
(** [s.rstrip("/")] *)
Fixpoint rstrip_slash (s : string) : string :=
  match s with
  | EmptyString => EmptyString
  | String c s' =>
      match rstrip_slash s' with
      | EmptyString => if bool_decide (c = "/"%char) then EmptyString else String c EmptyString
      | r => String c r
      end
  end.

(** The fields of [Settings] the service reads and the hash checked for unknown
    users. *)
Record AccountSettings := mkAccountSettings {
  money_login_global_per_minute : Z;
  money_public_web_url : string;
  money_account_session_hours : Z;
  dummy_hash : string
}.
(** [self.store]: the handle of no workspace. *)
Definition root : Handle := mkHandle None None.

Definition user_by_email (address : string) (c : Customers) : option (string * UserRow) :=
  List.find (λ ku, bool_decide (us_email ku.2 = address)) (map_to_list (cu_users c)).
Record PublicUser := mkPublicUser {
  pu_id : string; pu_email : string; pu_display_name : string; pu_email_verified : bool;
  pu_email_notifications : bool
}.
Definition public_user (id : string) (u : UserRow) : PublicUser :=
  mkPublicUser id (us_email u) (us_display_name u) (is_set (us_email_verified_at u))
    (us_email_notifications u).
Definition known_user (id : string) (d : DB) : bool := is_set (cu_users (t_customers d) !! id).
Definition known_org (id : string) (d : DB) : bool := is_set (cu_orgs (t_customers d) !! id).

Section accounts.
Context `{Env, Secrets, Catalog, Vault}.

Definition audit_event (name : string) (user workspace : option string) (payload : jobj)
    : M World () :=
  id ← uuid4;
  created ← now_utc;
  references (λ d, match user with Some u => known_user u d | None => true end &&
                   match workspace with Some w => known_org w d | None => true end) ;;
  insert_customer cu_audit id (λ c, c <| cu_audit ::=
    insert id (mkAccountEvent name user workspace payload created) |>).

Definition limit_key (key : string) (allowance : Z) : M World () :=
  decision ← consume_rate_limit root key allowance 60;
  raise_if (negb (rd_allowed decision)) AccountError "RATE_LIMITED".
Definition limit (s : AccountSettings) (operation identifier : string) (allowance : Z)
    : M World () :=
  limit_key ("account:" +:+ operation +:+ ":global") (money_login_global_per_minute s) ;;
  limit_key ("account:" +:+ operation +:+ ":" +:+ token_digest identifier) allowance.

(** ** Email *)

(** Whether an address has been erased or its owner is leaving. *)
Definition suppressed (user address kind : string) (c : Customers) : bool :=
  match cu_users c !! user with
  | None => true
  | Some source =>
      is_set (us_deletion_requested_at source) ||
      (negb (bool_decide (kind = "invitation")) && negb (bool_decide (us_email source = address))) ||
      match user_by_email address c with
      | Some (_, recipient) => is_set (us_deletion_requested_at recipient)
      | None => existsb (λ r, bool_decide (dl_recipient_hash r = token_digest (casefold (strip address))))
                  (rows (cu_deletions c))
      end
  end.
Definition email_ (user address kind subject body : string) : M World () :=
  locked ← skip_locked;
  busy ← customers (λ c, is_set (cu_users c !! user) && locked user ||
                         match user_by_email address c with Some (i, _) => locked i | None => false end);
  raise_if busy AccountError "ACCOUNT_BUSY" ;;
  stop ← customers (suppressed user address kind);
  if (stop : bool) then
    raise_if (bool_decide (kind = "invitation")) AccountError "INVITATION_UNAVAILABLE"
  else
    k ← next_tick;
    id ← uuid4;
    available ← now_utc;
    created ← now_utc;
    insert_customer cu_email id (λ c, c <| cu_email ::= insert id
      (mkEmail user kind (seal_at k (mkMail address subject body))
         (Some (token_digest (casefold (strip address)))) EMAIL_QUEUED 0 available None None created
         None None) |>).

(** ** Action tokens *)
Definition purpose_text (p : TokenPurpose) : string :=
  match p with verify => "verify" | reset => "reset" end.
Definition spend_tokens (user : string) (p : TokenPurpose) (now : Z) (t : TokenRow) : TokenRow :=
  if bool_decide (tk_user_id t = user) && bool_decide (tk_purpose t = p) &&
     negb (is_set (tk_used_at t))
  then t <| tk_used_at := Some now |> else t.
Definition new_line : string := String (Ascii.ascii_of_nat 10) EmptyString.
Definition action (s : AccountSettings) (user address : string) (p : TokenPurpose) : M World () :=
  now ← now_utc;
  put_customers (λ c, c <| cu_tokens ::= fmap (spend_tokens user p now) |>) ;;
  raw ← token_urlsafe;
  let expiry := now + minutes (match p with reset => 30 | verify => 1440 end) in
  references (known_user user) ;;
  insert_customer cu_tokens (token_digest raw) (λ c, c <| cu_tokens ::=
    insert (token_digest raw) (mkToken user p now expiry None) |>) ;;
  let path := match p with reset => "reset-password" | verify => "verify-email" end in
  let link := rstrip_slash (money_public_web_url s) +:+ "/" +:+ path +:+ "#token=" +:+ raw in
  let title := match p with reset => "Reset your Money password"
                          | verify => "Verify your Money email" end in
  email_ user address (purpose_text p) title
    (title +:+ ": " +:+ link +:+ new_line +:+ "This link expires at " +:+ isoformat expiry +:+ ". " +:+
     "If you did not request this, ignore this email.").
Definition token_of (raw : string) (p : TokenPurpose) (c : Customers) : option TokenRow :=
  t ← cu_tokens c !! token_digest raw; if bool_decide (tk_purpose t = p) then Some t else None.
Definition TOKEN_INVALID : string := "TOKEN_INVALID".
Definition consume (raw : string) (p : TokenPurpose) : M World TokenRow :=
  initial ← customers (token_of raw p);
  t0 ← expect initial AccountError TOKEN_INVALID;
  user ← customers (λ c, cu_users c !! tk_user_id t0);
  raise_if (match user with Some u => is_set (us_deletion_requested_at u) | None => true end)
    AccountError TOKEN_INVALID ;;
  row ← customers (token_of raw p);
  t ← expect row AccountError TOKEN_INVALID;
  raise_if (is_set (tk_used_at t)) AccountError TOKEN_INVALID ;;
  now ← now_utc;
  raise_if (tk_expires_at t <=? now) AccountError TOKEN_INVALID ;;
  used ← now_utc;
  put_customers (λ c, c <| cu_tokens ::= insert (token_digest raw) (t <| tk_used_at := Some used |>) |>) ;;
  mret t.

(** ** Sign-up and verification *)
Definition insert_user (id : string) (u : UserRow) : M World () :=
  taken ← customers (λ c, is_set (user_by_email (us_email u) c));
  raise_if taken IntegrityError "duplicate key value violates unique constraint" ;;
  insert_customer cu_users id (λ c, c <| cu_users ::= insert id u |>).
Definition signup (s : AccountSettings) (address password display_name : string) : M World () :=
  limit s "signup" address 5 ;;
  hashed ← password_hash password;
  catch (λ e, is_instance e IntegrityError)
    (transaction (
       existing ← customers (user_by_email address);
       match existing with
       | Some _ => mret ()
       | None =>
           id ← uuid4;
           created ← now_utc;
           insert_user id (mkUser address display_name hashed None None true created) ;;
           action s id address verify ;;
           audit_event "signup_completed" (Some id) None []
       end))
    (λ _, mret ()).
Definition update_user (id : string) (f : UserRow → UserRow) : M World () :=
  put_customers (λ c, c <| cu_users ::= alter f id |>).
Definition verify_email (s : AccountSettings) (raw : string) : M World () :=
  limit s "verify" (token_digest raw) 10 ;;
  transaction (
    t ← consume raw verify;
    now ← now_utc;
    update_user (tk_user_id t) (λ u, u <| us_email_verified_at := Some now |>) ;;
    audit_event "email_verified" (Some (tk_user_id t)) None []).
Definition forgot_password (s : AccountSettings) (address : string) : M World () :=
  limit s "reset" address 5 ;;
  transaction (
    user ← customers (user_by_email address);
    match user with
    | Some (id, u) => if is_set (us_deletion_requested_at u) then mret () else action s id address reset
    | None => mret ()
    end).
Definition resend_verification (s : AccountSettings) (address : string) : M World () :=
  limit s "resend-verification" address 5 ;;
  transaction (
    user ← customers (user_by_email address);
    match user with
    | Some (id, u) =>
        if is_set (us_email_verified_at u) || is_set (us_deletion_requested_at u) then mret ()
        else action s id address verify
    | None => mret ()
    end).
Definition revoke_open (user : string) (now : Z) (r : AccountSession) : AccountSession :=
  if bool_decide (as_user_id r = user) && negb (is_set (as_revoked_at r))
  then r <| as_revoked_at := Some now |> else r.
Definition reset_password (s : AccountSettings) (raw password : string) : M World () :=
  limit s "reset-confirm" (token_digest raw) 5 ;;
  hashed ← password_hash password;
  transaction (
    t ← consume raw reset;
    update_user (tk_user_id t) (λ u, u <| us_password_hash := hashed |>) ;;
    now ← now_utc;
    put_customers (λ c, c <| cu_sessions ::= fmap (revoke_open (tk_user_id t) now) |>) ;;
    audit_event "password_reset" (Some (tk_user_id t)) None []).

(** ** Sessions *)
Definition new_session (s : AccountSettings) (user : string) : M World (string * Z) :=
  raw ← token_urlsafe;
  now ← now_utc;
  let expiry := now + hours (money_account_session_hours s) in
  created ← now_utc;
  references (known_user user) ;;
  insert_customer cu_sessions (token_digest raw) (λ c, c <| cu_sessions ::=
    insert (token_digest raw) (mkAccountSession user created expiry None) |>) ;;
  mret (raw, expiry).
(** The locked row must still be the one that was read. *)
Definition stale (read current : UserRow) : bool :=
  negb (bool_decide (us_password_hash current = us_password_hash read)) ||
  is_set (us_deletion_requested_at current).
Definition open_session (s : AccountSettings) (id : string) (user : UserRow) : M World (string * Z) :=
  transaction (
    row ← customers (λ c, cu_users c !! id);
    current ← one row;
    raise_if (stale user current) AccountError "LOGIN_INVALID" ;;
    session ← new_session s id;
    audit_event "login" (Some id) None [] ;;
    mret session).
Record WorkspaceView := mkWorkspaceView { wv_id : string; wv_name : string; wv_role : Role }.
(** [organisations join members], ordered by creation and id. *)
Definition org_before (a b : string * (OrgRow * Role)) : bool :=
  (og_created_at a.2.1 <? og_created_at b.2.1) ||
  ((og_created_at a.2.1 =? og_created_at b.2.1) && String.ltb a.1 b.1).
Definition memberships (user : string) (c : Customers) : list (string * (OrgRow * Role)) :=
  sort_by org_before
    (omap (λ ko, (λ m, (ko.1, (ko.2, mb_role m))) <$> cu_members c !! (ko.1, user))
       (map_to_list (cu_orgs c))).
Definition workspaces (user : string) : M World (list WorkspaceView) :=
  customers (λ c, (λ k, mkWorkspaceView k.1 (og_name k.2.1) k.2.2) <$> take 100 (memberships user c)).
Record LoginView := mkLogin {
  lg_session_token : string; lg_expires_at : Z; lg_user : PublicUser; lg_workspaces : list WorkspaceView
}.
Definition login (s : AccountSettings) (address password : string) : M World LoginView :=
  limit s "login" address 5 ;;
  user ← customers (user_by_email address);
  valid ← password_valid password
            (match user with Some (_, u) => us_password_hash u | None => dummy_hash s end);
  match user with
  | Some (id, u) =>
      if negb valid || is_set (us_deletion_requested_at u) then
        transaction (audit_event "login_failed" (Some id) None []) ;;
        raise AccountError "LOGIN_INVALID"
      else
        raise_if (negb (is_set (us_email_verified_at u))) AccountError "EMAIL_VERIFICATION_REQUIRED" ;;
        session ← open_session s id u;
        spaces ← workspaces id;
        mret (mkLogin session.1 session.2 (public_user id u) spaces)
  | None =>
      transaction (audit_event "login_failed" None None []) ;;
      raise AccountError "LOGIN_INVALID"
  end.
Definition token_shape (token : option string) : bool :=
  match token with
  | Some t => truthy t && (32 <=? Z.of_nat (String.length t)) && (Z.of_nat (String.length t) <=? 128)
  | None => false
  end.
(** A live session and its user, who may act. *)
Definition session_user (token : string) (now : Z) (c : Customers) : option (string * UserRow) :=
  r ← cu_sessions c !! token_digest token;
  u ← cu_users c !! as_user_id r;
  if negb (is_set (as_revoked_at r)) && (now <? as_expires_at r) && active_user u
  then Some (as_user_id r, u) else None.
Definition authenticated_user (token : option string) : M World (string * UserRow) :=
  raise_if (negb (token_shape token)) AccountError "AUTH_REQUIRED" ;;
  now ← now_utc;
  user ← customers (λ c, t ← token; session_user t now c);
  expect user AccountError "SESSION_EXPIRED".
Definition principal (token workspace : option string) : M World Principal :=
  user ← authenticated_user token;
  found ← customers (λ c, head (List.filter
            (λ k, match workspace with
                  | Some w => negb (truthy w) || bool_decide (k.1 = w)
                  | None => true
                  end) (memberships user.1 c)));
  k ← expect found AccountError
        (if truthy_opt workspace then "WORKSPACE_FORBIDDEN" else "WORKSPACE_REQUIRED");
  mret (mkPrincipal user.1 k.1 k.2.2 (us_email user.2)).
Definition revoke_one (hash : string) (now : Z) (c : Customers) : Customers :=
  c <| cu_sessions ::= alter (λ r, r <| as_revoked_at := Some now |>) hash |>.
Definition logout (token : option string) : M World () :=
  match token with
  | None => mret ()
  | Some raw =>
      if negb (truthy raw) then mret () else
      transaction (
        initial ← customers (λ c, cu_sessions c !! token_digest raw);
        match initial with
        | None => mret ()
        | Some r =>
            owner ← customers (λ c, cu_users c !! as_user_id r);
            one owner ;;
            if is_set (as_revoked_at r) then mret () else
            now ← now_utc;
            put_customers (revoke_one (token_digest raw) now) ;;
            audit_event "logout" (Some (as_user_id r)) None []
        end)
  end.
(** The transaction of [rotate], for the user read by [authenticated_user]. *)
Definition rotate_session (s : AccountSettings) (raw id : string) (user : UserRow)
    : M World (string * Z) :=
  transaction (
    row ← customers (λ c, cu_users c !! id);
    current ← one row;
    raise_if (stale user current) AccountError "SESSION_EXPIRED" ;;
    old ← customers (λ c, cu_sessions c !! token_digest raw);
    r ← one old;
    raise_if (is_set (as_revoked_at r)) AccountError "SESSION_EXPIRED" ;;
    now ← now_utc;
    raise_if (as_expires_at r <=? now) AccountError "SESSION_EXPIRED" ;;
    revoked ← now_utc;
    put_customers (revoke_one (token_digest raw) revoked) ;;
    session ← new_session s id;
    audit_event "session_rotated" (Some id) None [] ;;
    mret session).
Definition rotate (s : AccountSettings) (token : option string) : M World (string * Z) :=
  user ← authenticated_user token;
  raw ← expect token AssertionError "raw is not None";
  rotate_session s raw user.1 user.2.
Record SessionView := mkSessionView {
  sv_id : string; sv_created_at : Z; sv_expires_at : Z; sv_current : bool
}.
Definition open_sessions (user : string) (now : Z) (c : Customers) : list (string * AccountSession) :=
  List.filter (λ kr, bool_decide (as_user_id kr.2 = user) && negb (is_set (as_revoked_at kr.2)) &&
                     (now <? as_expires_at kr.2)) (map_to_list (cu_sessions c)).
Definition session_reference (hash : string) : string := token_digest ("session-reference:" +:+ hash).
Definition list_sessions (user : string) (current : option string) : M World (list SessionView) :=
  now ← now_utc;
  found ← customers (λ c, take 100 (sort_desc (λ kr, as_created_at kr.2) (open_sessions user now c)));
  mret ((λ kr, mkSessionView (session_reference kr.1) (as_created_at kr.2) (as_expires_at kr.2)
                 match current with Some t => bool_decide (token_digest t = kr.1) | None => false end)
          <$> found).
Definition revoke_account_session (user reference : string) : M World () :=
  transaction (
    row ← customers (λ c, cu_users c !! user);
    current ← one row;
    raise_if (is_set (us_deletion_requested_at current)) AccountError "SESSION_EXPIRED" ;;
    now ← now_utc;
    found ← customers (λ c, List.find (λ kr, bool_decide (session_reference kr.1 = reference))
                              (take 100 (open_sessions user now c)));
    kr ← expect found AccountError "SESSION_NOT_FOUND";
    revoked ← now_utc;
    put_customers (revoke_one kr.1 revoked) ;;
    audit_event "session_revoked" (Some user) None []).
End accounts.
