(* ===== verification/Workspaces.v ===== *)
(** * Workspaces and membership ([src/money/accounts/service.py])

    Creation of workspaces, seats, invitations, roles and the transfer of
    ownership. An actor is the [Principal] the request authenticated; every
    operation re-reads its authority inside the transaction. *)

From S2P Require Import Prelude Effects PyNum PyText Contracts Demo Eligibility Governance.
From S2P Require Import Market Signals CrossExam Universe Customers Schema Store Budgets.
From S2P Require Import Calendar Security Product Accounts.
#[local] Open Scope Z_scope.

Definition role_text (r : Role) : string :=
  match r with OWNER => "OWNER" | ADMIN => "ADMIN" | MEMBER => "MEMBER" | VIEWER => "VIEWER" end.
(** [role not in {"ADMIN", "MEMBER", "VIEWER"}] *)
Definition assignable (r : Role) : bool := mem r [ADMIN; MEMBER; VIEWER].
Definition require_admin (actor : Principal) : Res () :=
  reject (negb (mem (pr_role actor) [OWNER; ADMIN])) AccountError "ROLE_FORBIDDEN".
Definition require_write (actor : Principal) : Res () :=
  reject (negb (may_write (pr_role actor))) AccountError "ROLE_FORBIDDEN".

Definition member_role (workspace user : string) (c : Customers) : option Role :=
  mb_role <$> cu_members c !! (workspace, user).
Definition member_count (workspace : string) (c : Customers) : Z :=
  count_by (λ km, bool_decide (km.1.1 = workspace)) (map_to_list (cu_members c)).

Section workspaces.
Context `{Env, Secrets, Catalog, Vault}.

Definition insert_member (workspace user : string) (role : Role) : M World () :=
  created ← now_utc;
  references (λ d, known_org workspace d && known_user user d) ;;
  insert_customer cu_members (workspace, user) (λ c, c <| cu_members ::=
    insert (workspace, user) (mkMember role created) |>).
(** [select(organisations.c.id).where(id == workspace).with_for_update().one()] *)
Definition lock_workspace (workspace : string) : M World () :=
  row ← customers (λ c, cu_orgs c !! workspace);
  one row ;; mret ().

Definition create_workspace (s : AccountSettings) (user name : string) : M World WorkspaceView :=
  limit s "workspace" user 3 ;;
  id ← uuid4;
  transaction (
    row ← customers (λ c, cu_users c !! user);
    active ← one row;
    raise_if (is_set (us_deletion_requested_at active)) AccountError "SESSION_EXPIRED" ;;
    owned ← customers (λ c, length (take 5 (List.filter (λ o, bool_decide (og_created_by o = user))
                                             (rows (cu_orgs c)))));
    raise_if (5 <=? Z.of_nat owned) AccountError "WORKSPACE_LIMIT" ;;
    created ← now_utc;
    references (known_user user) ;;
    insert_customer cu_orgs id (λ c, c <| cu_orgs ::= insert id (mkOrg name user created) |>) ;;
    insert_member id user OWNER ;;
    audit_event "workspace_created" (Some user) (Some id) []) ;;
  mret (mkWorkspaceView id name OWNER).

(** ** Authority and seats *)

(** [_seat_limit] *)
Definition seat_limit (workspace : string) : M World Z :=
  sub ← subscription workspace;
  lock_workspace workspace ;;
  (if running_status (sb_status sub) then
     now ← now_utc;
     raise_if (sb_period_end sub <=? now) AccountError "SUBSCRIPTION_INACTIVE"
   else raise AccountError "SUBSCRIPTION_INACTIVE") ;;
  p ← lift (plan (sb_plan sub));
  mret (pl_seats p).
(** [_owner] *)
Definition require_owner (actor : Principal) : M World () :=
  locked ← skip_locked;
  current ← customers (λ c, cu_users c !! pr_user_id actor);
  raise_if (is_set current && locked (pr_user_id actor)) AccountError "ACCOUNT_BUSY" ;;
  raise_if (match current with Some u => is_set (us_deletion_requested_at u) | None => true end)
    AccountError "ROLE_FORBIDDEN" ;;
  role ← customers (member_role (pr_workspace_id actor) (pr_user_id actor));
  raise_if (negb (bool_decide (role = Some OWNER))) AccountError "ROLE_FORBIDDEN".

(** ** Invitations *)
Definition pending_invitation (workspace address : string) (now : Z) (i : InvitationRow) : bool :=
  bool_decide (in_workspace_id i = workspace) && negb (is_set (in_used_at i)) &&
  (now <? in_expires_at i) && negb (bool_decide (in_email i = address)).
Definition withdraw (workspace address : string) (now : Z) (i : InvitationRow) : InvitationRow :=
  if bool_decide (in_workspace_id i = workspace) && bool_decide (in_email i = address) &&
     negb (is_set (in_used_at i))
  then i <| in_used_at := Some now |> else i.
Definition already_member (workspace address : string) (c : Customers) : bool :=
  existsb (λ km, bool_decide (km.1.1 = workspace) && truthy km.1.2 &&
                 match cu_users c !! km.1.2 with
                 | Some u => bool_decide (us_email u = address)
                 | None => false
                 end) (map_to_list (cu_members c)).
Definition invite (s : AccountSettings) (actor : Principal) (address : string) (role : Role)
    : M World () :=
  raise_if (negb (assignable role)) AccountError "ROLE_FORBIDDEN" ;;
  limit s "invitation" (pr_user_id actor) 10 ;;
  transaction (
    let workspace := pr_workspace_id actor in
    allowance ← seat_limit workspace;
    require_owner actor ;;
    existing ← customers (already_member workspace address);
    raise_if existing AccountError "ALREADY_MEMBER" ;;
    members ← customers (member_count workspace);
    at_ ← now_utc;
    pending ← customers (λ c, count_by (pending_invitation workspace address at_)
                                (rows (cu_invitations c)));
    raise_if (allowance <=? members + pending) AccountError "SEAT_ALLOWANCE_EXHAUSTED" ;;
    now ← now_utc;
    put_customers (λ c, c <| cu_invitations ::= fmap (withdraw workspace address now) |>) ;;
    raw ← token_urlsafe;
    references (λ d, known_org workspace d && known_user (pr_user_id actor) d) ;;
    insert_customer cu_invitations (token_digest raw) (λ c, c <| cu_invitations ::=
      insert (token_digest raw)
        (mkInvitation workspace (pr_user_id actor) address role now (now + days 7) None) |>) ;;
    let link := rstrip_slash (money_public_web_url s) +:+ "/accept-invite#token=" +:+ raw in
    email_ (pr_user_id actor) address "invitation" "Your Money workspace invitation"
      ("Sign up or sign in using this email address, then accept your invitation: " +:+ link +:+
       new_line +:+ "This invitation expires in 7 days. Ignore it if unexpected.") ;;
    audit_event "member_invited" (Some (pr_user_id actor)) (Some workspace)
      [("role", JStr (role_text role))]).
(** The role of the inviter, while not leaving. *)
Definition inviter_role (workspace user : string) (c : Customers) : option Role :=
  m ← cu_members c !! (workspace, user);
  u ← cu_users c !! user;
  if is_set (us_deletion_requested_at u) then None else Some (mb_role m).
Definition accept_invitation (s : AccountSettings) (id : string) (user : UserRow) (raw : string)
    : M World WorkspaceView :=
  limit s "accept-invitation" id 10 ;;
  transaction (
    initial ← customers (λ c, cu_invitations c !! token_digest raw);
    i0 ← expect initial AccountError TOKEN_INVALID;
    raise_if (negb (bool_decide (in_email i0 = us_email user))) AccountError TOKEN_INVALID ;;
    allowance ← seat_limit (in_workspace_id i0);
    row ← customers (λ c, cu_invitations c !! token_digest raw);
    i ← one row;
    raise_if (is_set (in_used_at i)) AccountError TOKEN_INVALID ;;
    now ← now_utc;
    raise_if (in_expires_at i <=? now) AccountError TOKEN_INVALID ;;
    let workspace := in_workspace_id i in
    inviter ← customers (inviter_role workspace (in_invited_by i));
    raise_if (negb (bool_decide (inviter = Some OWNER))) AccountError "INVITATION_REVOKED" ;;
    existing ← customers (member_role workspace id);
    raise_if (is_set existing) AccountError "ALREADY_MEMBER" ;;
    count ← customers (member_count workspace);
    raise_if (allowance <=? count) AccountError "SEAT_ALLOWANCE_EXHAUSTED" ;;
    insert_member workspace id (in_role i) ;;
    used ← now_utc;
    put_customers (λ c, c <| cu_invitations ::=
      alter (λ r, r <| in_used_at := Some used |>) (token_digest raw) |>) ;;
    audit_event "member_joined" (Some id) (Some workspace) [("role", JStr (role_text (in_role i)))] ;;
    name ← customers (λ c, og_name <$> cu_orgs c !! workspace);
    mret (mkWorkspaceView workspace (default "None" name) (in_role i))).

(** ** Members *)
Record MemberView := mkMemberView {
  mv_user_id : string; mv_display_name : string; mv_email : string; mv_role : Role
}.
Definition workspace_members (actor : Principal) (offset : Z) : M World (list MemberView * option Z) :=
  lift (require_admin actor) ;;
  page ← customers (λ c, take 101 (drop (Z.to_nat offset)
    (sort_by (λ a b, String.ltb (mv_user_id a) (mv_user_id b))
      (omap (λ ku, (λ m, mkMemberView ku.1 (us_display_name ku.2) (us_email ku.2) (mb_role m)) <$>
                     cu_members c !! (pr_workspace_id actor, ku.1)) (map_to_list (cu_users c))))));
  mret (take 100 page, if 100 <? Z.of_nat (length page) then Some (offset + 100) else None).
Definition set_role (workspace user : string) (role : Role) (c : Customers) : Customers :=
  c <| cu_members ::= alter (λ m, m <| mb_role := role |>) (workspace, user) |>.
Definition change_member (actor : Principal) (user : string) (role : option Role) : M World () :=
  raise_if (match role with Some r => negb (assignable r) | None => false end)
    AccountError "ROLE_FORBIDDEN" ;;
  transaction (
    let workspace := pr_workspace_id actor in
    lock_workspace workspace ;;
    require_owner actor ;;
    target ← customers (member_role workspace user);
    current ← expect target AccountError "MEMBER_NOT_FOUND";
    raise_if (bool_decide (current = OWNER) || bool_decide (user = pr_user_id actor))
      AccountError "OWNER_PROTECTED" ;;
    put_customers match role with
                  | None => λ c, c <| cu_members ::= delete (workspace, user) |>
                  | Some r => set_role workspace user r
                  end ;;
    audit_event (match role with None => "member_removed" | Some _ => "role_changed" end)
      (Some (pr_user_id actor)) (Some workspace)
      [("target_user_id", JStr user);
       ("role", match role with Some r => JStr (role_text r) | None => JNull end)]).
Definition transfer_ownership (s : AccountSettings) (actor : Principal) (password successor : string)
    : M World () :=
  limit s "ownership-transfer" (pr_user_id actor) 5 ;;
  raise_if (bool_decide (successor = pr_user_id actor)) AccountError "SUCCESSOR_INVALID" ;;
  transaction (
    let workspace := pr_workspace_id actor in
    row ← customers (λ c, cu_users c !! pr_user_id actor);
    heir ← customers (λ c, cu_users c !! successor);
    current ← expect row AccountError "SESSION_EXPIRED";
    raise_if (is_set (us_deletion_requested_at current)) AccountError "SESSION_EXPIRED" ;;
    valid ← password_valid password (us_password_hash current);
    raise_if (negb valid) AccountError "PASSWORD_INVALID" ;;
    raise_if (match heir with Some u => negb (active_user u) | None => true end)
      AccountError "SUCCESSOR_INVALID" ;;
    lock_workspace workspace ;;
    assert_workspace_open workspace ;;
    require_owner actor ;;
    role ← customers (member_role workspace successor);
    raise_if (negb (is_set role)) AccountError "SUCCESSOR_INVALID" ;;
    put_customers (set_role workspace successor OWNER) ;;
    put_customers (set_role workspace (pr_user_id actor) ADMIN) ;;
    audit_event "workspace_ownership_transferred" (Some (pr_user_id actor)) (Some workspace)
      [("successor_user_id", JStr successor)]).

(** ** Export *)
Record ExportView := mkExport {
  xv_user : PublicUser; xv_workspaces : list WorkspaceView; xv_events : list (string * Z)
}.
Definition export (id : string) (user : UserRow) : M World ExportView :=
  transaction (
    events ← customers (λ c, take 1000 (sort_desc snd
      (omap (λ e, if bool_decide (ev_user_id e = Some id) then Some (ev_event e, ev_created_at e)
                  else None) (rows (cu_audit c)))));
    spaces ← workspaces id;
    audit_event "account_exported" (Some id) None [] ;;
    mret (mkExport (public_user id user) spaces events)).
(** [accounts.api.preferences] *)
Definition set_notifications (user : string) (enabled : bool) : M World () :=
  transaction (
    update_user user (λ u, u <| us_email_notifications := enabled |>) ;;
    audit_event "notification_preferences_updated" (Some user) None []).
End workspaces.
