(* ===== verification/Billing.v ===== *)
(** * Billing ([src/money/product/billing.py], [worker.py], [notifications.py])

    The guards of the Stripe gateway, webhook authentication and its durable
    inbox, reconciliation of billing events, and the notifications of the
    commercial worker. The provider's answer to a request is a parameter, and so
    are the message authentication code and the JSON parser of the webhook. *)

From S2P Require Import Prelude Effects PyNum PyText Contracts Demo Eligibility Governance.
From S2P Require Import Market Signals CrossExam Universe Customers Schema Store Budgets.
From S2P Require Import Calendar Security Product Accounts.
#[local] Open Scope Z_scope.

(** A request of the provider: its document, or the code of the
    [BillingUnavailable] the adapter raises. *)
Class Stripe := {
  stripe_at : nat → string → string → list (string * string) → option string → string + jobj;
  hmac_sha256 : string → string → string;
  json_loads : string → option json;
  time_at : nat → spec_float;
}.

(** ** Identifiers of the provider *)
Definition is_word (c : Ascii.ascii) : bool :=
  let n := Ascii.nat_of_ascii c in
  (((48 <=? n) && (n <=? 57)) || ((65 <=? n) && (n <=? 90)) || ((97 <=? n) && (n <=? 122)) || (n =? 95))%nat.
Fixpoint all_chars (p : Ascii.ascii → bool) (s : string) : bool :=
  match s with EmptyString => true | String c s' => p c && all_chars p s' end.
(** [re.fullmatch(prefix + "[A-Za-z0-9_]{1,n}", s)] *)
Fixpoint after_prefix (prefix s : string) : option string :=
  match prefix, s with
  | EmptyString, _ => Some s
  | String p ps, String c cs => if bool_decide (p = c) then after_prefix ps cs else None
  | String _ _, EmptyString => None
  end.
Definition identifier (prefix : string) (n : Z) (s : string) : bool :=
  match after_prefix prefix s with
  | Some rest => all_chars is_word rest && between 1 n (Z.of_nat (String.length rest))
  | None => false
  end.
Definition billing_path (path : string) : bool :=
  mem path ["/customers"; "/checkout/sessions"; "/billing_portal/sessions"] ||
  match after_prefix "/subscriptions/sub_" path with
  | Some rest => all_chars is_word rest && truthy rest
  | None => false
  end.

(** ** JSON *)
Definition str_opt (v : json) : option string := match v with JStr s => Some s | _ => None end.
(** [value == column] for a nullable text column. *)
Definition equals_column (v : json) (column : option string) : bool :=
  match v, column with
  | JStr s, Some t => bool_decide (s = t)
  | JNull, None => true
  | _, _ => false
  end.
(** [value is flag] for a boolean. *)
Definition is_bool (v : json) (flag : bool) : bool :=
  match v with JBool b => bool_decide (b = flag) | _ => false end.
(** [d.get(key, default)] *)
Definition jget_or (d : jobj) (key : string) (default : json) : json :=
  match List.find (λ kv, bool_decide (kv.1 = key)) d with Some kv => kv.2 | None => default end.
(** Using a value as a dict or a list. *)
Definition as_dict (v : json) : Res jobj :=
  match v with JObj o => mret o | _ => fail AttributeError "object has no attribute 'get'" end.
Definition as_list (v : json) : Res (list json) :=
  match v with JArr l => mret l | _ => fail TypeError "object is not a list" end.

Definition SUBSCRIPTION_STATUSES : list string :=
  ["active"; "trialing"; "past_due"; "unpaid"; "paused"; "canceled"; "incomplete";
   "incomplete_expired"].
Definition ended (status : string) : bool := mem status ["canceled"; "incomplete_expired"].

Section billing.
Context `{Env, Secrets, Catalog, Vault, Stripe}.

(** [StripeGateway.request] *)
Definition request (s : ProductSettings) (method path : string) (data : list (string * string))
    (key : option string) : M World jobj :=
  raise_if (negb (money_billing_enabled s) || negb (truthy_opt (money_stripe_secret_key s)))
    BillingUnavailable "BILLING_UNAVAILABLE" ;;
  raise_if (negb (billing_path path)) ValueError "INVALID_BILLING_OPERATION" ;;
  k ← next_tick;
  match stripe_at k method path data key with
  | inr document => mret document
  | inl code => raise BillingUnavailable code
  end.

(** ** Reconciliation *)

(** What a provider document says about a subscription, checked against the
    event and the workspace's row. *)
(** [datetime.fromtimestamp(value, UTC)]: years 1 to 9999. *)
Definition from_timestamp (v : json) : Res Z :=
  n ← match v with
      | JInt n => mret n
      | JBool b => mret (if b then 1 else 0)
      | _ => fail TypeError "an integer is required"
      end;
  reject (negb (between (-62135596800) 253402300799 n)) ValueError "year is out of range" ;;
  mret (seconds n).
(** [value != 1] *)
Definition is_one (v : json) : bool :=
  match v with JInt n => n =? 1 | JBool b => b | _ => false end.
Definition observed (s : ProductSettings) (e : BillingEvent) (workspace : string) (row : Subscription)
    (doc : jobj) (updated : Z) : Res Subscription :=
  reject (negb (equals_column (jget doc "id") (be_subscription_id e)) ||
          negb (equals_column (jget doc "customer") (be_customer_id e)) ||
          negb (is_bool (jget doc "livemode") (money_stripe_live s))) ValueError
    "BILLING_IDENTITY_MISMATCH" ;;
  metadata ← as_dict (jget_or doc "metadata" (JObj []));
  reject (negb (is_str (jget metadata "workspace_id") workspace)) ValueError
    "BILLING_WORKSPACE_MISMATCH" ;;
  reject (truthy_opt (sb_subscription_id row) &&
          negb (equals_column (jget doc "id") (sb_subscription_id row)) &&
          negb (ended (sb_status row))) ValueError "BILLING_DUPLICATE_SUBSCRIPTION" ;;
  container ← as_dict (jget_or doc "items" (JObj []));
  items ← as_list (jget_or container "data" (JArr []));
  item ← match items with
         | [v] => o ← as_dict v;
                  reject (negb (is_one (jget o "quantity"))) ValueError "BILLING_ITEMS_UNSUPPORTED" ;;
                  mret o
         | _ => fail ValueError "BILLING_ITEMS_UNSUPPORTED"
         end;
  price ← as_dict (jget_or item "price" (JObj []));
  plan ← match List.find (λ nv, is_str (jget price "id") nv.2) (money_stripe_prices s) with
         | Some nv => mret nv.1
         | None => fail ValueError "BILLING_PRICE_UNKNOWN"
         end;
  start ← from_timestamp (jget_or doc "current_period_start" (jget item "current_period_start"));
  stop ← from_timestamp (jget_or doc "current_period_end" (jget item "current_period_end"));
  reject ((stop <=? start) || (days 370 <? stop - start)) ValueError "BILLING_PERIOD_INVALID" ;;
  status ← match jget doc "status" with
           | JStr t => if mem t SUBSCRIPTION_STATUSES then mret t
                       else fail ValueError "BILLING_STATUS_UNKNOWN"
           | _ => fail ValueError "BILLING_STATUS_UNKNOWN"
           end;
  mret (row <| sb_plan := plan |> <| sb_status := status |>
            <| sb_subscription_id := be_subscription_id e |>
            <| sb_period_start := start |> <| sb_period_end := stop |> <| sb_updated_at := updated |>).

Definition put_billing (id : string) (e : BillingEvent) : M World () :=
  put_customers (λ c, c <| cu_billing ::= insert id e |>).
(** [customer_id == value], [IS NULL] for a missing value. *)
Definition row_of_customer (customer : option string) (c : Customers) : option (string * Subscription) :=
  List.find (λ ks, bool_decide (sb_customer_id ks.2 = customer)) (map_to_list (cu_subscriptions c)).
(** Owners who take mail about the subscription. *)
Definition billing_recipients (workspace : string) (c : Customers) : list (string * string) :=
  omap (λ km, if bool_decide (km.1.1 = workspace) && bool_decide (mb_role km.2 = OWNER) then
                match cu_users c !! km.1.2 with
                | Some u => if us_email_notifications u && active_user u
                            then Some (km.1.2, us_email u) else None
                | None => None
                end
              else None) (map_to_list (cu_members c)).
Definition notify_subscription (a : AccountSettings) (workspace status : string) : M World () :=
  recipients ← customers (billing_recipients workspace);
  let issue := mem status ["past_due"; "unpaid"; "incomplete"] in
  let subject := if issue then "Action needed for your Money subscription"
                 else "Money subscription updated" in
  let message := if issue then "Please review your billing account."
                 else "Your workspace subscription has changed." in
  for_each recipients (λ r, email_ r.1 r.2 "subscription" subject
    (message +:+ new_line +:+ rstrip_slash (money_public_web_url a) +:+ "/account")).

(** The next due event, oldest first; rows locked by others are skipped. *)
Definition due_event (now : Z) (locked : string → bool) (c : Customers)
    : option (string * BillingEvent) :=
  min_by (λ ke, be_created_at ke.2)
    (List.filter (λ ke, bool_decide (be_state ke.2 = BILLING_PENDING) &&
                        (be_available_at ke.2 <=? now) && negb (locked ke.1))
       (map_to_list (cu_billing c))).
Definition subscription_path (e : BillingEvent) : Res string :=
  match be_subscription_id e with
  | Some id => mret ("/subscriptions/" +:+ id)
  | None => fail TypeError "can only concatenate str"
  end.
(** The transaction of [reconcile_once] for the event it selected. *)
Definition reconcile_event (s : ProductSettings) (accounts : option AccountSettings) (id : string)
    (e : BillingEvent) : M World () :=
  found ← customers (row_of_customer (be_customer_id e));
  row ← expect found ValueError "BILLING_CUSTOMER_UNKNOWN";
  path ← lift (subscription_path e);
  doc ← request s "GET" path [] None;
  updated ← now_utc;
  sub ← lift (observed s e row.1 row.2 doc updated);
  shared ← customers (λ c, existsb (λ ks, negb (bool_decide (ks.1 = row.1)) &&
             bool_decide (sb_subscription_id ks.2 = sb_subscription_id sub))
             (map_to_list (cu_subscriptions c)));
  raise_if shared IntegrityError "duplicate key value violates unique constraint" ;;
  put_customers (λ c, c <| cu_subscriptions ::= insert row.1 sub |>) ;;
  processed ← now_utc;
  put_billing id (e <| be_state := BILLING_PROCESSED |> <| be_processed_at := Some processed |>
                    <| be_attempts := be_attempts e + 1 |>) ;;
  event row.1 "billing-provider" "subscription_reconciled" (Some id) ;;
  match accounts with
  | Some a => notify_subscription a row.1 (sb_status sub)
  | None => mret ()
  end.
(** The handler of a failed attempt. *)
Definition attempt_failed (id : string) : M World () :=
  transaction (
    row ← customers (λ c, cu_billing c !! id);
    e ← one row;
    if bool_decide (be_state e = BILLING_PENDING) then
      let attempts := be_attempts e + 1 in
      now ← now_utc;
      put_billing id (e <| be_attempts := attempts |>
        <| be_state := if 5 <=? attempts then BILLING_FAILED else BILLING_PENDING |>
        <| be_available_at := now + seconds (Z.min 3600 (30 * 2 ^ attempts)) |>)
    else mret ()).
(** [event_id] is set once an event was selected; the exception handler runs
    with it. *)
Definition reconcile_once (s : ProductSettings) (accounts : option AccountSettings) : M World bool :=
  k ← next_tick;
  selected ← customers (due_event (now_at k) (row_locked k));
  match selected with
  | None => mret false
  | Some (id, e) =>
      catch (λ _, true) (transaction (reconcile_event s accounts id e)) (λ _, attempt_failed id) ;;
      mret true
  end.

(** ** The webhook *)
Definition event_kinds : list string :=
  ["customer.subscription.created"; "customer.subscription.updated"; "customer.subscription.deleted";
   "checkout.session.completed"; "invoice.paid"; "invoice.payment_failed"].
(** [value.split("=", 1)] of a part that has one. *)
Fixpoint split_pair (s : string) : option (string * string) :=
  match s with
  | EmptyString => None
  | String c s' =>
      if bool_decide (c = "="%char) then Some (EmptyString, s')
      else (λ kv, (String c kv.1, kv.2)) <$> split_pair s'
  end.
Definition signature_parts (signature : string) : list (string * string) :=
  omap split_pair (split_on "," signature).
Definition is_digit (c : Ascii.ascii) : bool :=
  let n := Ascii.nat_of_ascii c in ((48 <=? n) && (n <=? 57))%nat.
Fixpoint digits_value (acc : Z) (s : string) : Z :=
  match s with
  | EmptyString => acc
  | String c s' => digits_value (acc * 10 + Z.of_nat (Ascii.nat_of_ascii c - 48)) s'
  end.
Definition INVALID_WEBHOOK : string := "INVALID_WEBHOOK".
Definition authenticate_event (s : ProductSettings) (raw signature : string) : M World (string * jobj) :=
  raise_if (negb (money_billing_enabled s) || negb (truthy_opt (money_stripe_webhook_secret s)))
    BillingUnavailable "BILLING_UNAVAILABLE" ;;
  raise_if ((262144 <? Z.of_nat (String.length raw)) || (2048 <? Z.of_nat (String.length signature)))
    ValueError INVALID_WEBHOOK ;;
  let parts := signature_parts signature in
  timestamp ← match List.filter (λ kv, bool_decide (kv.1 = "t")) parts with
              | [kv] => if all_chars is_digit kv.2 && between 10 12 (Z.of_nat (String.length kv.2))
                        then mret kv.2 else raise ValueError INVALID_WEBHOOK
              | _ => raise ValueError INVALID_WEBHOOK
              end;
  k ← next_tick;
  raise_if (flt (float_of_Z 300) (SFabs (fsub (time_at k) (float_of_Z (digits_value 0 timestamp)))))
    ValueError "EXPIRED_WEBHOOK" ;;
  let expected := hmac_sha256 (default EmptyString (money_stripe_webhook_secret s)) (timestamp +:+ "." +:+ raw) in
  raise_if (negb (existsb (λ kv, bool_decide (kv.1 = "v1") && bool_decide (kv.2 = expected)) parts))
    ValueError INVALID_WEBHOOK ;;
  event ← match json_loads raw with Some (JObj o) => mret o | _ => raise ValueError INVALID_WEBHOOK end;
  id ← match jget event "id" with
       | JStr id => if identifier "evt_" 120 id then mret id else raise ValueError INVALID_WEBHOOK
       | _ => raise ValueError INVALID_WEBHOOK
       end;
  raise_if (negb (is_bool (jget event "livemode") (money_stripe_live s))) ValueError
    "WEBHOOK_MODE_MISMATCH" ;;
  mret (id, event).

(** The subscription an event is about; new invoices name it under [parent]. *)
Definition event_subscription (kind : string) (obj : jobj) : Res json :=
  let own := if String.prefix "customer.subscription." kind then jget obj "id"
             else jget obj "subscription" in
  if String.prefix "invoice." kind && negb (jtruthy own) then
    parent ← (let v := jget obj "parent" in if jtruthy v then as_dict v else mret []);
    details ← as_dict (jget_or parent "subscription_details" (JObj []));
    mret (jget details "subscription")
  else mret own.
(** A validated event: kind, subscription, customer and whether it is accepted. *)
Record WebhookEvent := mkWebhook {
  wh_kind : string; wh_subscription : option string; wh_customer : json; wh_accepted : bool
}.
Definition read_event (event : jobj) : Res WebhookEvent :=
  kind ← match jget_or event "type" (JStr EmptyString) with
         | JStr k => mret k
         | _ => fail AttributeError "object has no attribute 'startswith'"
         end;
  data ← as_dict (jget_or event "data" (JObj []));
  obj ← as_dict (jget_or data "object" (JObj []));
  sub ← event_subscription kind obj;
  sub_id ← match sub with
           | JNull => mret None
           | JStr t => if identifier "sub_" 120 t then mret (Some t) else fail ValueError INVALID_WEBHOOK
           | _ => fail ValueError INVALID_WEBHOOK
           end;
  let accepted := mem kind event_kinds in
  let customer := jget obj "customer" in
  reject (accepted && negb (match customer with JStr t => identifier "cus_" 120 t | _ => false end))
    ValueError INVALID_WEBHOOK ;;
  reject (100 <? Z.of_nat (String.length kind)) ValueError INVALID_WEBHOOK ;;
  mret (mkWebhook kind sub_id customer accepted).
Definition bad_request (e : exn) : bool :=
  is_instance e ValueError || is_instance e TypeError || is_instance e AttributeError.
Definition webhook (s : ProductSettings) (raw signature : string) : M World () :=
  parsed ← catch bad_request
             (event ← authenticate_event s raw signature;
              w ← lift (read_event event.2);
              mret (event.1, w))
             (λ _, raise HTTPException "Invalid billing event");
  let digest := sha256_hex raw in
  transaction (
    existing ← customers (λ c, cu_billing c !! parsed.1);
    match existing with
    | Some e => raise_if (negb (bool_decide (be_content_hash e = digest))) HTTPException
                  "Billing event identity conflict"
    | None =>
        available ← now_utc;
        created ← now_utc;
        let w := parsed.2 in
        insert_customer cu_billing parsed.1 (λ c, c <| cu_billing ::= insert parsed.1
          (mkBillingEvent (wh_kind w) (wh_subscription w)
             (if wh_accepted w then str_opt (wh_customer w) else None) digest
             (if wh_accepted w && is_set (wh_subscription w) then BILLING_PENDING else BILLING_IGNORED)
             0 available created None) |>)
    end).

(** ** Research notifications *)
Definition announced (job : string) (c : Customers) : bool :=
  existsb (λ e, bool_decide (pe_reference_id e = Some job) &&
                mem (pe_event e) ["research_completed"; "research_failed"]) (rows (cu_events c)).
(** Finished customer jobs whose end has not been announced. *)
Definition unannounced (d : DB) : list (string * (Job * (UsageRecord * UserRow))) :=
  omap (λ ij, u ← t_usage d !! ij.1;
              who ← cu_users (t_customers d) !! ur_user_id u;
              if mem (j_status ij.2) [COMPLETE; REJECTED; FAILED] && negb (announced ij.1 (t_customers d))
              then Some (ij.1, (ij.2, (u, who))) else None) (map_to_list (t_jobs d)).
Definition notify_research_once (a : AccountSettings) : M World bool :=
  transaction (
    found ← select (λ d, min_by (λ r, default 0 (j_completed_at r.2.1)) (unannounced d));
    match found with
    | None => mret false
    | Some (id, (j, (u, who))) =>
        let success := negb (bool_decide (j_status j = FAILED)) in
        event (j_workspace_id j) (ur_user_id u)
          (if success then "research_completed" else "research_failed") (Some id) ;;
        wanted ← customers (λ c, match cu_preferences c !! j_workspace_id j with
                                 | Some p => pf_research_email p | None => false end);
        (if us_email_notifications who && negb (is_set (us_deletion_requested_at who)) && wanted then
           email_ (ur_user_id u) (us_email who) "research_status" "Money research update"
             ((if success then "Your research record is ready to review."
               else "Your research could not be completed. Your request remains saved.") +:+
              new_line +:+ rstrip_slash (money_public_web_url a) +:+ "/research")
         else mret ()) ;;
        mret true
    end).
End billing.
