(* ===== verification/Checkout.v ===== *)
(** * Checkout ([checkout] of [src/money/product/service.py])

    The configuration of billing, [urllib.parse.urlsplit] as the settings and
    the gateway use it, and the hosted checkout and portal. A checkout is four
    transactions and two requests of the provider; the request it prepares is
    durable, so that a lost answer is retried with the same key and the same
    parameters. *)

From S2P Require Import Prelude Effects PyNum PyText Contracts Demo Eligibility Governance.
From S2P Require Import Market Signals CrossExam Universe Customers Schema Store Budgets.
From S2P Require Import Calendar Security Product Accounts Billing.
#[local] Open Scope Z_scope.

(** ** [urlsplit] *)

(** The check of a bracketed host, by the [ipaddress] module. *)
Class BracketedHosts := bracketed_netloc : string → bool.
Record SplitResult := mkSplit {
  u_scheme : string; u_netloc : string; u_path : string; u_query : string; u_fragment : string
}.
(** The text before the first character [p] holds of, and the rest from there. *)
Fixpoint span_until (p : Ascii.ascii → bool) (s : string) : string * string :=
  match s with
  | EmptyString => (EmptyString, EmptyString)
  | String c s' =>
      if p c then (EmptyString, s)
      else let rest := span_until p s' in (String c rest.1, rest.2)
  end.
Definition is_char (c x : Ascii.ascii) : bool := bool_decide (x = c).
(** [s.partition(c)]: [None] when there is no separator. *)
Definition partition (c : Ascii.ascii) (s : string) : string * option string :=
  let parts := span_until (is_char c) s in
  (parts.1, match parts.2 with EmptyString => None | String _ rest => Some rest end).
(** [s.rpartition(c)] *)
Fixpoint rpartition (c : Ascii.ascii) (s : string) : option string * string :=
  match s with
  | EmptyString => (None, EmptyString)
  | String x s' =>
      match rpartition c s' with
      | (Some before, after) => (Some (String x before), after)
      | (None, after) => if is_char c x then (Some EmptyString, s') else (None, String x after)
      end
  end.
(** [s.split(c, 1)] in two, the second part empty when there is no separator. *)
Definition split_once (c : Ascii.ascii) (s : string) : string * string :=
  let parts := partition c s in (parts.1, default EmptyString parts.2).
Fixpoint lstrip_controls (s : string) : string :=
  match s with
  | EmptyString => EmptyString
  | String c s' => if (Ascii.nat_of_ascii c <=? 32)%nat then lstrip_controls s' else s
  end.
Fixpoint drop_breaks (s : string) : string :=
  match s with
  | EmptyString => EmptyString
  | String c s' => if mem (Ascii.nat_of_ascii c) [9; 10; 13]%nat then drop_breaks s'
                   else String c (drop_breaks s')
  end.
Definition is_alpha (c : Ascii.ascii) : bool :=
  let n := Ascii.nat_of_ascii c in
  (((65 <=? n) && (n <=? 90)) || ((97 <=? n) && (n <=? 122)))%nat.
Definition scheme_char (c : Ascii.ascii) : bool :=
  is_alpha c || is_digit c || mem c ["+"%char; "-"%char; "."%char].
Definition split_scheme (url : string) : string * string :=
  match partition ":" url with
  | (String c rest, Some after) =>
      if is_alpha c && all_chars scheme_char (String c rest)
      then (casefold (String c rest), after) else (EmptyString, url)
  | _ => (EmptyString, url)
  end.
Definition split_netloc (url : string) : string * string :=
  match after_prefix "//" url with
  | Some rest => span_until (λ c, mem c ["/"%char; "?"%char; "#"%char]) rest
  | None => (EmptyString, url)
  end.
Definition urlsplit `{BracketedHosts} (text : string) : Res SplitResult :=
  let scheme := split_scheme (drop_breaks (lstrip_controls text)) in
  let netloc := split_netloc scheme.2 in
  let opened := has_char (is_char "[") netloc.1 in
  let closed := has_char (is_char "]") netloc.1 in
  reject (xorb opened closed) ValueError "Invalid IPv6 URL" ;;
  reject (opened && closed && negb (bracketed_netloc netloc.1)) ValueError "Invalid IPv6 URL" ;;
  let fragment := split_once "#" netloc.2 in
  let query := split_once "?" fragment.1 in
  mret (mkSplit scheme.1 netloc.1 query.1 query.2 fragment.2).

Definition username (u : SplitResult) : option string :=
  match (rpartition "@" (u_netloc u)).1 with
  | Some info => Some (partition ":" info).1
  | None => None
  end.
Definition password_of (u : SplitResult) : option string :=
  match (rpartition "@" (u_netloc u)).1 with
  | Some info => (partition ":" info).2
  | None => None
  end.
(** The host and the port as they are written. *)
Definition hostinfo (u : SplitResult) : string * option string :=
  let info := (rpartition "@" (u_netloc u)).2 in
  match partition "[" info with
  | (_, Some bracketed) =>
      let host := partition "]" bracketed in
      (host.1, (partition ":" (default EmptyString host.2)).2)
  | (_, None) => partition ":" info
  end.
Definition hostname (u : SplitResult) : option string :=
  let host := (hostinfo u).1 in
  if truthy host then
    let zone := span_until (is_char "%") host in Some (casefold zone.1 +:+ zone.2)
  else None.
Definition url_port (u : SplitResult) : Res (option Z) :=
  match (hostinfo u).2 with
  | Some (String _ _ as text) =>
      reject (negb (all_chars is_digit text)) ValueError "Port could not be cast to integer value" ;;
      let port := digits_value 0 text in
      reject (65535 <? port) ValueError "Port out of range 0-65535" ;;
      mret (Some port)
  | _ => mret None
  end.

(** ** Configuration ([ProductSettings] of [src/money/product/settings.py]) *)
Definition secure_billing `{BracketedHosts} (s : ProductSettings) : Res ProductSettings :=
  require (between 1 10000 (money_user_jobs_per_month s)) ;;
  parsed ← urlsplit (product_web_url s);
  reject (money_billing_enabled s &&
          (negb (truthy_opt (money_stripe_secret_key s)) ||
           negb (truthy_opt (money_stripe_webhook_secret s)) ||
           negb (bool_decide (u_scheme parsed = "https")) ||
           negb (truthy_opt (hostname parsed)) ||
           truthy_opt (username parsed) || truthy_opt (password_of parsed) ||
           truthy (u_query parsed) || truthy (u_fragment parsed) ||
           negb (mem (u_path parsed) [EmptyString; "/"]))) ValueError
    "Billing requires secrets and a trusted HTTPS web origin" ;;
  reject (negb (bool_decide (NoDup (money_stripe_prices s).*2))) ValueError
    "Stripe prices must map to exactly one plan" ;;
  reject (existsb (λ pv, negb (mem pv.1 ["PRO"; "TEAM"; "ENTERPRISE"]) ||
                         negb (String.prefix "price_" pv.2)) (money_stripe_prices s)) ValueError
    "Invalid server billing price configuration" ;;
  reject (money_billing_enabled s &&
          match money_stripe_secret_key s with
          | Some key => truthy key &&
              negb (String.prefix (if money_stripe_live s then "sk_live_" else "sk_test_") key)
          | None => false
          end) ValueError "Stripe key does not match configured billing mode" ;;
  mret s.

(** ** Hosted pages ([StripeGateway.hosted_url]) *)
Definition hosted_url `{BracketedHosts} (result : jobj) (host : string) : Res string :=
  url ← match jget result "url" with
        | JStr u => mret u
        | _ => fail BillingUnavailable "BILLING_RESPONSE_INVALID"
        end;
  reject (8192 <? Z.of_nat (String.length url)) BillingUnavailable "BILLING_RESPONSE_INVALID" ;;
  parsed ← urlsplit url;
  reject (negb (bool_decide (u_scheme parsed = "https")) ||
          negb (bool_decide (hostname parsed = Some host)) ||
          truthy_opt (username parsed) || truthy_opt (password_of parsed))
    BillingUnavailable "BILLING_RESPONSE_INVALID" ;;
  port ← url_port parsed;
  reject (match port with Some n => negb (n =? 443) | None => false end)
    BillingUnavailable "BILLING_RESPONSE_INVALID" ;;
  mret url.

(** ** The request a checkout sends *)
Record CheckoutRequest := mkCheckout {
  co_key : option string; co_until : Z; co_parameters : option (list (string * string))
}.
(** [str(int(until.timestamp()))] *)
Definition expires_at (until : Z) : string :=
  int_text (Z.sgn until *
    match int_of_float (float_of_ratio (Z.abs until) 1000000) with inr n => n | inl _ => 0 end).
Definition checkout_parameters (s : ProductSettings) (workspace customer price : string) (until : Z)
    : list (string * string) :=
  let origin := rstrip_slash (product_web_url s) in
  [("mode", "subscription"); ("customer", customer); ("line_items[0][price]", price);
   ("line_items[0][quantity]", "1"); ("client_reference_id", workspace);
   ("subscription_data[metadata][workspace_id]", workspace);
   ("success_url", origin +:+ "/account?billing=pending"); ("cancel_url", origin +:+ "/pricing");
   ("expires_at", expires_at until)].
(** An f-string of a nullable column. *)
Definition shown_text (key : option string) : string := default "None" key.
Definition price_of (s : ProductSettings) (plan : string) : option string :=
  snd <$> List.find (λ pv, bool_decide (pv.1 = plan)) (money_stripe_prices s).

Section checkout.
Context `{Env, Secrets, Catalog, Vault, Stripe, BracketedHosts}.

Definition alter_subscription (workspace : string) (f : Subscription → Subscription) : M World () :=
  put_customers (λ c, c <| cu_subscriptions ::= alter f workspace |>).
(** The subscription, of an open workspace whose owner the actor is now. *)
Definition owned_subscription (actor : Principal) : M World Subscription :=
  sub ← subscription (pr_workspace_id actor);
  assert_workspace_open (pr_workspace_id actor) ;;
  require_current_role actor [OWNER] ;;
  mret sub.
(** The first transaction: the customer's identity is stored before a webhook
    can name it. *)
Definition checkout_customer (s : ProductSettings) (actor : Principal) : M World string :=
  let workspace := pr_workspace_id actor in
  transaction (
    sub ← owned_subscription actor;
    if truthy_opt (sb_customer_id sub) then mret (default EmptyString (sb_customer_id sub)) else
    doc ← request s "POST" "/customers" [("metadata[workspace_id]", workspace)]
            (Some ("money-customer-" +:+ workspace));
    raise_if (negb (existsb (λ kv, bool_decide (kv.1 = "id")) doc)) KeyError "id" ;;
    customer ← match jget doc "id" with
               | JStr c => if String.prefix "cus_" c then mret c
                           else raise BillingUnavailable "BILLING_RESPONSE_INVALID"
               | _ => raise BillingUnavailable "BILLING_RESPONSE_INVALID"
               end;
    shared ← customers (λ c, existsb (λ ks, negb (bool_decide (ks.1 = workspace)) &&
               bool_decide (sb_customer_id ks.2 = Some customer)) (map_to_list (cu_subscriptions c)));
    raise_if shared IntegrityError "duplicate key value violates unique constraint" ;;
    alter_subscription workspace (λ b, b <| sb_customer_id := Some customer |>) ;;
    mret customer).
Definition billing_portal (s : ProductSettings) (actor : Principal) (customer key : string)
    : M World string :=
  transaction (
    owned_subscription actor ;;
    result ← request s "POST" "/billing_portal/sessions"
      [("customer", customer); ("return_url", rstrip_slash (product_web_url s) +:+ "/account")]
      (Some ("money-portal-" +:+ pr_workspace_id actor +:+ "-" +:+ key));
    lift (hosted_url result "billing.stripe.com")).
(** The second transaction: the hosted page of the pending checkout, or the
    request to send, pending or new. *)
Definition checkout_prepare (s : ProductSettings) (actor : Principal) (plan price customer key : string)
    : M World (string + CheckoutRequest) :=
  let workspace := pr_workspace_id actor in
  transaction (
    sub ← owned_subscription actor;
    raise_if (truthy_opt (sb_subscription_id sub) && negb (ended (sb_status sub)))
      EntitlementDenied "USE_BILLING_PORTAL" ;;
    pending ← match sb_checkout_until sub with
              | Some until => t ← now_utc; mret (if t <? until then Some until else None)
              | None => mret None
              end;
    match pending with
    | Some until =>
        raise_if (negb (bool_decide (sb_checkout_plan sub = Some plan))) EntitlementDenied
          "CHECKOUT_ALREADY_PENDING" ;;
        mret (if truthy_opt (sb_checkout_url sub) then inl (default EmptyString (sb_checkout_url sub))
              else inr (mkCheckout (sb_checkout_key sub) until (sb_checkout_payload sub)))
    | None =>
        raise_if (bool_decide (sb_checkout_key sub = Some key)) EntitlementDenied
          "CHECKOUT_EXPIRED_USE_NEW_KEY" ;;
        t ← now_utc;
        let until := t + minutes 31 in
        let parameters := checkout_parameters s workspace customer price until in
        alter_subscription workspace (λ b,
          b <| sb_checkout_key := Some key |> <| sb_checkout_plan := Some plan |>
            <| sb_checkout_until := Some until |> <| sb_checkout_url := None |>
            <| sb_checkout_payload := Some parameters |>) ;;
        mret (inr (mkCheckout (Some key) until (Some parameters)))
    end).
(** The last transaction: the hosted page is stored for the request that is
    still the pending one. *)
Definition checkout_finish (actor : Principal) (plan url : string) (r : CheckoutRequest) : M World string :=
  let workspace := pr_workspace_id actor in
  transaction (
    sub ← subscription workspace;
    raise_if (negb (bool_decide (sb_checkout_key sub = co_key r)) ||
              negb (bool_decide (sb_checkout_plan sub = Some plan))) EntitlementDenied
      "CHECKOUT_CHANGED" ;;
    alter_subscription workspace (λ b,
      b <| sb_checkout_key := co_key r |> <| sb_checkout_plan := Some plan |>
        <| sb_checkout_url := Some url |> <| sb_checkout_until := Some (co_until r) |>) ;;
    event workspace (pr_user_id actor) "checkout_created" None ;;
    mret url).
Definition checkout (h : Handle) (s : ProductSettings) (actor : Principal) (plan key : string)
    (portal : bool) : M World string :=
  let workspace := pr_workspace_id actor in
  raise_if (negb (bool_decide (pr_role actor = OWNER))) EntitlementDenied "ROLE_FORBIDDEN" ;;
  raise_if (negb (money_billing_enabled s)) BillingUnavailable "BILLING_UNAVAILABLE" ;;
  allowed ← consume_rate_limit (for_workspace h workspace) ("billing:" +:+ pr_user_id actor) 6 60;
  raise_if (negb (rd_allowed allowed)) EntitlementDenied "BILLING_RATE_LIMITED" ;;
  customer ← checkout_customer s actor;
  if portal then billing_portal s actor customer key else
  raise_if (negb (truthy_opt (price_of s plan))) BillingUnavailable "PLAN_NOT_AVAILABLE" ;;
  prepared ← checkout_prepare s actor plan (default EmptyString (price_of s plan)) customer key;
  match prepared with
  | inl url => mret url
  | inr r =>
      result ← request s "POST" "/checkout/sessions" (default [] (co_parameters r))
                 (Some ("money-checkout-" +:+ workspace +:+ "-" +:+ shown_text (co_key r)));
      url ← lift (hosted_url result "checkout.stripe.com");
      checkout_finish actor plan url r
  end.
End checkout.
