(* ===== verification/Offboarding.v ===== *)
(** * Account closure and erasure ([src/money/accounts/offboarding.py])

    Closing an account, closing its billing with the provider, operator review
    and the erasure of mutable personal data. Research, audit and usage tables
    are never written. *)

From S2P Require Import Prelude Effects PyNum PyText Contracts Demo Eligibility Governance.
From S2P Require Import Market Signals CrossExam Universe Customers Schema Store Budgets.
From S2P Require Import Calendar Security Product Accounts Workspaces Billing.
#[local] Open Scope Z_scope.

(** ** Retention policy *)
Record RetentionPolicy := mkRetention {
  money_retention_approved : bool;
  money_retention_policy_version : option string;
  money_retention_approval_reference : option string;
  money_pii_retention_days : option Z
}.
(** [policy.model_dump_json()] *)
Class RetentionJson := retention_json : RetentionPolicy → string.
Definition is_reference_char (c : Ascii.ascii) : bool :=
  (is_word c && negb (bool_decide (c = "_"%char))).
Definition is_reference_tail (c : Ascii.ascii) : bool :=
  is_word c || mem c ["."%char; ":"%char; "/"%char; "-"%char].
(** [re.fullmatch(_REFERENCE, s)] *)
Definition is_reference (s : string) : bool :=
  match s with
  | EmptyString => false
  | String c rest => is_reference_char c && all_chars is_reference_tail rest &&
                     between 2 127 (Z.of_nat (String.length rest))
  end.
(** [pattern=_REFERENCE] of a field: pydantic searches, so some part of the text
    has to match. *)
Fixpoint has_reference (s : string) : bool :=
  match s with
  | EmptyString => false
  | String c rest =>
      is_reference_char c &&
      match rest with String a (String b _) => is_reference_tail a && is_reference_tail b | _ => false end
      || has_reference rest
  end.
Definition validate_policy (p : RetentionPolicy) : Res RetentionPolicy :=
  require (match money_retention_policy_version p with
           | Some v => Z.of_nat (String.length v) <=? 80 | None => true end &&
           match money_retention_approval_reference p with Some r => has_reference r | None => true end &&
           match money_pii_retention_days p with Some n => between 0 36500 n | None => true end) ;;
  reject (money_retention_approved p &&
          (negb (truthy_opt (money_retention_policy_version p)) ||
           negb (truthy_opt (money_retention_approval_reference p)) ||
           negb (is_set (money_pii_retention_days p)))) ValueError
    "Approved retention requires a version, reference and explicit duration" ;;
  mret p.

(** ** Rows changed by a closure *)
Definition use_invitations (p : InvitationRow → bool) (now : Z) (c : Customers) : Customers :=
  c <| cu_invitations ::=
    fmap (λ i, if p i && negb (is_set (in_used_at i)) then i <| in_used_at := Some now |> else i) |>.
Definition addressed (user address_hash : string) (e : EmailRow) : bool :=
  bool_decide (em_user_id e = user) || bool_decide (em_recipient_hash e = Some address_hash).
Definition cancel_email (e : EmailRow) : EmailRow :=
  e <| em_state := EMAIL_CANCELLED |> <| em_encrypted_payload := EmptyString |>
    <| em_failure_code := Some "ACCOUNT_CLOSING" |>.
(** [table.delete().where(p)] on a map. *)
Definition delete_where `{Countable K} {V} (p : K → V → bool) (m : gmap K V) : gmap K V :=
  base.filter (λ kv, p kv.1 kv.2 = false) m.

Section offboarding.
Context `{Env, Secrets, Catalog, Vault, Stripe, RetentionJson}.

Definition policy_digest (p : RetentionPolicy) : M World string :=
  raise_if (negb (money_retention_approved p)) AccountError "RETENTION_POLICY_UNAPPROVED" ;;
  mret (sha256_hex (retention_json p)).

(** ** Closing an account *)
Definition own_workspaces (user : string) (c : Customers) : list string :=
  sorted_strings (omap (λ km, if bool_decide (km.1.2 = user) then Some km.1.1 else None)
                    (map_to_list (cu_members c))).
(** Roles of the other members who are not leaving. *)
Definition other_roles (workspace user : string) (c : Customers) : list Role :=
  omap (λ km, if bool_decide (km.1.1 = workspace) && negb (bool_decide (km.1.2 = user)) then
                match cu_users c !! km.1.2 with
                | Some u => if is_set (us_deletion_requested_at u) then None else Some (mb_role km.2)
                | None => None
                end
              else None) (map_to_list (cu_members c)).
Definition close_workspace (user : string) (now : Z) (workspace : string) : M World () :=
  sub ← subscription workspace;
  lock_workspace workspace ;;
  role ← customers (member_role workspace user);
  if negb (bool_decide (role = Some OWNER)) then mret () else
  others ← customers (other_roles workspace user);
  if mem OWNER others then mret () else
  raise_if (negb (bool_decide (others = []))) AccountError "OWNERSHIP_TRANSFER_REQUIRED" ;;
  raise_if (null_gt (sb_checkout_until sub) now) AccountError "BILLING_CHECKOUT_PENDING" ;;
  key ← uuid4;
  references (known_user user) ;;
  insert_customer cu_closures workspace (λ c, c <| cu_closures ::= insert workspace
    (mkClosure user now CLOSURE_PENDING (sb_customer_id sub) (sb_subscription_id sub)
       ("close-" +:+ key) 0 now None None None) |>) ;;
  put_customers (use_invitations (λ i, bool_decide (in_workspace_id i = workspace)) now) ;;
  audit_event "workspace_closure_requested" (Some user) (Some workspace) [].
(** The writes that end an account, after its workspaces are closed. *)
Definition leave (user address_hash address : string) (now : Z) (c : Customers) : Customers :=
  (use_invitations (λ i, bool_decide (in_invited_by i = user) || bool_decide (in_email i = address)) now c)
    <| cu_users ::= alter (λ u, u <| us_deletion_requested_at := Some now |>
                                   <| us_email_notifications := false |>) user |>
    <| cu_sessions ::= fmap (λ r, if bool_decide (as_user_id r = user)
                                  then r <| as_revoked_at := Some now |> else r) |>
    <| cu_tokens ::= fmap (λ t, if bool_decide (tk_user_id t = user)
                                then t <| tk_used_at := Some now |> else t) |>
    <| cu_email ::= fmap (λ e, if addressed user address_hash e && bool_decide (em_state e = EMAIL_QUEUED)
                               then cancel_email e else e) |>
    <| cu_members ::= delete_where (λ k _, bool_decide (k.2 = user)) |>.
Definition begin_deletion (user : string) (current : UserRow) : M World () :=
  now ← now_utc;
  owned ← customers (own_workspaces user);
  raise_if (1000 <? Z.of_nat (length owned)) AccountError "OFFBOARDING_REVIEW_REQUIRED" ;;
  for_each owned (close_workspace user now) ;;
  let hash := token_digest (us_email current) in
  put_customers (leave user hash (us_email current) now) ;;
  references (known_user user) ;;
  insert_customer cu_deletions user (λ c, c <| cu_deletions ::=
    insert user (mkDeletion REQUESTED now hash None None None None None None) |>) ;;
  audit_event "account_deletion_requested" (Some user) None
    [("retention_status", JStr "pending_review"); ("automatic_evidence_deletion", JBool false)].
(** [AccountService.request_deletion], for the user read by the session. *)
Definition request_deletion (s : AccountSettings) (id : string) (user : UserRow) (password : string)
    : M World () :=
  limit s "deletion" id 5 ;;
  valid ← password_valid password (us_password_hash user);
  raise_if (negb valid) AccountError "PASSWORD_INVALID" ;;
  transaction (
    row ← customers (λ c, cu_users c !! id);
    current ← one row;
    raise_if (stale user current) AccountError "SESSION_EXPIRED" ;;
    begin_deletion id current).

(** ** Closing billing *)
Definition identity_ok (s : ProductSettings) (workspace : string) (r : ClosureRow) (doc : jobj) : bool :=
  equals_column (jget doc "id") (cl_subscription_id r) &&
  equals_column (jget doc "customer") (cl_customer_id r) &&
  is_bool (jget doc "livemode") (money_stripe_live s) &&
  match jget doc "metadata" with
  | JObj m => is_str (jget m "workspace_id") workspace
  | _ => false
  end &&
  match jget doc "status" with JStr t => mem t SUBSCRIPTION_STATUSES | _ => false end.
Definition check_stripe_identity (s : ProductSettings) (workspace : string) (r : ClosureRow)
    (doc : jobj) : M World () :=
  raise_if (negb (identity_ok s workspace r doc)) BillingUnavailable "BILLING_IDENTITY_MISMATCH".
Definition status_of (doc : jobj) : string := default EmptyString (str_opt (jget doc "status")).
(** The guarded body of [close_billing_once]: the state the provider confirms. *)
Definition provider_closure (s : ProductSettings) (workspace : string) (sub : option Subscription)
    (r : ClosureRow) (now : Z) : M World ClosureState :=
  raise_if (truthy_opt (cl_customer_id r) && negb (truthy_opt (cl_subscription_id r)))
    BillingUnavailable "BILLING_IDENTITY_UNRESOLVED" ;;
  if negb (truthy_opt (cl_subscription_id r)) then mret CLOSURE_CLOSED else
  raise_if (match sub with
            | Some b => negb (bool_decide (sb_subscription_id b = cl_subscription_id r)) ||
                        negb (bool_decide (sb_customer_id b = cl_customer_id r))
            | None => true
            end) BillingUnavailable "BILLING_IDENTITY_MISMATCH" ;;
  let path := "/subscriptions/" +:+ default EmptyString (cl_subscription_id r) in
  first ← request s "GET" path [] None;
  check_stripe_identity s workspace r first ;;
  final ← (if ended (status_of first) then mret (CLOSURE_CLOSED, first) else
           (if is_bool (jget first "cancel_at_period_end") true then mret () else
              updated ← request s "POST" path [("cancel_at_period_end", "true")]
                          (Some (cl_cancellation_key r));
              check_stripe_identity s workspace r updated) ;;
           doc ← request s "GET" path [] None;
           check_stripe_identity s workspace r doc ;;
           raise_if (negb (is_bool (jget doc "cancel_at_period_end") true) &&
                     negb (bool_decide (status_of doc = "canceled")))
             BillingUnavailable "BILLING_CLOSURE_UNCONFIRMED" ;;
           mret (if bool_decide (status_of doc = "canceled") then CLOSURE_CLOSED
                 else CLOSURE_SCHEDULED, doc));
  (if bool_decide (final.1 = CLOSURE_CLOSED) then
     put_customers (λ c, c <| cu_subscriptions ::=
       alter (λ b, b <| sb_status := status_of final.2 |> <| sb_updated_at := now |>) workspace |>)
   else mret ()) ;;
  mret final.1.
Definition closable (now : Z) (r : ClosureRow) : bool :=
  mem (cl_state r) [CLOSURE_PENDING; CLOSURE_SCHEDULED] && (cl_available_at r <=? now).
(** [re.fullmatch("[A-Z_]{1,64}", code)] *)
Definition is_code (code : string) : bool :=
  all_chars (λ c, let n := Ascii.nat_of_ascii c in ((65 <=? n) && (n <=? 90) || (n =? 95))%nat) code &&
  between 1 64 (Z.of_nat (String.length code)).
Definition closure_text (s : ClosureState) : string :=
  match s with
  | CLOSURE_PENDING => "PENDING" | CLOSURE_SCHEDULED => "SCHEDULED"
  | CLOSURE_CLOSED => "CLOSED" | CLOSURE_FAILED => "FAILED"
  end.
Definition closure_attempted (r : ClosureRow) (outcome : string + ClosureState) (now : Z) : ClosureRow :=
  match outcome with
  | inr state =>
      r <| cl_state := state |> <| cl_attempts := 0 |> <| cl_failure_code := None |>
        <| cl_available_at := now + seconds 3600 |>
  | inl code =>
      let attempts := cl_attempts r + 1 in
      r <| cl_state := if 5 <=? attempts then CLOSURE_FAILED else CLOSURE_PENDING |>
        <| cl_attempts := attempts |> <| cl_failure_code := Some code |>
        <| cl_available_at := now + seconds (Z.min 3600 (30 * 2 ^ attempts)) |>
  end.
Definition close_billing_once (s : ProductSettings) : M World bool :=
  transaction (
    t0 ← now_utc;
    found ← customers (λ c, min_by (λ kr, cl_available_at kr.2)
              (List.filter (λ kr, closable t0 kr.2) (map_to_list (cu_closures c))));
    match found with
    | None => mret false
    | Some (workspace, candidate) =>
        users_locked ← skip_locked;
        available ← customers (λ c, is_set (cu_users c !! cl_requested_by candidate));
        if negb available || users_locked (cl_requested_by candidate) then mret false else
        subs_locked ← skip_locked;
        sub ← customers (λ c, cu_subscriptions c !! workspace);
        if is_set sub && subs_locked workspace then mret false else
        t1 ← now_utc;
        closures_locked ← skip_locked;
        row ← customers (λ c, r ← cu_closures c !! workspace;
                if closable t1 r && negb (closures_locked workspace) then Some r else None);
        match row with
        | None => mret false
        | Some r =>
            now ← now_utc;
            outcome ← catch (λ e, is_instance e BillingUnavailable)
              (state ← provider_closure s workspace sub r now; mret (inr state))
              (λ e, mret (inl (if is_code (exn_msg e) then exn_msg e else "BILLING_CLOSURE_FAILED")));
            let r' := closure_attempted r outcome now in
            put_customers (λ c, c <| cu_closures ::= insert workspace r' |>) ;;
            audit_event "workspace_billing_closure_checked" (Some (cl_requested_by r)) (Some workspace)
              [("state", JStr (closure_text (cl_state r')));
               ("failure_code", match cl_failure_code r' with Some f => JStr f | None => JNull end)] ;;
            mret true
        end
    end).

(** ** Operator review *)
Definition unresolved_events (customer : option string) (c : Customers) : bool :=
  match customer with
  | Some x => truthy x && existsb (unreconciled x) (rows (cu_billing c))
  | None => false
  end.
Definition review_billing_closure (workspace reviewer : string) (provider_review : option string)
    (retry : bool) : M World () :=
  raise_if (negb (is_reference reviewer)) AccountError "BILLING_REVIEW_REQUIRED" ;;
  transaction (
    found ← customers (λ c, cu_closures c !! workspace);
    r ← expect found AccountError "CLOSURE_NOT_FOUND";
    owner ← customers (λ c, cu_users c !! cl_requested_by r);
    one owner ;;
    sub ← customers (λ c, cu_subscriptions c !! workspace);
    if retry then
      raise_if (negb (bool_decide (cl_state r = CLOSURE_FAILED))) AccountError "CLOSURE_NOT_FAILED" ;;
      now ← now_utc;
      put_customers (λ c, c <| cu_closures ::= insert workspace
        (r <| cl_state := CLOSURE_PENDING |> <| cl_attempts := 0 |> <| cl_available_at := now |>
           <| cl_failure_code := None |>) |>) ;;
      audit_event "billing_closure_retry_approved" (Some (cl_requested_by r)) (Some workspace)
        [("reviewer", JStr reviewer)]
    else
      raise_if (match provider_review with Some p => negb (truthy p) || negb (is_reference p)
                                         | None => true end)
        AccountError "BILLING_REVIEW_REQUIRED" ;;
      raise_if (truthy_opt (cl_subscription_id r) ||
                match sub with Some b => truthy_opt (sb_subscription_id b) | None => false end)
        AccountError "BILLING_PROVIDER_CLOSURE_REQUIRED" ;;
      t ← now_utc;
      raise_if (match sub with Some b => null_gt (sb_checkout_until b) t | None => false end)
        AccountError "BILLING_CHECKOUT_PENDING" ;;
      pending ← customers (unresolved_events (cl_customer_id r));
      raise_if pending AccountError "BILLING_RECONCILIATION_REQUIRED" ;;
      now ← now_utc;
      put_customers (λ c, c <| cu_closures ::= insert workspace
        (r <| cl_state := CLOSURE_CLOSED |> <| cl_failure_code := None |>
           <| cl_billing_reviewed_at := Some now |> <| cl_billing_reviewed_by := Some reviewer |>) |>) ;;
      audit_event "unlinked_billing_closure_reviewed" (Some (cl_requested_by r)) (Some workspace)
        [("reviewer", JStr reviewer);
         ("provider_review_reference", JStr (default EmptyString provider_review));
         ("no_subscription_and_invoice_resolution_attested", JBool true)]).

Definition closures_of (user : string) (c : Customers) : list (string * ClosureRow) :=
  sort_by (λ a b, String.ltb a.1 b.1)
    (List.filter (λ kr, bool_decide (cl_requested_by kr.2 = user)) (map_to_list (cu_closures c))).
(** [_locked_request] *)
Definition locked_request (user : string)
    : M World (UserRow * DeletionRow * list (string * ClosureRow)) :=
  who ← customers (λ c, cu_users c !! user);
  req ← customers (λ c, cu_deletions c !! user);
  u ← expect who AccountError "DELETION_NOT_FOUND";
  r ← expect req AccountError "DELETION_NOT_FOUND";
  closures ← customers (closures_of user);
  mret (u, r, closures).
(** [_require_closed_billing], one closure *)
Definition require_closed (kr : string * ClosureRow) : M World () :=
  let r := kr.2 in
  raise_if (negb (bool_decide (cl_state r = CLOSURE_CLOSED))) AccountError "BILLING_CLOSURE_PENDING" ;;
  sub ← customers (λ c, cu_subscriptions c !! kr.1);
  raise_if (match sub with
            | Some b => negb (bool_decide (sb_customer_id b = cl_customer_id r)) ||
                        negb (bool_decide (sb_subscription_id b = cl_subscription_id r))
            | None => false
            end) AccountError "BILLING_IDENTITY_MISMATCH" ;;
  raise_if (truthy_opt (cl_subscription_id r) &&
            match sub with Some b => negb (ended (sb_status b)) | None => true end)
    AccountError "BILLING_CLOSURE_PENDING" ;;
  pending ← customers (unresolved_events (cl_customer_id r));
  raise_if pending AccountError "BILLING_RECONCILIATION_REQUIRED".
Definition require_closed_billing (closures : list (string * ClosureRow)) : M World () :=
  for_each closures require_closed.
Definition review_request (user : string) (p : RetentionPolicy) (reviewer : string)
    (billing_resolved retained_records_reviewed : bool) : M World () :=
  digest ← policy_digest p;
  raise_if (negb (is_reference reviewer) || negb billing_resolved || negb retained_records_reviewed)
    AccountError "RETENTION_REVIEW_REQUIRED" ;;
  transaction (
    l ← locked_request user;
    let r := l.1.2 in
    if bool_decide (dl_state r = ERASED) then mret () else
    require_closed_billing l.2 ;;
    days_ ← expect (money_pii_retention_days p) AssertionError "money_pii_retention_days is not None";
    reviewed ← now_utc;
    put_customers (λ c, c <| cu_deletions ::= insert user
      (r <| dl_state := REVIEWED |> <| dl_policy_version := money_retention_policy_version p |>
         <| dl_policy_hash := Some digest |> <| dl_reviewed_by := Some reviewer |>
         <| dl_reviewed_at := Some reviewed |>
         <| dl_erasure_after := Some (dl_requested_at r + days days_) |>) |>) ;;
    billing ← now_utc;
    put_customers (λ c, c <| cu_closures ::= fmap (λ k,
      if bool_decide (cl_requested_by k = user)
      then k <| cl_billing_reviewed_at := Some billing |> <| cl_billing_reviewed_by := Some reviewer |>
      else k) |>) ;;
    audit_event "account_erasure_reviewed" (Some user) None
      [("policy_hash", JStr digest); ("reviewer", JStr reviewer); ("billing_resolved", JBool true);
       ("retained_records_reviewed", JBool true)]).

(** ** Erasure *)
Definition erased_address (user : string) : string := "erased+" +:+ user +:+ "@deleted.invalid".
Definition still_researching (workspaces : list string) (d : DB) : bool :=
  existsb (λ j, mem (j_workspace_id j) workspaces &&
                negb (mem (j_status j) [COMPLETE; FAILED; REJECTED])) (rows (t_jobs d)).
Definition erased_user (user : string) (u : UserRow) : UserRow :=
  u <| us_email := erased_address user |> <| us_display_name := "Deleted account" |>
    <| us_password_hash := "disabled" |> <| us_email_notifications := false |>
    <| us_email_verified_at := None |>.
(** The deletions and updates of [fulfil_request]. *)
Definition erase (user : string) (u : UserRow) (workspaces : list string) (c : Customers) : Customers :=
  c <| cu_email ::= delete_where (λ _ e, addressed user (token_digest (us_email u)) e) |>
    <| cu_tokens ::= delete_where (λ _ t, bool_decide (tk_user_id t = user)) |>
    <| cu_sessions ::= delete_where (λ _ r, bool_decide (as_user_id r = user)) |>
    <| cu_invitations ::= delete_where (λ _ i, bool_decide (in_invited_by i = user) ||
                                              bool_decide (in_email i = us_email u)) |>
    <| cu_members ::= delete_where (λ k _, bool_decide (k.2 = user)) |>
    <| cu_reads ::= delete_where (λ k _, bool_decide (k.1 = user)) |>
    <| cu_watchlist ::= delete_where (λ k _, mem k.1 workspaces) |>
    <| cu_preferences ::= delete_where (λ k _, mem k workspaces) |>
    <| cu_orgs ::= map_imap (λ k o, Some (if mem k workspaces
                                          then mkOrg "Closed workspace" (og_created_by o) (og_created_at o)
                                          else o)) |>
    <| cu_users ::= insert user (erased_user user u) |>.
Definition fulfil_request (user : string) (p : RetentionPolicy) : M World bool :=
  digest ← policy_digest p;
  transaction (
    l ← locked_request user;
    let u := l.1.1 in
    let r := l.1.2 in
    if bool_decide (dl_state r = ERASED) then mret false else
    raise_if (negb (bool_decide (dl_state r = REVIEWED)) ||
              negb (bool_decide (dl_policy_hash r = Some digest)))
      AccountError "RETENTION_REVIEW_REQUIRED" ;;
    after ← expect (dl_erasure_after r) AccountError "RETENTION_REVIEW_REQUIRED";
    t ← now_utc;
    raise_if (t <? after) AccountError "RETENTION_NOT_ELAPSED" ;;
    require_closed_billing l.2 ;;
    let workspaces := l.2.*1 in
    busy ← select (still_researching workspaces);
    raise_if busy AccountError "RESEARCH_STILL_ACTIVE" ;;
    t2 ← now_utc;
    sending ← customers (λ c, existsb (λ e, addressed user (token_digest (us_email u)) e &&
                bool_decide (em_state e = EMAIL_SENDING) && null_gt (em_lease_until e) t2)
                (rows (cu_email c)));
    raise_if sending AccountError "EMAIL_STILL_ACTIVE" ;;
    legacy ← customers (λ c, existsb (λ e, negb (is_set (em_recipient_hash e)) &&
                truthy (em_encrypted_payload e)) (rows (cu_email c)));
    raise_if legacy AccountError "LEGACY_EMAIL_REVIEW_REQUIRED" ;;
    taken ← customers (λ c, match user_by_email (erased_address user) c with
                            | Some (i, _) => negb (bool_decide (i = user)) | None => false end);
    raise_if taken IntegrityError "duplicate key value violates unique constraint" ;;
    put_customers (erase user u workspaces) ;;
    erased ← now_utc;
    put_customers (λ c, c <| cu_deletions ::= insert user
      (r <| dl_state := ERASED |> <| dl_erased_at := Some erased |>) |>) ;;
    audit_event "account_local_pii_erased" (Some user) None
      [("policy_hash", JStr digest); ("immutable_records_preserved", JBool true)] ;;
    mret true).

(** ** The recipient index of older messages *)
Definition backfill_email_recipients (limit : Z) : M World Z :=
  raise_if (negb (between 1 1000 limit)) ValueError "EMAIL_INDEX_LIMIT_INVALID" ;;
  transaction (
    locked ← skip_locked;
    found ← customers (λ c, take (Z.to_nat limit) (sort_by (λ a b, String.ltb a.1 b.1)
      (List.filter (λ ke, negb (is_set (em_recipient_hash ke.2)) && truthy (em_encrypted_payload ke.2) &&
                          negb (locked ke.1)) (map_to_list (cu_email c)))));
    for_each found (λ ke,
      m ← expect (unseal (em_encrypted_payload ke.2)) InvalidToken "";
      raise_if (negb (between 3 254 (Z.of_nat (String.length (ml_to m))))) AccountError
        "EMAIL_INDEX_INVALID" ;;
      put_customers (λ c, c <| cu_email ::= alter (λ e, e <| em_recipient_hash :=
        Some (token_digest (casefold (strip (ml_to m)))) |>) ke.1 |>)) ;;
    mret (Z.of_nat (length found))).
End offboarding.
