(* ===== verification/Mailer.v ===== *)
(** * Transactional email ([src/money/accounts/email_worker.py])

    The lease, the delivery and the settlement of one message. The transport's
    answer is a parameter. *)

From S2P Require Import Prelude Effects PyNum PyText Contracts Demo Eligibility Governance.
From S2P Require Import Market Signals CrossExam Universe Customers Schema Store Budgets.
From S2P Require Import Calendar Security Product Accounts Workspaces Billing Offboarding.
#[local] Open Scope Z_scope.

(** How the SMTP exchange ended: accepted, [SMTPResponseException] with its
    code, a message or recipients the client refused, or any other error. *)
Inductive Transport := sent | responded (code : Z) | refused | broken.
(** The exchange for a row's id and payload. *)
Class Smtp := smtp_at : nat → string → Mail → Transport.

Definition expired_lease (now : Z) (e : EmailRow) : bool :=
  bool_decide (em_state e = EMAIL_SENDING) && null_le (em_lease_until e) now.
Definition waiting (now : Z) (e : EmailRow) : bool :=
  bool_decide (em_state e = EMAIL_QUEUED) || expired_lease now e.
Definition leaving (c : Customers) (user : string) : bool :=
  match cu_users c !! user with Some u => is_set (us_deletion_requested_at u) | None => false end.
(** The two updates [claim] starts with. *)
Definition suppress (now : Z) (c : Customers) (e : EmailRow) : EmailRow :=
  if leaving c (em_user_id e) && waiting now e
  then (cancel_email e) <| em_lease_token := None |> <| em_lease_until := None |> else e.
Definition exhaust (now : Z) (e : EmailRow) : EmailRow :=
  if expired_lease now e && (5 <=? em_attempts e)
  then e <| em_state := EMAIL_FAILED |> <| em_failure_code := Some "EMAIL_RETRY_EXHAUSTED" |>
         <| em_lease_token := None |>
  else e.
Definition due (now : Z) (e : EmailRow) : bool :=
  waiting now e && (em_available_at e <=? now) && (em_attempts e <? 5).
Definition leased (e : EmailRow) (token : string) (now : Z) : EmailRow :=
  e <| em_state := EMAIL_SENDING |> <| em_attempts := em_attempts e + 1 |>
    <| em_lease_token := Some token |> <| em_lease_until := Some (now + minutes 2) |>.

Section mailer.
Context `{Env, Secrets, Catalog, Vault, Smtp}.

Definition claim_email : M World (option (string * EmailRow)) :=
  transaction (
    now ← now_utc;
    put_customers (λ c, c <| cu_email ::= fmap (suppress now c) |>) ;;
    put_customers (λ c, c <| cu_email ::= fmap (exhaust now) |>) ;;
    locked ← skip_locked;
    found ← customers (λ c, min_by (λ ke, em_created_at ke.2)
              (List.filter (λ ke, due now ke.2 && negb (locked ke.1)) (map_to_list (cu_email c))));
    match found with
    | None => mret None
    | Some (id, e) =>
        token ← uuid4;
        put_customers (λ c, c <| cu_email ::= insert id (leased e token now) |>) ;;
        mret (Some (id, leased e token now))
    end).
(** [deliver] and the exceptions [once] maps: the failure code and whether it is
    permanent. *)
Definition deliver (id : string) (e : EmailRow) : M World (option (string * bool)) :=
  gone ← customers (λ c, leaving c (em_user_id e));
  if (gone : bool) then mret (Some ("EMAIL_PAYLOAD_REJECTED", true)) else
  match unseal (em_encrypted_payload e) with
  | None => mret (Some ("EMAIL_PAYLOAD_REJECTED", true))
  | Some m =>
      k ← next_tick;
      mret match smtp_at k id m with
           | sent => None
           | responded code => Some ("EMAIL_PROVIDER_REJECTED", 500 <=? code)
           | refused => Some ("EMAIL_PAYLOAD_REJECTED", true)
           | broken => Some ("EMAIL_DELIVERY_FAILED", false)
           end
  end.
Definition settle_email (e : EmailRow) (failure : option (string * bool)) (now : Z) (row : EmailRow)
    : EmailRow :=
  let released := row <| em_lease_token := None |> <| em_lease_until := None |>
                      <| em_failure_code := fst <$> failure |> in
  match failure with
  | None => released <| em_state := EMAIL_DELIVERED |> <| em_delivered_at := Some now |>
                     <| em_encrypted_payload := EmptyString |>
  | Some f =>
      released <| em_state := if f.2 || (5 <=? em_attempts e) then EMAIL_FAILED else EMAIL_QUEUED |>
               <| em_available_at := now + seconds (Z.min 3600 (30 * 2 ^ em_attempts e)) |>
  end.
(** Only the holder of a live lease settles its message. *)
Definition finish_email (id : string) (e : EmailRow) (failure : option (string * bool)) : M World () :=
  transaction (
    now ← now_utc;
    t ← now_utc;
    put_customers (λ c, c <| cu_email ::= alter (λ row,
      if bool_decide (em_lease_token row = em_lease_token e) && null_gt (em_lease_until row) t
      then settle_email e failure now row else row) id |>)).
Definition send_once : M World bool :=
  claimed ← claim_email;
  match claimed with
  | None => mret false
  | Some (id, e) =>
      failure ← deliver id e;
      finish_email id e failure ;;
      mret true
  end.
End mailer.
