(* ===== verification/Tenancy.v ===== *)
(** * Accounts and workspaces over any run

    [Tenancy] is the invariant of the identity tables: an open workspace has
    exactly one owner, a member is a live account of an open workspace, an
    account that asked for deletion keeps no session, token or invitation that
    still works. Every operation of the account service, of offboarding and of
    the product service preserves it. *)

From S2P Require Import Prelude Effects PyNum PyText Contracts Demo Eligibility Governance.
From S2P Require Import Market Signals CrossExam Universe Customers Schema Store StoreLogic StoreInv.
From S2P Require Import StoreOps Frames Budgets Calendar Security Product Accounts Workspaces Billing.
From S2P Require Import Offboarding Mailer.
#[local] Open Scope Z_scope.

(** ** Stepping through customer operations *)
Section rules.
Context `{Env}.

Lemma wpd_customers {A} (f : Customers → A) Q E d : Q (f (t_customers d)) d → wpd (customers f) Q E d.
Proof. by intros HQ k. Qed.
Lemma wpd_put (f : Customers → Customers) Q E d :
  Q () (d <| t_customers ::= f |>) → wpd (put_customers f) Q E d.
Proof. by intros HQ k. Qed.
Lemma wpd_insert_customer `{Countable K} {V} (table : Customers → gmap K V) key f Q E d :
  (table (t_customers d) !! key = None → Q () (d <| t_customers ::= f |>)) →
  E (Exn IntegrityError "duplicate key value violates unique constraint") d →
  wpd (insert_customer table key f) Q E d.
Proof. intros HQ HE. apply wpd_insert_unique; auto. Qed.
Lemma wpd_references present Q E d :
  (present d = true → Q () d) → E (Exn IntegrityError "FOREIGN KEY constraint failed") d →
  wpd (references present) Q E d.
Proof.
  intros HQ HE. unfold references. apply wpd_bind, wpd_select, wpd_raise_if; [done|].
  intros Hp%negb_false_iff. auto.
Qed.
Lemma wpd_tick (Q : nat → DB → Prop) E d : (∀ k, Q k d) → wpd next_tick Q E d.
Proof. intros HQ k. apply HQ. Qed.
#[export] Instance reads_tick : Reads next_tick.
Proof. intros d. by apply wpd_tick. Qed.
#[export] Instance reads_customers {A} (f : Customers → A) : Reads (customers f).
Proof. unfold customers. apply _. Qed.
#[export] Instance reads_references present : Reads (references present).
Proof. unfold references. apply _. Qed.
#[export] Instance reads_one {A} (o : option A) : Reads (one o).
Proof. unfold one. apply _. Qed.
End rules.
Ltac cstep :=
  lazymatch goal with
  | |- wpd (customers _) _ _ _ => apply wpd_customers
  | |- wpd (put_customers _) _ _ _ => apply wpd_put
  | |- wpd (insert_customer _ _ _) _ _ _ => apply wpd_insert_customer; [intro|]
  | |- wpd (references _) _ _ _ => apply wpd_references; [intro|]
  | |- wpd next_tick _ _ _ => apply wpd_tick; intros ?
  | |- wpd (one _) _ _ _ => unfold one
  | |- wpd token_urlsafe _ _ _ => unfold token_urlsafe
  | _ => wpd_step
  end.
Ltac crun := repeat (cstep; try done).
Ltac csteps := repeat (cstep; simpl; try done).

Lemma wpd_both {A} (m : M World A) Q1 Q2 E d :
  wpd m Q1 E d → wpd m Q2 E d → wpd m (λ a d', Q1 a d' ∧ Q2 a d') E d.
Proof.
  intros Ha Hb k. specialize (Ha k). specialize (Hb k). unfold wp in *.
  by destruct (m (mkWorld d k)) as [[|] ?].
Qed.

Definition sees {T} (f : Customers → T) (d : DB) : T := f (t_customers d).

#[export] Hint Opaque event subscription audit_event limit limit_key email_ action consume insert_user
  signup update_user verify_email forgot_password resend_verification reset_password new_session
  open_session workspaces login authenticated_user principal logout rotate_session rotate list_sessions
  revoke_account_session insert_member lock_workspace create_workspace seat_limit require_owner invite
  accept_invitation workspace_members change_member transfer_ownership export set_notifications
  request reconcile_event attempt_failed reconcile_once authenticate_event webhook notify_subscription
  notify_research_once policy_digest close_workspace begin_deletion request_deletion provider_closure
  close_billing_once review_billing_closure locked_request require_closed_billing review_request
  fulfil_request backfill_email_recipients claim_email finish_email deliver summary history watch
  list_watch notifications mark_read record_event set_preferences reserve_research user_usage
  consume_rate_limit password_hash password_valid derive customers put_customers references one
  : typeclass_instances.

(** ** The invariant *)
Definition gone (u : UserRow) : bool := is_set (us_deletion_requested_at u).
Definition present (c : Customers) (id : string) : Prop :=
  ∃ u, cu_users c !! id = Some u ∧ gone u = false.
Record Tenancy (c : Customers) : Prop := {
  tn_emails : ∀ i j u v, cu_users c !! i = Some u → cu_users c !! j = Some v →
    us_email u = us_email v → i = j;
  tn_members : ∀ w i m, cu_members c !! (w, i) = Some m →
    is_Some (cu_orgs c !! w) ∧ cu_closures c !! w = None ∧ present c i;
  tn_owner : ∀ w, is_Some (cu_orgs c !! w) → cu_closures c !! w = None →
    ∃ i, member_role w i c = Some OWNER ∧ ∀ j, member_role w j c = Some OWNER → j = i;
  tn_sessions : ∀ h r, cu_sessions c !! h = Some r → as_revoked_at r = None → present c (as_user_id r);
  tn_tokens : ∀ h t, cu_tokens c !! h = Some t → tk_used_at t = None → present c (tk_user_id t);
  tn_invitations : ∀ h i, cu_invitations c !! h = Some i →
    assignable (in_role i) = true ∧
    (in_used_at i = None → present c (in_invited_by i) ∧
       ∀ j u, cu_users c !! j = Some u → us_email u = in_email i →
         (∀ r, cu_deletions c !! j = Some r → dl_state r ≠ ERASED) → gone u = false);
  tn_deletions : ∀ i, is_set (cu_deletions c !! i) = leaving c i;
  tn_closures : ∀ w, is_Some (cu_closures c !! w) → is_Some (cu_orgs c !! w);
}.
Lemma tenancy_identity c c' : identity c' = identity c → Tenancy c → Tenancy c'.
Proof.
  unfold identity. intros [= Hu Ho Hm Hs Ht Hi Hd Hc] [T1 T2 T3 T4 T5 T6 T7 T8].
  split; unfold present, member_role, leaving in *; rewrite ?Hu, ?Ho, ?Hm, ?Hs, ?Ht, ?Hi, ?Hd, ?Hc; done.
Qed.
Lemma tenancy_empty : Tenancy no_customers.
Proof.
  split; simpl; intros *; rewrite ?lookup_empty; try done.

Qed.
(** Runs that keep the invariant, whether they return or raise. *)
Definition upholds (d d' : DB) : Prop := Tenancy (t_customers d) → Tenancy (t_customers d').
#[export] Instance upholds_preorder : PreOrder upholds.
Proof. split; [intros d HT; exact HT|intros d1 d2 d3 H12 H23 HT; by apply H23, H12]. Qed.
Lemma upholds_identity d d' : kept (sees identity) d d' → upholds d d'.
Proof. intros Hk HT. eapply tenancy_identity; [exact Hk|done]. Qed.
#[export] Instance respects_identity {A} (m : M World A) :
  Respects (kept (sees identity)) m → Respects upholds m | 50.
Proof. intros Hm d. eapply wpd_mono; [apply Hm|intros ? ? ?; by apply upholds_identity..]. Qed.

(** ** Operations beside the identity tables *)
Section beside.
Context `{Env, Secrets, Catalog, Vault, Stripe, RetentionJson, Smtp}.

(** What mail, audit, metering of events and renewal of a period leave alone. *)
Definition steady (d : DB) :=
  let c := t_customers d in
  (records d, t_outbox d, t_usage d, t_reservations d, t_providers d, t_calls d,
   (identity c, cu_billing c, cu_watchlist c, cu_reads c, cu_preferences c)).
#[export] Instance steady_event w u n r : Respects (kept steady) (event w u n r).
Proof. unfold event, insert_customer. apply _. Qed.
#[export] Instance steady_audit_event n u w p : Respects (kept steady) (audit_event n u w p).
Proof. unfold audit_event, insert_customer. apply _. Qed.
#[export] Instance steady_subscription w : Respects (kept steady) (subscription w).
Proof. unfold subscription, put_subscription, put_customers. apply _. Qed.
#[export] Instance steady_email u a k s b : Respects (kept steady) (email_ u a k s b).
Proof. unfold email_, insert_customer. apply _. Qed.
#[export] Instance steady_rate h k l t : Respects (kept steady) (consume_rate_limit h k l t).
Proof. unfold consume_rate_limit. apply _. Qed.
#[export] Instance steady_limit s o i a : Respects (kept steady) (limit s o i a).
Proof. unfold limit, limit_key. apply _. Qed.
#[export] Instance reads_derive p s : Reads (derive p s).
Proof. unfold derive. apply _. Qed.
#[export] Instance reads_password_hash p : Reads (password_hash p).
Proof. unfold password_hash. apply _. Qed.
#[export] Instance reads_password_valid p e : Reads (password_valid p e).
Proof. unfold password_valid. apply _. Qed.
End beside.

(** ** Writes to the identity tables *)
Lemma wpd_kept {A T} (f : DB → T) (m : M World A) Q E d :
  Respects (kept f) m → (∀ a d', f d' = f d → Q a d') → (∀ e d', f d' = f d → E e d') →
  wpd m Q E d.
Proof. intros Hm HQ HE. eapply wpd_mono; [apply Hm|intros ? ? ?; by apply HQ|intros ? ? ?; by apply HE]. Qed.

Section writes.
Context (c : Customers) (HT : Tenancy c).

Lemma tenancy_tokens m :
  (∀ h t, m !! h = Some t → tk_used_at t = None → present c (tk_user_id t)) →
  Tenancy (c <| cu_tokens := m |>).
Proof. intros Hm. destruct HT. by split. Qed.
Lemma tenancy_sessions m :
  (∀ h r, m !! h = Some r → as_revoked_at r = None → present c (as_user_id r)) →
  Tenancy (c <| cu_sessions := m |>).
Proof. intros Hm. destruct HT. by split. Qed.
(** Rows rewritten in place, each at most more used than before. *)
Lemma tenancy_spend (f : TokenRow → TokenRow) :
  (∀ t, tk_used_at (f t) = None → tk_used_at t = None ∧ tk_user_id (f t) = tk_user_id t) →
  Tenancy (c <| cu_tokens ::= fmap f |>).
Proof.
  intros Hf. apply tenancy_tokens. intros h t. rewrite lookup_fmap. intros (t0 & Ht & ->)%fmap_Some Hu.
  destruct (Hf _ Hu) as [Hu0 ->]. by eapply tn_tokens.
Qed.
Lemma tenancy_revoke (f : AccountSession → AccountSession) :
  (∀ r, as_revoked_at (f r) = None → as_revoked_at r = None ∧ as_user_id (f r) = as_user_id r) →
  Tenancy (c <| cu_sessions ::= fmap f |>).
Proof.
  intros Hf. apply tenancy_sessions. intros h r. rewrite lookup_fmap. intros (r0 & Hr & ->)%fmap_Some Hu.
  destruct (Hf _ Hu) as [Hu0 ->]. by eapply tn_sessions.
Qed.
Lemma tenancy_invitations m :
  (∀ h i, m !! h = Some i → ∃ h0 i0, cu_invitations c !! h0 = Some i0 ∧ in_role i = in_role i0 ∧
     (in_used_at i = None → in_used_at i0 = None ∧ in_invited_by i = in_invited_by i0 ∧
                            in_email i = in_email i0)) →
  Tenancy (c <| cu_invitations := m |>).
Proof.
  intros Hm. destruct HT as [T1 T2 T3 T4 T5 T6 T7 T8]. split; try done. simpl. intros h i Hi.
  destruct (Hm h i Hi) as (h0 & i0 & Hi0 & Hr & Hu). destruct (T6 h0 i0 Hi0) as [Ha Hp].
  rewrite Hr. split; [done|]. intros Hn. destruct (Hu Hn) as (Hn0 & -> & ->). by apply Hp.
Qed.
Lemma tenancy_withdraw (f : InvitationRow → InvitationRow) :
  (∀ i, in_role (f i) = in_role i ∧
     (in_used_at (f i) = None → in_used_at i = None ∧ in_invited_by (f i) = in_invited_by i ∧
                                in_email (f i) = in_email i)) →
  Tenancy (c <| cu_invitations ::= fmap f |>).
Proof.
  intros Hf. apply tenancy_invitations. intros h i. rewrite lookup_fmap.
  intros (i0 & Hi0 & ->)%fmap_Some. exists h, i0. split; [done|]. apply Hf.
Qed.
Lemma tenancy_use_invitation h now :
  Tenancy (c <| cu_invitations ::= alter (λ r, r <| in_used_at := Some now |>) h |>).
Proof.
  apply tenancy_invitations. intros h' i. rewrite lookup_alter. case_decide.
  - subst. intros (i0 & Hi0 & ->)%fmap_Some. by exists h', i0.
  - intros Hi. by exists h', i.
Qed.
(** A user row keeps its address and whether it is leaving. *)
Lemma present_alter f id i :
  (∀ u, gone (f u) = gone u) → present c i → present (c <| cu_users ::= alter f id |>) i.
Proof.
  intros Hf (u & Hu & Hg). unfold present. simpl. destruct (decide (id = i)) as [->|Hne].
  - exists (f u). rewrite lookup_alter_eq, Hu. simpl. by rewrite Hf.
  - exists u. by rewrite lookup_alter_ne.
Qed.
Lemma tenancy_update_user f id :
  (∀ u, gone (f u) = gone u ∧ us_email (f u) = us_email u) →
  Tenancy (c <| cu_users ::= alter f id |>).
Proof.
  intros Hf. assert (∀ u, gone (f u) = gone u) as Hg by (intros u; apply Hf).
  assert (∀ i u, alter f id (cu_users c) !! i = Some u →
    ∃ u0, cu_users c !! i = Some u0 ∧ gone u = gone u0 ∧ us_email u = us_email u0) as Hold.
  { intros i u. rewrite lookup_alter. case_decide as Hi.
    - subst. intros (u0 & Hu0 & ->)%fmap_Some. exists u0. split; [done|]. apply Hf.
    - intros Hu. by exists u. }
  destruct HT as [T1 T2 T3 T4 T5 T6 T7 T8]. split; simpl.
  - intros i j u v Hu Hv Hem. destruct (Hold _ _ Hu) as (u0 & Hu0 & _ & He).
    destruct (Hold _ _ Hv) as (v0 & Hv0 & _ & Hf0). eapply T1; try done. congruence.
  - intros w i m Hm. destruct (T2 w i m Hm) as (Ho & Hc & Hp). split_and!; try done.
    by apply present_alter.
  - done.
  - intros h r Hr Hn. apply present_alter; [done|]. by eapply T4.
  - intros h t Ht Hn. apply present_alter; [done|]. by eapply T5.
  - intros h i Hi. destruct (T6 h i Hi) as [Ha Hp]. split; [done|]. intros Hn.
    destruct (Hp Hn) as [Hp1 Hp2]. split; [by apply present_alter|].
    intros j u Hu He Hd. destruct (Hold _ _ Hu) as (u0 & Hu0 & -> & Heq).
    eapply Hp2; [done|congruence|done].
  - intros i. rewrite T7. unfold leaving. simpl. rewrite lookup_alter. case_decide; [subst|done].
    destruct (cu_users c !! i) as [u|]; simpl; [symmetry; apply Hg|done].
  - done.
Qed.
Lemma tenancy_new_user id u :
  cu_users c !! id = None → gone u = false →
  (∀ i v, cu_users c !! i = Some v → us_email v ≠ us_email u) →
  Tenancy (c <| cu_users ::= insert id u |>).
Proof.
  intros Hnew Hg Hem. destruct HT as [T1 T2 T3 T4 T5 T6 T7 T8].
  assert (∀ i, present c i → present (c <| cu_users ::= insert id u |>) i) as Hp.
  { intros i (v & Hv & Hgv). exists v. split; [|done]. simpl. rewrite lookup_insert_ne; [done|].
    intros ->. congruence. }
  split; simpl.
  - intros i j v1 v2. rewrite !lookup_insert_Some.
    intros [[<- <-]|[Hi Hv1]] [[<- <-]|[Hj Hv2]] Heq; try done.
    + exfalso. eapply Hem; [exact Hv2|done].
    + exfalso. eapply Hem; [exact Hv1|done].
    + by eapply T1.
  - intros w i m Hm. destruct (T2 w i m Hm) as (Ho & Hc & Hpi). split_and!; try done. by apply Hp.
  - done.
  - intros h r Hr Hn. apply Hp. by eapply T4.
  - intros h t Ht Hn. apply Hp. by eapply T5.
  - intros h i Hi. destruct (T6 h i Hi) as [Ha Hpi]. split; [done|]. intros Hn.
    destruct (Hpi Hn) as [Hp1 Hp2]. split; [by apply Hp|].
    intros j v. rewrite lookup_insert_Some. intros [[<- <-]|[Hj Hv]] He Hd; [done|by eapply Hp2].
  - intros i. rewrite T7. unfold leaving. simpl. rewrite lookup_insert. case_decide; [subst|done].
    by rewrite Hnew.
  - done.
Qed.
End writes.

(** ** Identity operations keep the invariant *)
Lemma upholds_committed `{Env} {A} (m : M World A) :
  (∀ d, Tenancy (t_customers d) → wpd m (λ _ d', Tenancy (t_customers d')) (λ _ _, True) d) →
  Respects upholds (transaction m).
Proof.
  intros Hm. apply respects_committed; [apply _|]. intros d k. specialize (Hm d).
  unfold wpd, wp in *. destruct (m (mkWorld d k)) as [[e|a] w] eqn:Hr; [done|].
  intros HT. specialize (Hm HT k). by rewrite Hr in Hm.
Qed.
Lemma user_by_email_some a c i u : user_by_email a c = Some (i, u) →
  cu_users c !! i = Some u ∧ us_email u = a.
Proof.
  unfold user_by_email. intros [Hin Hp]%List.find_some. apply list_elem_of_In, elem_of_map_to_list in Hin.
  by apply bool_decide_eq_true in Hp.
Qed.
Lemma user_by_email_none a c i u : user_by_email a c = None → cu_users c !! i = Some u → us_email u ≠ a.
Proof.
  unfold user_by_email. intros Hf Hu. apply elem_of_map_to_list, list_elem_of_In in Hu.
  pose proof (List.find_none _ _ Hf _ Hu) as Hn. simpl in Hn. by apply bool_decide_eq_false in Hn.
Qed.
Lemma steady_identity d d' : steady d' = steady d → identity (t_customers d') = identity (t_customers d).
Proof. unfold steady. congruence. Qed.
Lemma identity_present c c' i : identity c' = identity c → present c i → present c' i.
Proof. unfold identity, present. intros [= -> _ _ _ _ _ _ _]. done. Qed.
#[export] Instance upholds_steady {A} (m : M World A) :
  Respects (kept steady) m → Respects upholds m | 40.
Proof.
  intros Hm. apply respects_identity. intros d.
  eapply wpd_mono; [apply Hm|intros ? ? ?%steady_identity; done..].
Qed.

Section identity.
Context `{Env, Secrets, Catalog, Vault, Stripe, RetentionJson, Smtp}.

(** A step whose operation leaves the identity tables alone. *)
Lemma wpd_steady {A} (m : M World A) Q E d :
  Respects (kept steady) m → Tenancy (t_customers d) →
  (∀ a d', identity (t_customers d') = identity (t_customers d) → Tenancy (t_customers d') → Q a d') →
  (∀ e d', E e d') → wpd m Q E d.
Proof.
  intros Hm HT HQ HE. apply (wpd_kept steady); [done| |intros; apply HE].
  intros a d' Hd%steady_identity. apply HQ; [done|]. by eapply tenancy_identity.
Qed.
Lemma upholds_update_user id f :
  (∀ u, gone (f u) = gone u ∧ us_email (f u) = us_email u) → Respects upholds (update_user id f).
Proof. intros Hf d. apply wpd_put. intros HT. by apply tenancy_update_user. Qed.
#[local] Hint Extern 1 (Respects upholds (update_user _ _)) =>
  (apply upholds_update_user; done) : typeclass_instances.
#[export] Instance upholds_consume raw p : Respects upholds (consume raw p).
Proof.
  intros d. unfold consume. cstep. cstep. cstep. cstep; [|done]. csteps.
  intros HT. apply tenancy_tokens; [done|]. intros h t'. rewrite lookup_insert_Some.
  intros [[_ <-]|[_ Ht']]; [done|]. by eapply tn_tokens.
Qed.
#[export] Instance upholds_verify_email s raw : Respects upholds (verify_email s raw).
Proof. unfold verify_email. apply _. Qed.
Lemma revoke_open_more user now r :
  as_revoked_at (revoke_open user now r) = None →
  as_revoked_at r = None ∧ as_user_id (revoke_open user now r) = as_user_id r.
Proof. unfold revoke_open. by case_match. Qed.
#[export] Instance upholds_revoke_open user now :
  Respects upholds (put_customers (λ c, c <| cu_sessions ::= fmap (revoke_open user now) |>)).
Proof. intros d. apply wpd_put. intros HT. apply tenancy_revoke; [done|apply revoke_open_more]. Qed.
#[export] Instance upholds_reset_password s raw password : Respects upholds (reset_password s raw password).
Proof. unfold reset_password. apply _. Qed.
Lemma tenancy_spent c user p now : Tenancy c →
  Tenancy (c <| cu_tokens ::= fmap (spend_tokens user p now) |>).
Proof. intros HT. apply tenancy_spend; [done|]. intros t. unfold spend_tokens. by case_match. Qed.
Lemma tenancy_new_token c h t : Tenancy c → present c (tk_user_id t) →
  Tenancy (c <| cu_tokens ::= insert h t |>).
Proof.
  intros HT Hp. apply tenancy_tokens; [done|]. intros h' t'. rewrite lookup_insert_Some.
  intros [[_ <-]|[_ Ht']] Hn; [done|]. by eapply tn_tokens.
Qed.
Lemma wpd_action s user address p d :
  Tenancy (t_customers d) → present (t_customers d) user →
  wpd (action s user address p) (λ _ d', Tenancy (t_customers d')) (λ _ _, True) d.
Proof.
  intros HT Hp. unfold action, token_urlsafe. do 4 cstep. do 4 cstep. do 2 cstep; [|done]. cstep.
  cstep; [|done]. apply wpd_steady; [apply _| |done..].
  apply (tenancy_new_token _ _ _ (tenancy_spent _ user p t HT)). done.
Qed.
#[export] Instance upholds_signup s address password name : Respects upholds (signup s address password name).
Proof.
  unfold signup. repeat (apply respects_bind; [apply _..|intros ?]).
  eapply respects_catch; [apply _| |intros ?; apply _]. apply upholds_committed.
  intros d HT. do 2 cstep. destruct (user_by_email address (t_customers d)) as [[i u]|] eqn:Hu; [by cstep|].
  unfold insert_user. crun.
  set (u := mkUser _ _ _ _ _ _ _).
  assert (Tenancy (t_customers (d <| t_customers ::= λ c, c <| cu_users ::= insert s0 u |> |>))) as HT'.
  { simpl. apply tenancy_new_user; try done. intros i v Hv. by eapply user_by_email_none. }
  eapply wpd_mono; [apply wpd_action; [done|]| |done].
  { exists u. split; [|done]. simpl. by rewrite lookup_insert_eq. }
  simpl. intros _ d' Hd'. by apply wpd_steady; [apply _| |done..].
Qed.
#[export] Instance upholds_forgot_password s address : Respects upholds (forgot_password s address).
Proof.
  unfold forgot_password. apply respects_bind; [apply _..|intros ?]. apply upholds_committed.
  intros d HT. do 2 cstep. destruct (user_by_email address (t_customers d)) as [[i u]|] eqn:Hu; [|by cstep].
  destruct (is_set (us_deletion_requested_at u)) eqn:Hg; [by cstep|].
  apply user_by_email_some in Hu as [Hu _]. apply wpd_action; [done|]. by exists u.
Qed.
#[export] Instance upholds_resend_verification s address : Respects upholds (resend_verification s address).
Proof.
  unfold resend_verification. apply respects_bind; [apply _..|intros ?]. apply upholds_committed.
  intros d HT. do 2 cstep. destruct (user_by_email address (t_customers d)) as [[i u]|] eqn:Hu; [|by cstep].
  destruct (_ || _) eqn:Hg; [by cstep|]. apply orb_false_iff in Hg as [_ Hg].
  apply user_by_email_some in Hu as [Hu _]. apply wpd_action; [done|]. by exists u.
Qed.
Lemma wpd_new_session s user d :
  Tenancy (t_customers d) → present (t_customers d) user →
  wpd (new_session s user) (λ _ d', Tenancy (t_customers d')) (λ _ _, True) d.
Proof.
  intros HT Hp. unfold new_session, token_urlsafe. crun. simpl. apply tenancy_sessions; [done|].
  intros h r. rewrite lookup_insert_Some. intros [[_ <-]|[_ Hr]] Hn; [done|]. by eapply tn_sessions.
Qed.
Lemma not_stale read current : stale read current = false → gone current = false.
Proof. unfold stale. by intros [_ Hg]%orb_false_iff. Qed.
#[export] Instance upholds_open_session s id user : Respects upholds (open_session s id user).
Proof.
  unfold open_session. apply upholds_committed. intros d HT. crun.
  eapply wpd_mono; [apply wpd_new_session; [done|]| |done].
  { exists a. split; [done|]. by eapply not_stale. }
  simpl. intros r d' HT'. cstep. apply wpd_steady; [apply _|done| |done].
  intros [] d2 _ HT2. by cstep.
Qed.
#[export] Instance reads_workspaces user : Reads (workspaces user).
Proof. unfold workspaces. apply _. Qed.
#[export] Instance upholds_login s address password : Respects upholds (login s address password).
Proof. unfold login. apply _. Qed.
#[export] Instance reads_authenticated token : Reads (authenticated_user token).
Proof. unfold authenticated_user. apply _. Qed.
#[export] Instance reads_principal token workspace : Reads (principal token workspace).
Proof. unfold principal. apply _. Qed.
Lemma tenancy_revoke_one c h now : Tenancy c → Tenancy (revoke_one h now c).
Proof.
  intros HT. apply tenancy_sessions; [done|]. intros h' r. rewrite lookup_alter.
  case_decide; [|by apply tn_sessions]. subst. by intros (r0 & _ & ->)%fmap_Some.
Qed.
#[export] Instance upholds_revoke_one h now : Respects upholds (put_customers (revoke_one h now)).
Proof. intros d. apply wpd_put. intros HT. by apply tenancy_revoke_one. Qed.
#[export] Instance upholds_logout token : Respects upholds (logout token).
Proof. unfold logout. apply _. Qed.
#[export] Instance upholds_rotate_session s raw id user : Respects upholds (rotate_session s raw id user).
Proof.
  unfold rotate_session. apply upholds_committed. intros d HT. crun.
  eapply wpd_mono; [apply wpd_new_session| |done].
  { simpl. by apply tenancy_revoke_one. }
  { exists a. split; [done|]. by eapply not_stale. }
  simpl. intros r d' HT'. cstep. apply wpd_steady; [apply _|done| |done].
  intros [] d2 _ HT2. by cstep.
Qed.
#[export] Instance upholds_revoke_account_session user reference :
  Respects upholds (revoke_account_session user reference).
Proof. unfold revoke_account_session. apply _. Qed.
End identity.

(** ** Membership keeps the invariant *)
Section membership.
Context (c : Customers) (HT : Tenancy c).

Definition sole_owner (m : gmap (string * string) MemberRow) (w : string) : Prop :=
  ∃ i, mb_role <$> m !! (w, i) = Some OWNER ∧ ∀ j, mb_role <$> m !! (w, j) = Some OWNER → j = i.
Lemma tenancy_members m :
  (∀ w i r, m !! (w, i) = Some r →
     is_Some (cu_orgs c !! w) ∧ cu_closures c !! w = None ∧ present c i) →
  (∀ w, is_Some (cu_orgs c !! w) → cu_closures c !! w = None → sole_owner m w) →
  Tenancy (c <| cu_members := m |>).
Proof. intros Hm Ho. destruct HT. by split. Qed.
Lemma tenancy_new_workspace id o user m :
  cu_orgs c !! id = None → present c user → mb_role m = OWNER →
  Tenancy (c <| cu_orgs ::= insert id o |> <| cu_members ::= insert (id, user) m |>).
Proof.
  intros Hnew Hp Hm. destruct HT as [T1 T2 T3 T4 T5 T6 T7 T8].
  assert (cu_closures c !! id = None) as Hcl.
  { apply eq_None_not_Some. intros Hs. apply T8 in Hs. rewrite Hnew in Hs. by destruct Hs. }
  assert (∀ i, cu_members c !! (id, i) = None) as Hno.
  { intros i. destruct (cu_members c !! (id, i)) eqn:Hi; [|done].
    destruct (T2 _ _ _ Hi) as [Hs _]. rewrite Hnew in Hs. by destruct Hs. }
  split; simpl; try done.
  - intros w i r. rewrite lookup_insert_Some. intros [[[= <- <-] <-]|[_ Hr]].
    + rewrite lookup_insert_eq. eauto.
    + destruct (T2 _ _ _ Hr) as (Ho & Hc & Hpi). split_and!; try done.
      rewrite lookup_insert. by case_decide.
  - intros w. unfold member_role. simpl. intros Hs Hc. destruct (decide (w = id)) as [->|Hne].
    + exists user. rewrite lookup_insert_eq. simpl. split; [congruence|]. intros j.
      destruct (decide (j = user)) as [->|Hj]; [done|]. rewrite lookup_insert_ne by congruence.
      by rewrite Hno.
    + rewrite lookup_insert_ne in Hs by done. destruct (T3 w Hs Hc) as (i & Hi & Hu).
      exists i. rewrite lookup_insert_ne by congruence. split; [done|]. intros j.
      rewrite lookup_insert_ne by congruence. apply Hu.
  - intros w Hs. rewrite lookup_insert. case_decide; [by eexists|]. by apply T8.
Qed.
Lemma tenancy_new_member w user m i :
  cu_members c !! (w, i) = Some m → present c user → cu_members c !! (w, user) = None →
  ∀ m', mb_role m' ≠ OWNER → Tenancy (c <| cu_members ::= insert (w, user) m' |>).
Proof.
  intros Hi Hp Hnew m' Hm'. destruct (tn_members _ HT _ _ _ Hi) as (Ho & Hc & _).
  apply tenancy_members.
  - intros w' j r. rewrite lookup_insert_Some. intros [[[= <- <-] _]|[_ Hr]]; [done|].
    by eapply tn_members.
  - intros w' Hs' Hc'. destruct (tn_owner _ HT w' Hs' Hc') as (x & Hx & Hu). exists x.
    assert (∀ j, mb_role <$> <[(w, user):=m']> (cu_members c) !! (w', j) = Some OWNER ↔
                 member_role w' j c = Some OWNER) as Heq.
    { intros j. unfold member_role. rewrite lookup_insert. case_decide as Hk; [|done].
      injection Hk as <- <-. rewrite Hnew. simpl. split; [congruence|done]. }
    split; [by apply Heq|]. intros j Hj. by apply Hu, Heq.
Qed.
(** A member who is not the owner may be removed or given another role. *)
Lemma tenancy_change_member w user m f :
  cu_members c !! (w, user) = Some m → mb_role m ≠ OWNER →
  (∀ r, f = Some r → r ≠ OWNER) →
  Tenancy (match f with
           | None => c <| cu_members ::= delete (w, user) |>
           | Some r => set_role w user r c
           end).
Proof.
  intros Hm Hr Hf.
  set (m' := match f with
             | None => delete (w, user) (cu_members c)
             | Some r => alter (λ x, x <| mb_role := r |>) (w, user) (cu_members c)
             end).
  assert (Tenancy (c <| cu_members := m' |>)) as HT'; [|by destruct f].
  assert (∀ k r, m' !! k = Some r → ∃ r0, cu_members c !! k = Some r0) as Hold.
  { intros k r. unfold m'. destruct f; [rewrite lookup_alter|rewrite lookup_delete];
      case_decide; subst; rewrite ?Hm; eauto; done. }
  apply tenancy_members.
  - intros w' j r Hj. destruct (Hold _ _ Hj) as [r0 Hr0]. by eapply tn_members.
  - intros w' Hs Hc. destruct (tn_owner _ HT w' Hs Hc) as (x & Hx & Hu). exists x.
    assert (∀ j, mb_role <$> m' !! (w', j) = Some OWNER ↔ member_role w' j c = Some OWNER) as Heq.
    { intros j. unfold member_role, m'. destruct f as [r|]; [rewrite lookup_alter|rewrite lookup_delete];
        case_decide as Hk; try done; injection Hk as <- <-; rewrite Hm; simpl.
      - split; [intros [= ->]; by destruct (Hf _ eq_refl)|congruence].
      - split; [done|congruence]. }
    split; [by apply Heq|]. intros j Hj. by apply Hu, Heq.
Qed.
(** Ownership moves from the owner to another member. *)
Lemma tenancy_transfer w actor heir :
  member_role w actor c = Some OWNER → is_Some (member_role w heir c) → heir ≠ actor →
  Tenancy (set_role w actor ADMIN (set_role w heir OWNER c)).
Proof.
  unfold member_role. intros (ma & Hma & Hra)%fmap_Some [r (mh & Hmh & _)%fmap_Some] Hne.
  set (m' := alter (λ x, x <| mb_role := ADMIN |>) (w, actor)
               (alter (λ x, x <| mb_role := OWNER |>) (w, heir) (cu_members c))).
  change (Tenancy (c <| cu_members := m' |>)).
  assert (∀ k, m' !! k = if decide (k = (w, actor)) then Some (ma <| mb_role := ADMIN |>)
                         else if decide (k = (w, heir)) then Some (mh <| mb_role := OWNER |>)
                         else cu_members c !! k) as Hl.
  { intros k. unfold m'. rewrite !lookup_alter. repeat case_decide; subst; simplify_eq; try done.
    - by rewrite Hma.
    - by rewrite Hmh. }
  destruct (tn_members _ HT _ _ _ Hma) as (Ho & Hc & Hpa).
  destruct (tn_members _ HT _ _ _ Hmh) as (_ & _ & Hph).
  apply tenancy_members.
  - intros w' j x. rewrite Hl. repeat case_decide; simplify_eq; try done. by apply tn_members.
  - intros w' Hs Hc'. destruct (tn_owner _ HT w' Hs Hc') as (x & Hx & Hu).
    destruct (decide (w' = w)) as [->|Hw].
    + exists heir. rewrite Hl. rewrite decide_False, decide_True by congruence. split; [done|].
      intros j. rewrite Hl. repeat case_decide; simplify_eq; try done. intros Hj.
      assert (actor = x) as <- by (apply Hu; unfold member_role; rewrite Hma; simpl; congruence).
      by apply Hu in Hj as ->.
    + exists x. rewrite Hl, !decide_False by congruence. split; [done|]. intros j.
      rewrite Hl, !decide_False by congruence. apply Hu.
Qed.
Lemma tenancy_new_invitation h i :
  assignable (in_role i) = true → present c (in_invited_by i) →
  (∀ j u, cu_users c !! j = Some u → us_email u = in_email i → gone u = false) →
  Tenancy (c <| cu_invitations ::= insert h i |>).
Proof.
  intros Ha Hp He. destruct HT as [T1 T2 T3 T4 T5 T6 T7 T8]. split; try done. simpl. intros h' i'.
  rewrite lookup_insert_Some. intros [[_ <-]|[_ Hi']]; [|by apply (T6 h')]. split; [done|]. intros _.
  split; [done|]. intros j u Hu Heq _. by eapply He.
Qed.
End membership.

Section workspace_operations.
Context `{Env, Secrets, Catalog, Vault, Stripe, RetentionJson, Smtp}.

#[export] Instance reads_lock_workspace w : Reads (lock_workspace w).
Proof. unfold lock_workspace. apply _. Qed.
#[export] Instance steady_seat_limit w : Respects (kept steady) (seat_limit w).
Proof. unfold seat_limit. apply _. Qed.
#[export] Instance upholds_create_workspace s user name : Respects upholds (create_workspace s user name).
Proof.
  unfold create_workspace. do 2 (apply respects_bind; [apply _..|intros ?]).
  apply respects_bind; [apply _| |intros; apply _]. apply upholds_committed. intros d HT.
  unfold insert_member. crun.
  apply wpd_steady; [apply _| |done..].
  refine (tenancy_new_workspace _ HT _ _ _ _ _ _ _); [done| |done]. by exists a1.
Qed.
(** What [_owner] establishes. *)
Lemma wpd_require_owner actor Q E d :
  (present (t_customers d) (pr_user_id actor) →
   member_role (pr_workspace_id actor) (pr_user_id actor) (t_customers d) = Some OWNER → Q () d) →
  (∀ e, E e d) → wpd (require_owner actor) Q E d.
Proof.
  intros HQ HE. unfold require_owner. do 4 cstep. do 2 cstep; [apply HE|]. do 2 cstep; [apply HE|].
  do 3 cstep; [apply HE|]. bool_norm.
  destruct (cu_users (t_customers d) !! pr_user_id actor) as [u|] eqn:Hu; [|done].
  apply HQ; [|done]. by exists u.
Qed.
(** What a message that was not suppressed says of its recipient. *)
Lemma suppressed_false user address kind c :
  (∀ i j u v, cu_users c !! i = Some u → cu_users c !! j = Some v → us_email u = us_email v → i = j) →
  suppressed user address kind c = false →
  present c user ∧ ∀ j u, cu_users c !! j = Some u → us_email u = address → gone u = false.
Proof.
  unfold suppressed. intros Hone. destruct (cu_users c !! user) as [source|] eqn:Hs; [|done].
  intros [[Hg _]%orb_false_iff Hr]%orb_false_iff. split; [by exists source|]. intros j u Hu He.
  destruct (user_by_email address c) as [[i v]|] eqn:Hv.
  - apply user_by_email_some in Hv as [Hv Hev].
    assert (j = i) as -> by (eapply Hone; try done; congruence). by simplify_eq.
  - exfalso. by eapply user_by_email_none.
Qed.
Lemma wpd_invitation_email user address subject body Q d :
  (∀ d', steady d' = steady d → suppressed user address "invitation" (t_customers d) = false → Q () d') →
  wpd (email_ user address "invitation" subject body) Q (λ _ _, True) d.
Proof.
  intros HQ. unfold email_. do 6 cstep; [done|]. do 2 cstep.
  destruct (suppressed _ _ _ _) eqn:Hs; [by cstep|]. crun. by apply HQ.
Qed.
(** A guard in front of an operation. *)
Lemma upholds_guard {A} b e msg (m : M World A) :
  (b = false → Respects upholds m) → Respects upholds (raise_if b e msg ;; m).
Proof. intros Hm d. destruct b; [|by apply Hm]. by apply wpd_bind, wpd_raise. Qed.
#[export] Instance upholds_invite s actor address role : Respects upholds (invite s actor address role).
Proof.
  unfold invite. apply upholds_guard. intros Ha%negb_false_iff.
  apply respects_bind; [apply _..|intros []]. apply upholds_committed. intros d HT. cstep.
  apply wpd_steady; [apply _|done| |done]. intros allowance d1 _ HT1. cstep.
  apply wpd_require_owner; [|done]. intros Hp _. unfold token_urlsafe. crun.
  apply wpd_invitation_email. intros d2 Hd2%steady_identity Hs. 
  apply wpd_steady; [apply _| |done..]. eapply tenancy_identity; [exact Hd2|].
  apply suppressed_false in Hs as [Hp2 He]; [|apply (tn_emails _ HT1)].
  refine (tenancy_new_invitation _ _ _ _ _ _ _); [|done..].
  apply tenancy_withdraw; [done|]. intros i. unfold withdraw. by case_match.
Qed.
(** The account a request authenticated: the row may have changed since, but
    not by erasure. *)
Definition still_account (c : Customers) (id : string) (user : UserRow) : Prop :=
  ∃ u, cu_users c !! id = Some u ∧ us_email u = us_email user ∧
       ∀ r, cu_deletions c !! id = Some r → dl_state r ≠ ERASED.
Lemma still_account_identity c c' id user :
  identity c' = identity c → still_account c id user → still_account c' id user.
Proof. unfold identity, still_account. intros [= -> _ _ _ _ _ -> _]. done. Qed.
Lemma wpd_accept_invitation s id user raw d :
  Tenancy (t_customers d) → still_account (t_customers d) id user →
  wpd (accept_invitation s id user raw) (λ _ d', Tenancy (t_customers d'))
    (λ _ d', Tenancy (t_customers d')) d.
Proof.
  intros HT Hacc. unfold accept_invitation. cstep.
  apply (wpd_kept steady); [apply _| |intros e d1 Hd1%steady_identity; by eapply tenancy_identity].
  intros [] d1 Hd1%steady_identity.
  assert (Tenancy (t_customers d1)) as HT1 by (by eapply tenancy_identity).
  apply (still_account_identity _ _ _ _ Hd1) in Hacc. crun.
  apply wpd_steady; [apply _|done| |done]. intros allowance d2 Hd2 HT2.
  apply (still_account_identity _ _ _ _ Hd2) in Hacc. unfold insert_member.
  crun. bool_norm.
  apply wpd_steady; [apply _| |intros [] d3 _ HT3; by crun|done].
  assert (a0 = a) as -> by (unfold identity in Hd2; congruence).
  destruct (tn_invitations _ HT2 _ _ H8) as [Ha Hi].
  destruct Hi as [_ Hi]; [by destruct (in_used_at a)|].
  destruct Hacc as (u & Hu & Heu & Hers).
  assert (gone u = false) as Hg by (eapply Hi; try done; congruence).
  unfold inviter_role in H11. destruct (cu_members (t_customers d2) !! _) as [m|] eqn:Hm in H11; [|done].
  refine (tenancy_use_invitation _ _ _ _).
  refine (tenancy_new_member _ HT2 _ _ _ _ Hm _ _ _ _); [by exists u|done|].
  simpl. intros Hr. by rewrite Hr in Ha.
Qed.
#[export] Instance upholds_change_member actor user role : Respects upholds (change_member actor user role).
Proof.
  unfold change_member. apply upholds_guard. intros Ha. apply upholds_committed. intros d HT. cstep.
  apply wpd_reads; [apply _| |done]. intros []. cstep. apply wpd_require_owner; [|done]. intros _ _.
  crun. apply wpd_steady; [apply _| |done..].
  match goal with Hm : member_role _ user _ = Some _ |- _ =>
    apply fmap_Some in Hm as (m & Hm & ->); rename Hm into Htarget end.
  bool_norm.
  assert (∀ r, role = Some r → r ≠ OWNER) as Hr.
  { intros r -> ->. done. }
  pose proof (tenancy_change_member _ HT _ _ _ role Htarget) as HT'. destruct role; by apply HT'.
Qed.
#[export] Instance upholds_transfer_ownership s actor password successor :
  Respects upholds (transfer_ownership s actor password successor).
Proof.
  unfold transfer_ownership. apply respects_bind; [apply _..|intros []].
  apply upholds_guard. intros Hne. bool_norm. apply upholds_committed. intros d HT. crun.
  apply wpd_reads; [apply _| |done]. intros valid. crun.
  apply wpd_reads; [apply _| |done]. intros []. cstep.
  unfold assert_workspace_open. crun. apply wpd_require_owner; [|done]. intros _ Ho. crun.
  apply wpd_steady; [apply _| |done..]. simpl. refine (tenancy_transfer _ HT _ _ _ Ho _ Hne).
  bool_norm. by destruct (member_role (pr_workspace_id actor) successor (t_customers d)).
Qed.
#[export] Instance upholds_export id user : Respects upholds (export id user).
Proof. unfold export. apply _. Qed.
#[export] Instance upholds_set_notifications user enabled : Respects upholds (set_notifications user enabled).
Proof.
  unfold set_notifications. apply respects_transaction; [apply _|].
  apply respects_bind; [apply _|by apply upholds_update_user|intros; apply _].
Qed.
End workspace_operations.
