(* ===== verification/Leaving.v ===== *)
(** * Closing accounts keeps the invariant

    An account closes its own workspaces, or is refused while another member
    remains; erasure then removes what is left of it. *)

From S2P Require Import Prelude Effects PyNum PyText Contracts Demo Eligibility Governance.
From S2P Require Import Market Signals CrossExam Universe Customers Schema Store StoreLogic StoreInv.
From S2P Require Import StoreOps Frames Budgets Calendar Security Product Accounts Workspaces Billing Checkout.
From S2P Require Import Offboarding Mailer Tenancy.
#[local] Open Scope Z_scope.

(** ** Closing workspaces *)

(** Invitations are at most more used than before. *)
Definition more_used (c0 c : Customers) : Prop :=
  ∀ h i, cu_invitations c !! h = Some i → ∃ i0, cu_invitations c0 !! h = Some i0 ∧
    in_role i = in_role i0 ∧ (in_used_at i0 = None ∨ in_used_at i = in_used_at i0) ∧
    in_invited_by i = in_invited_by i0 ∧ in_email i = in_email i0 ∧
    in_workspace_id i = in_workspace_id i0.
(** How far the closing of [user]'s workspaces has come since [c0]. *)
Record closing (user : string) (c0 c : Customers) : Prop := {
  cg_same : (cu_users c, cu_orgs c, cu_members c, cu_sessions c, cu_tokens c, cu_deletions c) =
            (cu_users c0, cu_orgs c0, cu_members c0, cu_sessions c0, cu_tokens c0, cu_deletions c0);
  cg_old : ∀ w, is_Some (cu_closures c0 !! w) → is_Some (cu_closures c !! w);
  cg_new : ∀ w, is_Some (cu_closures c !! w) → is_Some (cu_closures c0 !! w) ∨
    (member_role w user c0 = Some OWNER ∧ ∀ j, j ≠ user → cu_members c0 !! (w, j) = None);
  cg_used : more_used c0 c;
}.
Lemma more_used_refl c : more_used c c.
Proof. intros h i Hi. exists i. eauto 10. Qed.
Lemma more_used_trans c1 c2 c3 : more_used c1 c2 → more_used c2 c3 → more_used c1 c3.
Proof.
  intros H12 H23 h i Hi. destruct (H23 _ _ Hi) as (i2 & Hi2 & Hr & Hu & Hb & He & Hw).
  destruct (H12 _ _ Hi2) as (i1 & Hi1 & Hr1 & Hu1 & Hb1 & He1 & Hw1).
  exists i1. split; [done|]. split; [congruence|]. split; [|split_and!; congruence].
  destruct Hu1 as [Hu1|Hu1]; [by left|]. destruct Hu as [Hu|Hu]; [left|right]; congruence.
Qed.
Lemma more_used_same c1 c2 : cu_invitations c2 = cu_invitations c1 → more_used c1 c2.
Proof. intros Heq h i. rewrite Heq. apply more_used_refl. Qed.
Lemma use_invitations_more p now c : more_used c (use_invitations p now c).
Proof.
  intros h i. unfold use_invitations. simpl. rewrite lookup_fmap. intros (i0 & Hi0 & ->)%fmap_Some.
  exists i0. split; [done|]. destruct (p i0 && negb (is_set (in_used_at i0))) eqn:Hp; [|by eauto 10].
  simpl. split_and!; try done. left. apply andb_true_iff in Hp as [_ Hp]. by destruct (in_used_at i0).
Qed.
Lemma closing_refl user c : closing user c c.
Proof. split; eauto using more_used_refl. Qed.

Lemma other_roles_spec w user c j m u :
  cu_members c !! (w, j) = Some m → j ≠ user → cu_users c !! j = Some u → gone u = false →
  mb_role m ∈ other_roles w user c.
Proof.
  intros Hm Hj Hu Hg. unfold other_roles. apply list_elem_of_omap. exists ((w, j), m).
  split; [by apply elem_of_map_to_list|]. simpl.
  rewrite bool_decide_eq_true_2, bool_decide_eq_false_2 by done. simpl. rewrite Hu.
  unfold gone in Hg. by rewrite Hg.
Qed.
Lemma other_roles_nil w user c : Tenancy c → other_roles w user c = [] →
  ∀ j, j ≠ user → cu_members c !! (w, j) = None.
Proof.
  intros HT Hnil j Hj. destruct (cu_members c !! (w, j)) as [m|] eqn:Hm; [|done]. exfalso.
  destruct (tn_members _ HT _ _ _ Hm) as (_ & _ & u & Hu & Hg).
  pose proof (other_roles_spec w user c j m u Hm Hj Hu Hg) as Hin. rewrite Hnil in Hin.
  by apply not_elem_of_nil in Hin.
Qed.
Lemma other_roles_owner w user c : Tenancy c → OWNER ∈ other_roles w user c →
  member_role w user c ≠ Some OWNER.
Proof.
  intros HT Hin Hown. unfold other_roles in Hin. apply list_elem_of_omap in Hin as ([[w' j] m] & Hin & Hsel).
  apply elem_of_map_to_list in Hin. simpl in Hsel.
  destruct (bool_decide (w' = w)) eqn:Hw; [|done]. destruct (bool_decide (j = user)) eqn:Hj; [done|].
  bool_norm. subst w'. simpl in Hsel. repeat case_match; simplify_eq.
  destruct (tn_members _ HT _ _ _ Hin) as (Ho & Hc & _).
  destruct (tn_owner _ HT w Ho Hc) as (x & _ & Hu). apply Hj.
  rewrite (Hu user Hown). apply Hu. unfold member_role. rewrite Hin. simpl. congruence.
Qed.

Section closing_workspaces.
Context `{Env, Secrets, Catalog, Vault, Stripe, RetentionJson, Smtp, BracketedHosts}.

(** What closing reads and writes beside identity. *)
Lemma closing_identity user c0 c c' : identity c' = identity c → closing user c0 c → closing user c0 c'.
Proof.
  unfold identity. intros [= Hu Ho Hm Hs Ht Hi Hd Hc] [C1 C2 C3 C4]. split.
  - congruence.
  - by rewrite Hc.
  - by rewrite Hc.
  - intros h i. rewrite Hi. apply C4.
Qed.
Lemma wpd_close_workspace user now w c0 d :
  Tenancy c0 → closing user c0 (t_customers d) →
  wpd (close_workspace user now w)
    (λ _ d', closing user c0 (t_customers d') ∧
       (∀ x, is_Some (cu_closures (t_customers d) !! x) → is_Some (cu_closures (t_customers d') !! x)) ∧
       (member_role w user c0 = Some OWNER → is_Some (cu_closures (t_customers d') !! w)))
    (λ _ _, True) d.
Proof.
  intros HT0 Hcg. unfold close_workspace. cstep. apply (wpd_kept steady); [apply _| |done].
  intros sub d1 Hd1%steady_identity. pose proof (closing_identity _ _ _ _ Hd1 Hcg) as Hcg1.
  assert (cu_closures (t_customers d1) = cu_closures (t_customers d)) as Hcl
    by (unfold identity in Hd1; congruence). rewrite <- Hcl. clear Hd1 Hcl Hcg d.
  assert (∀ j, member_role w j (t_customers d1) = member_role w j c0) as Hrole.
  { intros j. unfold member_role. pose proof (cg_same _ _ _ Hcg1). by replace (cu_members (t_customers d1))
      with (cu_members c0) by congruence. }
  assert (other_roles w user (t_customers d1) = other_roles w user c0) as Hothers.
  { unfold other_roles. pose proof (cg_same _ _ _ Hcg1) as [= -> _ -> _ _ _]. done. }
  cstep. apply wpd_reads; [apply _| |done]. intros []. do 2 cstep. rewrite Hrole.
  destruct (negb _) eqn:Hown.
  { cstep. bool_norm. by split_and!. }
  bool_norm. do 2 cstep. rewrite Hothers. destruct (mem OWNER _) eqn:Hmem.
  { bool_norm. exfalso. by eapply other_roles_owner. }
  do 2 cstep; [done|]. bool_norm. crun.
  match goal with |- wpd (audit_event _ _ _ _) _ _ ?x => set (d3 := x) end.
  assert (closing user c0 (t_customers d3)) as Hcg3.
  { destruct Hcg1 as [C1 C2 C3 C4]. split.
    - done.
    - intros x Hx. simpl. rewrite lookup_insert. case_decide; [by eexists|]. by apply C2.
    - intros x. simpl. rewrite lookup_insert. case_decide as Hx; [|by apply C3]. subst x. intros _. right.
      split; [done|]. by apply other_roles_nil.
    - eapply more_used_trans; [exact C4|]. intros h i Hi.
      exact (use_invitations_more (λ i, bool_decide (in_workspace_id i = w)) now (t_customers d1) h i Hi). }
  apply (wpd_kept steady); [apply _| |done]. intros [] d4 Hd4%steady_identity.
  assert (cu_closures (t_customers d4) = cu_closures (t_customers d3)) as ->
    by (unfold identity in Hd4; congruence).
  split; [by eapply closing_identity|]. split.
  - intros x Hx. simpl. rewrite lookup_insert. by case_decide.
  - intros _. simpl. rewrite lookup_insert_eq. eauto.
Qed.
Lemma wpd_close_all user now l c0 d :
  Tenancy c0 → closing user c0 (t_customers d) →
  wpd (for_each l (close_workspace user now))
    (λ _ d', closing user c0 (t_customers d') ∧
       (∀ x, is_Some (cu_closures (t_customers d) !! x) → is_Some (cu_closures (t_customers d') !! x)) ∧
       (∀ w, w ∈ l → member_role w user c0 = Some OWNER → is_Some (cu_closures (t_customers d') !! w)))
    (λ _ _, True) d.
Proof.
  intros HT0. revert d. induction l as [|w l IH]; intros d Hcg; simpl.
  { cstep. split_and!; try done. intros w Hw. by apply not_elem_of_nil in Hw. }
  cstep. eapply wpd_mono; [by apply (wpd_close_workspace user now w c0)| |done]. simpl.
  intros [] d1 (Hcg1 & Hm1 & Hw1). eapply wpd_mono; [by apply IH| |done]. simpl.
  intros [] d2 (Hcg2 & Hm2 & Hl2). split; [done|]. split; [auto|].
  intros x [->|Hx]%elem_of_cons Hr; auto.
Qed.
End closing_workspaces.

(** ** An account leaves *)
Lemma elem_of_own_workspaces user c w : w ∈ own_workspaces user c ↔ is_Some (cu_members c !! (w, user)).
Proof.
  unfold own_workspaces. rewrite elem_of_sorted_strings, list_elem_of_omap. split.
  - intros ([[w' i] m] & Hin%elem_of_map_to_list & Hs). simpl in Hs. case_bool_decide; simplify_eq. eauto.
  - intros [m Hm]. exists ((w, user), m). split; [by apply elem_of_map_to_list|].
    simpl. by rewrite bool_decide_eq_true_2.
Qed.
Lemma delete_where_Some `{Countable K} {V} (p : K → V → bool) (m : gmap K V) k v :
  delete_where p m !! k = Some v ↔ m !! k = Some v ∧ p k v = false.
Proof. unfold delete_where. by rewrite map_lookup_filter_Some. Qed.
Lemma fmap_row {V} (f : V → V) (m : gmap string V) h v :
  (f <$> m) !! h = Some v → ∃ v0, m !! h = Some v0 ∧ v = f v0.
Proof. rewrite lookup_fmap. intros (v0 & Hv0 & ->)%fmap_Some. eauto. Qed.

Section leave.
Context `{Secrets} (c0 c1 : Customers) (user : string) (u : UserRow) (now : Z) (hash : string).
Context (r : DeletionRow) (HT : Tenancy c0) (Hcg : closing user c0 c1).
Context (Hclosed : ∀ w, member_role w user c0 = Some OWNER → is_Some (cu_closures c1 !! w)).
Context (Hu : cu_users c0 !! user = Some u).
Definition departed : Customers :=
  (leave user hash (us_email u) now c1) <| cu_deletions ::= insert user r |>.

Lemma departed_users i v : cu_users departed !! i = Some v →
  ∃ v0, cu_users c0 !! i = Some v0 ∧ us_email v = us_email v0 ∧ gone v = bool_decide (i = user) || gone v0.
Proof.
  unfold departed. simpl. pose proof (cg_same _ _ _ Hcg) as [= -> _ _ _ _ _]. rewrite lookup_alter.
  case_decide; [subst|].
  - intros (v0 & Hv0 & ->)%fmap_Some. exists v0. by rewrite bool_decide_eq_true_2.
  - intros Hv. exists v. by rewrite bool_decide_eq_false_2.
Qed.
Lemma departed_present i : present c0 i → i ≠ user → present departed i.
Proof.
  intros (v & Hv & Hg) Hi. exists v. split; [|done]. unfold departed. simpl.
  pose proof (cg_same _ _ _ Hcg) as [= -> _ _ _ _ _]. by rewrite lookup_alter_ne.
Qed.
Lemma departed_members w i m : cu_members departed !! (w, i) = Some m ↔
  cu_members c0 !! (w, i) = Some m ∧ i ≠ user.
Proof.
  unfold departed. simpl. pose proof (cg_same _ _ _ Hcg) as [= _ _ -> _ _ _].
  rewrite delete_where_Some. simpl. by rewrite bool_decide_eq_false.
Qed.
Lemma departed_invitation h i : cu_invitations departed !! h = Some i →
  ∃ i0, cu_invitations c0 !! h = Some i0 ∧ in_role i = in_role i0 ∧ in_invited_by i = in_invited_by i0 ∧
    in_email i = in_email i0 ∧
    (in_used_at i = None → in_used_at i0 = None ∧ in_invited_by i0 ≠ user ∧ in_email i0 ≠ us_email u).
Proof.
  unfold departed. simpl. intros (i1 & Hi1 & ->)%fmap_row.
  destruct (cg_used _ _ _ Hcg _ _ Hi1) as (i0 & Hi0 & Hro & Hus & Hby & Hem & _). exists i0.
  split; [done|]. destruct (_ && _) eqn:Hp; simpl.
  - split_and!; done.
  - split_and!; try done. intros Hn. rewrite Hn in Hp. simpl in Hp. rewrite andb_true_r in Hp.
    apply orb_false_iff in Hp as [Hp1 Hp2]. bool_norm. split_and!; try congruence.
    destruct Hus as [Hus|Hus]; congruence.
Qed.
Lemma tenancy_departed : Tenancy departed.
Proof.
  pose proof (cg_same _ _ _ Hcg) as Hsame. destruct HT as [T1 T2 T3 T4 T5 T6 T7 T8].
  assert (∀ w i m, cu_members c0 !! (w, i) = Some m → i ≠ user → cu_closures c1 !! w = None) as Hopen.
  { intros w i m Hm Hi. apply eq_None_not_Some. intros Hs.
    destruct (cg_new _ _ _ Hcg _ Hs) as [Hs0|[_ Hno]].
    - destruct (T2 _ _ _ Hm) as (_ & Hc & _). rewrite Hc in Hs0. by destruct Hs0.
    - by rewrite (Hno i Hi) in Hm. }
  split.
  - intros i j v1 v2 H1%departed_users H2%departed_users Heq.
    destruct H1 as (a & Ha & Hea & _), H2 as (b & Hb & Heb & _). eapply T1; try done. congruence.
  - intros w i m [Hm Hi]%departed_members. destruct (T2 _ _ _ Hm) as (Ho & _ & Hp).
    split_and!; [|by eapply Hopen|by apply departed_present]. unfold departed. simpl.
    by replace (cu_orgs c1) with (cu_orgs c0) by congruence.
  - intros w Ho Hc. unfold departed in Ho, Hc. simpl in Ho, Hc.
    replace (cu_orgs c1) with (cu_orgs c0) in Ho by congruence.
    assert (cu_closures c0 !! w = None) as Hc0.
    { apply eq_None_not_Some. intros Hs. apply (cg_old _ _ _ Hcg) in Hs. rewrite Hc in Hs. by destruct Hs. }
    destruct (T3 w Ho Hc0) as (x & Hx & Hone). unfold member_role in *.
    apply fmap_Some in Hx as (m & Hm & Hrole). exists x. split.
    + assert (cu_members departed !! (w, x) = Some m) as ->; [|simpl; congruence].
      apply departed_members. split; [done|]. intros ->.
      destruct (Hclosed w) as [k Hk]; [by rewrite Hm, Hrole|congruence].
    + intros j (mj & [Hmj Hj]%departed_members & Hrj)%fmap_Some. apply Hone. rewrite Hmj. simpl. congruence.
  - intros h s. unfold departed. simpl. intros (s0 & Hs0 & ->)%fmap_row.
    replace (cu_sessions c1) with (cu_sessions c0) in Hs0 by congruence.
    case_bool_decide as Hi; [done|]. intros Hn. apply departed_present; [by eapply T4|done].
  - intros h t. unfold departed. simpl. intros (t0 & Ht0 & ->)%fmap_row.
    replace (cu_tokens c1) with (cu_tokens c0) in Ht0 by congruence.
    case_bool_decide as Hi; [done|]. intros Hn. apply departed_present; [by eapply T5|done].
  - intros h i (i0 & Hi0 & -> & -> & -> & Hn)%departed_invitation. destruct (T6 _ _ Hi0) as [Ha Hp].
    split; [done|]. intros (Hn0 & Hby & Hem)%Hn. destruct (Hp Hn0) as [Hp1 Hp2].
    split; [by apply departed_present|]. intros j v Hv Heq Hdel.
    destruct (departed_users _ _ Hv) as (v0 & Hv0 & Hev & ->).
    assert (j ≠ user) as Hj by (intros ->; simplify_eq; congruence).
    rewrite bool_decide_eq_false_2 by done. simpl. eapply Hp2; [done|congruence|].
    intros x Hx. apply Hdel. unfold departed. simpl.
    rewrite lookup_insert_ne by done. by replace (cu_deletions c1) with (cu_deletions c0) by congruence.
  - intros i. unfold departed, leaving. simpl. injection Hsame as Eu Eo Em Es Et Ed. rewrite Ed, Eu.
    specialize (T7 i). unfold leaving in T7.
    destruct (decide (i = user)) as [->|Hi].
    + rewrite lookup_insert_eq, lookup_alter_eq, Hu. done.
    + by rewrite lookup_insert_ne, lookup_alter_ne.
  - intros w. unfold departed. simpl. intros Hs. replace (cu_orgs c1) with (cu_orgs c0) by congruence.
    destruct (cg_new _ _ _ Hcg _ Hs) as [Hs0|[Hown _]]; [by apply T8|].
    unfold member_role in Hown. apply fmap_Some in Hown as (m & Hm & _). by apply (T2 _ _ _ Hm).
Qed.
End leave.

Section leaving.
Context `{Env, Secrets, Catalog, Vault, Stripe, RetentionJson, Smtp, BracketedHosts}.

Lemma wpd_begin_deletion user current d :
  Tenancy (t_customers d) → cu_users (t_customers d) !! user = Some current →
  wpd (begin_deletion user current) (λ _ d', Tenancy (t_customers d')) (λ _ _, True) d.
Proof.
  intros HT Hu. unfold begin_deletion. do 4 cstep. do 2 cstep; [done|]. cstep.
  eapply wpd_mono; [by apply (wpd_close_all user t _ (t_customers d)); [|apply closing_refl]| |done].
  simpl. intros [] d1 (Hcg & _ & Hclosed). crun.
  apply wpd_steady; [apply _| |done..].
  refine (tenancy_departed _ (t_customers d1) user current t _ _ HT Hcg _ Hu).
  intros w Hw. apply Hclosed; [|done]. apply elem_of_own_workspaces.
  unfold member_role in Hw. apply fmap_Some in Hw as (m & Hm & _). eauto.
Qed.
#[export] Instance upholds_request_deletion s id user password :
  Respects upholds (request_deletion s id user password).
Proof.
  unfold request_deletion. repeat (apply respects_bind; [apply _..|intros ?]).
  apply upholds_committed. intros d HT. crun. by apply wpd_begin_deletion.
Qed.
End leaving.

(** ** Erasure *)
Section erasure.
Context `{Secrets} (c : Customers) (user : string) (u : UserRow) (workspaces : list string).
Context (r : DeletionRow) (HT : Tenancy c) (Hu : cu_users c !! user = Some u) (Hg : gone u = true).
Context (Hfree : ∀ i v, cu_users c !! i = Some v → us_email v = erased_address user → i = user).
Context (Hr : dl_state r = ERASED).
Definition erased : Customers := (erase user u workspaces c) <| cu_deletions ::= insert user r |>.

Lemma erased_not_present i : present c i → i ≠ user.
Proof. intros (v & Hv & Hgv) ->. simplify_eq. congruence. Qed.
Lemma erased_present i : present c i → present erased i.
Proof.
  intros Hp. pose proof (erased_not_present _ Hp) as Hi. destruct Hp as (v & Hv & Hgv). exists v.
  split; [|done]. unfold erased. simpl. by rewrite lookup_insert_ne.
Qed.
Lemma erased_members w i : cu_members erased !! (w, i) = cu_members c !! (w, i).
Proof.
  apply option_eq. intros m. unfold erased. simpl. rewrite delete_where_Some. simpl.
  rewrite bool_decide_eq_false. split; [by intros [? _]|]. intros Hm. split; [done|].
  apply erased_not_present. by apply (tn_members _ HT _ _ _ Hm).
Qed.
Lemma erased_orgs w : is_Some (cu_orgs erased !! w) ↔ is_Some (cu_orgs c !! w).
Proof. unfold erased. simpl. rewrite map_lookup_imap. by destruct (cu_orgs c !! w); simpl; split; intros []; eauto. Qed.
Lemma tenancy_erased : Tenancy erased.
Proof.
  destruct HT as [T1 T2 T3 T4 T5 T6 T7 T8]. split.
  - intros i j v1 v2. unfold erased. simpl. rewrite !lookup_insert_Some.
    intros [[<- <-]|[Hi H1]] [[<- <-]|[Hj H2]] Heq; simpl in *; try done.
    + symmetry. by eapply Hfree.
    + by eapply Hfree.
    + by eapply T1.
  - intros w i m. rewrite erased_members. intros Hm. destruct (T2 _ _ _ Hm) as (Ho & Hc & Hp).
    split_and!; [by apply erased_orgs|done|by apply erased_present].
  - intros w Ho Hc. apply erased_orgs in Ho. destruct (T3 w Ho Hc) as (x & Hx & Hone).
    unfold member_role in *. exists x. rewrite erased_members. split; [done|]. intros j.
    rewrite erased_members. apply Hone.
  - intros h s. unfold erased. simpl. intros [Hs _]%delete_where_Some Hn. apply erased_present. by eapply T4.
  - intros h t. unfold erased. simpl. intros [Ht _]%delete_where_Some Hn. apply erased_present. by eapply T5.
  - intros h i. unfold erased. simpl. intros [Hi _]%delete_where_Some. destruct (T6 _ _ Hi) as [Ha Hp].
    split; [done|]. intros [Hp1 Hp2]%Hp. split; [by apply erased_present|].
    intros j v. rewrite lookup_insert_Some. intros [[<- <-]|[Hj Hv]] Heq Hdel.
    + destruct (Hdel r); [by rewrite lookup_insert_eq|done].
    + eapply Hp2; try done. intros x Hx. apply Hdel. by rewrite lookup_insert_ne.
  - intros i. unfold erased, leaving. simpl. specialize (T7 i). unfold leaving in T7.
    destruct (decide (i = user)) as [->|Hi].
    + rewrite !lookup_insert_eq. simpl. exact (eq_sym Hg).
    + by rewrite !lookup_insert_ne.
  - intros w Hs. apply erased_orgs. by apply T8.
Qed.
End erasure.

Section offboarding.
Context `{Env, Secrets, Catalog, Vault, Stripe, RetentionJson, Smtp, BracketedHosts}.

#[export] Instance reads_policy_digest p : Reads (policy_digest p).
Proof. unfold policy_digest. apply _. Qed.
#[export] Instance reads_locked_request user : Reads (locked_request user).
Proof. unfold locked_request. apply _. Qed.
Lemma reads_for_each {A} (l : list A) (f : A → M World ()) : (∀ x, Reads (f x)) → Reads (for_each l f).
Proof. intros Hf. induction l as [|x l IH]; simpl; apply _. Qed.
#[export] Instance reads_require_closed_billing l : Reads (require_closed_billing l).
Proof. unfold require_closed_billing. apply reads_for_each. intros x. unfold require_closed. apply _. Qed.
(** What [_locked_request] returns. *)
Lemma wpd_locked_request user Q E d :
  (∀ u r, cu_users (t_customers d) !! user = Some u → cu_deletions (t_customers d) !! user = Some r →
     Q (u, r, closures_of user (t_customers d)) d) →
  (∀ e, E e d) → wpd (locked_request user) Q E d.
Proof. intros HQ HE. unfold locked_request. crun; by auto. Qed.
#[export] Instance upholds_fulfil_request user p : Respects upholds (fulfil_request user p).
Proof.
  unfold fulfil_request. apply respects_bind; [apply _..|intros digest]. apply upholds_committed.
  intros d HT. cstep. apply wpd_locked_request; [|done]. intros u r Hu Hr. simpl.
  case_bool_decide; [by cstep|]. crun. apply wpd_reads; [apply _| |done]. intros []. crun.
  apply wpd_steady; [apply _| |intros [] d2 _ HT2; by cstep|done].
  refine (tenancy_erased _ _ _ _ _ HT Hu _ _ _); [..|done].
  - pose proof (tn_deletions _ HT user) as Hd. rewrite Hr in Hd. unfold leaving in Hd. by rewrite Hu in Hd.
  - intros i v Hv He.
    match goal with Ht : match user_by_email _ _ with _ => _ end = false |- _ => rename Ht into Htaken end.
    destruct (user_by_email (erased_address user) (t_customers d)) as [[j w]|] eqn:Hj.
    + apply user_by_email_some in Hj as [Hj Hej]. bool_norm. subst j.
      eapply tn_emails; [done|exact Hv|exact Hj|congruence].
    + exfalso. by eapply user_by_email_none.
Qed.
(** The rest changes closures, reviews and messages only. *)
Lemma tenancy_closures c m :
  Tenancy c → (∀ w, is_Some (m !! w) ↔ is_Some (cu_closures c !! w)) → Tenancy (c <| cu_closures := m |>).
Proof.
  intros [T1 T2 T3 T4 T5 T6 T7 T8] Hm.
  assert (∀ w, m !! w = None ↔ cu_closures c !! w = None) as Hn
    by (intros w; by rewrite !eq_None_not_Some, Hm).
  split; try done; simpl.
  - intros w i x Hx. destruct (T2 _ _ _ Hx) as (Ho & Hc & Hp). split_and!; try done. by apply Hn.
  - intros w Ho Hc. apply T3; [done|]. by apply Hn.
  - intros w Hs. by apply T8, Hm.
Qed.
Lemma tenancy_closure_row c w k k' : Tenancy c → cu_closures c !! w = Some k →
  Tenancy (c <| cu_closures ::= insert w k' |>).
Proof.
  intros HT Hk. apply tenancy_closures; [done|]. intros x. rewrite lookup_insert. case_decide; [|done].
  subst. rewrite Hk. split; eauto.
Qed.
Lemma tenancy_deletion_row c i k k' : Tenancy c → cu_deletions c !! i = Some k →
  (dl_state k = ERASED → dl_state k' = ERASED) → Tenancy (c <| cu_deletions ::= insert i k' |>).
Proof.
  intros [T1 T2 T3 T4 T5 T6 T7 T8] Hk Hst. split; try done; simpl.
  - intros h x Hx. destruct (T6 _ _ Hx) as [Ha Hp]. split; [done|]. intros [Hp1 Hp2]%Hp.
    split; [done|]. intros j v Hv He Hd. eapply Hp2; try done. intros y Hy.
    destruct (decide (j = i)) as [->|Hj].
    + simplify_eq. intros Hers. apply (Hd k'); [by rewrite lookup_insert_eq|by apply Hst].
    + apply Hd. by rewrite lookup_insert_ne.
  - intros j. rewrite lookup_insert. case_decide; [subst|apply T7]. transitivity (leaving c j); [|done].
    by rewrite <- T7, Hk.
Qed.
#[export] Instance upholds_review_billing_closure w reviewer provider retry :
  Respects upholds (review_billing_closure w reviewer provider retry).
Proof.
  unfold review_billing_closure. apply respects_bind; [apply _..|intros ?]. apply upholds_committed.
  intros d HT. crun; (apply wpd_steady; [apply _| |done..]); by eapply tenancy_closure_row.
Qed.
#[export] Instance upholds_review_request user p reviewer b1 b2 :
  Respects upholds (review_request user p reviewer b1 b2).
Proof.
  unfold review_request. do 2 (apply respects_bind; [apply _..|intros ?]). apply upholds_committed.
  intros d HT. cstep. apply wpd_locked_request; [|done]. intros u r Hu Hr. simpl.
  case_bool_decide as Hers; [by cstep|]. cstep. apply wpd_reads; [apply _| |done]. intros []. crun.
  apply wpd_steady; [apply _| |done..]. apply tenancy_closures.
  - by eapply tenancy_deletion_row.
  - intros w. simpl. by rewrite lookup_fmap, fmap_is_Some.
Qed.
End offboarding.

(** ** Operations that leave identity alone *)
#[export] Hint Opaque alter_subscription owned_subscription checkout_customer billing_portal
  checkout_prepare checkout_finish checkout : typeclass_instances.
#[export] Instance identity_steady {A} (m : M World A) :
  Respects (kept steady) m → Respects (kept (sees identity)) m | 45.
Proof. intros Hm d. eapply wpd_mono; [apply Hm|intros ? ? ?%steady_identity; done..]. Qed.

Section commerce.
Context `{Env, Secrets, Catalog, Vault, Stripe, RetentionJson, Smtp, BracketedHosts}.

#[export] Instance reads_request s method path data key : Reads (request s method path data key).
Proof. unfold request. apply _. Qed.
#[export] Instance steady_provider_closure s w sub r now : Respects (kept steady) (provider_closure s w sub r now).
Proof. unfold provider_closure, check_stripe_identity, put_customers. apply _. Qed.
#[export] Instance upholds_close_billing_once s : Respects upholds (close_billing_once s).
Proof.
  unfold close_billing_once. apply upholds_committed. intros d HT. do 4 cstep.
  destruct (min_by _ _) as [[w k]|]; [|by cstep]. do 4 cstep. case_match; [by cstep|].
  do 4 cstep. case_match; [by cstep|]. do 6 cstep.
  destruct (cu_closures (t_customers d) !! w) as [r|] eqn:Hr; simpl; [|by cstep].
  destruct (closable _ r && _); [|by cstep]. do 3 cstep.
  apply (wpd_kept steady); [apply _| |done]. intros outcome d1 Hd1%steady_identity.
  assert (cu_closures (t_customers d1) !! w = Some r) as Hr1 by (unfold identity in Hd1; congruence).
  apply (tenancy_identity _ _ Hd1) in HT. do 2 cstep. cstep.
  apply wpd_steady; [apply _| |intros [] d2 _ HT2; by cstep|done]. by eapply tenancy_closure_row.
Qed.
#[export] Instance steady_backfill n : Respects (kept steady) (backfill_email_recipients n).
Proof. unfold backfill_email_recipients, put_customers. apply _. Qed.
#[export] Instance steady_claim_email : Respects (kept steady) claim_email.
Proof. unfold claim_email, put_customers. apply _. Qed.
#[export] Instance steady_finish_email id e f : Respects (kept steady) (finish_email id e f).
Proof. unfold finish_email, put_customers. apply _. Qed.
#[export] Instance identity_put_billing id e : Respects (kept (sees identity)) (put_billing id e).
Proof. unfold put_billing, put_customers. apply _. Qed.
#[export] Instance steady_notify_subscription a w st : Respects (kept steady) (notify_subscription a w st).
Proof. unfold notify_subscription. apply _. Qed.
#[export] Instance identity_attempt_failed id : Respects (kept (sees identity)) (attempt_failed id).
Proof. unfold attempt_failed. apply _. Qed.
#[export] Instance identity_reconcile_event s a id e : Respects (kept (sees identity)) (reconcile_event s a id e).
Proof. unfold reconcile_event, put_customers. apply _. Qed.
#[export] Instance identity_reconcile_once s a : Respects (kept (sees identity)) (reconcile_once s a).
Proof. unfold reconcile_once. apply _. Qed.
#[export] Instance reads_authenticate_event s raw signature : Reads (authenticate_event s raw signature).
Proof. unfold authenticate_event. cbv zeta. apply _. Qed.
#[export] Instance identity_webhook s raw signature : Respects (kept (sees identity)) (webhook s raw signature).
Proof. unfold webhook, insert_customer. apply _. Qed.
#[export] Instance steady_notify_research a : Respects (kept steady) (notify_research_once a).
Proof. unfold notify_research_once. apply _. Qed.
#[export] Instance reads_user_usage u : Reads (user_usage u).
Proof. unfold user_usage. apply _. Qed.
#[export] Instance steady_summary s actor : Respects (kept steady) (summary s actor).
Proof. unfold summary. apply _. Qed.
#[export] Instance identity_watch actor ticker remove : Respects (kept (sees identity)) (watch actor ticker remove).
Proof. unfold watch, put_customers, insert_customer. apply _. Qed.
#[export] Instance identity_mark_read actor id : Respects (kept (sees identity)) (mark_read actor id).
Proof. unfold mark_read, insert_customer. apply _. Qed.
#[export] Instance steady_record_event h actor name r : Respects (kept steady) (record_event h actor name r).
Proof. unfold record_event. apply _. Qed.
#[export] Instance identity_set_preferences actor m b : Respects (kept (sees identity)) (set_preferences actor m b).
Proof. unfold set_preferences, put_customers. apply _. Qed.
#[export] Instance steady_alter_subscription w f : Respects (kept steady) (alter_subscription w f).
Proof. unfold alter_subscription, put_customers. apply _. Qed.
#[export] Instance steady_owned_subscription actor : Respects (kept steady) (owned_subscription actor).
Proof. unfold owned_subscription, assert_workspace_open, require_current_role. apply _. Qed.
#[export] Instance steady_checkout_customer s actor : Respects (kept steady) (checkout_customer s actor).
Proof. unfold checkout_customer. apply _. Qed.
#[export] Instance steady_checkout_prepare s actor plan price customer key :
  Respects (kept steady) (checkout_prepare s actor plan price customer key).
Proof. unfold checkout_prepare. apply _. Qed.
#[export] Instance steady_checkout_finish actor plan url r :
  Respects (kept steady) (checkout_finish actor plan url r).
Proof. unfold checkout_finish. apply _. Qed.
#[export] Instance steady_billing_portal s actor customer key :
  Respects (kept steady) (billing_portal s actor customer key).
Proof. unfold billing_portal. apply _. Qed.
#[export] Instance steady_checkout h s actor plan key portal :
  Respects (kept steady) (checkout h s actor plan key portal).
Proof. unfold checkout. apply _. Qed.
End commerce.
