(* ===== verification/Circuit.v ===== *)
(** * Provider circuits ([src/money/data/resilience.py])

    A database-coordinated circuit breaker. [ProviderCircuit.call] is two
    transactions around the provider's operation: [enter] admits the call and
    returns the generation it belongs to, [record_result] accounts for its
    result. A result of an earlier generation only counts. *)

From S2P Require Import Prelude Effects PyNum PyText Contracts Demo Eligibility Governance.
From S2P Require Import Market Signals CrossExam Universe Schema Store Complete StoreLogic.
From S2P Require Import StoreInv StoreOps Frames Metering.
#[local] Open Scope Z_scope.

Record Circuit := mkCircuit { ct_threshold : Z; ct_cooldown : Z }.
Definition new_circuit (threshold cooldown_seconds : Z) : Res Circuit :=
  reject (negb ((1 <=? threshold) && (threshold <=? 10)) ||
          negb ((10 <=? cooldown_seconds) && (cooldown_seconds <=? 600))) ValueError
    "invalid circuit limits" ;;
  mret (mkCircuit threshold cooldown_seconds).

(** [text.partition(":")], without the separator. *)
Fixpoint partition_colon (s : string) : string * string :=
  match s with
  | EmptyString => (EmptyString, EmptyString)
  | String c t =>
      if bool_decide (c = ":"%char) then (EmptyString, t)
      else let '(a, b) := partition_colon t in (String c a, b)
  end.

Section circuit.
Context `{ContentHash, Pydantic, PolicyHash, TaLib, SignalPolicyHash, CrossHash, UniverseHash}.
Context `{Env, Digests, CallHash}.

Definition put_provider (provider : string) (p : ProviderState) : M World () :=
  execute (λ d, d <| t_providers ::= insert provider p |>).
(** The admission transaction of [call]; the generation the call runs under. *)
Definition enter (c : Circuit) (provider : string) : M World Z :=
  now ← now_utc;
  transaction (
    row ← select (λ d, t_providers d !! provider);
    match row with
    | None =>
        insert_unique t_providers provider (λ d, d <| t_providers ::=
          insert provider (mkProvider 0 None 0 0 None None 0 now) |>) ;;
        mret 0
    | Some p =>
        match ps_open_until p with
        | Some until =>
            raise_if (now <? until) ProviderFailure "PROVIDER_CIRCUIT_OPEN" ;;
            let generation := ps_generation p + 1 in
            put_provider provider
              (p <| ps_open_until := Some (now + seconds (ct_cooldown c)) |>
                 <| ps_generation := generation |>) ;;
            mret generation
        | None => mret (ps_generation p)
        end
    end).
(** The row [_record] writes at [now]. *)
Definition recorded (c : Circuit) (now : Z) (success : bool) (duration : spec_float)
    (generation : Z) (p : ProviderState) : ProviderState :=
  let current := ps_generation p =? generation in
  let failures :=
    if current then (if success then 0 else ps_failures p + 1) else ps_failures p in
  let open_until :=
    if current
    then (if ct_threshold c <=? failures then Some (now + seconds (ct_cooldown c)) else None)
    else ps_open_until p in
  let generation' :=
    if current && (is_set open_until || is_set (ps_open_until p))
    then ps_generation p + 1 else ps_generation p in
  mkProvider failures open_until (ps_calls p + 1)
    (ps_total_failures p + (if success then 0 else 1)) (Some duration) (Some success) generation'
    now.
(** [_record] *)
Definition record_result (c : Circuit) (provider : string) (success : bool)
    (duration : spec_float) (generation : Z) : M World () :=
  now ← now_utc;
  transaction (
    row ← select (λ d, t_providers d !! provider);
    p ← expect row NoResultFound "No row was found when one was required";
    put_provider provider (recorded c now success duration generation p)).

(** The provider's operation, metered when the handle holds a claim. *)
Definition provider_operation {T} (h : Handle) (provider : string)
    (operation : M World (Metered T)) : M World T :=
  match h_claim h with
  | Some claim =>
      let '(name, dataset) := partition_colon provider in
      invoke h (c_job_id claim) (if truthy dataset then dataset else "fetch") name None operation
        None PROVIDER_OPERATION
  | None =>
      outcome ← operation;
      match outcome.2 with inr a => mret a | inl e => throw e end
  end.
(** [ProviderCircuit.call] *)
Definition circuit_call {T} (h : Handle) (c : Circuit) (provider : string)
    (operation : M World (Metered T)) : M World T :=
  generation ← enter c provider;
  started ← monotonic;
  result ← catch (λ _, true) (provider_operation h provider operation)
    (λ e, stop ← monotonic;
          record_result c provider false (fsub stop started) generation ;;
          throw e);
  stop ← monotonic;
  record_result c provider true (fsub stop started) generation ;;
  mret result.
End circuit.
