(* ===== verification/Alerts.v ===== *)
(** * Alert outbox ([src/money/alerts/delivery.py])

    Informational notifications with durable, idempotent delivery. [deliver_one]
    is two transactions around the provider's call: [claim_alert] takes a row
    under a delivery token and lease, [finish_alert] stores the result only
    while that token still owns the row. *)

From S2P Require Import Prelude Effects PyNum PyText Contracts Demo Eligibility Governance.
From S2P Require Import Market Signals CrossExam Universe Schema Store Complete StoreLogic.
From S2P Require Import StoreInv StoreOps Frames.
#[local] Open Scope Z_scope.

Definition MESSAGES : list (string * string) :=
  [("RESEARCH_COMPLETED", "Research is complete and available for human review.");
   ("STATE_CHANGED", "The research state has changed; review the recorded evidence.");
   ("SIGNAL_EXPIRED", "The research setup has expired.");
   ("MATERIAL_INVALIDATION", "New evidence has invalidated a research assumption.")].
Definition message_of (event : string) : option string :=
  snd <$> List.find (λ kv, bool_decide (kv.1 = event)) MESSAGES.

(** The document a provider receives: the payload without its delivery keys. *)
Record AlertMessage := mkMessage { am_event : string; am_message : string; am_research_id : string }.
Record AlertProvider := mkAlertProvider {
  ap_supports_idempotency : bool;
  ap_deliver : AlertMessage → string → M World ()
}.
(** What the first transaction of [deliver_one] decided. *)
Inductive Delivery :=
  | Nothing_due
  | Settled
  | Taken (alert_id token : string) (message : AlertMessage) (provider : option AlertProvider).

Definition due_states : list AlertState := [PENDING; RETRY; DELIVERING].
Definition alert_scope (h : Handle) (r : OutboxRow) : bool :=
  match h_workspace h with
  | Some w => if truthy w then bool_decide (ob_workspace_id r = w) else true
  | None => true
  end.
(** A row that is not being delivered, or whose delivery lease has passed. *)
Definition takeable (stamp : Z) (r : OutboxRow) : bool :=
  negb (bool_decide (ob_state r = DELIVERING)) || null_le (ob_delivery_lease_until r) stamp.
Definition next_alert (h : Handle) (locked : string → bool) (stamp : Z) (d : DB)
    : option (string * OutboxRow) :=
  List.find (λ ir, takeable stamp ir.2)
    (take 100 (sort_asc (λ ir, ob_created_at ir.2)
      (List.filter (λ ir, mem (ob_state ir.2) due_states && alert_scope h ir.2 && negb (locked ir.1))
         (map_to_list (t_outbox d))))).

Section alerts.
Context `{ContentHash, Pydantic, PolicyHash, TaLib, SignalPolicyHash, CrossHash, UniverseHash}.
Context `{Env, Digests}.

Definition put_outbox (id : string) (r : OutboxRow) : M World () :=
  execute (λ d, d <| t_outbox ::= insert id r |>).
(** [AlertOutbox.enqueue] *)
Definition enqueue_alert (h : Handle) (job_id event event_key : string) (channel : AlertChannel)
    : M World string :=
  view ← get_job h job_id;
  match view, message_of event with
  | Some v, Some message =>
      raise_if (negb (truthy event_key) || (200 <? slen event_key)) StoreError
        "Alert requires an accessible research event" ;;
      raise_if (bool_decide (event = "RESEARCH_COMPLETED") &&
                negb (mem (j_status (v_job v)) [COMPLETE; REJECTED])) StoreError
        "Completion alert requires completed research" ;;
      let alert_id := digest_alert job_id event event_key channel in
      transaction (
        present ← select (λ d, is_set (t_outbox d !! alert_id) && truthy alert_id);
        if (present : bool) then mret alert_id else
        t1 ← now_utc;
        t2 ← now_utc;
        insert_unique t_outbox alert_id (λ d, d <| t_outbox ::= insert alert_id
          (mkOutbox job_id (j_workspace_id (v_job v)) channel
             (if bool_decide (channel = web) then DELIVERED else PENDING) 0 event message None None
             t1 (if bool_decide (channel = web) then Some t2 else None)) |>) ;;
        mret alert_id)
  | _, _ => raise StoreError "Alert requires an accessible research event"
  end.

(** The first transaction of [deliver_one]. *)
Definition claim_alert (h : Handle) (providers : AlertChannel → option AlertProvider)
    : M World Delivery :=
  stamp ← now_utc;
  transaction (
    locked ← skip_locked;
    row ← select (next_alert h locked stamp);
    match row with
    | None => mret Nothing_due
    | Some (id, r) =>
        let provider := providers (ob_channel r) in
        if negb (bool_decide (ob_channel r = web)) &&
           match provider with Some p => negb (ap_supports_idempotency p) | None => true end
        then put_outbox id (r <| ob_state := BLOCKED_CONFIGURATION |>) ;; mret Settled
        else if 3 <=? ob_attempts r
        then put_outbox id (r <| ob_state := ALERT_FAILED |>) ;; mret Settled
        else
          token ← uuid4;
          put_outbox id (r <| ob_state := DELIVERING |> <| ob_attempts := ob_attempts r + 1 |>
            <| ob_delivery_token := Some token |>
            <| ob_delivery_lease_until := Some (stamp + seconds 60) |>) ;;
          mret (Taken id token (mkMessage (ob_event r) (ob_message r) (ob_job r)) provider)
    end).
(** The second one. *)
Definition finish_alert (id token : string) (delivered : bool) : M World () :=
  transaction (
    row ← select (λ d, t_outbox d !! id);
    r ← expect row NoResultFound "No row was found when one was required";
    if negb (bool_decide (ob_delivery_token r = Some token)) then mret () else
    t ← now_utc;
    put_outbox id (r <| ob_state := if delivered then DELIVERED else RETRY |>
      <| ob_delivered_at := if delivered then Some t else None |>)).
(** [AlertOutbox.deliver_one] *)
Definition deliver_one (h : Handle) (providers : AlertChannel → option AlertProvider)
    : M World bool :=
  step ← claim_alert h providers;
  match step with
  | Nothing_due => mret false
  | Settled => mret true
  | Taken id token message provider =>
      delivered ← catch (λ _, true)
        (match provider with Some p => ap_deliver p message id | None => mret () end ;; mret true)
        (λ _, mret false);
      finish_alert id token delivered ;;
      mret true
  end.

(** [AlertOutbox.list_web]: the delivery keys are removed from the payload. *)
Definition without_delivery (r : OutboxRow) : OutboxRow :=
  r <| ob_delivery_token := None |> <| ob_delivery_lease_until := None |>.
Definition list_web (h : Handle) : M World (list (string * OutboxRow)) :=
  select (λ d, map (λ ir, (ir.1, without_delivery ir.2))
    (take 100 (sort_desc (λ ir, ob_created_at ir.2)
      (List.filter (λ ir, bool_decide (ob_workspace_id ir.2 = workspace_or_private h) &&
                          bool_decide (ob_channel ir.2 = web) &&
                          bool_decide (ob_state ir.2 = DELIVERED))
         (map_to_list (t_outbox d)))))).
End alerts.
