(* ===== verification/Beside.v ===== *)
(** * The components beside the store leave each other alone

    Which tables the operations of metering, budgets, circuits and alerts keep:
    none of them touches the records of the research store, so each is a good
    operation of the store's invariant, and each component's table changes only
    through its own operations. *)

From S2P Require Import Prelude Effects PyNum PyText Contracts Demo Eligibility Governance.
From S2P Require Import Market Signals CrossExam Universe Customers Schema Store Complete StoreLogic.
From S2P Require Import StoreInv StoreOps Frames Metering Budgets Circuit Alerts.
#[local] Open Scope Z_scope.

#[export] Hint Opaque insert_call start_call finish_call settle_row reserve_one record_result
  : typeclass_instances.

Section beside.
Context `{ContentHash, Pydantic, PolicyHash, TaLib, SignalPolicyHash, CrossHash, UniverseHash}.
Context `{Env, Digests, CallHash, Plans}.

(** ** Metering writes [t_calls] only *)
Definition not_calls (d : DB) :=
  (records d, t_outbox d, t_usage d, t_reservations d, t_providers d, t_customers d).
#[export] Instance keeps_insert_call v : Respects (kept not_calls) (insert_call v).
Proof. unfold insert_call. cbv zeta. apply _. Qed.
#[export] Instance reads_ownership id j : Reads (ownership id j).
Proof. unfold ownership. apply _. Qed.
#[export] Instance reads_check_reservation job component provider model id :
  Reads (check_reservation job component provider model id).
Proof. unfold check_reservation. apply _. Qed.
#[export] Instance keeps_start_call h job component provider model reservation kind :
  Respects (kept not_calls) (start_call h job component provider model reservation kind).
Proof. unfold start_call. cbv zeta. apply _. Qed.
#[export] Instance keeps_finish_call h i started receipts success :
  Respects (kept not_calls) (finish_call h i started receipts success).
Proof.
  unfold finish_call, insert_receipt. apply respects_transaction; [apply _|].
  apply respects_bind; [apply _..|intros _]. apply respects_bind; [apply _| |intros _; apply _].
  apply respects_for_each; [apply _|]. intros [index r]. apply _.
Qed.
#[export] Instance keeps_reported_usage id r u job j :
  Respects (kept not_calls) (record_reported_usage id r u job j).
Proof. unfold record_reported_usage. apply _. Qed.

(** ** Budgets write [t_reservations] and [t_calls] only *)
Definition not_spending (d : DB) := (records d, t_outbox d, t_usage d, t_providers d, t_customers d).
Lemma keeps_weaken {A T U} (f : DB → T) (g : DB → U) (m : M World A) :
  (∀ d d', f d' = f d → g d' = g d) → Respects (kept f) m → Respects (kept g) m.
Proof. intros Hfg Hm d. by eapply wpd_mono; [apply Hm|intros ? ? ?%Hfg..]. Qed.
#[export] Instance spending_reported_usage id r u job j :
  Respects (kept not_spending) (record_reported_usage id r u job j).
Proof. eapply keeps_weaken, _. unfold not_calls, not_spending. congruence. Qed.
#[export] Instance reads_one {A} (o : option A) : Reads (one o).
Proof. unfold one. apply _. Qed.
#[export] Instance reads_budget_job h id : Reads (budget_job h id).
Proof. unfold budget_job. apply _. Qed.
#[export] Instance reads_check_admission j q now : Reads (check_admission j q now).
Proof. unfold check_admission. apply _. Qed.
#[export] Instance reads_check_scope n scope : Reads (check_scope n scope).
Proof. unfold check_scope. apply _. Qed.
#[export] Instance reads_for_each {A} (l : list A) (f : A → M World ()) :
  (∀ x, Reads (f x)) → Reads (for_each l f).
Proof. intros Hf. induction l as [|x l IH]; simpl; apply _. Qed.
#[export] Instance keeps_reserve_one l j now q : Respects (kept not_spending) (reserve_one l j now q).
Proof. unfold reserve_one. apply _. Qed.
#[export] Instance keeps_reserve_many h l requests :
  Respects (kept not_spending) (reserve_many h l requests).
Proof. unfold reserve_many. apply _. Qed.
#[export] Instance keeps_settle_row id r u : Respects (kept not_spending) (settle_row id r u).
Proof. unfold settle_row. apply _. Qed.
#[export] Instance keeps_settle h id u : Respects (kept not_spending) (settle h id u).
Proof. unfold settle. apply _. Qed.
#[export] Instance keeps_reconcile h id : Respects (kept not_spending) (reconcile_job h id).
Proof. unfold reconcile_job, settle_call, settle_agent. apply _. Qed.

(** ** Circuits write [t_providers] only, alerts [t_outbox] only *)
Definition not_providers (d : DB) :=
  (records d, t_outbox d, t_usage d, t_reservations d, t_calls d, t_customers d).
#[export] Instance keeps_enter c provider : Respects (kept not_providers) (enter c provider).
Proof. unfold enter, put_provider. cbv zeta. apply _. Qed.
#[export] Instance keeps_record c provider success duration generation :
  Respects (kept not_providers) (record_result c provider success duration generation).
Proof. unfold record_result, put_provider. apply _. Qed.
Definition not_outbox (d : DB) :=
  (records d, t_usage d, t_reservations d, t_providers d, t_calls d, t_customers d).
#[export] Instance keeps_claim_alert h providers :
  Respects (kept not_outbox) (claim_alert h providers).
Proof. unfold claim_alert, put_outbox. cbv zeta. apply _. Qed.
#[export] Instance keeps_finish_alert id token delivered :
  Respects (kept not_outbox) (finish_alert id token delivered).
Proof. unfold finish_alert, put_outbox. apply _. Qed.
End beside.
