(* ===== verification/Lifecycle.v ===== *)
(** * The life of a research job

    The operations of the store as one step relation on the database, and what
    holds in every reachable database and along every run: the invariant, the
    refinement of the abstract job, append-only records, the lease fence, the
    first-pass barrier. *)

From S2P Require Import Prelude Effects PyNum PyText Contracts Demo Eligibility Governance.
From S2P Require Import Market Signals CrossExam Universe Customers Schema Store Complete StoreLogic.
From S2P Require Import StoreInv StoreOps Frames Metering Budgets Circuit Alerts Beside.
#[local] Open Scope Z_scope.

(** Rules for operations behind the lease fence. *)
Create HintDb fence discriminated.

(** ** Operations *)

(** What a worker may do with the job it has claimed. *)
Inductive WorkerOp :=
  | Renew (lease_seconds : Z)
  | Read_checkpoint
  | Retry (code : string)
  | Stage (status : string) (fields : list (string * option string))
  | Freeze (snapshot : ResearchSnapshot)
  | Seal (firm : string) (report : FirmReport)
  | Lock
  | Artifact (kind : string) (value : ArtifactValue)
  | Cio (audit : CIOAuditReport) (red : RedTeamReport) (runtime : option ArtifactValue)
  | Fail_ (code message : string)
  | Publish (packet : PacketValue) (state : string).
(** One transaction of a component beside the store. *)
Inductive SideOp :=
  | Reserve (h : Handle) (limits : BudgetLimits) (requests : list BudgetReservation)
  | Settle (h : Handle) (id : string) (u : Usage)
  | Reconcile (h : Handle) (id : string)
  | Call_start (h : Handle) (id component provider : string) (model : option string)
               (reservation : option string) (kind : CallKind)
  | Call_finish (h : Handle) (i : CallIdentity) (started : spec_float)
                (receipts : list InferenceReceipt) (success : bool)
  | Enter (c : Circuit) (provider : string)
  | Record_result (c : Circuit) (provider : string) (success : bool) (duration : spec_float)
                  (generation : Z)
  | Alert_claim (h : Handle) (providers : AlertChannel → option AlertProvider)
  | Alert_finish (id token : string) (delivered : bool).
(** Every operation of the system that may write. *)
Inductive Op :=
  | Create (h : Handle) (ticker : string) (mandate : ResearchMandate) (o : EnqueueOptions)
  | Look (h : Handle) (id : string)
  | Listing (h : Handle) (limit : Z)
  | Reports (h : Handle) (id : string)
  | Public (h : Handle) (id : string)
  | Evidence (h : Handle) (id : string)
  | Take (h : Handle) (worker : string) (lease timeout : Z) (kind : ResearchKind)
         (only : option string)
  | Work (h : Handle) (id : string) (w : WorkerOp)
  | Beat (worker mode : string) (healthy : bool)
  | Invalidate (h : Handle) (id reason : string) (e : EvidenceRecord)
  | Throttle (h : Handle) (key : string) (limit window : Z)
  | Login (h : Handle) (token version : string) (expires : Z)
  | Logout (h : Handle) (token version : string)
  | Notify (h : Handle) (id event key : string) (channel : AlertChannel)
  | Side (op : SideOp).

Section lifecycle.
Context `{ContentHash, Pydantic, PolicyHash, TaLib, SignalPolicyHash, CrossHash, UniverseHash}.
Context `{Env, Digests, CallHash, Plans}.

Definition discard {A} (m : M World A) : M World () := m ≫= λ _, mret ().
Definition run_worker (h : Handle) (id : string) (w : WorkerOp) : M World () :=
  match w with
  | Renew s => renew_lease h id s
  | Read_checkpoint => discard (get_checkpoint h id)
  | Retry code => discard (retry_job h id code)
  | Stage status fields => update_stage h id status fields
  | Freeze snapshot => save_snapshot h id snapshot
  | Seal firm report => save_report h id firm report
  | Lock => lock_first_pass h id
  | Artifact kind value => save_artifact h id kind value
  | Cio a r runtime => save_cio_artifacts h id a r runtime
  | Fail_ code message => fail_job h id code message
  | Publish packet state => complete_job h id packet state
  end.
Definition run_side (op : SideOp) : M World () :=
  match op with
  | Reserve h limits requests => reserve_many h limits requests
  | Settle h id u => settle h id u
  | Reconcile h id => reconcile_job h id
  | Call_start h id component provider model reservation kind =>
      discard (start_call h id component provider model reservation kind)
  | Call_finish h i started receipts success => finish_call h i started receipts success
  | Enter c provider => discard (enter c provider)
  | Record_result c provider success duration generation =>
      record_result c provider success duration generation
  | Alert_claim h providers => discard (claim_alert h providers)
  | Alert_finish id token delivered => finish_alert id token delivered
  end.
Definition run_op (op : Op) : M World () :=
  match op with
  | Create h ticker mandate o => discard (create_job h ticker mandate o)
  | Look h id => discard (get_job h id)
  | Listing h limit => discard (list_jobs h limit)
  | Reports h id => discard (get_reports h id)
  | Public h id => discard (public_reports h id)
  | Evidence h id => discard (get_evidence h id)
  | Take h worker lease timeout kind only => discard (claim_job h worker lease timeout kind only)
  | Work h id w => run_worker h id w
  | Beat worker mode healthy => heartbeat worker mode healthy
  | Invalidate h id reason e => invalidate_signal h id reason e
  | Throttle h key limit window => discard (consume_rate_limit h key limit window)
  | Login h token version expires => create_session h token version expires
  | Logout h token version => revoke_session h token version
  | Notify h id event key channel => discard (enqueue_alert h id event key channel)
  | Side op => run_side op
  end.
Definition op_ok (op : Op) : Prop :=
  match op with Create _ _ _ o => admits_usage o | _ => True end.

(** One call of the store, at any time, whether it returns or raises. *)
Inductive db_step (d : DB) : DB → Prop :=
  | db_step_run op k r w : op_ok op → run_op op (mkWorld d k) = (r, w) → db_step d (w_db w).
Definition reachable (d : DB) : Prop := rtc db_step empty_db d.

(** ** Every operation is good *)
Lemma reads_owned_job h id : Reads (owned_job h id).
Proof. unfold owned_job. apply _. Qed.
Lemma good_worker h id w : Good (run_worker h id w).
Proof.
  pose proof reads_owned_job.
  destruct w; simpl; unfold discard, get_checkpoint; apply _.
Qed.
Lemma good_side op : Good (run_side op).
Proof.
  destruct op; simpl; unfold discard; apply good_respects;
    first [ apply (keeps_weaken not_calls); [unfold not_calls; congruence|apply _]
          | apply (keeps_weaken not_spending); [unfold not_spending; congruence|apply _]
          | apply (keeps_weaken not_providers); [unfold not_providers; congruence|apply _]
          | apply (keeps_weaken not_outbox); [unfold not_outbox; congruence|apply _] ].
Qed.
Lemma good_enqueue_alert h id event key channel : Good (enqueue_alert h id event key channel).
Proof.
  unfold enqueue_alert. apply good_bind; [apply _|]. intros [v|]; [|apply _].
  destruct (message_of event) as [message|]; [|apply _].
  do 2 (apply good_bind; [apply _|intros _]). apply good_respects. apply _.
Qed.
Lemma good_run_op op : op_ok op → Good (run_op op).
Proof.
  destruct op; simpl; intros Hok; unfold discard; try apply _.
  - apply good_bind; [by apply good_create_job|apply _].
  - apply good_worker.
  - apply good_bind; [apply good_enqueue_alert|apply _].
  - apply good_side.
Qed.
(** The store's own operations stay aside of the other components' tables. *)
Definition is_side (op : Op) : bool :=
  match op with Side _ | Notify _ _ _ _ _ => true | _ => false end.
Lemma aside_run_op op : op_ok op → is_side op = false → Respects aside (run_op op).
Proof.
  destruct op; simpl; intros Hok Hside; try done; unfold discard; try apply _.
  - apply respects_bind; [apply _|by apply aside_create_job|apply _].
  - destruct w; simpl; unfold discard, get_checkpoint; apply _.
Qed.
Lemma db_step_good d d' : db_step d d' → good d d'.
Proof.
  intros [op k r w Hok Hrun]. pose proof (good_run_op op Hok d) as Hg.
  pose proof (wpd_run _ _ _ _ _ _ _ Hg Hrun) as Hd. by destruct r.
Qed.
Lemma steps_good d d' : rtc db_step d d' → good d d'.
Proof.
  induction 1 as [d|d1 d2 d3 Hs%db_step_good _ IH]; [done|by etrans].
Qed.
Lemma inv_empty : Inv empty_db.
Proof. split; simpl; intros *; rewrite ?lookup_empty; done. Qed.
Lemma reachable_good d : reachable d → Inv d.
Proof. intros Hd. by apply (steps_good _ _ Hd), inv_empty. Qed.

Lemma attempts_bound j : job_ok j → 0 ≤ j_attempt_count j ≤ Z.max 1 (j_max_attempts j).
Proof.
  intros Hok. destruct (terminal (j_status j)) eqn:Ht.
  - pose proof (do_attempts _ (jo_done _ Hok Ht)). lia.
  - destruct (decide (j_status j = QUEUED)) as [Hq|Hq].
    + pose proof (qo_attempts _ (jo_queued _ Hok Hq)). lia.
    + pose proof (ro_attempts _ (jo_running _ Hok (proj2 (working_spec _) (conj Ht Hq)))). lia.
Qed.



(** C14. Evidence is immutable: along every run no mandate, snapshot, evidence
    record, firm report, artifact, decision packet or signal is changed or
    removed, the audit trail and the eligibility, discovery and usage records
    only grow at the end, and a job's set of reports is closed by its lock. *)
Theorem records_append_only d d' :
  reachable d → rtc db_step d d' →
  t_mandates d ⊆ t_mandates d' ∧ t_snapshots d ⊆ t_snapshots d' ∧
  t_evidence d ⊆ t_evidence d' ∧ t_reports d ⊆ t_reports d' ∧
  t_artifacts d ⊆ t_artifacts d' ∧ t_packets d ⊆ t_packets d' ∧ t_signals d ⊆ t_signals d' ∧
  t_audit d `prefix_of` t_audit d' ∧ t_eligibility d `prefix_of` t_eligibility d' ∧
  t_discoveries d `prefix_of` t_discoveries d' ∧ t_token_usage d `prefix_of` t_token_usage d' ∧
  ∀ id j f, t_jobs d !! id = Some j → is_Some (j_locked_at j) →
    t_reports d' !! (id, f) = t_reports d !! (id, f).
Proof.
  intros Hd Hs. destruct (steps_good _ _ Hs (reachable_good _ Hd)) as [_ []].
  split_and!; try done. eauto.
Qed.

(** ** The lease fence *)

(** At some clock reading from now on, this handle holds the lease of the job. *)
Definition lease_held (h : Handle) (id : string) (w : World) : Prop :=
  ∃ j k1 k2, (w_tick w ≤ k1)%nat ∧ (w_tick w ≤ k2)%nat ∧ t_jobs (w_db w) !! id = Some j ∧
    lease_valid (h_claim h) id j (now_at k1) (now_at k2) = true.
Definition fenced {A} (h : Handle) (id : string) (m : M World A) : Prop :=
  ∀ w, wp m (λ _ _, lease_held h id w) (λ _ w', w_db w' = w_db w) w.

Lemma fenced_transaction {A} h id (f : Job → M World A) :
  fenced h id (transaction (j ← owned_job h id; f j)).
Proof.
  intros [d k]. unfold transaction, wp, owned_job. simpl.
  unfold mbind, m_bind, select, gets, expect. simpl.
  destruct (t_jobs d !! id) as [j|] eqn:Hj; simpl; [|done].
  unfold raise_if. destruct (lease_valid _ _ _ _ _) eqn:Hv; simpl; [|done].
  destruct (f j _) as [[e|a] w']; [done|].
  exists j, k, (S k). by split_and!; simpl; try lia.
Qed.
Lemma fenced_lift {A B} h id (r : Res A) (f : A → M World B) :
  (∀ a, fenced h id (f a)) → fenced h id (lift r ≫= f).
Proof. intros Hf w. apply wp_bind, wp_lift; [intros a _; apply Hf|done]. Qed.
Lemma fenced_raise_if {B} h id b c msg (f : () → M World B) :
  fenced h id (f ()) → fenced h id (raise_if b c msg ≫= f).
Proof. intros Hf w. apply wp_bind, wp_raise_if; intros _; [done|apply Hf]. Qed.
Lemma fenced_expect {A B} h id (o : option A) c msg (f : A → M World B) :
  (∀ a, fenced h id (f a)) → fenced h id (expect o c msg ≫= f).
Proof. intros Hf w. apply wp_bind, wp_expect; [intros a _; apply Hf|done]. Qed.
Lemma fenced_raise {A} h id c msg : fenced (A := A) h id (raise c msg).
Proof. intros w. by apply wp_raise. Qed.
Lemma fenced_raise_bind {A B} h id c msg (f : A → M World B) :
  fenced h id (raise c msg ≫= f).
Proof. intros w. by apply wp_bind, wp_raise. Qed.
Lemma fenced_discard {A} h id (m : M World A) : fenced h id m → fenced h id (discard m).
Proof. intros Hm w. apply wp_bind. eapply wp_mono; [apply Hm|by intros; apply wp_ret|done]. Qed.
Hint Resolve fenced_transaction fenced_lift fenced_raise_if fenced_expect fenced_raise
  fenced_raise_bind fenced_discard : fence.

Lemma worker_op_fenced h id w : fenced h id (run_worker h id w).
Proof.
  destruct w; simpl; unfold renew_lease, get_checkpoint, retry_job, update_stage, save_snapshot,
    save_report, lock_first_pass, save_artifact, save_cio_artifacts, fail_job, complete_job;
    try (destruct packet); repeat case_match; auto 6 with fence.
Qed.

(** C5. The lease fence: a worker operation returns only when, at the clock
    readings it made, its claim is the job's current lease (same token and
    worker, lease and deadline in the future, job not finished); in every other
    case it raises, and then the database is exactly as before. *)
Theorem worker_operations_fenced h id op w r w' :
  run_worker h id op w = (r, w') →
  match r with
  | inr _ => lease_held h id w
  | inl _ => w_db w' = w_db w
  end.
Proof.
  intros Hrun. pose proof (worker_op_fenced h id op w) as Hf. unfold wp in Hf.
  rewrite Hrun in Hf. by destruct r.
Qed.

(** ** The first-pass barrier *)
Lemma NoDup_required_firms s : NoDup (snapshot_required_firms s).
Proof.
  unfold snapshot_required_firms. destruct (rs_qlib_enabled s);
    apply (bool_decide_unpack _); vm_compute; exact I.
Qed.
(** The reports of a locked job against its frozen snapshot. *)
Definition disclosed (d : DB) (id : string) (l : list (Firm * FirmReport)) : Prop :=
  ∃ j s, t_jobs d !! id = Some j ∧ is_Some (j_locked_at j) ∧ frozen_snapshot d j = Some s ∧
    l.*1 ≡ₚ snapshot_required_firms s ∧
    ∀ f r, (f, r) ∈ l → fr_firm r = f ∧ fr_snapshot_hash r = rs_hash s ∧
      Some (fr_snapshot_id r) = j_snapshot_id j ∧
      ∀ c e, c ∈ fr_claims r → e ∈ cl_evidence_ids c → e ∈ snapshot_evidence_ids s.
Lemma sealed_disclosed d id j :
  Inv d → t_jobs d !! id = Some j → is_Some (j_locked_at j) →
  disclosed d id (map (λ fr, (fr.1, re_payload fr.2)) (report_rows d id)).
Proof.
  intros HI Hj Hl. destruct (in_barrier _ HI _ _ Hj Hl) as (s & Hs & Hf). exists j, s.
  split; [done|]. split; [done|]. split; [done|]. split.
  - replace (map _ _).*1 with (sealed_firms d id)
      by (unfold sealed_firms; symmetry; apply map_map).
    apply NoDup_Permutation; [apply NoDup_report_firms|apply NoDup_required_firms|].
    intros f. by rewrite elem_of_sealed_firms, Hf.
  - intros f r ([f' row] & [= -> ->] & Hr%elem_of_report_rows)%list_elem_of_fmap.
    destruct (in_reports _ HI _ _ _ Hr) as (j' & Hj' & [Hfirm (s' & Hs' & ? & ? & ? & ?)]).
    by simplify_eq.
Qed.
Lemma wpd_get_reports h id d :
  Inv d → wpd (get_reports h id) (λ l d', disclosed d' id l) (λ _ _, True) d.
Proof.
  intros HI. unfold get_reports. wpd_step.
  apply (wpd_good _ _ _ d); [apply _|done| |done]. intros view d1 Hd1.
  destruct (Hd1 HI) as [HI1 _]. steps. bool_norm.
  destruct (t_jobs d1 !! id) as [j|] eqn:Hj; [|done]. simpl in *.
  eapply sealed_disclosed; try done. destruct (j_locked_at j); [eauto|done].
Qed.

(** C6. The first-pass barrier: [get_reports] discloses reports only for a
    locked job, and then exactly one per firm the frozen snapshot requires,
    each bound to that snapshot's hash and citing only its evidence; before the
    lock it raises, so no firm sees another's report. *)
Theorem first_pass_barrier h id d k l w :
  reachable d → get_reports h id (mkWorld d k) = (inr l, w) → disclosed (w_db w) id l.
Proof.
  intros Hd Hr. exact (wpd_run _ _ _ _ _ _ _ (wpd_get_reports h id d (reachable_good d Hd)) Hr).
Qed.
End lifecycle.
