(* ===== verification/Service.v ===== *)
(** * What the store promises its callers

    Admission of new jobs, claims, release of lost workers, publication,
    workspace isolation, invalidation, rate limits and sessions. *)

From S2P Require Import Prelude Effects PyNum PyText Contracts Demo Eligibility Governance.
From S2P Require Import Market Signals CrossExam Universe Customers Schema Store Complete StoreLogic.
From S2P Require Import StoreInv StoreOps Frames Metering Budgets Circuit Alerts Beside Lifecycle.
#[local] Open Scope Z_scope.

(** Evaluation of a run without unfolding validators. *)
Ltac run :=
  cbv beta iota delta [w_db w_tick mbind m_bind mret m_ret fmap option_fmap option_map fst snd for_each];
  cbn [negb andb].

(** ** Claims *)
Section service.
Context `{ContentHash, Pydantic, PolicyHash, TaLib, SignalPolicyHash, CrossHash, UniverseHash}.
Context `{Env, Digests, CallHash, Plans}.

(** The outcome of a claim on the database [d1] left by the expiry of leases. *)
Definition claim_outcome (h : Handle) (worker : string) (lease timeout : Z) (kind : ResearchKind)
    (only : option string) (d1 d' : DB) (locked : string → bool) (stamp : Z)
    (result : option Claim) : Prop :=
  match result with
  | None => d' = d1 ∧ ∀ i ji, t_jobs d1 !! i = Some ji → claimable h kind only stamp i ji = true →
              locked i = true
  | Some c => ∃ j allowed,
      t_jobs d1 !! c_job_id c = Some j ∧ claimable h kind only stamp (c_job_id c) j = true ∧
      (∀ i ji, t_jobs d1 !! i = Some ji → claimable h kind only stamp i ji = true →
         locked i = false → j_created_at j ≤ j_created_at ji) ∧
      c_worker_id c = worker ∧ allowed ≤ timeout ∧
      (∀ u, t_usage d1 !! c_job_id c = Some u → allowed ≤ ur_max_seconds u) ∧
      t_jobs d' = <[c_job_id c :=
        claimed j (default (first_stage kind) (j_resume_stage j)) worker (c_token c) stamp allowed
          lease]> (t_jobs d1)
  end.
Lemma wpd_claim_job h worker lease timeout kind only d :
  wpd (claim_job h worker lease timeout kind only)
    (λ result d', ∃ d1 locked stamp, good d d1 ∧
       claim_outcome h worker lease timeout kind only d1 d' locked stamp result)
    (λ _ d', d' = d) d.
Proof.
  unfold claim_job. steps.
  apply (wpd_good _ _ _ d); [apply _|done| |done]. intros [] d1 Hd1.
  wpd_step. apply wpd_skip_locked. intros locked. wpd_step. wpd_step.
  set (l := List.filter _ _). assert (∀ i ji, (i, ji) ∈ l ↔ t_jobs d1 !! i = Some ji ∧
    claimable h kind only t i ji = true ∧ locked i = false) as Hl.
  { intros i ji. unfold l. rewrite elem_of_List_filter, elem_of_map_to_list. simpl.
    by rewrite andb_true_iff, negb_true_iff. }
  destruct (min_by _ l) as [[id j]|] eqn:Hmin.
  - pose proof (proj1 (Hl id j) (min_by_elem _ _ _ Hmin)) as (Hj & Hc & _).
    do 6 wpd_step. wpd_step. wpd_step. apply wpd_audit. intros ?. wpd_step.
    exists d1, locked, t. split; [done|].
    exists j, (match ur_max_seconds <$> t_usage d1 !! id with
               | Some s => Z.min timeout s | None => timeout end). simpl. split_and!; try done.
    + intros i ji Hi Hci Hli. apply (min_by_least (λ ij : string * Job, j_created_at ij.2) _ _ (i, ji) Hmin).
      by apply Hl.
    + destruct (t_usage d1 !! id); simpl; lia.
    + intros u Hu. rewrite Hu. simpl. lia.
  - apply min_by_none in Hmin. wpd_step. exists d1, locked, t. split; [done|]. split; [done|].
    intros i ji Hi Hci. destruct (locked i) eqn:Hlk; [done|].
    assert ((i, ji) ∈ l) as Hin by (by apply Hl). rewrite Hmin in Hin. by apply not_elem_of_nil in Hin.
Qed.


(** ** Lost workers *)
(** A query for one key selects its row or nothing. *)
Lemma select_one (m : gmap string Job) (p : string * Job → bool) id j :
  m !! id = Some j → (∀ ij, p ij = true → ij.1 = id) →
  List.filter p (map_to_list m) = if p (id, j) then [(id, j)] else [].
Proof.
  intros Hj Hp. set (l := List.filter p _).
  assert (∀ ij, ij ∈ l ↔ ij = (id, j) ∧ p (id, j) = true) as Hl.
  { intros [i ji]. unfold l. rewrite elem_of_List_filter, elem_of_map_to_list. split.
    - intros [Hi Hpi]. pose proof (Hp _ Hpi) as Hid. simpl in Hid. subst i. by simplify_eq.
    - by intros [[= -> ->] Hpi]. }
  destruct (p (id, j)).
  - apply Permutation_singleton_r. apply NoDup_Permutation.
    + apply NoDup_ListNoDup, List.NoDup_filter, NoDup_ListNoDup, NoDup_map_to_list.
    + apply NoDup_singleton.
    + intros ij. rewrite Hl, list_elem_of_singleton. by split; [intros [-> _]|].
  - apply elem_of_nil_inv. intros ij Hin. by apply Hl in Hin as [_ ?].
Qed.

(** The row a job has after [get_job] looked for an expired lease. *)
Definition released (j j' : Job) (t : Z) : Prop :=
  let retry := (j_attempt_count j <? j_max_attempts j) && negb (null_le (j_deadline_at j) t) in
  j_status j' = (if retry then QUEUED else FAILED) ∧ j_lease_token j' = None ∧
  j_resume_stage j' = Some (j_status j) ∧ request j' = request j ∧
  j_attempt_count j' = j_attempt_count j.
Lemma expire_one h id j d k :
  t_jobs d !! id = Some j → row_locked (S k) id = false →
  lease_expired h (Some id) (now_at k) id j = true →
  ∃ j' d' k', transaction (expire_leases h (Some id)) (mkWorld d k) = (inr (), mkWorld d' k') ∧
    t_jobs d' = <[id := j']> (t_jobs d) ∧ t_packets d' = t_packets d ∧
    t_signals d' = t_signals d ∧ released j j' (now_at k).
Proof.
  intros Hj Hlock He. unfold expire_leases, transaction.
  unfold mbind, m_bind, now_utc, skip_locked, select, gets, next_tick. run.
  rewrite (select_one _ _ id j); [|done|].
  2: { intros [i ji] Hp. simpl in Hp. unfold lease_expired in Hp. by bool_norm. }
  run. rewrite He, Hlock. run.
  eexists _, _, _. split; [reflexivity|]. simpl. split; [reflexivity|].
  split; [done|]. split; [done|]. unfold released. simpl. done.
Qed.


(** ** Admission *)
Lemma get_idle_job h id j d k :
  t_jobs d !! id = Some j → j_lease_until j = None → j_deadline_at j = None →
  workspace_filter h j = true → t_signals d !! id = None →
  ∃ v k', get_job h id (mkWorld d k) = (inr (Some v), mkWorld d k') ∧
          v_id v = id ∧ v_job v = public j.
Proof.
  intros Hj Hl Hdl Hf Hs. unfold get_job, expire_leases, transaction.
  unfold mbind, m_bind, now_utc, skip_locked, select, gets, next_tick. run.
  rewrite (select_one _ _ id j); [|done|].
  2: { intros [i ji] Hp. simpl in Hp. unfold lease_expired in Hp. by bool_norm. }
  run. unfold lease_expired. rewrite Hl, Hdl. cbn [null_le orb]. rewrite andb_false_r. run.
  rewrite Hj, Hf. run. rewrite Hs. run. by eexists _, _.
Qed.
Lemma own_workspace h ticker kind mid key hash limit stamp :
  workspace_filter h (new_job ticker kind mid (workspace_or_private h) key hash limit stamp) = true.
Proof.
  unfold workspace_filter, workspace_or_private, str_or. destruct (h_workspace h) as [w|]; [|done].
  destruct (truthy w); [|done]. by apply bool_decide_eq_true_2.
Qed.
Lemma active_jobs_new d d' id row :
  t_jobs d !! id = None → terminal (j_status row) = false →
  t_jobs d' = <[id := row]> (t_jobs d) → active_jobs d' = active_jobs d + 1.
Proof.
  intros Hn Ht Hd'. unfold active_jobs. rewrite Hd'.
  rewrite (count_by_perm _ _ _ (rows_insert_new _ id row Hn)), count_by_cons, Ht. simpl. lia.
Qed.

(** A replay returns the stored job; a new job is within capacity and rate. *)
Definition replayed (h : Handle) (ticker : string) (m : ResearchMandate) (o : EnqueueOptions)
    (d : DB) (v : JobView) : Prop :=
  ∃ key j, eq_idempotency_key o = Some key ∧ t_jobs d !! v_id v = Some j ∧
    j_workspace_id j = workspace_or_private h ∧ j_idempotency_key j = Some key ∧
    j_request_hash j = Some (digest_request ticker m (eq_research_kind o)) ∧
    v = mkView (v_id v) (public j) None JNull None.
Definition admitted (h : Handle) (ticker : string) (m : ResearchMandate) (o : EnqueueOptions)
    (d d' : DB) (id mid : string) (stamp : Z) : Prop :=
  (∀ key i j, eq_idempotency_key o = Some key → t_jobs d !! i = Some j →
     j_workspace_id j = workspace_or_private h → j_idempotency_key j ≠ Some key) ∧
  active_jobs d < eq_capacity o ∧ active_jobs d' = active_jobs d + 1 ∧
  recent_jobs d (workspace_or_private h) (stamp - minutes 1) < eq_rate_per_minute o ∧
  t_jobs d !! id = None ∧ t_mandates d' !! mid = Some m ∧ t_signals d' = t_signals d ∧
  t_jobs d' = <[id := new_job ticker (eq_research_kind o) mid (workspace_or_private h)
    (eq_idempotency_key o) (digest_request ticker m (eq_research_kind o)) (eq_max_attempts o)
    stamp]> (t_jobs d).

Lemma wpd_enqueue_spec h ticker m o stamp id mid d :
  admits_usage o →
  wpd (enqueue h ticker m o stamp id mid)
    (λ r d', match r with
             | inl v => d' = d ∧ replayed h ticker m o d v
             | inr i => i = id ∧ admitted h ticker m o d d' id mid stamp
             end) (λ _ _, True) d.
Proof.
  intros Hadm. unfold enqueue. wpd_step. wpd_step.
  destruct (eq_idempotency_key o ≫= find_replay d (workspace_or_private h)) as [[i j]|] eqn:Hf.
  { wpd_step. wpd_step; [done|]. wpd_step. split; [done|]. unfold replayed. simpl.
    destruct (eq_idempotency_key o) as [key|]; [|done]. simpl in Hf.
    apply List.find_some in Hf as [Hin Hp]. simpl in Hp. bool_norm.
    apply list_elem_of_In, elem_of_map_to_list in Hin. by exists key, j. }
  do 4 (wpd_step; wpd_step; try done). wpd_step. wpd_step; [|done]. wpd_step. wpd_step; [|done].
  set (row := new_job _ _ _ _ _ _ _ _). set (d2 := updater t_jobs _ _). wpd_step. bool_norm.
  assert (∀ d3, admits id d2 d3 → wpd (audit (Some id) "JOB_ENQUEUED" [] ;; mret (inr id))
    (λ (r : JobView + string) d', match r with
             | inl v => d' = d ∧ replayed h ticker m o d v
             | inr i => i = id ∧ admitted h ticker m o d d' id mid stamp
             end) (λ _ _, True) d3) as Hrest.
  { intros d3 Hd3. wpd_step. apply wpd_audit. intros ?. wpd_step. split; [done|].
    destruct Hd3 as [Hd3 _]. rewrite Hd3. unfold admitted, d2. simpl. split_and!; try done.
    - intros key i j Hk Hj Hw. rewrite Hk in Hf. by eapply find_replay_none.
    - by apply (active_jobs_new d _ id row).
    - apply lookup_insert_eq. }
  destruct (eq_admission o) as [callback|] eqn:Ha; [|apply wpd_ret, Hrest; by unfold admits; destruct d].
  eapply wpd_mono; [by apply (Hadm callback id)| |done]. simpl. intros [] d3 Hd3. by apply Hrest.
Qed.

Lemma create_job_outcome h ticker m o d k r w :
  Inv d → admits_usage o → create_job h ticker m o (mkWorld d k) = (r, w) →
  match r with
  | inl _ => w_db w = d
  | inr v => ∃ checked, validate_mandate m = inr checked ∧
      ((w_db w = d ∧ replayed h ticker checked o d v) ∨
       ∃ mid stamp, admitted h ticker checked o d (w_db w) (v_id v) mid stamp ∧
         ∀ j, t_jobs (w_db w) !! v_id v = Some j → v_job v = public j)
  end.
Proof.
  intros Hd Ho Hrun.
  assert (wp (create_job h ticker m o) (λ v w', ∃ checked, validate_mandate m = inr checked ∧
      ((w_db w' = d ∧ replayed h ticker checked o d v) ∨
       ∃ mid stamp, admitted h ticker checked o d (w_db w') (v_id v) mid stamp ∧
         ∀ j, t_jobs (w_db w') !! v_id v = Some j → v_job v = public j))
    (λ _ w', w_db w' = d) (mkWorld d k)) as Hwp; [|unfold wp in Hwp; rewrite Hrun in Hwp; by destruct r].
  clear Hrun. unfold create_job. apply wp_bind, wp_lift; [|done]. intros checked Hc.
  do 3 (apply wp_bind; apply wp_run; [|done]; intros ? ? [= <- <-]; simpl).
  apply wp_bind. set (k3 := S (S (S k))).
  eapply wp_mono; [exact (wpd_transaction _ _ (λ _ d', d' = d) d
    (wpd_mono _ _ _ _ _ d (wpd_enqueue_spec h ticker checked o _ _ _ d Ho) (λ _ _ x, x) (λ _ _ _, eq_refl)) k3)| |done].
  intros [v|i] [d2 k2]; simpl.
  - intros [-> Hr]. apply wp_ret. exists checked. split; [done|]. by left.
  - intros [-> Hadm]. pose proof Hadm as (_ & _ & _ & _ & Hnew & _ & Hsig & Hjobs).
    set (row := new_job _ _ _ _ _ _ _ _) in Hjobs.
    destruct (get_idle_job h (uuid_at (S k)) row d2 k2) as (v & k4 & Hget & Hid & Hv);
      [rewrite Hjobs; apply lookup_insert_eq|done|done|apply own_workspace| |].
    { rewrite Hsig. destruct (t_signals d !! _) as [g|] eqn:Hg; [|done].
      destruct (in_signals _ Hd _ _ Hg) as (j2 & _ & _ & Hj2 & _). congruence. }
    apply wp_bind. unfold wp at 1. rewrite Hget. simpl. exists checked. split; [done|]. right.
    rewrite Hid. eexists _, _. split; [done|]. intros j Hj. simpl in Hj.
    rewrite Hjobs, lookup_insert_eq in Hj. by injection Hj as <-.
Qed.

(** C16. Admission of a job: a submission that raises changes nothing; one
    that returns is either an idempotent replay, which returns the stored job of
    the same workspace, key and request hash and changes nothing, or a new job:
    no job of the workspace had the key, the queue was below capacity and the
    workspace below its rate, and exactly one queued job with its validated
    mandate was added and returned. *)
Theorem create_job_admission h ticker m o d k r w :
  reachable d → admits_usage o → create_job h ticker m o (mkWorld d k) = (r, w) →
  match r with
  | inl _ => w_db w = d
  | inr v => ∃ checked, validate_mandate m = inr checked ∧
      ((w_db w = d ∧ replayed h ticker checked o d v) ∨
       ∃ mid stamp, admitted h ticker checked o d (w_db w) (v_id v) mid stamp ∧
         ∀ j, t_jobs (w_db w) !! v_id v = Some j → v_job v = public j)
  end.
Proof. intros Hd%reachable_good. by apply create_job_outcome. Qed.

(** ** Publication *)
Lemma wpd_publish_packet id j status data d :
  wpd (publish id j status data)
    (λ _ d', (∃ row, t_packets d' !! id = Some row ∧ pk_payload row = data) ∧
             ∃ j', t_jobs d' !! id = Some j' ∧ j_status j' = status)
    (λ _ _, True) d.
Proof.
  unfold publish, put_alert. steps; simpl;
    (split; eexists; (split; [apply lookup_insert_eq|done])).
Qed.

(** A sealed design can lower a positive state, never raise one. *)
Lemma design_outcome_positive d id s p state reasons final :
  design_outcome d id s p state reasons final → final.1 ∈ [WATCH; RESEARCH_CANDIDATE] →
  final.1 = state.
Proof.
  unfold design_outcome. intros Hout Hpos.
  destruct (artifact d id "signal_design") as [[| | | | | |x|]|]; try done;
    [|by destruct Hout as [_ ->]].
  destruct Hout as (design & _ & Hout). destruct (sd_signal design); [by destruct Hout as [-> _]|].
  destruct Hout as [_ Hout]. case_match; [|by rewrite Hout].
  destruct Hout as (_ & _ & ->). simpl in Hpos. set_solver.
Qed.

End service.
