(* ===== verification/Access.v ===== *)
(** * Access control of the store

    Workspace isolation of every read, signal invalidation, request throttling
    and browser sessions. *)

From S2P Require Import Prelude Effects PyNum PyText Contracts Demo Eligibility Governance.
From S2P Require Import Market Signals CrossExam Universe Schema Store Complete StoreLogic.
From S2P Require Import StoreInv StoreOps Frames Metering Budgets Circuit Alerts Beside Lifecycle Service.
#[local] Open Scope Z_scope.

Section access.
Context `{ContentHash, Pydantic, PolicyHash, TaLib, SignalPolicyHash, CrossHash, UniverseHash}.
Context `{Env, Digests, CallHash, Plans}.

(** ** Workspaces *)
Definition scoped (h : Handle) (workspace : string) : Prop :=
  h_workspace h = Some workspace ∧ truthy workspace = true.
Lemma scoped_filter h workspace j :
  scoped h workspace → workspace_filter h j = true ↔ j_workspace_id j = workspace.
Proof. unfold workspace_filter. intros [-> ->]. apply bool_decide_eq_true. Qed.

(** A view shows the workspace's own job and none of the private columns. *)
Definition shows_own (workspace : string) (v : JobView) : Prop :=
  j_workspace_id (v_job v) = workspace ∧ j_lease_token (v_job v) = None ∧
  j_worker_id (v_job v) = None ∧ j_lease_until (v_job v) = None ∧
  j_request_hash (v_job v) = None.

Lemma wpd_true {A} (m : M World A) d : wpd m (λ _ _, True) (λ _ _, True) d.
Proof. intros k. unfold wp. by destruct (m _) as [[]]. Qed.
Lemma wpd_skip {A B} (m : M World A) (f : A → M World B) Q d :
  (∀ a d', wpd (f a) Q (λ _ _, True) d') → wpd (m ≫= f) Q (λ _ _, True) d.
Proof. intros Hf. apply wpd_bind. eapply wpd_mono; [apply wpd_true|auto|done]. Qed.
Lemma wpd_map_m {A B} (R : A → B → Prop) (f : A → M World B) l d :
  (∀ x d', x ∈ l → wpd (f x) (λ y _, R x y) (λ _ _, True) d') →
  wpd (map_m f l) (λ ys _, Forall2 R l ys) (λ _ _, True) d.
Proof.
  revert d. induction l as [|x l IH]; intros d Hf; simpl; [apply wpd_ret; constructor|].
  apply wpd_bind. eapply wpd_mono; [apply Hf; left| |done]. simpl. intros y d1 Hy. apply wpd_bind.
  eapply wpd_mono; [apply IH; intros; apply Hf; by right| |done]. simpl. intros ys d2 Hys.
  apply wpd_ret. by constructor.
Qed.

Lemma wpd_get_job_view h id d :
  wpd (get_job h id)
    (λ o d', ∀ v, o = Some v → v_id v = id ∧
       ∃ j, t_jobs d' !! id = Some j ∧ workspace_filter h j = true ∧ v_job v = public j)
    (λ _ _, True) d.
Proof.
  unfold get_job. apply wpd_skip. intros _ d1. steps; intros v [= <-]; simpl; bool_norm; eauto.
Qed.
Lemma wpd_list_jobs_view h limit d :
  wpd (list_jobs h limit)
    (λ l _, (length l ≤ 100)%nat ∧ ∀ v, v ∈ l →
       ∃ j, workspace_filter h j = true ∧ v_job v = public j) (λ _ _, True) d.
Proof.
  unfold list_jobs. apply wpd_skip. intros _ d1. do 4 wpd_step. set (l := take _ _).
  eapply wpd_mono; [apply (wpd_map_m (λ ij v, v_job v = public ij.2))| |done].
  - intros ij d2 _. unfold shown_state. steps; done.
  - simpl. intros vs d2 Hvs. split.
    + rewrite <- (Forall2_length _ _ _ Hvs). unfold l. rewrite length_take. lia.
    + intros v [n Hn]%list_elem_of_lookup_1.
      destruct (Forall2_lookup_r _ _ _ _ _ Hvs Hn) as ([i j] & Hij & Heq). exists j.
      split; [|done]. apply list_elem_of_lookup_2, elem_of_take in Hij as (m & Hm%list_elem_of_lookup_2 & _).
      rewrite sort_desc_perm in Hm. by apply elem_of_List_filter in Hm as [_ ?].
Qed.
Lemma wpd_get_mandate h id d :
  wpd (get_mandate h id)
    (λ m _, ∃ j, t_jobs d !! id = Some j ∧ workspace_filter h j = true ∧
                 t_mandates d !! j_mandate_id j = Some m) (λ _ _, True) d.
Proof.
  unfold get_mandate. steps. destruct (t_jobs d !! id) as [j|]; [|done]. simpl in *.
  destruct (workspace_filter h j) eqn:Hf; [|done]. eauto.
Qed.
Lemma wpd_collect_signals expired room l inval d :
  wpd (collect_signals expired room l inval)
    (λ r _, (length r ≤ room)%nat ∧ ∀ id row st, (id, row, st) ∈ r →
       (id, row) ∈ l ∧ (st = EXPIRED ↔ expired = true)) (λ _ _, True) d.
Proof.
  revert room d. induction l as [|[id row] l IH]; intros [|room] d; simpl;
    try (apply wpd_ret; split; [simpl; lia|intros ??? Hn; by apply not_elem_of_nil in Hn]).
  unfold shown_state. steps.
  - eapply wpd_mono; [apply IH| |done]. simpl. intros r d2 [Hlen Hr].
    apply wpd_ret. split; [simpl; lia|]. intros i ro s [[= -> -> ->]|Hin]%elem_of_cons.
    + split; [left|]. match goal with He : Bool.eqb _ _ = true |- _ => apply Bool.eqb_prop in He;
        rewrite <- He end. by rewrite bool_decide_eq_true.
    + destruct (Hr i ro s Hin). split; [by right|done].
  - eapply wpd_mono; [apply IH| |done]. simpl. intros r d2 [Hlen Hr]. split; [lia|].
    intros i ro s Hin. destruct (Hr i ro s Hin). split; [by right|done].
Qed.
Lemma wpd_list_signals h expired d :
  wpd (list_signals h expired)
    (λ r _, (length r ≤ 100)%nat ∧ ∀ id row st, (id, row, st) ∈ r →
       t_signals d !! id = Some row ∧ (st = EXPIRED ↔ expired = true) ∧
       ∃ j, t_jobs d !! id = Some j ∧ workspace_filter h j = true) (λ _ _, True) d.
Proof.
  unfold list_signals. steps.
  eapply wpd_mono; [apply wpd_collect_signals| |done]. simpl. intros r d' [Hlen Hr].
  split; [done|]. intros id row st Hin. destruct (Hr id row st Hin) as [Hrow Hst].
  rewrite sort_desc_perm in Hrow. apply elem_of_List_filter in Hrow as [Hrow%elem_of_map_to_list Hf].
  simpl in Hf. split; [done|]. split; [done|]. destruct (t_jobs d !! id); [eauto|done].
Qed.


(** ** Invalidation *)
Definition invalidated (d : DB) (id : string) : Prop :=
  ∃ e, e ∈ t_audit d ∧ ae_job e = Some id ∧ ae_event e = "SIGNAL_INVALIDATED".
Lemma wpd_invalidate_signal h id reason e d :
  wpd (invalidate_signal h id reason e)
    (λ _ d', good d d' ∧ invalidated d' id ∧ is_Some (t_signals d' !! id)) (λ _ _, True) d.
Proof.
  assert (Good (invalidate_signal h id reason e)) as Hg by apply _.
  assert (wpd (invalidate_signal h id reason e)
    (λ _ d', invalidated d' id ∧ is_Some (t_signals d' !! id)) (λ _ _, True) d) as Hi.
  { unfold invalidate_signal, put_alert. steps.
    destruct (_ ≫= _), (t_signals d !! id) as [g|] eqn:Hs; steps.
    - split; [|eauto]. match goal with He : existsb _ _ = true |- _ =>
        apply existsb_true in He as (ev & Hin & Hev) end. simpl in Hev. bool_norm. by exists ev.
    - split; [|simpl; eauto]. eexists. simpl. rewrite elem_of_app, list_elem_of_singleton.
      split; [right; reflexivity|done]. }
  intros k. specialize (Hg d k). specialize (Hi k). unfold wp in *.
  by destruct (invalidate_signal _ _ _ _ _) as [[]].
Qed.
(** Reading a finished job changes nothing and uses the third and fourth
    clock readings. *)
Lemma get_published_job h id j g d k :
  t_jobs d !! id = Some j → terminal (j_status j) = true → t_signals d !! id = Some g →
  get_job h id (mkWorld d k) =
    if workspace_filter h j then
      match validate_signal (si_payload g) with
      | inl e => (inl e, mkWorld d (S (S k)))
      | inr s =>
          let inval := invalidated_at d id (now_at (S (S (S k)))) in
          (inr (Some (mkView id (public j) (pk_payload <$> t_packets d !! id)
             (JStr (state_name (if is_set inval then EXPIRED
                                else effective_state s (now_at (S (S k)))))) inval)),
           mkWorld d (S (S (S (S k)))))
      end
    else (inr None, mkWorld d (S (S k))).
Proof.
  intros Hj Ht Hg. unfold get_job, expire_leases, transaction.
  unfold mbind, m_bind, now_utc, skip_locked, select, gets, next_tick. run.
  rewrite (select_one _ _ id j); [|done|].
  2: { intros [i ji] Hp. simpl in Hp. unfold lease_expired in Hp. by bool_norm. }
  run. unfold lease_expired. rewrite Ht. run.
  rewrite Hj. destruct (workspace_filter h j); run; [|done].
  rewrite Hg. run. unfold lift. by destruct (validate_signal (si_payload g)).
Qed.
Lemma invalidated_at_set d id t :
  (∀ e, e ∈ t_audit d → ae_created_at e ≤ t) → invalidated d id →
  is_set (invalidated_at d id t) = true.
Proof.
  intros Ht (e & Hin & Hj & He). unfold invalidated_at.
  destruct (min_by _ _) eqn:Hm; [done|]. apply min_by_none in Hm.
  assert (e ∈ invalidation_events d id t) as Hev; [|by rewrite Hm in Hev; apply not_elem_of_nil in Hev].
  apply elem_of_List_filter. split; [done|]. rewrite !bool_decide_eq_true_2 by done. simpl.
  apply Z.leb_le. by apply Ht.
Qed.

(** Invalidation is permanent: once [invalidate_signal] has returned for
    a job, every later read of the job, after any further operations and once
    the clock has passed the recorded events, shows the signal as EXPIRED. *)
Theorem invalidation_expires_signal h id reason e d k w1 d2 k2 h' v w2 :
  reachable d → invalidate_signal h id reason e (mkWorld d k) = (inr (), w1) →
  rtc db_step (w_db w1) d2 →
  (∀ ev i, ev ∈ t_audit d2 → (k2 ≤ i)%nat → ae_created_at ev ≤ now_at i) →
  get_job h' id (mkWorld d2 k2) = (inr (Some v), w2) →
  v_final_state v = JStr "EXPIRED" ∧ is_Some (v_invalidated_at v).
Proof.
  intros Hd%reachable_good Hinv Hsteps Hclock Hget.
  destruct (wpd_run _ _ _ _ _ _ _ (wpd_invalidate_signal h id reason e d) Hinv)
    as (Hg & (ev & Hev & Hj & Hname) & [g Hs]).
  destruct (Hg Hd) as [HI1 _]. destruct (steps_good _ _ Hsteps HI1) as [HI2 HE].
  pose proof (lookup_weaken _ _ _ _ Hs (ex_signals _ _ HE)) as Hs2.
  destruct (in_signals _ HI2 _ _ Hs2) as (j & _ & _ & Hj2 & Hst & _).
  rewrite (get_published_job h' id j g) in Hget; try done; [|by rewrite Hst].
  destruct (workspace_filter h' j); [|done]. destruct (validate_signal (si_payload g)); [done|].
  cbv zeta in Hget. injection Hget as <- _. simpl.
  assert (is_set (invalidated_at d2 id (now_at (S (S (S k2))))) = true) as Hset.
  { apply invalidated_at_set.
    - intros e' He'. apply Hclock; [done|lia].
    - exists ev. split; [|done]. destruct (ex_audit _ _ HE) as [l ->]. apply elem_of_app. by left. }
  rewrite Hset. split; [done|]. destruct (invalidated_at d2 id _); [eauto|done].
Qed.

(** ** Rate limits *)
Definition bucket_of (h : Handle) (key : string) : string := workspace_or_private h +:+ ":" +:+ key.
Definition consume_many (n : nat) (h : Handle) (key : string) (limit window : Z)
    : M World (list RateDecision) :=
  map_m (λ _, consume_rate_limit h key limit window) (replicate n ()).

Lemma consume_in_window h key limit window d k r :
  t_rate_limits d !! bucket_of h key = Some r →
  now_at k < rl_window_started_at r + seconds window →
  ∃ dec d', consume_rate_limit h key limit window (mkWorld d k) = (inr dec, mkWorld d' (S k)) ∧
    rd_allowed dec = (rl_count r <? limit) ∧
    t_rate_limits d' !! bucket_of h key =
      Some (mkRateLimit (rl_window_started_at r)
              (if rl_count r <? limit then rl_count r + 1 else rl_count r)) ∧
    (rd_allowed dec = false →
       rl_window_started_at r + seconds window ≤ now_at k + seconds (rd_retry_after dec)).
Proof.
  intros Hr Ht. unfold consume_rate_limit, transaction.
  unfold mbind, m_bind, now_utc, select, gets, next_tick. simpl. unfold bucket_of in Hr.
  rewrite Hr. simpl.
  assert ((seconds window <=? now_at k - rl_window_started_at r) = false) as -> by (apply Z.leb_gt; lia).
  destruct (rl_count r <? limit) eqn:Hc; simpl.
  - eexists _, _. split; [reflexivity|]. simpl. split; [done|]. unfold bucket_of.
    by rewrite lookup_insert_eq.
  - eexists _, _. split; [reflexivity|]. simpl. split; [done|]. split.
    + unfold bucket_of. rewrite Hr. by destruct r.
    + intros _.
      remember (seconds window - (now_at k - rl_window_started_at r)) as left eqn:Hleft.
      pose proof (Z.div_mod left 1000000 ltac:(lia)).
      pose proof (Z.mod_pos_bound left 1000000 ltac:(lia)).
      change (Z.pos (1 * 1000000)) with 1000000. unfold seconds in *. lia.
Qed.

Lemma consume_first h key limit window d k :
  t_rate_limits d !! bucket_of h key = None →
  ∃ d', consume_rate_limit h key limit window (mkWorld d k) =
          (inr (mkDecision true 0), mkWorld d' (S k)) ∧
        t_rate_limits d' !! bucket_of h key = Some (mkRateLimit (now_at k) 1).
Proof.
  intros Hnone. unfold consume_rate_limit. fold (bucket_of h key). cbv zeta.
  generalize dependent (bucket_of h key). intros b Hnone. unfold transaction, insert_unique.
  unfold mbind, m_bind, now_utc, select, gets, next_tick. simpl. rewrite Hnone. simpl.
  rewrite Hnone. simpl. eexists. split; [reflexivity|]. apply lookup_insert_eq.
Qed.
(** The decisions of [n] calls in a window where [c] were already counted. *)
Lemma consume_many_window n h key limit window d k s c :
  t_rate_limits d !! bucket_of h key = Some (mkRateLimit s c) →
  (∀ i, (i < n)%nat → now_at (k + i) < s + seconds window) →
  ∃ ds w, consume_many n h key limit window (mkWorld d k) = (inr ds, w) ∧
    map rd_allowed ds = replicate (n `min` Z.to_nat (limit - c)) true ++
                        replicate (n - n `min` Z.to_nat (limit - c)) false.
Proof.
  revert d k c. induction n as [|n IH]; intros d k c Hr Ht; [by eexists _, _|].
  destruct (consume_in_window h key limit window d k _ Hr) as (dec & d' & Hrun & Hal & Hr' & _).
  { simpl. rewrite <- (Nat.add_0_r k). apply Ht. lia. }
  simpl in *. destruct (IH d' (S k) _ Hr') as (ds & w & Hds & Hmap).
  { intros i Hi. replace (S k + i)%nat with (k + S i)%nat by lia. apply Ht. lia. }
  unfold consume_many in *. simpl. unfold mbind, m_bind. rewrite Hrun, Hds.
  eexists _, _. split; [reflexivity|]. simpl. rewrite Hal, Hmap. destruct (c <? limit) eqn:Hc; bool_norm.
  - replace (Z.to_nat (limit - c)) with (S (Z.to_nat (limit - (c + 1)))) by lia. done.
  - replace (Z.to_nat (limit - c)) with O by lia. rewrite !Nat.min_0_r, !Nat.sub_0_r. done.
Qed.

(** A fixed window admits exactly its limit: of [n] calls on an unused
    key within one window, the first [max 1 limit] are allowed and every later
    one is refused. *)
Theorem rate_limit_window n h key limit window d k :
  t_rate_limits d !! bucket_of h key = None →
  (∀ i, (i < n)%nat → now_at (k + i) < now_at k + seconds window) →
  ∃ ds w, consume_many n h key limit window (mkWorld d k) = (inr ds, w) ∧
    let m := (n `min` Z.to_nat (Z.max 1 limit))%nat in
    map rd_allowed ds = replicate m true ++ replicate (n - m) false.
Proof.
  intros Hnone Ht. destruct n as [|n]; [by eexists _, _|].
  destruct (consume_first h key limit window d k Hnone) as (d' & Hrun & Hr).
  destruct (consume_many_window n h key limit window d' (S k) (now_at k) 1) as (ds & w & Hds & Hmap).
  { done. }
  { intros i Hi. replace (S k + i)%nat with (k + S i)%nat by lia. apply Ht. lia. }
  unfold consume_many in *. simpl. unfold mbind, m_bind. rewrite Hrun, Hds. eexists _, _. split; [reflexivity|]. simpl. rewrite Hmap.
  replace (Z.to_nat (Z.max 1 limit)) with (S (Z.to_nat (limit - 1))) by lia. done.
Qed.

(** ** Sessions *)
Lemma session_valid_run h token version d k :
  session_valid h token version (mkWorld d k) =
  (inr (match t_sessions d !! token with
        | Some s => session_matches h version s && (now_at k <? se_expires_at s)
        | None => false
        end), mkWorld d (S k)).
Proof. done. Qed.

(** A session that is accepted exists for the handle's workspace and the
    caller's credential version, is not revoked, and is at most eight hours and
    five seconds old. *)
Theorem accepted_session_bounded h token version d k w :
  reachable d → session_valid h token version (mkWorld d k) = (inr true, w) →
  ∃ s, t_sessions d !! token = Some s ∧ se_workspace_id s = workspace_or_private h ∧
    se_credential_version s = version ∧ se_revoked_at s = None ∧
    now_at k < se_expires_at s ∧ now_at k < se_created_at s + hours 8 + seconds 5.
Proof.
  rewrite session_valid_run. intros Hd%reachable_good [= Hv _].
  destruct (t_sessions d !! token) as [s|] eqn:Hs; [|done]. exists s.
  pose proof (in_sessions _ Hd _ _ Hs). unfold session_matches in Hv. bool_norm.
  split_and!; try done; [by destruct (se_revoked_at s)|lia].
Qed.

(** Revocation is permanent: after [revoke_session] for a session of the
    handle's workspace and credential version, no handle and no credential
    version is ever accepted with that token again. *)
Theorem revoked_session_refused h token version d k w1 s d2 h' version' k2 :
  reachable d → t_sessions d !! token = Some s → session_matches h version s = true →
  revoke_session h token version (mkWorld d k) = (inr (), w1) → rtc db_step (w_db w1) d2 →
  session_valid h' token version' (mkWorld d2 k2) = (inr false, mkWorld d2 (S k2)).
Proof.
  intros Hd%reachable_good Hs Hm Hrun Hsteps.
  assert (wpd (revoke_session h token version)
    (λ _ d', ∃ s', t_sessions d' !! token = Some s' ∧ is_Some (se_revoked_at s')) (λ _ _, True) d) as Hwp.
  { unfold revoke_session. steps. rewrite Hs, Hm. simpl. rewrite lookup_insert_eq. eauto. }
  destruct (wpd_run _ _ _ _ _ _ _ Hwp Hrun) as (s1 & Hs1 & Hr1).
  assert (Inv (w_db w1)) as HI1.
  { pose proof (good_revoke_session h token version d) as Hg.
    by apply (wpd_run _ _ _ _ _ _ _ Hg Hrun). }
  destruct (steps_good _ _ Hsteps HI1) as [_ HE].
  destruct (ex_sessions _ _ HE _ _ Hs1) as (s2 & Hs2 & Hev).
  rewrite session_valid_run, Hs2. unfold session_matches.
  rewrite (once_some _ _ (sv_revoked _ _ Hev) Hr1). destruct Hr1 as [t ->]. simpl.
  by rewrite andb_false_r.
Qed.
End access.
