(* ===== verification/Spending.v ===== *)
(** * Token spending stays within its budgets

    What holds of the reservations along every run of the system in which one
    set of limits is configured: every scope's charge stays within its limit
    plus what providers reported beyond their own reservations, a batch is
    admitted whole or not at all, a charge is settled once, and a reserved call
    is started once. *)

From S2P Require Import Prelude Effects PyNum PyText Contracts Demo Eligibility Governance.
From S2P Require Import Market Signals CrossExam Universe Schema Store Complete StoreLogic.
From S2P Require Import StoreInv StoreOps Frames Metering Budgets Circuit Alerts Beside Lifecycle.
#[local] Open Scope Z_scope.

(** ** Scopes *)

(** What a limit ranges over. *)
Inductive Scope :=
  | Of_job (job : string)
  | Of_candidate (job candidate : string)
  | Of_stage (job stage : string)
  | Of_agent (job agent : string)
  | Of_model (job provider model : string)
  | Of_day (workspace : string) (day : Z).
Definition in_scope (s : Scope) (r : Reservation) : bool :=
  match s with
  | Of_job job => same_job job r
  | Of_candidate job c => same_job job r && bool_decide (br_candidate r = c)
  | Of_stage job stage => same_job job r && bool_decide (br_stage r = stage)
  | Of_agent job agent => same_job job r && bool_decide (br_agent r = agent)
  | Of_model job p m =>
      same_job job r && bool_decide (br_provider r = p) && bool_decide (br_model r = m)
  | Of_day w day => bool_decide (br_workspace_id r = w) && (br_created_at r `div` days 1 =? day)
  end.
Definition scope_limit (l : BudgetLimits) (s : Scope) : option Z :=
  match s with
  | Of_job _ => Some (bl_per_job l)
  | Of_candidate _ _ => Some (bl_per_candidate l)
  | Of_stage _ _ => Some (bl_per_stage l)
  | Of_agent _ _ => Some (bl_per_agent l)
  | Of_model _ p m => dict_get (bl_per_model l) (p +:+ "/" +:+ m)
  | Of_day _ _ => Some (bl_daily l)
  end.
(** What a settled call used beyond its reservation. *)
Definition excess (r : Reservation) : Z :=
  match br_actual_tokens r with Some n => Z.max 0 (n - br_reserved_tokens r) | None => 0 end.
Definition overrun (p : Reservation → bool) (d : DB) : Z :=
  sum_by excess (List.filter p (rows (t_reservations d))).

(** ** Sums over the table *)
Definition total (f : Reservation → Z) (m : gmap string Reservation) : Z := sum_by f (rows m).
Definition within (p : Reservation → bool) (f : Reservation → Z) (r : Reservation) : Z :=
  if p r then f r else 0.

Lemma sum_filter {A} (p : A → bool) (f : A → Z) l :
  sum_by f (List.filter p l) = sum_by (λ x, if p x then f x else 0) l.
Proof. induction l as [|x l IH]; simpl; [done|]. destruct (p x); simpl; lia. Qed.
Lemma sum_by_le {A} (f g : A → Z) l : (∀ x, x ∈ l → f x ≤ g x) → sum_by f l ≤ sum_by g l.
Proof.
  induction l as [|x l IH]; intros Hle; simpl; [done|].
  pose proof (Hle x ltac:(left)). assert (sum_by f l ≤ sum_by g l); [|lia].
  apply IH. intros y Hy. apply Hle. by right.
Qed.
Lemma sum_by_add {A} (f g : A → Z) l : sum_by (λ x, f x + g x) l = sum_by f l + sum_by g l.
Proof. induction l; simpl; lia. Qed.
Lemma used_total p d : used p d = total (within p charged) (t_reservations d).
Proof. apply sum_filter. Qed.
Lemma overrun_total p d : overrun p d = total (within p excess) (t_reservations d).
Proof. apply sum_filter. Qed.
Lemma total_insert_new f m k r : m !! k = None → total f (<[k:=r]> m) = f r + total f m.
Proof. intros Hk. unfold total. by rewrite (sum_by_perm _ _ _ (rows_insert_new m k r Hk)). Qed.
Lemma total_insert_old f m k r r' : m !! k = Some r →
  total f (<[k:=r']> m) = total f m - f r + f r'.
Proof.
  intros Hk. unfold total. rewrite (sum_by_perm _ _ _ (rows_insert_old m k r')).
  rewrite (sum_by_perm _ _ _ (rows_lookup m k r Hk)). simpl. lia.
Qed.
Lemma total_le f g m : (∀ k r, m !! k = Some r → f r ≤ g r) → total f m ≤ total g m.
Proof. intros Hle. apply sum_by_le. intros r [k Hk]%elem_of_rows. by eapply Hle. Qed.

(** ** The invariant *)
Record row_ok (r : Reservation) : Prop := {
  ro_reserved : 0 ≤ br_reserved_tokens r;
  ro_actual : ∀ n, br_actual_tokens r = Some n → 0 ≤ n;
  ro_unsettled : br_usage r = None → br_actual_tokens r = None;
}.
(** A charge without its excess. *)
Definition capped (r : Reservation) : Z := charged r - excess r.
Record Budgeted (l : BudgetLimits) (d : DB) : Prop := {
  bu_rows : ∀ id r, t_reservations d !! id = Some r → row_ok r;
  bu_caps : ∀ s limit, scope_limit l s = Some limit →
    total (within (in_scope s) capped) (t_reservations d) ≤ Z.max 0 limit;
}.
Lemma budgeted_same l d d' : t_reservations d' = t_reservations d → Budgeted l d → Budgeted l d'.
Proof. intros Heq [Hr Hc]. split; rewrite Heq; done. Qed.
Lemma row_capped r : row_ok r → 0 ≤ capped r ≤ charged r ∧ capped r ≤ br_reserved_tokens r.
Proof.
  intros [Hr Ha Hu]. unfold capped, charged, excess.
  destruct (br_actual_tokens r) as [n|]; simpl; [pose proof (Ha n eq_refl)|]; lia.
Qed.

(** The scope of the code that covers a scope of the new row. *)
Lemma scopes_cover l j q now s limit :
  scope_limit l s = Some limit → in_scope s (new_reservation j q now) = true →
  ∃ p, (p, limit) ∈ scopes l j q now ∧ ∀ r, in_scope s r = true → p r = true.
Proof.
  unfold scopes. destruct s; simpl; unfold same_job; simpl; intros Hl Hn; bool_norm; subst;
    simplify_eq.
  - eexists. split; [left|done].
  - eexists. split; [do 1 right; left|done].
  - eexists. split; [do 2 right; left|done].
  - eexists. split; [do 3 right; left|done].
  - rewrite Hl. eexists. split; [do 5 right; left|done].
  - eexists. split; [do 4 right; left|]. simpl. intros r Hr. bool_norm.
    apply andb_true_iff. split; [by apply bool_decide_eq_true|]. apply Z.leb_le.
    repeat match goal with Hz : (_ =? _) = true |- _ => apply Z.eqb_eq in Hz end.
    unfold midnight. assert (0 < days 1) by done. generalize dependent (days 1). intros D **.
    pose proof (Z.div_mod now D). pose proof (Z.div_mod (br_created_at r) D).
    pose proof (Z.mod_pos_bound (br_created_at r) D). nia.
Qed.

Section spending.
Context `{ContentHash, Pydantic, PolicyHash, TaLib, SignalPolicyHash, CrossHash, UniverseHash}.
Context `{Env, Digests, CallHash, Plans}.

(** ** Admission of one request *)
Lemma wpd_check_scopes n l Q E d :
  ((∀ s, s ∈ l → used s.1 d + n ≤ s.2) → Q () d) → (∀ e, E e d) →
  wpd (for_each l (check_scope n)) Q E d.
Proof.
  induction l as [|s l IH]; intros HQ HE; simpl.
  - apply wpd_ret, HQ. by intros s ?%elem_of_nil.
  - wpd_step. unfold check_scope at 1. do 3 wpd_step; [done|]. bool_norm. apply IH; [|done].
    intros Hl. apply HQ. intros s' [->|Hs]%elem_of_cons; [lia|by apply Hl].
Qed.
(** The plan of a customer's job allows [n] more tokens. *)
Definition plan_allows (j : Job) (q : BudgetReservation) (now n : Z) (d : DB) : Prop :=
  ∀ a, t_usage d !! bq_job_id q = Some a →
    now < ur_period_end a ∧ used (same_job (bq_job_id q)) d + n ≤ ur_max_tokens a ∧
    ∃ monthly, monthly_tokens (ur_plan a) = inr monthly ∧
      used (λ r, bool_decide (br_workspace_id r = j_workspace_id j) &&
                 (ur_period_start a <=? br_created_at r) &&
                 (br_created_at r <? ur_period_end a)) d + n ≤ monthly.
Definition put_reservation (id : string) (r : Reservation) (d : DB) : DB :=
  d <| t_reservations ::= insert id r |>.
Record Admits (l : BudgetLimits) (j : Job) (now : Z) (q : BudgetReservation) (d : DB) : Prop := {
  ad_fresh : t_reservations d !! bq_reservation_id q = None;
  ad_plan : plan_allows j q now (bq_maximum_tokens q) d;
  ad_scopes : ∀ s, s ∈ scopes l j q now → used s.1 d + bq_maximum_tokens q ≤ s.2;
}.
Lemma wpd_check_admission j q now Q E d :
  (plan_allows j q now (bq_maximum_tokens q) d → Q () d) → (∀ e, E e d) →
  wpd (check_admission j q now) Q E d.
Proof.
  intros HQ HE. unfold check_admission. do 2 wpd_step. case_match; steps; apply HQ.
  - intros a' Ha. simplify_eq. bool_norm. eauto with lia.
  - intros a' Ha. congruence.
Qed.
Lemma wpd_reserve_one l j now q Q E d :
  (Admits l j now q d →
   Q () (put_reservation (bq_reservation_id q) (new_reservation j q now) d)) →
  (∀ e, E e d) → wpd (reserve_one l j now q) Q E d.
Proof.
  intros HQ HE. unfold reserve_one. do 2 wpd_step; [done|]. do 3 wpd_step; [by steps|].
  wpd_step. apply wpd_check_admission; [|done]. intros Hp.
  wpd_step. apply wpd_check_scopes; [|done]. intros Hs. wpd_step; [|done]. by apply HQ.
Qed.

(** ** Preservation *)
Lemma total_within_new p f id r d : t_reservations d !! id = None →
  total (within p f) (t_reservations (put_reservation id r d)) =
  within p f r + total (within p f) (t_reservations d).
Proof. intros Hn. simpl. by rewrite total_insert_new. Qed.
Lemma budgeted_reserve l j now q d :
  0 ≤ bq_maximum_tokens q → Admits l j now q d → Budgeted l d →
  Budgeted l (put_reservation (bq_reservation_id q) (new_reservation j q now) d).
Proof.
  intros Hq [Hnew _ Hs] [Hr Hc]. split.
  - simpl. intros id r [[<- <-]|[_ Hid]]%lookup_insert_Some; [|by eapply Hr]. by split.
  - intros s limit Hl. rewrite total_within_new by done. unfold within at 1.
    destruct (in_scope s (new_reservation j q now)) eqn:Hin; [|by apply Hc].
    destruct (scopes_cover _ _ _ _ _ _ Hl Hin) as (p & Hp & Himp).
    pose proof (Hs _ Hp) as Hlim. simpl in Hlim. rewrite used_total in Hlim.
    assert (total (within (in_scope s) capped) (t_reservations d) ≤
            total (within p charged) (t_reservations d)); [|unfold capped, charged, excess in *; simpl in *; lia].
    apply total_le. intros id r Hid%Hr%row_capped. unfold within.
    destruct (in_scope s r) eqn:Hi; [rewrite (Himp _ Hi); lia|]. destruct (p r); lia.
Qed.
Lemma settled_row_ok r u : usage_fields u = true → row_ok r → row_ok (settled r u).
Proof.
  intros Hu [Hr Ha Hn]. unfold usage_fields in Hu. unfold settled. split; simpl; try done.
  destruct u as [[i|] [o|] c]; simpl in *; intros n [= <-]. bool_norm. lia.
Qed.
Lemma settled_capped r u : usage_fields u = true → br_usage r = None → row_ok r →
  capped (settled r u) ≤ capped r.
Proof.
  intros Hu Hn Hr. pose proof (row_capped _ (settled_row_ok r u Hu Hr)).
  assert (capped r = br_reserved_tokens r) as ->; [|simpl in *; lia].
  unfold capped, charged, excess. rewrite (ro_unsettled _ Hr Hn). simpl. lia.
Qed.
Lemma settled_scope r u s : in_scope s (settled r u) = in_scope s r.
Proof. by destruct s. Qed.
Lemma budgeted_settle l d d' id r u :
  usage_fields u = true → br_usage r = None → t_reservations d !! id = Some r →
  t_reservations d' = <[id := settled r u]> (t_reservations d) → Budgeted l d → Budgeted l d'.
Proof.
  intros Hu Hn Hid Heq [Hr Hc]. pose proof (Hr _ _ Hid) as Hok. split; rewrite Heq.
  - intros id' r' [[<- <-]|[_ Hid']]%lookup_insert_Some; [by apply settled_row_ok|by eapply Hr].
  - intros s limit Hl. rewrite (total_insert_old _ _ _ r) by done. pose proof (Hc s limit Hl).
    unfold within at 2 3. rewrite settled_scope.
    pose proof (settled_capped r u Hu Hn Hok). destruct (in_scope s r); lia.
Qed.

(** ** Operations on the table *)

(** What settling a row did to the table. *)
Definition row_settled (id : string) (r : Reservation) (u : Usage)
    (m m' : gmap string Reservation) : Prop :=
  (br_usage r = Some u ∧ m' = m) ∨ (br_usage r = None ∧ m' = <[id := settled r u]> m).
Lemma wpd_settle_row id r u Q E d :
  (∀ d', row_settled id r u (t_reservations d) (t_reservations d') → known d d' → Q () d') →
  (∀ e d', E e d') → wpd (settle_row id r u) Q E d.
Proof.
  intros HQ HE. unfold settle_row. case_match; [steps; bool_norm; subst; apply HQ; [by left|done]|].
  do 2 wpd_step. do 2 wpd_step. wpd_step. unfold one. wpd_step; [|done].
  eapply wpd_mono; [apply keeps_reported_usage|simpl|done]. intros [] d' Hk.
  unfold kept, not_calls, records in Hk. simpl in Hk.
  apply HQ; [right; split; [done|congruence]|].
  apply known_same; [congruence|]. intros x. by replace (t_jobs d') with (t_jobs d) by congruence.
Qed.
Lemma find_sort_later id agent d k r : latest_reservation id agent d = Some (k, r) →
  t_reservations d !! k = Some r ∧ same_job id r = true ∧ br_agent r = agent ∧
  br_stage r = agent_stage agent.
Proof.
  unfold latest_reservation. intros Hh%head_Some_elem_of.
  rewrite sort_by_perm in Hh. apply elem_of_List_filter in Hh as [Hin Hp].
  simpl in Hp. bool_norm. by apply elem_of_map_to_list in Hin.
Qed.
Lemma validate_usage_fields u u' : validate_usage u = inr u' → usage_fields u' = true.
Proof.
  unfold validate_usage. intros ([] & Hu%require_inr & [= <-])%res_bind_inr. done.
Qed.
Lemma map_res_usage {A} (l : list (A * Usage)) l' :
  map_res (λ e, u ← validate_usage e.2; mret (e.1, u)) l = inr l' →
  Forall (λ e, usage_fields e.2 = true) l'.
Proof.
  revert l'. induction l as [|[a u] l IH]; simpl; intros l'; [by intros [= <-]|].
  intros ([a' u'] & Hu & Hm)%res_bind_inr. apply res_bind_inr in Hm as (l1 & Hl & [= <-]).
  apply res_bind_inr in Hu as (u2 & Hv%validate_usage_fields & [= <- <-]). constructor; auto.
Qed.
Lemma usage_of_json_fields v u : usage_of_json v = inr u → usage_fields u = true.
Proof.
  unfold usage_of_json. destruct v; try apply validate_usage_fields;
    (case_match; [done|]); by intros [= <-].
Qed.

Lemma single_key `{EqDecision A} {B} (f : B → A) x l :
  length (from_keys (f <$> x :: l)) = 1%nat → ∀ y, y ∈ x :: l → f y = f x.
Proof.
  intros Hlen y Hy. assert (Hx : f x ∈ from_keys (f <$> x :: l)).
  { apply elem_of_from_keys, list_elem_of_fmap_2. left. }
  assert (Hfy : f y ∈ from_keys (f <$> x :: l)) by (by apply elem_of_from_keys, list_elem_of_fmap_2).
  destruct (from_keys _) as [|a [|b rest]]; simpl in *; try done.
  apply list_elem_of_singleton in Hx, Hfy. congruence.
Qed.
Lemma wpd_budget_job h id Q E d :
  (∀ j, t_jobs d !! id = Some j → (∀ w, h_workspace h = Some w → j_workspace_id j = w) → Q j d) →
  (∀ e, E e d) → wpd (budget_job h id) Q E d.
Proof.
  intros HQ HE. unfold budget_job. wpd_step.
  apply (wpd_mono _ (λ j d', t_jobs d !! id = Some j ∧ d' = d) _ (λ _ d', d' = d)).
  - case_match; unfold owned_job, one; steps; simplify_eq; done.
  - intros j d' [Hj ->]. do 2 wpd_step; [done|]. wpd_step. apply HQ; [done|].
    intros w Hw. rewrite Hw in *. by bool_norm.
  - intros e d' ->. done.
Qed.

(** ** The ledger: an abstract machine of the reservations *)
Section ledger.
Variable l : BudgetLimits.

(** A change of the table is the admission of one request that every scope and
    the plan allow, or the settlement of one unsettled row. *)
Inductive ledger (d d' : DB) : Prop :=
  | ledger_keep : t_reservations d' = t_reservations d → known d d' → ledger d d'
  | ledger_reserve j now q :
      0 < bq_maximum_tokens q → t_jobs d !! bq_job_id q = Some j → Admits l j now q d →
      t_reservations d' =
        <[bq_reservation_id q := new_reservation j q now]> (t_reservations d) → known d d' →
      ledger d d'
  | ledger_settle id r u :
      usage_fields u = true → t_reservations d !! id = Some r → br_usage r = None →
      t_reservations d' = <[id := settled r u]> (t_reservations d) → known d d' → ledger d d'.
Abbreviation ledgers := (rtc ledger).

Lemma ledgers_keep d d' : t_reservations d' = t_reservations d → known d d' → ledgers d d'.
Proof. intros Heq Hk. by apply rtc_once, ledger_keep. Qed.
Lemma ledger_kept {A T} (f : DB → T) (m : M World A) :
  (∀ d d', f d' = f d → t_reservations d' = t_reservations d ∧ t_jobs d' = t_jobs d ∧
                         t_usage d' = t_usage d) →
  Respects (kept f) m → Respects ledgers m.
Proof.
  intros Hf Hm d. eapply wpd_mono; [apply Hm|intros ? d' (Hr & Hj & Hu)%Hf..];
    (apply ledgers_keep; [done|]; apply known_same; [done|by rewrite Hj]).
Qed.
Lemma ledger_aside {A} (m : M World A) : Respects aside m → Respects ledgers m.
Proof. intros Hm d. by eapply wpd_mono; [apply Hm|intros ? ? [Hr _ _ _ Hk _ _]; apply ledgers_keep..]. Qed.

Lemma ledger_settle_row id r u d d0 :
  usage_fields u = true → t_reservations d !! id = Some r → ledgers d0 d →
  wpd (settle_row id r u) (λ _ d', ledgers d0 d') (λ _ _, True) d.
Proof.
  intros Hu Hid Hd. apply wpd_settle_row; [|done]. intros d' [[_ Heq]|[Hn Heq]] Hk.
  - etrans; [done|by apply ledgers_keep].
  - eapply rtc_r; [done|by eapply ledger_settle].
Qed.
Lemma ledger_settle_call id a d d0 :
  ledgers d0 d → wpd (settle_call id a) (λ _ d', ledgers d0 d') (λ _ _, True) d.
Proof.
  intros Hd. unfold settle_call, one. do 4 wpd_step; [|done]. do 2 wpd_step; [|done].
  apply ledger_settle_row; [by eapply usage_of_json_fields| |done].
  destruct (artifact_field a "reservation_id") as [| | |key| | | | |]; try done.
  destruct (t_reservations d !! key) eqn:Hr; [|done]. simpl in *. case_match; by simplify_eq.
Qed.
Lemma ledger_settle_agent id e d d0 : usage_fields e.2 = true →
  ledgers d0 d → wpd (settle_agent id e) (λ _ d', ledgers d0 d') (λ _ _, True) d.
Proof.
  intros Hu Hd. unfold settle_agent. do 2 wpd_step.
  destruct (latest_reservation id e.1 d) as [[k r]|] eqn:Hf; [|by wpd_step].
  apply find_sort_later in Hf as [Hk _]. by apply ledger_settle_row.
Qed.
Lemma ledger_reconcile h id : Respects ledgers (reconcile_job h id).
Proof.
  unfold reconcile_job. apply respects_committed; [apply _|]. intros d.
  wpd_step. apply wpd_reads; [apply _| |done]. intros j. do 4 wpd_step; [|done].
  match goal with Hm : map_res _ _ = inr _ |- _ => apply map_res_usage in Hm as Hfirms end.
  do 3 wpd_step. apply (wpd_mono _ (λ cio d', Forall (λ e, usage_fields e.2 = true) cio ∧ d' = d)
    _ (λ _ _, True)); [|intros cio d' [Hcio ->]|done].
  { case_match; steps; (split; [|done]); repeat constructor; by eapply usage_of_json_fields. }
  do 3 wpd_step. apply (wpd_for_each (ledgers d)); [done|by intros; apply ledger_settle_call|].
  intros d1 Hd1. apply (wpd_for_each (ledgers d)); [done| |done].
  intros e d2 He Hd2. apply ledger_settle_agent; [|done].
  by eapply Forall_forall in He; [|by apply Forall_app_2].
Qed.
Lemma ledger_settle_op h id u : usage_fields u = true → Respects ledgers (settle h id u).
Proof.
  intros Hu. unfold settle, one. apply respects_committed; [apply _|]. intros d.
  do 4 wpd_step; [|done]. wpd_step. apply wpd_reads; [apply _| |done]. intros _.
  by apply ledger_settle_row.
Qed.
Lemma ledger_reserve_many h requests :
  Forall (λ q, 0 < bq_maximum_tokens q) requests → Respects ledgers (reserve_many h l requests).
Proof.
  intros Hq. unfold reserve_many. destruct requests as [|q0 qs]; [apply _|].
  intros d. do 2 wpd_step; [done|]. bool_norm. do 2 wpd_step. apply wpd_transaction. wpd_step.
  apply wpd_budget_job; [|done]. intros j Hj _.
  apply (wpd_for_each (λ d1, ledgers d d1 ∧ t_jobs d1 = t_jobs d)); [done| |by intros d1 [? _]].
  intros q1 d1 Hin [Hd1 Hj1]. apply wpd_reserve_one; [|done]. intros Had. split; [|done].
  eapply rtc_r; [done|]. eapply ledger_reserve; [|rewrite Hj1|done..].
  - rewrite Forall_forall in Hq. by apply Hq.
  - by rewrite (single_key bq_job_id q0 qs) by done.
Qed.

(** ** Runs *)

(** The calls of a deployment that configures the limits [l]; requests and
    usage are validated contracts. *)
Definition spends (op : Op) : Prop :=
  match op with
  | Side (Reserve _ l' requests) => l' = l ∧ Forall (λ q, 0 < bq_maximum_tokens q) requests
  | Side (Settle _ _ u) => usage_fields u = true
  | _ => True
  end.
Inductive spend_step (d : DB) : DB → Prop :=
  | spend_step_run op k r w :
      op_ok op → spends op → run_op op (mkWorld d k) = (r, w) → spend_step d (w_db w).

Lemma ledger_enqueue_alert h id event key channel :
  Respects ledgers (enqueue_alert h id event key channel).
Proof.
  unfold enqueue_alert. apply respects_bind; [apply _|apply ledger_aside, _|].
  intros [v|]; [|apply _]. destruct (message_of event) as [message|]; [|apply _].
  do 2 (apply respects_bind; [apply _..|intros _]).
  apply (ledger_kept (λ d, (t_reservations d, t_jobs d, t_usage d))); [|apply _].
  intros d d' Heq. split_and!; congruence.
Qed.
Lemma ledger_side op : spends (Side op) → Respects ledgers (run_side op).
Proof.
  destruct op; simpl; intros Hs; unfold discard;
    try (apply (ledger_kept not_calls); [unfold not_calls, records; intros; split_and!; congruence|apply _]);
    try (apply (ledger_kept not_providers); [unfold not_providers, records; intros; split_and!; congruence|apply _]);
    try (apply (ledger_kept not_outbox); [unfold not_outbox, records; intros; split_and!; congruence|apply _]).
  - destruct Hs as [-> Hq]. by apply ledger_reserve_many.
  - by apply ledger_settle_op.
  - apply ledger_reconcile.
Qed.
Lemma spend_step_ledger d d' : spend_step d d' → ledgers d d'.
Proof.
  intros [op k r w Hok Hsp Hrun]. eapply respects_run; [|exact Hrun].
  destruct (is_side op) eqn:Hside; [|by apply ledger_aside, aside_run_op].
  destruct op; try done; simpl; unfold discard.
  - apply respects_bind; [apply _|apply ledger_enqueue_alert|apply _].
  - by apply ledger_side.
Qed.
Lemma spend_steps_ledger d d' : rtc spend_step d d' → ledgers d d'.
Proof. induction 1 as [d|d1 d2 d3 Hs%spend_step_ledger _ IH]; [done|by etrans]. Qed.

(** ** What the ledger keeps *)
Lemma budgeted_ledger d d' : ledger d d' → Budgeted l d → Budgeted l d'.
Proof.
  intros [Heq _|j now q Hq _ Had Heq _|id r u Hu Hid Hn Heq _] Hb.
  - by apply (budgeted_same _ d).
  - apply (budgeted_same _ (put_reservation (bq_reservation_id q) (new_reservation j q now) d));
      [done|]. apply budgeted_reserve; [lia|done|done].
  - by eapply budgeted_settle.
Qed.
Lemma budgeted_ledgers d d' : ledgers d d' → Budgeted l d → Budgeted l d'.
Proof. induction 1; eauto using budgeted_ledger. Qed.
Lemma budgeted_empty : Budgeted l empty_db.
Proof.
  split; simpl; [by intros id r Hr; rewrite lookup_empty in Hr|]. intros s limit _.
  unfold total, rows. rewrite map_to_list_empty. simpl. lia.
Qed.
(** A row survives, and changes at most once, when it is settled. *)
Definition row_evolves (r r' : Reservation) : Prop :=
  r' = r ∨ (br_usage r = None ∧ ∃ u, usage_fields u = true ∧ r' = settled r u).
Lemma row_evolves_trans r1 r2 r3 : row_evolves r1 r2 → row_evolves r2 r3 → row_evolves r1 r3.
Proof.
  intros [->|(Hn & u & Hu & ->)]; [done|]. intros [->|(Hn2 & _)]; [|done]. right. eauto.
Qed.
Lemma ledger_evolves d d' id r : ledger d d' → t_reservations d !! id = Some r →
  ∃ r', t_reservations d' !! id = Some r' ∧ row_evolves r r'.
Proof.
  intros [Heq _|j now q Hq _ Had Heq _|id' r0 u Hu Hid Hn Heq _] Hr; rewrite Heq.
  - exists r. split; [done|by left].
  - exists r. pose proof (ad_fresh _ _ _ _ _ Had). rewrite lookup_insert_ne by congruence.
    split; [done|by left].
  - destruct (decide (id' = id)) as [->|Hne].
    + simplify_eq. rewrite lookup_insert_eq. eexists. split; [done|]. right. eauto.
    + rewrite lookup_insert_ne by done. exists r. split; [done|by left].
Qed.
Lemma ledgers_evolve d d' id r : ledgers d d' → t_reservations d !! id = Some r →
  ∃ r', t_reservations d' !! id = Some r' ∧ row_evolves r r'.
Proof.
  intros Hs. revert r. induction Hs as [d|d1 d2 d3 H12 _ IH]; intros r Hr.
  - exists r. split; [done|by left].
  - destruct (ledger_evolves _ _ _ _ H12 Hr) as (r2 & Hr2 & E2).
    destruct (IH _ Hr2) as (r3 & Hr3 & E3). exists r3. split; [done|by eapply row_evolves_trans].
Qed.
Lemma capped_used p d :
  used p d = total (within p capped) (t_reservations d) + overrun p d.
Proof.
  rewrite used_total, overrun_total. unfold total. rewrite <- sum_by_add.
  induction (rows (t_reservations d)) as [|r rs IH]; simpl; [done|].
  rewrite IH. unfold within, capped. destruct (p r); lia.
Qed.

(** C12. In every database reachable while one set of limits is configured, by
    any calls of the store, budgets, metering, circuits and alerts in any
    order, what is charged to each job, candidate, stage, agent and model of a
    job and to each UTC day of a workspace is at most its limit, plus what
    providers reported beyond their own reservations. *)
Theorem budget_limits_hold d s limit :
  rtc spend_step empty_db d → scope_limit l s = Some limit →
  used (in_scope s) d ≤ Z.max 0 limit + overrun (in_scope s) d.
Proof.
  intros Hrun Hl. assert (Budgeted l d) as [Hr Hc].
  { eapply budgeted_ledgers; [by apply spend_steps_ledger|apply budgeted_empty]. }
  rewrite capped_used. pose proof (Hc s limit Hl). lia.
Qed.

(** C13. Reservations refine the ledger: along every run the table changes only
    by admitting a fresh request that every limit and the customer's plan
    allow, or by settling an unsettled row once with validated usage. So no
    reservation is ever removed or changes its identity, a settled charge never
    changes again, and an unsettled one stays charged at its maximum. *)
Theorem reservations_refine_ledger d d' id r :
  rtc spend_step empty_db d → rtc spend_step d d' → t_reservations d !! id = Some r →
  rtc ledger d d' ∧
  ∃ r', t_reservations d' !! id = Some r' ∧ row_evolves r r' ∧
    (is_Some (br_usage r) → r' = r) ∧ (br_usage r' = None → charged r' = br_reserved_tokens r).
Proof.
  intros Hd Hs%spend_steps_ledger Hr. split; [done|].
  destruct (ledgers_evolve _ _ _ _ Hs Hr) as (r' & Hr' & Hev). exists r'.
  assert (Budgeted l d') as [Hrows _].
  { eapply budgeted_ledgers; [|apply budgeted_empty].
    etrans; [by apply spend_steps_ledger|done]. }
  split_and!; [done..| |].
  - intros [u Hu]. by destruct Hev as [->|(Hn & _)]; [|rewrite Hu in Hn].
  - intros Hn. unfold charged. rewrite (ro_unsettled _ (Hrows _ _ Hr') Hn).
    by destruct Hev as [->|(_ & u & _ & ->)].
Qed.
End ledger.

(** ** A batch *)

(** The requests admitted one after the other. *)
Inductive admitted_all (l : BudgetLimits) (j : Job) (now : Z)
    : list BudgetReservation → DB → DB → Prop :=
  | admitted_nil d : admitted_all l j now [] d d
  | admitted_cons q qs d d' :
      Admits l j now q d →
      admitted_all l j now qs
        (put_reservation (bq_reservation_id q) (new_reservation j q now) d) d' →
      admitted_all l j now (q :: qs) d d'.
Lemma wpd_reserve_all l j now qs d :
  wpd (for_each qs (reserve_one l j now)) (λ _ d', admitted_all l j now qs d d') (λ _ _, True) d.
Proof.
  revert d. induction qs as [|q qs IH]; intros d; simpl; [apply wpd_ret; constructor|].
  wpd_step. apply wpd_reserve_one; [|done]. intros Had.
  eapply wpd_mono; [apply IH| |done]. intros [] d' Hall. by econstructor.
Qed.

Section batch.
Variables (l : BudgetLimits) (j : Job) (now : Z).

Ltac same_fields :=
  unfold same_job; simpl; repeat match goal with He : _ = _ |- _ => rewrite He; clear He end.
(** A scope of one request that covers another is also the other's scope. *)
Lemma scopes_shared q1 q2 p limit :
  (p, limit) ∈ scopes l j q1 now → p (new_reservation j q2 now) = true →
  ∃ p', (p', limit) ∈ scopes l j q2 now ∧ ∀ r, p' r = p r.
Proof.
  intros Hin Hp. unfold scopes in Hin. apply elem_of_app in Hin as [Hin|Hin].
  - repeat (apply elem_of_cons in Hin as [Heq|Hin]); [..|by apply elem_of_nil in Hin];
      injection Heq as -> ->; simpl in Hp; unfold same_job in *; simpl in Hp; bool_norm;
      unfold scopes; eexists.
    + split; [left|]. intros r. by same_fields.
    + split; [do 1 right; left|]. intros r. by same_fields.
    + split; [do 2 right; left|]. intros r. by same_fields.
    + split; [do 3 right; left|]. intros r. by same_fields.
    + split; [do 4 right; left|]. done.
  - destruct (dict_get _ _) as [lim|] eqn:Hm; [|by apply elem_of_nil in Hin].
    apply list_elem_of_singleton in Hin as [= -> ->]. unfold same_job in *. simpl in Hp. bool_norm.
    unfold scopes. eexists. split; [apply elem_of_app; right|].
    + replace (bq_provider q2 +:+ "/" +:+ bq_model q2)
        with (bq_provider q1 +:+ "/" +:+ bq_model q1) by congruence. rewrite Hm. left.
    + intros r. by same_fields.
Qed.
Lemma used_ext p p' d : (∀ r, p' r = p r) → used p' d = used p d.
Proof.
  intros Hp. rewrite !used_total. unfold total, within. induction (rows _) as [|r rs IH]; simpl; [done|].
  by rewrite IH, Hp.
Qed.
Lemma used_put p q d : Admits l j now q d →
  used p (put_reservation (bq_reservation_id q) (new_reservation j q now) d) =
  (if p (new_reservation j q now) then bq_maximum_tokens q else 0) + used p d.
Proof. intros Had. rewrite !used_total, total_within_new by apply Had. done. Qed.
Lemma admitted_keeps_scope qs d d' q1 s :
  admitted_all l j now qs d d' → s ∈ scopes l j q1 now → used s.1 d ≤ s.2 → used s.1 d' ≤ s.2.
Proof.
  intros Hall Hs. induction Hall as [d|q qs d d' Had _ IH]; [done|]. intros Hle. apply IH.
  rewrite used_put by done. destruct s as [p limit]. simpl in *.
  destruct (p (new_reservation j q now)) eqn:Hp; [|lia].
  destruct (scopes_shared _ _ _ _ Hs Hp) as (p' & Hp' & Heq).
  pose proof (ad_scopes _ _ _ _ _ Had _ Hp') as Hb. simpl in Hb.
  rewrite (used_ext p p') in Hb by done. lia.
Qed.
Lemma admitted_scopes qs d d' q s :
  Forall (λ q, 0 < bq_maximum_tokens q) qs → admitted_all l j now qs d d' → q ∈ qs →
  s ∈ scopes l j q now → used s.1 d' ≤ s.2.
Proof.
  intros Hqs Hall Hq Hs. induction Hall as [d|q0 qs d d' Had Hall IH];
    [by apply elem_of_nil in Hq|]. apply Forall_cons in Hqs as [Hq0 Hqs].
  apply elem_of_cons in Hq as [->|Hq]; [|by apply IH].
  eapply admitted_keeps_scope; [done|done|]. rewrite used_put by done.
  pose proof (ad_scopes _ _ _ _ _ Had _ Hs). case_match; lia.
Qed.
Lemma admitted_plan q qs d d' :
  Forall (λ q', 0 < bq_maximum_tokens q' ∧ bq_job_id q' = bq_job_id q) qs → qs ≠ [] →
  admitted_all l j now qs d d' → plan_allows j q now 0 d'.
Proof.
  intros Hqs Hne Hall. induction Hall as [d|q0 qs d d' Had Hall IH]; [done|].
  apply Forall_cons in Hqs as [[Hpos Hjob] Hqs].
  destruct qs as [|q1 qs]; [|by apply IH]. inversion_clear Hall.
  intros a Ha. destruct (ad_plan _ _ _ _ _ Had a) as (He & Hu & m & Hm & Hp).
  { by rewrite Hjob. }
  split; [done|]. rewrite Hjob in Hu. split; [rewrite used_put by done; case_match; lia|].
  exists m. split; [done|]. rewrite used_put by done. case_match; lia.
Qed.
Lemma admitted_rows qs d d' : admitted_all l j now qs d d' →
  NoDup (bq_reservation_id <$> qs) ∧
  (∀ q, q ∈ qs → t_reservations d !! bq_reservation_id q = None ∧
     t_reservations d' !! bq_reservation_id q = Some (new_reservation j q now)) ∧
  (∀ id, id ∉ bq_reservation_id <$> qs → t_reservations d' !! id = t_reservations d !! id) ∧
  d' = d <| t_reservations := t_reservations d' |>.
Proof.
  induction 1 as [d|q qs d d' Had _ (Hnd & Hin & Hout & Heq)].
  { split_and!; [constructor|by intros ? ?%elem_of_nil|done|by destruct d]. }
  simpl in *. assert (Hfresh : bq_reservation_id q ∉ bq_reservation_id <$> qs).
  { intros (q1 & Hid & Hq1)%list_elem_of_fmap. destruct (Hin q1 Hq1) as [Hn _].
    rewrite <- Hid, lookup_insert_eq in Hn. done. }
  split_and!.
  - by constructor.
  - intros q1 [->|Hq1]%elem_of_cons.
    + split; [apply Had|]. by rewrite Hout, lookup_insert_eq.
    + destruct (Hin q1 Hq1) as [Hn Hs]. split; [|done].
      by apply lookup_insert_None in Hn as [Hn _].
  - intros id Hid. apply not_elem_of_cons in Hid as [Hne Hid].
    rewrite Hout by done. by rewrite lookup_insert_ne.
  - rewrite Heq. by destruct d.
Qed.
End batch.

(** A batch of reservations is admitted whole or not at all: when
    [reserve_many] raises nothing changes; when it returns every request of the
    one job is stored under a fresh, distinct identity at its full maximum,
    nothing else changes, the sums of every scope of every request are within
    the limits, and a customer's job is within its token ceiling and its
    workspace's monthly tokens inside the paid period. *)
Theorem reservation_batch_atomic h l q qs d k res w :
  Forall (λ q', 0 < bq_maximum_tokens q') (q :: qs) →
  reserve_many h l (q :: qs) (mkWorld d k) = (res, w) →
  match res with
  | inl _ => w_db w = d
  | inr _ => ∃ j now,
      t_jobs d !! bq_job_id q = Some j ∧
      (∀ w, h_workspace h = Some w → j_workspace_id j = w) ∧
      (∀ q', q' ∈ q :: qs → bq_job_id q' = bq_job_id q ∧
         t_reservations d !! bq_reservation_id q' = None ∧
         t_reservations (w_db w) !! bq_reservation_id q' = Some (new_reservation j q' now) ∧
         (∀ s, s ∈ scopes l j q' now → used s.1 (w_db w) ≤ s.2)) ∧
      NoDup (bq_reservation_id <$> q :: qs) ∧
      (∀ id, id ∉ bq_reservation_id <$> q :: qs →
         t_reservations (w_db w) !! id = t_reservations d !! id) ∧
      w_db w = d <| t_reservations := t_reservations (w_db w) |> ∧
      plan_allows j q now 0 (w_db w)
  end.
Proof.
  intros Hpos Hrun.
  assert (Hwp : wpd (reserve_many h l (q :: qs)) (λ _ d', ∃ j now,
      t_jobs d !! bq_job_id q = Some j ∧ (∀ w, h_workspace h = Some w → j_workspace_id j = w) ∧
      (∀ q', q' ∈ q :: qs → bq_job_id q' = bq_job_id q) ∧
      admitted_all l j now (q :: qs) d d') (λ _ d', d' = d) d).
  { unfold reserve_many. do 2 wpd_step; [done|]. do 2 wpd_step. wpd_step. wpd_step.
    apply wpd_budget_job; [|done]. intros j Hj Hw.
    eapply wpd_mono; [apply wpd_reserve_all| |done]. intros [] d' Hall. exists j, t.
    split_and!; try done. bool_norm. by apply single_key. }
  pose proof (wpd_run _ _ _ _ _ _ _ Hwp Hrun) as Hres. destruct res as [e|[]]; [done|].
  destruct Hres as (j & now & Hj & Hw & Hjob & Hall).
  destruct (admitted_rows _ _ _ _ _ _ Hall) as (Hnd & Hin & Hout & Heq).
  exists j, now. split_and!; try done.
  - intros q' Hq'. destruct (Hin q' Hq') as [Hn Hnew].
    split_and!; [by apply Hjob|done|done|]. intros s Hs. by eapply admitted_scopes.
  - eapply (admitted_plan _ _ _ q (q :: qs)); [|done|exact Hall].
    apply Forall_forall. intros q' Hq'. rewrite Forall_forall in Hpos. eauto.
Qed.

(** ** Settlement *)
Lemma wpd_settle h id u d :
  wpd (settle h id u)
    (λ _ d', ∃ r, t_reservations d !! id = Some r ∧
       row_settled id r u (t_reservations d) (t_reservations d') ∧
       (br_usage r = Some u → d' = d))
    (λ _ d', d' = d) d.
Proof.
  unfold settle, one. wpd_step. do 4 wpd_step; [|done]. wpd_step.
  apply wpd_budget_job; [|done]. intros j _ _. rename a into r.
  destruct (br_usage r) as [known|] eqn:Hu.
  - unfold settle_row. rewrite Hu. steps. bool_norm. subst. exists r. split_and!; try done. by left.
  - apply wpd_settle_row; [|done]. intros d' Hs. exists r. split_and!; try done. by rewrite Hu.
Qed.
(** Usage is settled once: after [settle] has returned for a reservation,
    whatever happens in between, settling it again changes nothing, and raises
    when the usage differs. *)
Theorem settlement_idempotent l h id u d k w h' u' d' k' res w' :
  settle h id u (mkWorld d k) = (inr (), w) → rtc (spend_step l) (w_db w) d' →
  settle h' id u' (mkWorld d' k') = (res, w') →
  w_db w' = d' ∧ (u' ≠ u → ∃ e, res = inl e).
Proof.
  intros Hs Hrun Hs'. pose proof (wpd_run _ _ _ _ _ _ _ (wpd_settle h id u d) Hs) as Hfirst.
  destruct Hfirst as (r & Hr & Hset & _).
  assert (∃ r1, t_reservations (w_db w) !! id = Some r1 ∧ br_usage r1 = Some u) as (r1 & Hr1 & Hu1).
  { destruct Hset as [[Hu ->]|[_ ->]]; [by exists r|]. rewrite lookup_insert_eq. by eexists. }
  destruct (ledgers_evolve l _ _ _ _ (spend_steps_ledger _ _ _ Hrun) Hr1) as (r2 & Hr2 & Hev).
  destruct Hev as [->|(Hn & _)]; [|congruence].
  pose proof (wpd_run _ _ _ _ _ _ _ (wpd_settle h' id u' d') Hs') as Hsecond.
  destruct res as [e|[]]; [by eauto|]. destruct Hsecond as (r3 & Hr3 & Hset2 & Hsame).
  simplify_eq. destruct Hset2 as [[Hu _]|[Hn _]]; [|congruence].
  split; [by apply Hsame|]. intros Hne. congruence.
Qed.
End spending.
