(* ===== verification/Accounting.v ===== *)
(** * Paid calls are accounted for, once

    What the accounting rows of [Metering] guarantee along every run of the
    system: rows are only ever added, a reserved call is started at most once,
    and a finished call leaves one row per receipt and a final row. *)

From S2P Require Import Prelude Effects PyNum PyText Contracts Demo Eligibility Governance.
From S2P Require Import Market Signals CrossExam Universe Schema Store Complete StoreLogic.
From S2P Require Import StoreInv StoreOps Frames Metering Budgets Circuit Alerts Beside Lifecycle.
#[local] Open Scope Z_scope.

Section accounting.
Context `{ContentHash, Pydantic, PolicyHash, TaLib, SignalPolicyHash, CrossHash, UniverseHash}.
Context `{Env, Digests, CallHash, Plans}.

Definition call_key (v : CallValues) : string :=
  call_identity (cv_invocation_id v) (cv_sequence v).
(** Every row stands under the identity of its own call. *)
Definition keyed (d : DB) : Prop :=
  ∀ key row, t_calls d !! key = Some row → key = call_key (cr_values row).
(** The table only grows, and stays keyed. *)
Definition calls_grow (d d' : DB) : Prop := t_calls d ⊆ t_calls d' ∧ (keyed d → keyed d').
#[export] Instance calls_grow_preorder : PreOrder calls_grow.
Proof.
  split; [done|]. intros d1 d2 d3 [S1 K1] [S2 K2]. split; [by etrans|auto].
Qed.
Lemma calls_grow_same d d' : t_calls d' = t_calls d → calls_grow d d'.
Proof. intros Heq. unfold calls_grow, keyed. by rewrite Heq. Qed.
Lemma grow_kept {A T} (f : DB → T) (m : M World A) :
  (∀ d d', f d' = f d → t_calls d' = t_calls d) →
  Respects (kept f) m → Respects calls_grow m.
Proof. intros Hf Hm d. by eapply wpd_mono; [apply Hm|intros ? ? ?%Hf%calls_grow_same..]. Qed.
Lemma grow_aside {A} (m : M World A) : Respects aside m → Respects calls_grow m.
Proof. intros Hm d. by eapply wpd_mono; [apply Hm|intros ? ? [_ _ ?%calls_grow_same _ _]..]. Qed.

(** The row of a call is present, with the fingerprint of its values. *)
Definition accounted (v : CallValues) (d : DB) : Prop :=
  ∃ row, t_calls d !! call_key v = Some row ∧ cr_content_hash row = call_fingerprint v.
Lemma accounted_grow v d d' : calls_grow d d' → accounted v d → accounted v d'.
Proof. intros [Hs _] (row & Hr & Hf). exists row. split; [by eapply lookup_weaken|done]. Qed.
Lemma wpd_insert_call v Q E d :
  (∀ d', calls_grow d d' → accounted v d' →
    (t_calls d !! call_key v = None → ∃ t, t_calls d' !! call_key v =
       Some (mkCallRow v (call_fingerprint v) t)) → Q () d') →
  (∀ e, E e d) → wpd (insert_call v) Q E d.
Proof.
  intros HQ HE. unfold insert_call. fold (call_key v). cbv zeta. do 2 wpd_step.
  destruct (t_calls d !! call_key v) as [row|] eqn:Hrow; simpl.
  - wpd_step; [done|]. bool_norm. apply HQ; [done|by exists row|congruence].
  - do 2 wpd_step. do 2 wpd_step. do 2 wpd_step; [done|]. wpd_step; [|done]. simpl. apply HQ; simpl.
    + split; simpl; [by apply insert_subseteq|]. intros Hk key r. simpl.
      intros [[<- <-]|[_ Hr]]%lookup_insert_Some; [done|by apply Hk].
    + exists (mkCallRow v (call_fingerprint v) t). simpl. by rewrite lookup_insert_eq.
    + intros _. exists t. by rewrite lookup_insert_eq.
Qed.
#[export] Instance grow_insert_call v : Respects calls_grow (insert_call v).
Proof. intros d. apply wpd_insert_call; done. Qed.
#[export] Instance grow_start h job component provider model reservation kind :
  Respects calls_grow (start_call h job component provider model reservation kind).
Proof. unfold start_call. cbv zeta. apply _. Qed.
#[export] Instance grow_receipt i entry : Respects calls_grow (insert_receipt i entry).
Proof. unfold insert_receipt. destruct entry. apply _. Qed.
#[export] Instance grow_finish h i started receipts success :
  Respects calls_grow (finish_call h i started receipts success).
Proof. unfold finish_call. apply _. Qed.
#[export] Instance grow_reported id r u job j :
  Respects calls_grow (record_reported_usage id r u job j).
Proof. unfold record_reported_usage. apply _. Qed.
#[local] Hint Extern 1 (Within calls_grow _) =>
  (let d := fresh in intros d; by apply calls_grow_same) : typeclass_instances.
#[export] Instance grow_settle_row id r u : Respects calls_grow (settle_row id r u).
Proof. unfold settle_row. apply _. Qed.
#[export] Instance grow_reserve h l requests : Respects calls_grow (reserve_many h l requests).
Proof. unfold reserve_many, reserve_one. apply _. Qed.
Lemma grow_enqueue_alert h id event key channel :
  Respects calls_grow (enqueue_alert h id event key channel).
Proof.
  unfold enqueue_alert. apply respects_bind; [apply _|apply grow_aside, _|].
  intros [v|]; [|apply _]. destruct (message_of event) as [message|]; apply _.
Qed.
Lemma grow_side op : Respects calls_grow (run_side op).
Proof.
  destruct op; simpl; unfold discard, settle, reconcile_job, settle_call, settle_agent; try apply _.
  all: first [ apply (grow_kept not_providers); [unfold not_providers; congruence|apply _]
             | apply (grow_kept not_outbox); [unfold not_outbox; congruence|apply _] ].
Qed.
Lemma db_steps_grow d d' : rtc db_step d d' → calls_grow d d'.
Proof.
  induction 1 as [d|d1 d2 d3 [op k r w Hok Hrun] _ IH]; [done|]. etrans; [|exact IH].
  eapply respects_run; [|exact Hrun].
  destruct (is_side op) eqn:Hside; [|by apply grow_aside, aside_run_op].
  destruct op; try done; simpl; unfold discard.
  - apply respects_bind; [apply _|apply grow_enqueue_alert|apply _].
  - apply grow_side.
Qed.
Lemma reachable_keyed d : reachable d → keyed d.
Proof.
  intros Hd%db_steps_grow. apply Hd. intros key row Hrow. simpl in Hrow.
  by rewrite lookup_empty in Hrow.
Qed.

(** ** Starting *)

(** Identities of different invocations differ: collision resistance of the
    content hash. *)
Definition distinct_identities : Prop :=
  ∀ i n i' n', call_identity i n = call_identity i' n' → i = i'.
Lemma invocation_started_spec invocation d :
  invocation_started invocation d = true ↔
  ∃ key row, t_calls d !! key = Some row ∧ cv_invocation_id (cr_values row) = invocation.
Proof.
  unfold invocation_started. rewrite existsb_true. split.
  - intros (row & [key Hk]%elem_of_rows & Hi). bool_norm. eauto.
  - intros (key & row & Hk & Hi). exists row. split; [apply elem_of_rows; eauto|].
    by apply bool_decide_eq_true.
Qed.
Lemma started_grow invocation d d' :
  calls_grow d d' → invocation_started invocation d = true → invocation_started invocation d' = true.
Proof.
  rewrite !invocation_started_spec. intros [Hs _] (key & row & Hk & Hi).
  exists key, row. split; [by eapply lookup_weaken|done].
Qed.
(** The invocation a reserved call runs under. *)
Lemma wpd_start_reserved h job component provider model r kind d :
  distinct_identities → keyed d → truthy r = true →
  wpd (start_call h job component provider model (Some r) kind)
    (λ i d', invocation_started (reservation_invocation r) d = false ∧
             ci_invocation_id i = reservation_invocation r ∧
             invocation_started (reservation_invocation r) d' = true)
    (λ _ d', d' = d) d.
Proof.
  intros Hinj Hk Hr. unfold start_call. rewrite Hr. do 3 wpd_step. cbv zeta.
  wpd_step. apply wpd_reads; [apply _| |done]. intros j. do 2 wpd_step; [done|].
  wpd_step. apply wpd_reads; [apply _| |done]. intros [].
  do 2 wpd_step. wpd_step. apply wpd_raise_if; [done|]. intros Hfresh. wpd_step.
  apply wpd_reads; [apply _| |done]. intros o.
  wpd_step. apply wpd_insert_call; [|done]. intros d' _ _ Hnew. wpd_step. split_and!; try done.
  apply invocation_started_spec.
  destruct (t_calls d !! call_key (started_values (mkCallIdentity o (reservation_invocation r)
    (Some r) component provider model kind))) as [row|] eqn:Hrow.
  - exfalso. apply not_true_iff_false in Hfresh. apply Hfresh, invocation_started_spec.
    eexists _, row. split; [exact Hrow|]. symmetry. eapply Hinj. exact (Hk _ _ Hrow).
  - destruct (Hnew eq_refl) as [t Ht]. eexists _, _. by split.
Qed.
Lemma wpd_start_refused h job component provider model r kind d :
  truthy r = true → invocation_started (reservation_invocation r) d = true →
  wpd (start_call h job component provider model (Some r) kind) (λ _ _, False) (λ _ d', d' = d) d.
Proof.
  intros Hr Hstarted. unfold start_call. rewrite Hr. do 3 wpd_step. cbv zeta.
  wpd_step. apply wpd_reads; [apply _| |done]. intros j. do 2 wpd_step; [done|].
  wpd_step. apply wpd_reads; [apply _| |done]. intros []. do 2 wpd_step. do 2 wpd_step; [done|].
  congruence.
Qed.

(** C38. A reserved call is paid for at most once: after one worker has durably
    started the call of a reservation, whatever happens in between, any later
    [invoke] with that reservation raises before its operation runs (the result
    and the database are the same whatever the operation is) and writes
    nothing. *)
Theorem reserved_call_runs_once h job component provider model r kind d k i w d' :
  distinct_identities → reachable d → truthy r = true →
  start_call h job component provider model (Some r) kind (mkWorld d k) = (inr i, w) →
  rtc db_step (w_db w) d' →
  ∀ h' job' component' provider' model' kind' k', ∃ e w',
    w_db w' = d' ∧
    ∀ T (operation : M World (Metered T)),
      invoke h' job' component' provider' model' operation (Some r) kind' (mkWorld d' k') =
      (inl e, w').
Proof.
  intros Hinj Hd Hr Hstart Hrun h' job' component' provider' model' kind' k'.
  pose proof (wpd_run _ _ _ _ _ _ _
    (wpd_start_reserved h job component provider model r kind d Hinj (reachable_keyed _ Hd) Hr) Hstart)
    as (_ & _ & Hbegun).
  pose proof (started_grow _ _ _ (db_steps_grow _ _ Hrun) Hbegun) as Hbegun'.
  pose proof (wpd_start_refused h' job' component' provider' model' r kind' d' Hr Hbegun') as Href.
  unfold invoke. destruct (start_call h' job' component' provider' model' (Some r) kind'
    (mkWorld d' k')) as [[e|i'] w'] eqn:Hagain;
    pose proof (wpd_run _ _ _ _ _ _ _ Href Hagain) as Hres; simpl in Hres; [|done].
  exists e, w'. split; [done|]. intros T operation. unfold mbind, m_bind. by rewrite Hagain.
Qed.

(** ** Finishing *)
Lemma enumerate_lookup {A} (l : list A) n (m : nat) x :
  l !! m = Some x → (n + Z.of_nat m, x) ∈ enumerate n l.
Proof.
  revert n m. induction l as [|y l IH]; intros n m; [done|]. destruct m as [|m].
  - intros [= ->]. rewrite Z.add_0_r. left.
  - intros Hm. replace (n + Z.of_nat (S m)) with (n + 1 + Z.of_nat m) by lia. right. by apply IH.
Qed.
(** A receipt of the call's own provider and model, with its row. *)
Definition receipt_accounted (i : CallIdentity) (entry : Z * InferenceReceipt) (d : DB) : Prop :=
  ir_provider entry.2 = ci_provider i ∧ Some (ir_model entry.2) = ci_model i ∧
  ∃ v, receipt_values i entry.1 entry.2 = inr v ∧ accounted v d.
Lemma receipt_grow i entry d d' :
  calls_grow d d' → receipt_accounted i entry d → receipt_accounted i entry d'.
Proof.
  intros Hg (Hp & Hm & v & Hv & Ha). split_and!; try done. exists v.
  split; [done|by eapply accounted_grow].
Qed.
Lemma wpd_receipts i l d :
  wpd (for_each l (insert_receipt i))
    (λ _ d', calls_grow d d' ∧ ∀ e, e ∈ l → receipt_accounted i e d') (λ _ _, True) d.
Proof.
  revert d. induction l as [|[n r] l IH]; intros d; simpl.
  { apply wpd_ret. split; [done|]. by intros e ?%elem_of_nil. }
  wpd_step. unfold insert_receipt at 1. do 2 wpd_step; [done|]. do 2 wpd_step; [|done].
  apply wpd_insert_call; [|done]. intros d1 Hg Ha _.
  eapply wpd_mono; [apply IH| |done]. intros [] d2 [Hg2 Hl]. split; [by etrans|].
  intros e [->|He]%elem_of_cons; [|by apply Hl]. eapply receipt_grow; [done|].
  bool_norm. split_and!; try done. eauto.
Qed.

(** The end of a call: when its accounting returns, the worker still held
    a valid lease, every receipt came from the call's own provider and model
    and has its row, and the final row states whether the call succeeded; when
    it raises, for instance because the lease was lost, nothing is written, so
    the durable start stays unresolved rather than free. *)
Theorem finished_call_accounted h i started receipts success d k res w :
  finish_call h i started receipts success (mkWorld d k) = (res, w) →
  match res with
  | inl _ => w_db w = d
  | inr _ =>
      (∃ j t1 t2, t_jobs d !! ow_job_id (ci_owner i) = Some j ∧
         lease_valid (h_claim h) (ow_job_id (ci_owner i)) j t1 t2 = true) ∧
      (∀ n r, receipts !! n = Some r →
         receipt_accounted i (1 + Z.of_nat n, r) (w_db w)) ∧
      (∃ ms, accounted (finished_values i success ms) (w_db w)) ∧
      t_calls d ⊆ t_calls (w_db w)
  end.
Proof.
  intros Hrun.
  assert (Hwp : wpd (finish_call h i started receipts success) (λ _ d',
      (∃ j t1 t2, t_jobs d !! ow_job_id (ci_owner i) = Some j ∧
         lease_valid (h_claim h) (ow_job_id (ci_owner i)) j t1 t2 = true) ∧
      calls_grow d d' ∧ (∀ e, e ∈ enumerate 1 receipts → receipt_accounted i e d') ∧
      ∃ ms, accounted (finished_values i success ms) d') (λ _ d', d' = d) d).
  { unfold finish_call, owned_job. wpd_step. do 3 wpd_step. do 2 wpd_step; [|done].
    do 4 wpd_step. do 2 wpd_step; [done|]. do 2 wpd_step.
    eapply wpd_mono; [apply wpd_receipts| |done]. intros [] d1 [Hg Hl].
    do 2 wpd_step. do 2 wpd_step; [|done]. apply wpd_insert_call; [|done]. intros d2 Hg2 Ha _.
    bool_norm. split_and!; [by eauto|by etrans| |by eauto].
    intros e He. by eapply receipt_grow, Hl. }
  pose proof (wpd_run _ _ _ _ _ _ _ Hwp Hrun) as Hres. destruct res as [e|[]]; [done|].
  destruct Hres as (Hlease & [Hg _] & Hl & Hfin). split_and!; try done.
  intros n r Hn. by apply Hl, enumerate_lookup.
Qed.
End accounting.
