(* ===== verification/Resilience.v ===== *)
(** * The circuit protects its provider

    One provider's circuit under any interleaving of workers: the calls in
    flight are part of the state, each with the generation it was admitted
    under. *)

From S2P Require Import Prelude Effects PyNum PyText Contracts Demo Eligibility Governance.
From S2P Require Import Market Signals CrossExam Universe Schema Store Complete StoreLogic.
From S2P Require Import StoreInv StoreOps Frames Metering Budgets Circuit Alerts Beside Lifecycle.
#[local] Open Scope Z_scope.

Section resilience.
Context `{ContentHash, Pydantic, PolicyHash, TaLib, SignalPolicyHash, CrossHash, UniverseHash}.
Context `{Env, Digests, CallHash, Plans}.
Variables (c : Circuit) (provider : string).

Definition row_of (d : DB) : option ProviderState := t_providers d !! provider.
(** The database and the generations of the calls in flight. *)
Definition State : Type := DB * list Z.
Inductive circuit_step : State → State → Prop :=
  | circuit_admits d flights k g w :
      enter c provider (mkWorld d k) = (inr g, w) →
      circuit_step (d, flights) (w_db w, g :: flights)
  | circuit_refuses d flights k e w :
      enter c provider (mkWorld d k) = (inl e, w) → circuit_step (d, flights) (w_db w, flights)
  | circuit_records d before g after success duration k r w :
      record_result c provider success duration g (mkWorld d k) = (r, w) →
      circuit_step (d, before ++ g :: after) (w_db w, before ++ after)
  | circuit_elsewhere d d' flights :
      row_of d' = row_of d → circuit_step (d, flights) (d', flights).

(** Calls in flight that may still change the circuit. *)
Definition current_flights (p : ProviderState) (flights : list Z) : Z :=
  count_by (λ g, g =? ps_generation p) flights.
Record circuit_ok (p : ProviderState) (flights : list Z) : Prop := {
  ck_flights : ∀ g, g ∈ flights → g ≤ ps_generation p;
  ck_open : is_Some (ps_open_until p) ↔ ct_threshold c ≤ ps_failures p;
  ck_probe : is_Some (ps_open_until p) → current_flights p flights ≤ 1;
  ck_counts : 0 ≤ ps_failures p ≤ ps_total_failures p ∧ ps_total_failures p ≤ ps_calls p;
}.
Definition circuit_inv (s : State) : Prop :=
  match row_of s.1 with
  | Some p => circuit_ok p s.2
  | None => s.2 = []
  end.

(** ** The two transactions *)
Lemma wpd_enter Q E d :
  (row_of d = None → ∀ t, Q 0 (d <| t_providers ::= insert provider
     (mkProvider 0 None 0 0 None None 0 t) |>)) →
  (∀ p, row_of d = Some p → ps_open_until p = None → Q (ps_generation p) d) →
  (∀ p t u, row_of d = Some p → ps_open_until p = Some u → u ≤ t →
     Q (ps_generation p + 1) (d <| t_providers ::= insert provider
       (p <| ps_open_until := Some (t + seconds (ct_cooldown c)) |>
          <| ps_generation := ps_generation p + 1 |>) |>)) →
  (∀ e, E e d) → wpd (enter c provider) Q E d.
Proof.
  intros HN HC HO HE. unfold enter, put_provider. cbv zeta. do 2 wpd_step. do 2 wpd_step.
  wpd_step. fold (row_of d). destruct (row_of d) as [p|] eqn:Hrow.
  - destruct (ps_open_until p) as [u|] eqn:Hu; [|by wpd_step; eapply HC].
    do 2 wpd_step; [done|]. do 2 wpd_step. wpd_step. eapply HO; [done|done|]. bool_norm. lia.
  - do 2 wpd_step; [|done]. wpd_step. by apply HN.
Qed.
Lemma wpd_record success duration g Q E d :
  (∀ p t, row_of d = Some p → Q () (d <| t_providers ::= insert provider
     (recorded c t success duration g p) |>)) →
  (row_of d = None → ∀ e, E e d) → wpd (record_result c provider success duration g) Q E d.
Proof.
  intros HQ HE. unfold record_result, put_provider. do 2 wpd_step. wpd_step. do 3 wpd_step.
  apply wpd_expect; [|by intros Hn; apply HE]. intros p Hp. wpd_step. by eapply HQ.
Qed.
Lemma row_of_put d p : row_of (d <| t_providers ::= insert provider p |>) = Some p.
Proof. unfold row_of. simpl. by rewrite lookup_insert_eq. Qed.

Lemma count_none {A} (f : A → bool) l : (∀ x, x ∈ l → f x = false) → count_by f l = 0.
Proof.
  induction l as [|x l IH]; intros Hl; [done|]. rewrite count_by_cons, IH.
  - rewrite (Hl x); [done|left].
  - intros y Hy. apply Hl. by right.
Qed.
Lemma count_by_app {A} (f : A → bool) l1 l2 : count_by f (l1 ++ l2) = count_by f l1 + count_by f l2.
Proof. induction l1 as [|x l IH]; [done|]. rewrite <- app_comm_cons, !count_by_cons, IH. lia. Qed.

(** ** Preservation *)
Hypothesis positive : 1 ≤ ct_threshold c.

Lemma ok_probe p t flights : circuit_ok p flights → is_Some (ps_open_until p) →
  circuit_ok (p <| ps_open_until := Some t |> <| ps_generation := ps_generation p + 1 |>)
    (ps_generation p + 1 :: flights).
Proof.
  intros [Hf Ho _ Hc] Hopen. split; simpl; [| |intros _|done].
  - intros g [->|Hg%Hf]%elem_of_cons; lia.
  - split; [by intros _; apply Ho|eauto].
  - unfold current_flights. rewrite count_by_cons, count_none; simpl.
    + rewrite Z.eqb_refl. done.
    + intros g Hg%Hf. apply Z.eqb_neq. lia.
Qed.
Lemma ok_record p t success duration before g after :
  circuit_ok p (before ++ g :: after) →
  circuit_ok (recorded c t success duration g p) (before ++ after).
Proof.
  intros [Hf Ho Hp Hc].
  assert (Hsub : ∀ x, x ∈ before ++ after → x ≤ ps_generation p).
  { intros x Hx. apply Hf. apply elem_of_app. apply elem_of_app in Hx as [Hx|Hx]; [by left|].
    right. by right. }
  unfold recorded. destruct (Z.eqb_spec (ps_generation p) g) as [Hg|Hg]; simpl.
  - split; simpl.
    + intros x Hx%Hsub. case_match; lia.
    + destruct success; simpl; case_match; bool_norm; split; eauto; try lia; by intros [? ?].
    + intros Hopen. unfold current_flights. simpl.
      assert (is_set (if ct_threshold c <=? (if success then 0 else ps_failures p + 1)
        then Some (t + seconds (ct_cooldown c)) else None) = true) as ->.
      { by case_match; [|destruct Hopen]. }
      simpl. rewrite count_none; [done|]. intros x Hx%Hsub. apply Z.eqb_neq. lia.
    + destruct success; lia.
  - split; simpl; [done|done| |destruct success; lia].
    intros Hopen%Hp. unfold current_flights in *. simpl in *. revert Hopen.
    rewrite !count_by_app, count_by_cons.
    destruct (Z.eqb_spec g (ps_generation p)); [congruence|]. lia.
Qed.
Lemma circuit_step_inv s s' : circuit_step s s' → circuit_inv s → circuit_inv s'.
Proof.
  intros [d fl k g w Hrun|d fl k e w Hrun|d b g a success du k r w Hrun|d d' fl Heq] Hinv;
    unfold circuit_inv in *; simpl in *.
  - refine (wpd_run _ _ (λ _ _, True) _ _ _ _ (wpd_enter (λ g d',
      match row_of d' with Some p => circuit_ok p (g :: fl) | None => g :: fl = [] end)
      (λ _ _, True) d _ _ _ _) Hrun); [..|done].
    + intros Hrow t. rewrite row_of_put. rewrite Hrow in Hinv. subst fl. split; simpl.
      * intros x ->%list_elem_of_singleton. done.
      * split; [by intros [? ?]|lia].
      * by intros [? ?].
      * lia.
    + intros p Hrow Hclosed. rewrite Hrow in *. destruct Hinv as [Hf Ho Hp Hc]. split; try done.
      * intros x [->|Hx]%elem_of_cons; [lia|by apply Hf].
      * intros [? ?]. congruence.
    + intros p t u Hrow Hopen _. rewrite row_of_put. rewrite Hrow in Hinv. by apply ok_probe; eauto.
  - assert (w_db w = d) as ->; [|done].
    refine (wpd_run _ (λ _ _, True) (λ _ d', d' = d) _ _ _ _ _ Hrun). by apply wpd_enter.
  - assert (Hwp : wpd (record_result c provider success du g)
      (λ _ d', circuit_inv (d', b ++ a)) (λ _ _, False) d).
    { unfold circuit_inv. simpl. apply wpd_record.
      - intros p t Hrow. rewrite row_of_put. rewrite Hrow in Hinv. by apply ok_record.
      - intros Hrow. rewrite Hrow in Hinv. by destruct b. }
    pose proof (wpd_run _ _ _ _ _ _ _ Hwp Hrun). by destruct r.
  - by rewrite Heq.
Qed.


(** ** Whole calls *)

Lemma enter_closed p d k : row_of d = Some p → ps_open_until p = None →
  enter c provider (mkWorld d k) = (inr (ps_generation p), mkWorld d (S k)).
Proof.
  intros Hrow Hopen. unfold row_of in Hrow. unfold enter, transaction, mbind, m_bind. simpl.
  rewrite Hrow. simpl. by rewrite Hopen.
Qed.
Lemma enter_first d k : row_of d = None →
  enter c provider (mkWorld d k) = (inr 0, mkWorld (d <| t_providers ::= insert provider
    (mkProvider 0 None 0 0 None None 0 (now_at k)) |>) (S k)).
Proof.
  intros Hrow. unfold row_of in Hrow. unfold enter, transaction, insert_unique, mbind, m_bind.
  simpl. rewrite Hrow. simpl. by rewrite Hrow.
Qed.
Lemma enter_probe p u d k : row_of d = Some p → ps_open_until p = Some u → u ≤ now_at k →
  enter c provider (mkWorld d k) = (inr (ps_generation p + 1),
    mkWorld (d <| t_providers ::= insert provider
      (p <| ps_open_until := Some (now_at k + seconds (ct_cooldown c)) |>
         <| ps_generation := ps_generation p + 1 |>) |>) (S k)).
Proof.
  intros Hrow Hopen Hnow. unfold row_of in Hrow. unfold enter, transaction, mbind, m_bind. simpl.
  rewrite Hrow. simpl. rewrite Hopen. destruct (Z.ltb_spec (now_at k) u); [lia|done].
Qed.
Lemma enter_open p u d k : row_of d = Some p → ps_open_until p = Some u → now_at k < u →
  enter c provider (mkWorld d k) =
  (inl (Exn ProviderFailure "PROVIDER_CIRCUIT_OPEN"), mkWorld d (S k)).
Proof.
  intros Hrow Hopen Hnow. unfold row_of in Hrow. unfold enter, transaction, mbind, m_bind. simpl.
  rewrite Hrow. simpl. rewrite Hopen. destruct (Z.ltb_spec (now_at k) u); [done|lia].
Qed.
Lemma record_run p success duration g d k : row_of d = Some p →
  record_result c provider success duration g (mkWorld d k) =
  (inr (), mkWorld (d <| t_providers ::= insert provider
     (recorded c (now_at k) success duration g p) |>) (S k)).
Proof.
  intros Hrow. unfold row_of in Hrow. unfold record_result, transaction, mbind, m_bind. simpl.
  by rewrite Hrow.
Qed.

(** While a circuit is open no call reaches the provider: whatever the
    operation is, [call] raises [PROVIDER_CIRCUIT_OPEN] and changes nothing. *)
Theorem open_circuit_refuses p u d k :
  row_of d = Some p → ps_open_until p = Some u → now_at k < u →
  ∀ T h (operation : M World (Metered T)),
    circuit_call h c provider operation (mkWorld d k) =
    (inl (Exn ProviderFailure "PROVIDER_CIRCUIT_OPEN"), mkWorld d (S k)).
Proof.
  intros Hrow Hopen Hnow T h operation. unfold circuit_call, mbind at 1, m_bind at 1.
  by rewrite (enter_open p u).
Qed.

(** The provider's operation always returns, or always raises, and leaves the
    circuit's own table alone. *)
Definition always {T} (h : Handle) (operation : M World (Metered T)) (r : exn + T) : Prop :=
  ∀ w, ∃ w', provider_operation h provider operation w = (r, w') ∧
             t_providers (w_db w') = t_providers (w_db w).

(** A call that raises after it was admitted under the current generation. *)
Lemma failing_call {T} h (operation : M World (Metered T)) e p d d1 k :
  always h operation (inl e) →
  enter c provider (mkWorld d k) = (inr (ps_generation p), mkWorld d1 (S k)) →
  row_of d1 = Some p →
  ∃ w t duration, circuit_call h c provider operation (mkWorld d k) = (inl e, w) ∧
    row_of (w_db w) = Some (recorded c t false duration (ps_generation p) p).
Proof.
  intros Hop Henter Hrow. unfold circuit_call, mbind, m_bind. rewrite Henter. simpl.
  unfold catch. destruct (Hop (mkWorld d1 (S (S k)))) as ([d2 k2] & Hrun & Hkeep).
  rewrite Hrun. simpl in *. rewrite (record_run p); [|unfold row_of in *; by rewrite Hkeep].
  eexists _, _, _. split; [reflexivity|]. apply row_of_put.
Qed.
(** [n] calls in a row. *)
Fixpoint calls {T} (h : Handle) (operation : M World (Metered T)) (n : nat) (w : World)
    : list (exn + T) * World :=
  match n with
  | O => ([], w)
  | S n' =>
      let '(rs, w1) := calls h operation n' w in
      let '(r, w2) := circuit_call h c provider operation w1 in (rs ++ [r], w2)
  end.
Lemma calls_fail {T} h (operation : M World (Metered T)) e n w :
  always h operation (inl e) → row_of (w_db w) = None → Z.of_nat n ≤ ct_threshold c → (0 < n)%nat →
  ∃ w' p t, calls h operation n w = (replicate n (inl e), w') ∧ row_of (w_db w') = Some p ∧
    ps_failures p = Z.of_nat n ∧
    ps_open_until p = (if ct_threshold c <=? Z.of_nat n
                       then Some (t + seconds (ct_cooldown c)) else None).
Proof.
  intros Hop Hnone Hle Hpos. induction n as [|n IH]; [lia|]. simpl calls.
  destruct (decide (n = O)) as [->|Hn].
  - destruct w as [d k]. destruct (failing_call h operation e (mkProvider 0 None 0 0 None None 0 (now_at k)) d _ k Hop
      (enter_first d k Hnone) (row_of_put _ _)) as (w1 & t & du & Hcall & Hrow). simpl. rewrite Hcall.
    eexists _, _, t. split_and!; [done|exact Hrow|done|done].
  - destruct IH as ([d k] & p & t0 & Hcalls & Hrow & Hfail & Hopen); [lia|lia|].
    rewrite Hcalls. destruct (Z.leb_spec (ct_threshold c) (Z.of_nat n)); [lia|].
    destruct (failing_call h operation e p d d k Hop (enter_closed p d k Hrow Hopen) Hrow)
      as (w1 & t & du & Hcall & Hrow1). rewrite Hcall.
    exists w1, (recorded c t false du (ps_generation p) p), t.
    split_and!; [|done| |]; unfold recorded; simpl; rewrite ?Z.eqb_refl, ?Hfail.
    + by rewrite <- replicate_cons_app.
    + lia.
    + by replace (Z.of_nat n + 1) with (Z.of_nat (S n)) by lia.
Qed.

(** A failing provider is cut off after exactly the threshold: of the calls
    to a provider that always fails, each of the first [threshold] runs and
    raises the provider's own error, and then the circuit is open for the
    cooldown. *)
Theorem circuit_opens_at_threshold {T} h (operation : M World (Metered T)) e w :
  always h operation (inl e) → row_of (w_db w) = None →
  ∃ w' p t, let n := Z.to_nat (ct_threshold c) in
    calls h operation n w = (replicate n (inl e), w') ∧ row_of (w_db w') = Some p ∧
    ps_open_until p = Some (t + seconds (ct_cooldown c)).
Proof.
  intros Hop Hnone.
  destruct (calls_fail h operation e (Z.to_nat (ct_threshold c)) w Hop Hnone)
    as (w' & p & t & Hcalls & Hrow & _ & Hopen); [lia|lia|].
  exists w', p, t. rewrite Z2Nat.id in Hopen by lia. rewrite Z.leb_refl in Hopen. by split_and!.
Qed.

(** A recovered provider is let back in: once the cooldown of an open
    circuit has passed, a call whose operation succeeds returns its result and
    leaves the circuit closed with no failures in a row, so that the next call
    is admitted too. *)
Theorem circuit_recovers {T} h (operation : M World (Metered T)) a p u d k :
  always h operation (inr a) → row_of d = Some p → ps_open_until p = Some u → u ≤ now_at k →
  ∃ w p', circuit_call h c provider operation (mkWorld d k) = (inr a, w) ∧
    row_of (w_db w) = Some p' ∧ ps_open_until p' = None ∧ ps_failures p' = 0 ∧
    ∃ g, enter c provider w = (inr g, mkWorld (w_db w) (S (w_tick w))).
Proof.
  intros Hop Hrow Hopen Hnow. unfold circuit_call, mbind, m_bind.
  rewrite (enter_probe p u) by done. simpl. unfold catch.
  set (p1 := mkProvider _ _ _ _ _ _ _ _). 
  match goal with |- context [mkWorld ?x (S (S k))] => set (d1 := x) end.
  destruct (Hop (mkWorld d1 (S (S k)))) as ([d2 k2] & Hrun & Hkeep). rewrite Hrun. simpl in Hkeep |- *.
  assert (row_of d2 = Some p1) as Hrow2 by (unfold row_of; rewrite Hkeep; apply lookup_insert_eq).
  rewrite (record_run p1) by done. eexists _, _.
  assert (ps_open_until (recorded c (now_at (S k2)) true (fsub (monotonic_at k2) (monotonic_at (S k)))
    (ps_generation p + 1) p1) = None) as Hclosed.
  { unfold recorded. simpl. rewrite Z.eqb_refl. destruct (Z.leb_spec (ct_threshold c) 0); [lia|done]. }
  split_and!; [reflexivity|apply row_of_put|exact Hclosed| |].
  - unfold recorded. simpl. by rewrite Z.eqb_refl.
  - eexists. by apply (enter_closed _ _ _ (row_of_put _ _)).
Qed.
End resilience.
