(* ===== verification/Delivery.v ===== *)
(** * Alerts are delivered, a bounded number of times

    The outbox under any interleaving of delivery workers and other calls. The
    state is the world, the deliveries in flight (an alert and the token it was
    taken under) and the alerts handed to a provider so far. *)

From S2P Require Import Prelude Effects PyNum PyText Contracts Demo Eligibility Governance.
From S2P Require Import Market Signals CrossExam Universe Schema Store Complete StoreLogic.
From S2P Require Import StoreInv StoreOps Frames Metering Budgets Circuit Alerts Beside Lifecycle.
#[local] Open Scope Z_scope.

(** ** Rows *)

(** A row as [enqueue] writes it. *)
Definition posted_row (r : OutboxRow) : Prop :=
  ob_attempts r = 0 ∧ ob_delivery_token r = None ∧ ob_delivery_lease_until r = None ∧
  (ob_channel r = web → ob_state r = DELIVERED ∧ is_Some (ob_delivered_at r)) ∧
  (ob_channel r ≠ web → ob_state r = PENDING ∧ ob_delivered_at r = None).
(** Rows are added, never changed. *)
Record posted (d d' : DB) : Prop := {
  po_kept : t_outbox d ⊆ t_outbox d';
  po_new : ∀ id r, t_outbox d' !! id = Some r → t_outbox d !! id = None → posted_row r;
}.
#[export] Instance posted_preorder : PreOrder posted.
Proof.
  split; [intros d; split; [done|congruence]|].
  intros d1 d2 d3 [O1 T1] [O2 T2]. split; [by etrans|].
  intros id r Hr Hn. destruct (t_outbox d2 !! id) as [r2|] eqn:Hr2; [|by eapply T2].
  pose proof (lookup_weaken _ _ _ _ Hr2 O2). simplify_eq. by eapply T1.
Qed.
Lemma aside_posted d d' : aside d d' → posted d d'.
Proof.
  intros [_ _ _ _ _ Ho Ht]. split; [done|]. intros id r Hr Hn.
  destruct (Ht id r Hr Hn) as (Hc & Hs & Ha & Htok & Hl & Hd). split_and!; try done.
Qed.
Lemma posted_same d d' : t_outbox d' = t_outbox d → posted d d'.
Proof. intros Heq. split; rewrite Heq; [done|congruence]. Qed.

Record alert_ok (r : OutboxRow) : Prop := {
  al_attempts : 0 ≤ ob_attempts r ≤ 3;
  al_delivered : ob_state r = DELIVERED ↔ is_Some (ob_delivered_at r);
  al_token : ob_attempts r = 0 ↔ ob_delivery_token r = None;
  al_started : ob_state r = DELIVERING ∨ ob_state r = RETRY → is_Some (ob_delivery_token r);
  al_lease : ob_state r = DELIVERING → is_Some (ob_delivery_lease_until r);
  al_web : ob_channel r = web → ob_state r = DELIVERED ∧ ob_attempts r = 0;
}.
Lemma posted_ok r : posted_row r → alert_ok r.
Proof.
  intros (Ha & Ht & Hl & Hw & Hp).
  destruct (decide (ob_channel r = web)) as [Hc|Hc].
  - destruct (Hw Hc) as [Hs Hd]. split; rewrite ?Ha, ?Ht, ?Hs; try lia; clear Hw Hp; naive_solver.
  - destruct (Hp Hc) as [Hs Hd]. split; rewrite ?Ha, ?Ht, ?Hs, ?Hd; try lia; unfold is_Some; clear Hw Hp; naive_solver.
Qed.

Section delivery.
Context `{ContentHash, Pydantic, PolicyHash, TaLib, SignalPolicyHash, CrossHash, UniverseHash}.
Context `{Env, Digests, CallHash, Plans}.

(** ** Every other call only posts *)
Lemma posted_enqueue h id event key channel : Respects posted (enqueue_alert h id event key channel).
Proof.
  unfold enqueue_alert. apply respects_bind; [apply _| |].
  { intros d. by eapply wpd_mono; [apply aside_get_job|intros ? ? ?%aside_posted..]. }
  intros [v|]; [|apply _]. destruct (message_of event) as [message|]; [|apply _].
  do 2 (apply respects_bind; [apply _..|intros _]). cbv zeta. apply respects_committed; [apply _|].
  intros d. do 2 wpd_step. wpd_step; [by wpd_step|]. do 4 wpd_step. do 2 wpd_step; [|done]. wpd_step.
  split; simpl; [by apply insert_subseteq|]. intros id' r.
  intros [[<- <-]|[_ Hr]]%lookup_insert_Some Hn; [|congruence].
  split_and!; simpl; try done; intros Hc; [rewrite bool_decide_eq_true_2 by done|
    rewrite bool_decide_eq_false_2 by done]; eauto.
Qed.
(** The calls that work the outbox. *)
Definition works_outbox (op : Op) : bool :=
  match op with Side (Alert_claim _ _) | Side (Alert_finish _ _ _) => true | _ => false end.
Lemma posted_run_op op : op_ok op → works_outbox op = false → Respects posted (run_op op).
Proof.
  intros Hok Hw. assert (Hk : ∀ A T (f : DB → T) (m : M World A),
    (∀ d d', f d' = f d → t_outbox d' = t_outbox d) → Respects (kept f) m → Respects posted m).
  { intros A T f m Hf Hm d. by eapply wpd_mono; [apply Hm|intros ? ? ?%Hf%posted_same..]. }
  destruct (is_side op) eqn:Hside.
  2: { intros d. by eapply wpd_mono; [by apply aside_run_op|intros ? ? ?%aside_posted..]. }
  destruct op as [| | | | | | | | | | | | |h id event key channel|op]; try done; simpl; unfold discard.
  { apply respects_bind; [apply _|apply posted_enqueue|apply _]. }
  destruct op; try done; simpl; unfold discard;
    first [ apply (Hk _ _ not_calls); [unfold not_calls; congruence|apply _]
          | apply (Hk _ _ not_spending); [unfold not_spending; congruence|apply _]
          | apply (Hk _ _ not_providers); [unfold not_providers; congruence|apply _] ].
Qed.

(** ** Delivery workers *)
Record Outbox := mkOutboxState {
  ox_world : World;
  ox_flights : list (string * string);
  ox_sent : list string
}.
Inductive outbox_step : Outbox → Outbox → Prop :=
  | outbox_takes h providers w flights sent id token message provider w' :
      claim_alert h providers w = (inr (Taken id token message provider), w') →
      outbox_step (mkOutboxState w flights sent)
        (mkOutboxState w' ((id, token) :: flights) (id :: sent))
  | outbox_settles h providers w flights sent r w' :
      claim_alert h providers w = (inr r, w') → r = Nothing_due ∨ r = Settled →
      outbox_step (mkOutboxState w flights sent) (mkOutboxState w' flights sent)
  | outbox_finishes w before id token after sent delivered r w' :
      finish_alert id token delivered w = (r, w') →
      outbox_step (mkOutboxState w (before ++ (id, token) :: after) sent)
        (mkOutboxState w' (before ++ after) sent)
  | outbox_elsewhere w w' flights sent :
      posted (w_db w) (w_db w') → (w_tick w ≤ w_tick w')%nat →
      outbox_step (mkOutboxState w flights sent) (mkOutboxState w' flights sent).

(** The row a worker finds, and what it does with it. *)
Lemma next_alert_spec h locked stamp d id r : next_alert h locked stamp d = Some (id, r) →
  t_outbox d !! id = Some r ∧ ob_state r ∈ due_states ∧ takeable stamp r = true.
Proof.
  unfold next_alert. intros Hf. apply List.find_some in Hf as [Hin Ht].
  apply list_elem_of_In in Hin. simpl in Ht.
  assert (Hin' : (id, r) ∈ List.filter (λ ir, mem (ob_state ir.2) due_states &&
    alert_scope h ir.2 && negb (locked ir.1)) (map_to_list (t_outbox d))).
  { rewrite <- (sort_asc_perm (λ ir, ob_created_at ir.2)). by eapply subseteq_take. }
  apply elem_of_List_filter in Hin' as [Hm Hp]. simpl in Hp. bool_norm.
  apply elem_of_map_to_list in Hm. done.
Qed.
Definition blocked (providers : AlertChannel → option AlertProvider) (r : OutboxRow) : bool :=
  negb (bool_decide (ob_channel r = web)) &&
  match providers (ob_channel r) with Some p => negb (ap_supports_idempotency p) | None => true end.
Definition taken (r : OutboxRow) (token : string) (stamp : Z) : OutboxRow :=
  r <| ob_state := DELIVERING |> <| ob_attempts := ob_attempts r + 1 |>
    <| ob_delivery_token := Some token |>
    <| ob_delivery_lease_until := Some (stamp + seconds 60) |>.
Definition finished (r : OutboxRow) (delivered : bool) (t : Z) : OutboxRow :=
  r <| ob_state := if delivered then DELIVERED else RETRY |>
    <| ob_delivered_at := if delivered then Some t else None |>.
Definition with_row (id : string) (r : OutboxRow) (d : DB) : DB :=
  d <| t_outbox ::= insert id r |>.
Inductive claims (providers : AlertChannel → option AlertProvider) (d : DB) (k : nat)
    : Delivery → DB → nat → Prop :=
  | claims_nothing : claims providers d k Nothing_due d (S (S k))
  | claims_blocked id r :
      t_outbox d !! id = Some r → ob_state r ∈ due_states → blocked providers r = true →
      claims providers d k Settled (with_row id (r <| ob_state := BLOCKED_CONFIGURATION |>) d)
        (S (S k))
  | claims_failed id r :
      t_outbox d !! id = Some r → ob_state r ∈ due_states → blocked providers r = false →
      3 ≤ ob_attempts r →
      claims providers d k Settled (with_row id (r <| ob_state := ALERT_FAILED |>) d) (S (S k))
  | claims_taken id r :
      t_outbox d !! id = Some r → ob_state r ∈ due_states → takeable (now_at k) r = true →
      blocked providers r = false → ob_attempts r < 3 →
      claims providers d k
        (Taken id (uuid_at (S (S k))) (mkMessage (ob_event r) (ob_message r) (ob_job r))
           (providers (ob_channel r)))
        (with_row id (taken r (uuid_at (S (S k))) (now_at k)) d) (S (S (S k))).
Lemma claim_alert_cases h providers d k res w :
  claim_alert h providers (mkWorld d k) = (res, w) →
  ∃ r, res = inr r ∧ claims providers d k r (w_db w) (w_tick w).
Proof.
  unfold claim_alert, transaction, mbind, m_bind. simpl.
  destruct (next_alert h (row_locked (S k)) (now_at k) d) as [[id r]|] eqn:Hnext; simpl.
  2: { intros [= <- <-]. eexists. split; [done|constructor]. }
  apply next_alert_spec in Hnext as (Hr & Hs & Ht).
  fold (blocked providers r). destruct (blocked providers r) eqn:Hb.
  { intros [= <- <-]. eexists. split; [done|]. by eapply claims_blocked. }
  destruct (Z.leb_spec 3 (ob_attempts r)); intros [= <- <-]; eexists; (split; [done|]).
  - by eapply claims_failed.
  - by eapply claims_taken.
Qed.
Inductive finishes (id token : string) (delivered : bool) (d : DB) : DB → Prop :=
  | finishes_lost : (∀ r, t_outbox d !! id = Some r → ob_delivery_token r ≠ Some token) →
      finishes id token delivered d d
  | finishes_owned r t : t_outbox d !! id = Some r → ob_delivery_token r = Some token →
      finishes id token delivered d (with_row id (finished r delivered t) d).
Lemma finish_alert_cases id token delivered w res w' :
  finish_alert id token delivered w = (res, w') →
  finishes id token delivered (w_db w) (w_db w') ∧ (w_tick w ≤ w_tick w')%nat.
Proof.
  destruct w as [d k]. unfold finish_alert, transaction, mbind, m_bind. simpl.
  destruct (t_outbox d !! id) as [r|] eqn:Hr; simpl.
  2: { intros [= <- <-]. split; [|done]. constructor. intros r0 Hr0. simpl in Hr0. congruence. }
  case_bool_decide as Ht; simpl; intros [= <- <-]; simpl; (split; [|lia]).
  - by eapply finishes_owned.
  - constructor. intros r0 Hr0. simpl in Hr0. congruence.
Qed.

(** ** The invariant *)
Definition sent_times (id : string) (sent : list string) : Z :=
  count_by (λ i, bool_decide (i = id)) sent.
(** An identifier the environment has already produced. *)
Definition issued (k : nat) (token : string) : Prop := ∃ i, (i < k)%nat ∧ token = uuid_at i.
Definition concluded (r : OutboxRow) : Prop := ob_state r = DELIVERED ∨ ob_state r = RETRY.
Record outbox_inv (s : Outbox) : Prop := {
  oi_rows : ∀ id r, t_outbox (w_db (ox_world s)) !! id = Some r →
    alert_ok r ∧ ob_attempts r = sent_times id (ox_sent s);
  oi_absent : ∀ id, t_outbox (w_db (ox_world s)) !! id = None → sent_times id (ox_sent s) = 0;
  oi_tokens : ∀ id r token, t_outbox (w_db (ox_world s)) !! id = Some r →
    ob_delivery_token r = Some token → issued (w_tick (ox_world s)) token;
  oi_flights : ∀ f, f ∈ ox_flights s →
    is_Some (t_outbox (w_db (ox_world s)) !! f.1) ∧ issued (w_tick (ox_world s)) f.2;
  oi_nodup : NoDup (ox_flights s);
  oi_done : ∀ id r token, t_outbox (w_db (ox_world s)) !! id = Some r → concluded r →
    ob_delivery_token r = Some token → (id, token) ∉ ox_flights s;
}.
Lemma issued_later k k' token : (k ≤ k')%nat → issued k token → issued k' token.
Proof. intros Hk (i & Hi & Ht). exists i. split; [lia|done]. Qed.

(** A change of one row that keeps its attempts and its token. *)
Lemma put_inv d k k' id r r' fl fl' sent :
  outbox_inv (mkOutboxState (mkWorld d k) fl sent) → t_outbox d !! id = Some r →
  alert_ok r' → ob_attempts r' = ob_attempts r → ob_delivery_token r' = ob_delivery_token r →
  (∀ f, f ∈ fl' → f ∈ fl) → NoDup fl' →
  (∀ token, concluded r' → ob_delivery_token r = Some token → (id, token) ∉ fl') →
  (k ≤ k')%nat → outbox_inv (mkOutboxState (mkWorld (with_row id r' d) k') fl' sent).
Proof.
  intros [Hr Ha Ht Hf _ Hd] Hid Hok Hatt Htok Hsub Hnd Hconc Hk. simpl in *. split; simpl; try done.
  - intros id' r0 [[<- <-]|[_ Hr0]]%lookup_insert_Some; [|by apply Hr].
    split; [done|]. rewrite Hatt. by apply Hr.
  - intros id' [Hn _]%lookup_insert_None. by apply Ha.
  - intros id' r0 token [[<- <-]|[_ Hr0]]%lookup_insert_Some Htk; eapply issued_later; [done| |done|].
    + rewrite Htok in Htk. by eapply Ht.
    + by eapply Ht.
  - intros f Hin%Hsub%Hf. destruct Hin as [Hs Hi]. split; [|by eapply issued_later].
    apply lookup_insert_is_Some'. by right.
  - intros id' r0 token [[<- <-]|[_ Hr0]]%lookup_insert_Some Hc Htk.
    + rewrite Htok in Htk. by apply Hconc.
    + intros Hin%Hsub. by eapply Hd.
Qed.

Hypothesis fresh_identifiers : ∀ i j, uuid_at i = uuid_at j → i = j.

Lemma taken_inv d k id r fl sent :
  outbox_inv (mkOutboxState (mkWorld d k) fl sent) → t_outbox d !! id = Some r →
  ob_state r ∈ due_states → ob_attempts r < 3 →
  outbox_inv (mkOutboxState
    (mkWorld (with_row id (taken r (uuid_at (S (S k))) (now_at k)) d) (S (S (S k))))
    ((id, uuid_at (S (S k))) :: fl) (id :: sent)).
Proof.
  intros [Hr Ha Ht Hf Hnd Hd] Hid Hdue Hlim. simpl in *.
  destruct (Hr _ _ Hid) as [[B1 B2 B3 B4 B5 B6] Hcount].
  assert (Hnew : ∀ token, issued k token → token ≠ uuid_at (S (S k))).
  { intros token (i & Hi & ->) Heq%fresh_identifiers. lia. }
  assert (ob_state r ≠ DELIVERED) as Hnd'.
  { intros Hs. rewrite Hs in Hdue. apply mem_spec in Hdue. done. }
  split; simpl.
  - intros id' r0 [[<- <-]|[Hne Hr0]]%lookup_insert_Some.
    + split; [|unfold sent_times in *; rewrite count_by_cons, bool_decide_eq_true_2 by done;
        simpl; lia]. split; simpl; try done; try lia; eauto.
      * split; [done|]. intros Hs. by apply B2 in Hs.
      * split; [lia|done].
      * intros Hw%B6. tauto.
    + destruct (Hr _ _ Hr0) as [Hok Hc]. split; [done|]. unfold sent_times in *.
      rewrite count_by_cons, bool_decide_eq_false_2 by done. lia.
  - intros id' [Hn Hne]%lookup_insert_None. unfold sent_times in *.
    rewrite count_by_cons, bool_decide_eq_false_2 by done. by rewrite Ha.
  - intros id' r0 token [[<- <-]|[_ Hr0]]%lookup_insert_Some; simpl.
    + intros [= <-]. exists (S (S k)). split; [lia|done].
    + intros Htk. eapply issued_later; [|by eapply Ht]. lia.
  - intros f [->|Hin%Hf]%elem_of_cons; simpl.
    + rewrite lookup_insert_eq. split; [eauto|]. exists (S (S k)). split; [lia|done].
    + destruct Hin as [Hs Hi]. split; [apply lookup_insert_is_Some'; by right|].
      eapply issued_later; [|done]. lia.
  - constructor; [|done]. intros Hin%Hf. destruct Hin as [_ Hi]. by apply Hnew in Hi.
  - intros id' r0 token [[<- <-]|[_ Hr0]]%lookup_insert_Some Hc Htk.
    + by destruct Hc.
    + intros [[= -> ->]|Hin]%elem_of_cons; [|by eapply Hd].
      by eapply Hnew, eq_refl; eapply Ht.
Qed.
Lemma due_not_done r : ob_state r ∈ due_states → ob_state r ≠ DELIVERED.
Proof. intros Hdue Hs. rewrite Hs in Hdue. apply mem_spec in Hdue. done. Qed.
(** A due row that is set aside. *)
Lemma aside_row_ok r state : alert_ok r → ob_state r ∈ due_states →
  state = BLOCKED_CONFIGURATION ∨ state = ALERT_FAILED → alert_ok (r <| ob_state := state |>).
Proof.
  intros [B1 B2 B3 B4 B5 B6] Hdue%due_not_done Hs. split; simpl; try done.
  - split; [|by intros ?%B2]. destruct Hs as [-> | ->]; done.
  - destruct Hs as [-> | ->]; by intros [?|?].
  - destruct Hs as [-> | ->]; done.
  - intros Hw%B6. tauto.
Qed.
Lemma finished_ok r delivered t token : alert_ok r → ob_delivery_token r = Some token →
  alert_ok (finished r delivered t).
Proof.
  intros [B1 B2 B3 B4 B5 B6] Ht. split; simpl; [done| |done|intros _; eauto| |].
  - destruct delivered; split; unfold is_Some; naive_solver.
  - by destruct delivered.
  - intros Hw%B6. destruct Hw as [_ Hz]. apply B3 in Hz. congruence.
Qed.
Lemma outbox_step_inv s s' : outbox_step s s' → outbox_inv s → outbox_inv s'.
Proof.
  intros [h ps [d k] fl sent id token msg p w' Hrun|h ps [d k] fl sent res w' Hrun Hres
         |[d k] fb id token fa sent delivered res w' Hrun|w w' fl sent Hp Hk] Hinv.
  - apply claim_alert_cases in Hrun as (r & [= <-] & Hc). destruct w' as [d' k']. simpl in Hc.
    inversion Hc as [| | |id' r Hr Hdue Htk Hb Hlt]; subst. by eapply taken_inv.
  - apply claim_alert_cases in Hrun as (r & [= <-] & Hc). destruct w' as [d' k']. simpl in Hc.
    pose proof Hinv as [Hr Ha Ht Hf Hnd Hd]. simpl in Hr, Ha, Ht, Hf, Hnd, Hd.
    inversion Hc as [|id r Hid Hdue Hb|id r Hid Hdue Hb Hlim|id r Hid]; subst.
    + split; simpl in *; try done.
      * intros id r token Hr' Htk. eapply issued_later; [|by eapply Ht]. lia.
      * intros f Hin%Hf. destruct Hin as [Hs Hi]. split; [done|]. eapply issued_later; [|done]. lia.
    + eapply put_inv; [done|done|apply aside_row_ok; [by eapply Hr|done|by left]|done..| |lia].
      intros token Hc'. by destruct Hc'.
    + eapply put_inv; [done|done|apply aside_row_ok; [by eapply Hr|done|by right]|done..| |lia].
      intros token Hc'. by destruct Hc'.
    + by destruct Hres.
  - apply finish_alert_cases in Hrun as [Hfin Hk]. destruct w' as [d' k']. simpl in *.
    pose proof Hinv as [Hr Ha Ht Hf Hnd Hd]. simpl in Hr, Ha, Ht, Hf, Hnd, Hd.
    assert (Hsub : ∀ f, f ∈ fb ++ fa → f ∈ fb ++ (id, token) :: fa) by set_solver.
    assert (Hnd2 : NoDup (fb ++ fa) ∧ (id, token) ∉ fb ++ fa).
    { rewrite <- Permutation_middle in Hnd. by apply NoDup_cons in Hnd as [? ?]. }
    destruct Hfin as [Hlost|r t Hid Htok].
    + split; simpl; try done; [| |apply Hnd2|].
      * intros i r tk Hr' Htk. eapply issued_later; [done|by eapply Ht].
      * intros f Hin%Hsub%Hf. destruct Hin as [Hs Hi]. split; [done|by eapply issued_later].
      * intros i r tk Hr' Hc Htk Hin%Hsub. by eapply Hd.
    + eapply put_inv; [done|exact Hid|eapply finished_ok; [by eapply Hr|done]|done..
        |apply Hnd2| |done].
      intros tk _ Htk. replace tk with token by congruence. apply Hnd2.
  - destruct Hp as [Hkeep Hnew], Hinv as [Hr Ha Ht Hf Hnd Hd]. simpl in *. split; simpl; try done.
    + intros id r Hr'. destruct (t_outbox (w_db w) !! id) as [r0|] eqn:Hold.
      * pose proof (lookup_weaken _ _ _ _ Hold Hkeep). simplify_eq. by apply Hr.
      * pose proof (Hnew _ _ Hr' Hold) as Hpost. split; [by apply posted_ok|].
        rewrite Ha by done. apply Hpost.
    + intros id Hn. apply Ha. by eapply lookup_weaken_None.
    + intros id r token Hr' Htk. destruct (t_outbox (w_db w) !! id) as [r0|] eqn:Hold.
      * pose proof (lookup_weaken _ _ _ _ Hold Hkeep). simplify_eq.
        eapply issued_later; [done|by eapply Ht].
      * destruct (Hnew _ _ Hr' Hold) as (_ & Hnone & _). congruence.
    + intros f Hin%Hf. destruct Hin as [[r Hs] Hi]. split; [|by eapply issued_later].
      exists r. by eapply lookup_weaken.
    + intros id r token Hr' Hc Htk. destruct (t_outbox (w_db w) !! id) as [r0|] eqn:Hold.
      * pose proof (lookup_weaken _ _ _ _ Hold Hkeep). simplify_eq. by eapply Hd.
      * destruct (Hnew _ _ Hr' Hold) as (_ & Hnone & _). congruence.
Qed.
Definition quiet (k : nat) : Outbox := mkOutboxState (mkWorld empty_db k) [] [].
Lemma outbox_reach k s : rtc outbox_step (quiet k) s → outbox_inv s.
Proof.
  assert (Hgen : ∀ s s', rtc outbox_step s s' → outbox_inv s → outbox_inv s')
    by (induction 1; eauto using outbox_step_inv).
  intros Hs. apply (Hgen _ _ Hs). split; simpl; try done; try (intros *; rewrite lookup_empty; done).
  - by intros f ?%elem_of_nil.
  - constructor.
Qed.


Lemma delivered_step s s' id r : outbox_inv s → outbox_step s s' →
  t_outbox (w_db (ox_world s)) !! id = Some r → ob_state r = DELIVERED →
  t_outbox (w_db (ox_world s')) !! id = Some r.
Proof.
  intros Hinv Hstep Hr Hdel.
  assert (Hput : ∀ id' r0 r', t_outbox (w_db (ox_world s)) !! id' = Some r0 →
    (id' = id → ob_state r0 ≠ DELIVERED) →
    t_outbox (with_row id' r' (w_db (ox_world s))) !! id = Some r).
  { intros id' r0 r' Hr0 Hne. simpl. rewrite lookup_insert_ne; [done|]. intros ->. simplify_eq.
    by apply Hne. }
  destruct Hstep as [h ps [d k] fl sent id' token msg p w' Hrun|h ps [d k] fl sent res w' Hrun Hres
         |[d k] fb id' token fa sent delivered res w' Hrun|w w' fl sent [Hkeep _] Hk]; simpl in *.
  - apply claim_alert_cases in Hrun as (r1 & [= <-] & Hc). destruct w' as [d' k']. simpl in *.
    inversion Hc; subst. eapply Hput; [done|]. intros _. by apply due_not_done.
  - apply claim_alert_cases in Hrun as (r1 & [= <-] & Hc). destruct w' as [d' k']. simpl in *.
    inversion Hc; subst; try done; (eapply Hput; [done|]); intros _; by apply due_not_done.
  - apply finish_alert_cases in Hrun as [Hfin _]. destruct w' as [d' k']. simpl in *.
    destruct Hfin as [|r0 t Hid Htok]; [done|]. eapply Hput; [done|]. intros -> Hs.
    apply (oi_done _ Hinv _ _ _ Hid (or_introl Hs) Htok). simpl. set_solver.
  - by eapply lookup_weaken.
Qed.
(** A delivered alert stays delivered: whatever delivery workers, late
    results of overtaken claims and other calls follow, its row never changes
    again, so it is never handed to a provider a second time. *)
Theorem delivered_alert_final k s s' id r :
  rtc outbox_step (quiet k) s → rtc outbox_step s s' →
  t_outbox (w_db (ox_world s)) !! id = Some r → ob_state r = DELIVERED →
  t_outbox (w_db (ox_world s')) !! id = Some r ∧
  sent_times id (ox_sent s') = sent_times id (ox_sent s).
Proof.
  intros Hs Hs' Hr Hdel. pose proof (outbox_reach _ _ Hs) as Hinv.
  assert (t_outbox (w_db (ox_world s')) !! id = Some r) as Hr'.
  { clear Hs. induction Hs' as [s|s1 s2 s3 Hstep _ IH]; [done|].
    apply IH; [by eapply delivered_step|by eapply outbox_step_inv]. }
  split; [done|]. assert (outbox_inv s') as Hinv' by (eapply outbox_reach; by etrans).
  destruct (oi_rows _ Hinv _ _ Hr) as [_ <-], (oi_rows _ Hinv' _ _ Hr') as [_ <-]. done.
Qed.
End delivery.

(** ** Enqueueing *)
Section enqueueing.
Context `{ContentHash, Pydantic, PolicyHash, TaLib, SignalPolicyHash, CrossHash, UniverseHash}.
Context `{Env, Digests, CallHash, Plans}.
Lemma posted_dom d d' : posted d d' → dom (t_outbox d) ⊆ dom (t_outbox d').
Proof. intros [Hk _]. by apply subseteq_dom. Qed.
Lemma with_row_dom id r d : dom (t_outbox d) ⊆ dom (t_outbox (with_row id r d)).
Proof. simpl. rewrite dom_insert. set_solver. Qed.
Lemma claims_dom ps d k r d' k' : claims ps d k r d' k' → dom (t_outbox d) ⊆ dom (t_outbox d').
Proof. intros []; [done|apply with_row_dom..]. Qed.
Lemma finishes_dom id token del d d' :
  finishes id token del d d' → dom (t_outbox d) ⊆ dom (t_outbox d').
Proof. intros []; [done|apply with_row_dom]. Qed.
Lemma db_steps_dom d d' : rtc db_step d d' → dom (t_outbox d) ⊆ dom (t_outbox d').
Proof.
  induction 1 as [d|d1 d2 d3 [op k r w Hok Hrun] _ IH]; [done|]. etrans; [|exact IH].
  destruct (works_outbox op) eqn:Hw.
  2: { by eapply posted_dom, respects_run; [apply posted_run_op|exact Hrun]. }
  destruct op as [| | | | | | | | | | | | | |op]; try done. destruct op as [| | | | | | |h ps|id t del]; try done.
  - simpl in Hrun. unfold discard, mbind, m_bind in Hrun.
    destruct (claim_alert h ps (mkWorld d1 k)) as [res w1] eqn:Hc.
    apply claim_alert_cases in Hc as (x & -> & Hc). simplify_eq/=.
    injection Hrun as _ <-. by eapply claims_dom.
  - apply finish_alert_cases in Hrun as [Hf _]. by eapply finishes_dom.
Qed.
#[local] Instance keeps_outbox_get_job h id : Respects (kept t_outbox) (get_job h id).
Proof. unfold get_job, expire_leases, expire_lease, audit, put_job. cbv zeta. apply _. Qed.
Lemma wpd_enqueue_alert h job event key channel d :
  wpd (enqueue_alert h job event key channel)
    (λ a d', a = digest_alert job event key channel ∧ is_Some (t_outbox d' !! a) ∧
       (is_Some (t_outbox d !! a) → truthy a = true → t_outbox d' = t_outbox d)) (λ _ _, True) d.
Proof.
  unfold enqueue_alert. wpd_step. eapply wpd_mono; [apply keeps_outbox_get_job| |done].
  simpl. unfold kept. intros view d1 Hk. destruct view as [v|]; [|by wpd_step].
  destruct (message_of event) as [message|]; [|by wpd_step].
  do 2 wpd_step; [done|]. do 2 wpd_step; [done|]. cbv zeta.
  set (a := digest_alert job event key channel). wpd_step. do 2 wpd_step.
  destruct (is_set (t_outbox d1 !! a) && truthy a) eqn:Hp.
  - wpd_step. bool_norm. split_and!; [done| |by intros].
    destruct (t_outbox d1 !! a); [eauto|done].
  - do 4 wpd_step. do 2 wpd_step; [|done]. wpd_step. simpl. split_and!; [done| |].
    + rewrite lookup_insert_eq. eauto.
    + rewrite <- Hk. intros [r Hr] Ht. rewrite Hr, Ht in Hp. done.
Qed.
(** Enqueueing an alert is idempotent: the same job, event, key and channel
    name one row; enqueueing again later, through any handle, returns the same
    identifier and adds or changes no notification. *)
Theorem alert_enqueue_idempotent h job event key channel d k a w d' h' k' a' w' :
  enqueue_alert h job event key channel (mkWorld d k) = (inr a, w) → truthy a = true →
  rtc db_step (w_db w) d' →
  enqueue_alert h' job event key channel (mkWorld d' k') = (inr a', w') →
  a' = a ∧ is_Some (t_outbox d' !! a) ∧ t_outbox (w_db w') = t_outbox d'.
Proof.
  intros H1r Ht Hrun H2r.
  pose proof (wpd_run _ _ _ _ _ _ _ (wpd_enqueue_alert h job event key channel d) H1r)
    as (-> & Hsome & _).
  pose proof (wpd_run _ _ _ _ _ _ _ (wpd_enqueue_alert h' job event key channel d') H2r)
    as (-> & _ & Hsame).
  assert (is_Some (t_outbox d' !! digest_alert job event key channel)) as Hd'.
  { apply elem_of_dom, (db_steps_dom _ _ Hrun), elem_of_dom. done. }
  auto.
Qed.
End enqueueing.
