(* ===== verification/Estate.v ===== *)
(** * The whole service

    Accounts, offboarding, billing, mail and product operations beside the
    research store, as one step relation on the database. Every step keeps both
    the invariant of the research records and the invariant of the identity
    tables: customers cannot disturb research, research cannot disturb
    identity. *)

From S2P Require Import Prelude Effects PyNum PyText Contracts Demo Eligibility Governance.
From S2P Require Import Market Signals CrossExam Universe Customers Schema Store Complete StoreLogic.
From S2P Require Import StoreInv StoreOps Frames Metering Budgets Circuit Alerts Beside Lifecycle.
From S2P Require Import Calendar Security Product Accounts Workspaces Billing Checkout Offboarding Mailer.
From S2P Require Import Tenancy Leaving.
#[local] Open Scope Z_scope.

(** One call of a customer-facing service. Where a method works on a user row
    or a message read earlier, the step takes that reading as it was. *)
Inductive CustomerOp :=
  | Sign_up (s : AccountSettings) (address password name : string)
  | Verify (s : AccountSettings) (raw : string)
  | Resend (s : AccountSettings) (address : string)
  | Forgot (s : AccountSettings) (address : string)
  | Reset_password (s : AccountSettings) (raw password : string)
  | Sign_in (s : AccountSettings) (address password : string)
  | Open_session (s : AccountSettings) (id : string) (user : UserRow)
  | Sign_out (token : option string)
  | Rotate (s : AccountSettings) (raw id : string) (user : UserRow)
  | Revoke (user reference : string)
  | New_workspace (s : AccountSettings) (user name : string)
  | Invite (s : AccountSettings) (actor : Principal) (address : string) (role : Role)
  | Accept (s : AccountSettings) (id : string) (user : UserRow) (raw : string)
  | Change_member (actor : Principal) (user : string) (role : option Role)
  | Transfer (s : AccountSettings) (actor : Principal) (password successor : string)
  | Export (id : string) (user : UserRow)
  | Set_mail (user : string) (enabled : bool)
  | Leave (s : AccountSettings) (id : string) (user : UserRow) (password : string)
  | Close_billing (s : ProductSettings)
  | Review_closure (workspace reviewer : string) (provider : option string) (retry : bool)
  | Review (user : string) (p : RetentionPolicy) (reviewer : string) (billing retained : bool)
  | Fulfil (user : string) (p : RetentionPolicy)
  | Backfill (n : Z)
  | Mail_claim
  | Mail_finish (id : string) (e : EmailRow) (failure : option (string * bool))
  | Reconcile_billing (s : ProductSettings) (a : option AccountSettings)
  | Webhook (s : ProductSettings) (raw signature : string)
  | Announce (a : AccountSettings)
  | Summarise (s : ProductSettings) (actor : Principal)
  | Watch (actor : Principal) (ticker : string) (remove : bool)
  | Read_mark (actor : Principal) (id : string)
  | Telemetry (h : Handle) (actor : Principal) (name : string) (research : option string)
  | Prefer (actor : Principal) (mandate : ResearchMandate) (research_email : bool)
  | Check_out (h : Handle) (s : ProductSettings) (actor : Principal) (plan key : string) (portal : bool)
  | Check_out_customer (s : ProductSettings) (actor : Principal)
  | Check_out_prepare (s : ProductSettings) (actor : Principal) (plan price customer key : string)
  | Check_out_finish (actor : Principal) (plan url : string) (r : CheckoutRequest).

Section estate.
Context `{ContentHash, Pydantic, PolicyHash, TaLib, SignalPolicyHash, CrossHash, UniverseHash}.
Context `{Env, Digests, CallHash, Secrets, Catalog, Vault, Stripe, RetentionJson, Smtp, BracketedHosts}.

Definition run_customer (op : CustomerOp) : M World () :=
  match op with
  | Sign_up s address password name => signup s address password name
  | Verify s raw => verify_email s raw
  | Resend s address => resend_verification s address
  | Forgot s address => forgot_password s address
  | Reset_password s raw password => reset_password s raw password
  | Sign_in s address password => discard (login s address password)
  | Open_session s id user => discard (open_session s id user)
  | Sign_out token => logout token
  | Rotate s raw id user => discard (rotate_session s raw id user)
  | Revoke user reference => revoke_account_session user reference
  | New_workspace s user name => discard (create_workspace s user name)
  | Invite s actor address role => invite s actor address role
  | Accept s id user raw => discard (accept_invitation s id user raw)
  | Change_member actor user role => change_member actor user role
  | Transfer s actor password successor => transfer_ownership s actor password successor
  | Export id user => discard (export id user)
  | Set_mail user enabled => set_notifications user enabled
  | Leave s id user password => request_deletion s id user password
  | Close_billing s => discard (close_billing_once s)
  | Review_closure w reviewer provider retry => review_billing_closure w reviewer provider retry
  | Review user p reviewer billing retained => review_request user p reviewer billing retained
  | Fulfil user p => discard (fulfil_request user p)
  | Backfill n => discard (backfill_email_recipients n)
  | Mail_claim => discard claim_email
  | Mail_finish id e failure => finish_email id e failure
  | Reconcile_billing s a => discard (reconcile_once s a)
  | Webhook s raw signature => webhook s raw signature
  | Announce a => discard (notify_research_once a)
  | Summarise s actor => discard (summary s actor)
  | Watch actor ticker remove => watch actor ticker remove
  | Read_mark actor id => mark_read actor id
  | Telemetry h actor name research => record_event h actor name research
  | Prefer actor mandate b => set_preferences actor mandate b
  | Check_out h s actor plan key portal => discard (checkout h s actor plan key portal)
  | Check_out_customer s actor => discard (checkout_customer s actor)
  | Check_out_prepare s actor plan price customer key =>
      discard (checkout_prepare s actor plan price customer key)
  | Check_out_finish actor plan url r => discard (checkout_finish actor plan url r)
  end.
(** A request does not outlive the erasure of its own account. *)
Definition timely (d : DB) (op : CustomerOp) : Prop :=
  match op with Accept _ id user _ => still_account (t_customers d) id user | _ => True end.
Inductive system_step (d : DB) : DB → Prop :=
  | customer_step op k r w : timely d op → run_customer op (mkWorld d k) = (r, w) →
      system_step d (w_db w)
  | research_step op k r w : op_ok op → run_op op (mkWorld d k) = (r, w) → system_step d (w_db w).
Definition running (d : DB) : Prop := rtc system_step empty_db d.

(** ** Customers keep identity in order *)
Lemma wpd_customer_op op d : Tenancy (t_customers d) → timely d op →
  wpd (run_customer op) (λ _ d', Tenancy (t_customers d')) (λ _ d', Tenancy (t_customers d')) d.
Proof.
  intros HT Hok.
  assert (∀ m : M World (), Respects upholds m →
    wpd m (λ _ d', Tenancy (t_customers d')) (λ _ d', Tenancy (t_customers d')) d) as Hup.
  { intros m Hm. eapply wpd_mono; [apply Hm|intros ? ? Hd'; by apply Hd'..]. }
  destruct op; simpl; unfold discard; try (apply Hup; apply _).
  simpl in Hok. apply wpd_bind. eapply wpd_mono; [by apply wpd_accept_invitation| |done].
  simpl. intros v d' HT'. by apply wpd_ret.
Qed.

(** ** Customers leave research alone *)
Definition research (d : DB) :=
  (records d, t_outbox d, t_usage d, t_reservations d, t_providers d, t_calls d).
#[export] Instance research_steady {A} (m : M World A) :
  Respects (kept steady) m → Respects (kept research) m | 45.
Proof. apply keeps_weaken. unfold steady, research. congruence. Qed.
#[export] Instance research_put f : Respects (kept research) (put_customers f).
Proof. unfold put_customers. apply _. Qed.
#[export] Instance research_insert `{Countable K} {V} (table : Customers → gmap K V) key f :
  Respects (kept research) (insert_customer table key f).
Proof. unfold insert_customer. apply _. Qed.
#[export] Instance research_update_user id f : Respects (kept research) (update_user id f).
Proof. unfold update_user. apply _. Qed.
#[export] Instance research_action s u a p : Respects (kept research) (action s u a p).
Proof. unfold action, token_urlsafe. apply _. Qed.
#[export] Instance research_consume raw p : Respects (kept research) (consume raw p).
Proof. unfold consume. apply _. Qed.
#[export] Instance research_insert_user id u : Respects (kept research) (insert_user id u).
Proof. unfold insert_user. apply _. Qed.
#[export] Instance research_new_session s u : Respects (kept research) (new_session s u).
Proof. unfold new_session, token_urlsafe. apply _. Qed.
#[export] Instance research_open_session s id u : Respects (kept research) (open_session s id u).
Proof. unfold open_session. apply _. Qed.
#[export] Instance research_insert_member w u r : Respects (kept research) (insert_member w u r).
Proof. unfold insert_member. apply _. Qed.
#[export] Instance reads_require_owner actor : Reads (require_owner actor).
Proof. unfold require_owner. apply _. Qed.
#[export] Instance research_close_workspace u t w : Respects (kept research) (close_workspace u t w).
Proof. unfold close_workspace. apply _. Qed.
#[export] Instance research_begin_deletion u r : Respects (kept research) (begin_deletion u r).
Proof. unfold begin_deletion. apply _. Qed.
#[export] Instance research_put_billing id e : Respects (kept research) (put_billing id e).
Proof. unfold put_billing. apply _. Qed.
#[export] Instance research_reconcile_event s a id e : Respects (kept research) (reconcile_event s a id e).
Proof. unfold reconcile_event. apply _. Qed.
#[export] Instance research_attempt_failed id : Respects (kept research) (attempt_failed id).
Proof. unfold attempt_failed. apply _. Qed.
Lemma customers_spare_research op : Respects (kept research) (run_customer op).
Proof.
  destruct op; simpl; unfold discard, signup, verify_email, resend_verification, forgot_password,
    reset_password, login, logout, rotate_session, revoke_account_session, create_workspace, invite,
    accept_invitation, change_member, transfer_ownership, assert_workspace_open, export,
    set_notifications, request_deletion, close_billing_once, review_billing_closure, review_request,
    fulfil_request, reconcile_once, webhook, watch, mark_read, set_preferences; apply _.
Qed.

(** ** Research leaves the tenants' tables alone *)
Lemma tenant_aside {A} (m : M World A) : Respects aside m → Respects (kept (sees tenant)) m.
Proof. intros Hm d. by eapply wpd_mono; [apply Hm|intros ? ? [_ _ _ Hi _ _ _]..]. Qed.
Lemma tenant_side op : Respects (kept (sees tenant)) (run_side op).
Proof.
  destruct op; simpl; unfold discard;
    first [ apply (keeps_weaken not_calls); [unfold not_calls, sees; congruence|apply _]
          | apply (keeps_weaken not_spending); [unfold not_spending, sees; congruence|apply _]
          | apply (keeps_weaken not_providers); [unfold not_providers, sees; congruence|apply _]
          | apply (keeps_weaken not_outbox); [unfold not_outbox, sees; congruence|apply _] ].
Qed.
Lemma research_spares_tenant op : op_ok op → Respects (kept (sees tenant)) (run_op op).
Proof.
  intros Hok. destruct (is_side op) eqn:Hside; [|by apply tenant_aside, aside_run_op].
  destruct op; try done; simpl; [|apply tenant_side]. unfold discard, enqueue_alert.
  apply respects_bind; [apply _| |intros; apply _].
  apply respects_bind; [apply _|apply tenant_aside, _|]. intros [v|]; [|apply _].
  destruct (message_of event) as [message|]; [|apply _].
  do 2 (apply respects_bind; [apply _..|intros _]). apply _.
Qed.

Lemma system_step_good d d' : system_step d d' → good d d'.
Proof.
  intros [op k r w _ Hrun|op k r w Hok Hrun]; [|apply db_step_good; by econstructor].
  apply good_kept. pose proof (respects_run _ _ _ _ _ _ (customers_spare_research op) Hrun) as Hk.
  unfold kept, research in *. congruence.
Qed.
Lemma system_step_tenancy d d' : system_step d d' → Tenancy (t_customers d) → Tenancy (t_customers d').
Proof.
  intros [op k r w Hok Hrun|op k r w Hok Hrun] HT.
  - pose proof (wpd_run _ _ _ _ _ _ _ (wpd_customer_op op d HT Hok) Hrun) as Hd. by destruct r.
  - eapply tenancy_identity; [|exact HT].
    pose proof (respects_run _ _ _ _ _ _ (research_spares_tenant op Hok) Hrun) as Hk.
    unfold kept, sees, tenant in Hk. congruence.
Qed.
Lemma running_tenancy d : running d → Tenancy (t_customers d).
Proof.
  intros Hd. cut (Tenancy (t_customers empty_db) → Tenancy (t_customers d)); [intros Hc; apply Hc, tenancy_empty|].
  induction Hd as [d|d1 d2 d3 Hs _ IH]; [done|]. intros HT. by apply IH, (system_step_tenancy _ _ Hs).
Qed.
Lemma running_good d : running d → Inv d.
Proof.
  intros Hd. cut (good empty_db d); [intros Hg; by apply Hg, inv_empty|].
  induction Hd as [d|d1 d2 d3 Hs%system_step_good _ IH]; [done|by etrans].
Qed.


(** C15. Customer operations never write research: whatever is called, with
    whatever outcome, jobs, snapshots, evidence, reports, artifacts, packets,
    signals, audit events, usage records, reservations, call accounting,
    provider circuits and the alert outbox are exactly what they were. *)
Theorem customers_never_write_research op d k r w :
  run_customer op (mkWorld d k) = (r, w) → research (w_db w) = research d.
Proof. intros Hrun. exact (respects_run _ _ _ _ _ _ (customers_spare_research op) Hrun). Qed.
End estate.
