(* ===== verification/Entitlement.v ===== *)
(** * What a customer's submission is admitted on

    [reserve_research] is the admission callback of [create_job] for customers.
    It discharges what the store asks of a callback, and a submission that
    returns a new job has passed every entitlement. *)

From S2P Require Import Prelude Effects PyNum PyText Contracts Demo Eligibility Governance.
From S2P Require Import Market Signals CrossExam Universe Customers Schema Store Complete StoreLogic.
From S2P Require Import StoreInv StoreOps Frames Metering Budgets Circuit Alerts Beside Lifecycle Service.
From S2P Require Import Calendar Security Product Accounts Workspaces Billing Checkout Offboarding Mailer.
From S2P Require Import Tenancy Leaving Estate.
#[local] Open Scope Z_scope.

(** ** The period of a subscription *)
Section entitlement.
Context `{ContentHash, Pydantic, PolicyHash, TaLib, SignalPolicyHash, CrossHash, UniverseHash}.
Context `{Env, Digests, CallHash, Secrets, Catalog, Vault, Stripe, RetentionJson, Smtp, BracketedHosts}.

(** Only the subscriptions changed. *)
Definition subscribed (d d' : DB) : Prop :=
  d' = d <| t_customers ::= λ c, c <| cu_subscriptions := cu_subscriptions (t_customers d') |> |>.
Lemma subscribed_refl d : subscribed d d.
Proof. unfold subscribed. destruct d as [?? ?? ?? ?? ?? ?? ?? ?? ?? ?? c]. by destruct c. Qed.
Lemma wpd_subscription w Q E d :
  (∀ sub d', subscribed d d' → cu_subscriptions (t_customers d') !! w = Some sub →
     (∀ x, x ≠ w → cu_subscriptions (t_customers d') !! x = cu_subscriptions (t_customers d) !! x) →
     Q sub d') → wpd (subscription w) Q E d.
Proof.
  intros HQ. unfold subscription, put_subscription. do 4 cstep.
  assert (∀ s d1, subscribed d d1 → cu_subscriptions (t_customers d1) !! w = Some s →
    (∀ x, x ≠ w → cu_subscriptions (t_customers d1) !! x = cu_subscriptions (t_customers d) !! x) →
    wpd (if bool_decide (sb_plan s = "FREE") && (sb_period_end s <=? t) then
           let window := month_window t in
           let renewed := s <| sb_period_start := window.1 |> <| sb_period_end := window.2 |>
                            <| sb_updated_at := t |> in
           put_customers (λ c, c <| cu_subscriptions ::= insert w renewed |>) ;; mret renewed
         else mret s) Q E d1) as Hrest.
  { intros s d1 Hd1 Hs Ho. case_match; [|cstep; by apply HQ]. cbv zeta. do 3 cstep. apply HQ.
    - unfold subscribed in *. rewrite Hd1. done.
    - simpl. by rewrite lookup_insert_eq.
    - intros x Hx. simpl. rewrite lookup_insert_ne by done. by apply Ho. }
  destruct (cu_subscriptions (t_customers d) !! w) as [s|] eqn:Hs.
  - do 2 cstep. apply Hrest; [apply subscribed_refl|done..].
  - do 4 cstep. apply Hrest; [done| |].
    + simpl. by rewrite lookup_insert_eq.
    + intros x Hx. simpl. by rewrite lookup_insert_ne.
Qed.

(** ** Admission *)
Definition entitled (settings : ProductSettings) (actor : Principal) (ticker : string)
    (personal_rnd : bool) (id : string) (d d' : DB) : Prop :=
  let w := pr_workspace_id actor in
  may_write (pr_role actor) = true ∧
  (truthy w = true → cu_closures (t_customers d) !! w = None) ∧
  (∃ role, durable_role actor (t_customers d) = Some role ∧ may_write role = true) ∧
  ∃ sub p u now month,
    cu_subscriptions (t_customers d') !! w = Some sub ∧
    pending_billing sub (t_customers d) = false ∧
    running_status (sb_status sub) = true ∧ now < sb_period_end sub ∧
    plan (sb_plan sub) = inr p ∧
    (ticker ≠ "DEMO.L" → personal_rnd = false → pl_live_research p = true) ∧
    t_usage d !! id = None ∧ t_usage d' = <[id := u]> (t_usage d) ∧
    ur_workspace_id u = w ∧ ur_user_id u = pr_user_id actor ∧ ur_plan u = sb_plan sub ∧
    ur_period_start u = sb_period_start sub ∧ ur_period_end u = sb_period_end sub ∧
    ur_max_tokens u = (if bool_decide (ticker = "DEMO.L") || personal_rnd then 0 else pl_max_job_tokens p) ∧
    ur_max_seconds u = pl_max_job_seconds p ∧
    period_usage w (sb_period_start sub) d' ≤ pl_research_jobs_per_period p ∧
    usage_between (pr_user_id actor) (month_window month) d' ≤ money_user_jobs_per_month settings.

Lemma usage_count_le (p : UsageRecord → bool) d d' id u limit :
  t_usage d !! id = None → t_usage d' = <[id := u]> (t_usage d) →
  count_by p (rows (t_usage d)) < limit → count_by p (rows (t_usage d')) ≤ limit.
Proof.
  intros Hnew Heq Hlt. rewrite Heq, (count_by_perm _ _ _ (rows_insert_new _ id u Hnew)), count_by_cons.
  destruct (p u); lia.
Qed.
Lemma wpd_require_current_role actor roles Q E d :
  (∀ r, durable_role actor (t_customers d) = Some r → mem r roles = true → Q () d) →
  (∀ e, E e d) → wpd (require_current_role actor roles) Q E d.
Proof.
  intros HQ HE. unfold require_current_role. do 5 cstep; [apply HE|].
  match goal with Hor : _ || _ = false |- _ => apply orb_false_iff in Hor as [_ Hr] end.
  destruct (durable_role actor (t_customers d)) as [r|]; [|done]. apply negb_false_iff in Hr. by apply (HQ r).
Qed.
(** What an event leaves of the records an admission reads. *)
Lemma wpd_event w u n r Q d :
  (∀ d', t_usage d' = t_usage d → cu_subscriptions (t_customers d') = cu_subscriptions (t_customers d) →
     d' = d <| t_customers := t_customers d' |> →
     tenant (t_customers d') = tenant (t_customers d) → Q () d') →
  wpd (event w u n r) Q (λ _ _, True) d.
Proof. intros HQ. unfold event. crun. by apply HQ. Qed.
Lemma wpd_reserve_research settings actor ticker rnd id d :
  wpd (reserve_research settings actor ticker rnd id)
    (λ _ d', admits id d d' ∧ entitled settings actor ticker rnd id d d') (λ _ _, True) d.
Proof.
  unfold reserve_research. apply wpd_bind.
  assert (wpd (if rnd then
     kind ← select (λ d, j ← t_jobs d !! id;
              if bool_decide (j_workspace_id j = pr_workspace_id actor)
              then Some (j_research_kind j) else None);
     raise_if (negb (bool_decide (kind = Some live_rnd))) EntitlementDenied "RND_JOB_REQUIRED"
   else mret ()) (λ _ d', d' = d) (λ _ _, True) d) as Hkind.
  { destruct rnd; by crun. }
  eapply wpd_mono; [exact Hkind| |done]. intros [] d0 ->. clear Hkind.
  do 2 cstep; [done|]. bool_norm. cstep.
  apply wpd_subscription. intros sub d1 Hd1 Hsub _. unfold assert_workspace_open.
  set (w := pr_workspace_id actor) in *.
  assert (t_usage d1 = t_usage d) as Hus by (by rewrite Hd1).
  assert (tenant (t_customers d1) = tenant (t_customers d)) as Hid by (by rewrite Hd1).
  assert (durable_role actor (t_customers d1) = durable_role actor (t_customers d)) as Hdr
    by (by rewrite Hd1).
  assert (cu_closures (t_customers d1) = cu_closures (t_customers d)) as Hcl by (by rewrite Hd1).
  assert (pending_billing sub (t_customers d1) = pending_billing sub (t_customers d)) as Hpb
    by (by rewrite Hd1).
  crun. apply wpd_require_current_role; [|done]. rewrite Hdr. intros role Hrole Hmay.
  crun. unfold user_usage. crun.
  match goal with |- wpd (event _ _ _ _) _ _ ?x => set (d2 := x) end.
  apply wpd_event. intros d3 Hu3 Hs3 Hd3 Hi3. split.
  { split; [rewrite Hd3; unfold d2; by rewrite Hd1|]. split; [by rewrite Hi3|]. intros x Hx.
    rewrite Hu3. unfold d2. simpl. by rewrite lookup_insert_ne, Hus. }
  assert (t_usage d !! id = None) as Hnew by (by rewrite <- Hus).
  assert (t_usage d3 = <[id := _]> (t_usage d)) as Hrow by (rewrite Hu3; unfold d2; simpl; by rewrite Hus).
  unfold entitled. split; [done|]. split.
  { intros Hw. unfold w in *.
    match goal with Hc : is_set (cu_closures _ !! _) && _ = false |- _ =>
      rewrite Hw, andb_true_r, Hcl in Hc end.
    by destruct (cu_closures _ !! _). }
  split; [by exists role|]. bool_norm.
  eexists sub, a, _, t, _. split; [by rewrite Hs3|]. split; [congruence|]. split_and!; try done.
  - intros Ht Hr.
    match goal with Hl : context [pl_live_research a] |- _ =>
      rewrite bool_decide_eq_false_2, Hr in Hl by done end.
    by destruct (pl_live_research a).
  - unfold period_usage in *. eapply usage_count_le; [done|exact Hrow|by rewrite <- Hus].
  - unfold usage_between in *. eapply usage_count_le; [done|exact Hrow|by rewrite <- Hus].
Qed.

(** The callback is one the store accepts. *)
Lemma reserve_research_admits settings actor ticker rnd o :
  eq_admission o = Some (reserve_research settings actor ticker rnd) → admits_usage o.
Proof.
  intros Ho callback id Hcb d. rewrite Ho in Hcb. injection Hcb as <-.
  eapply wpd_mono; [apply wpd_reserve_research|by intros ? ? [? _]|done].
Qed.

Definition custody (d : DB) := (t_usage d, t_customers d).
Lemma entitled_custody settings actor ticker rnd id d d' e e' :
  custody e = custody d → custody e' = custody d' →
  entitled settings actor ticker rnd id d d' → entitled settings actor ticker rnd id e e'.
Proof.
  unfold custody, entitled, period_usage, usage_between. intros [= -> ->] [= -> ->]. done.
Qed.
Lemma wpd_enqueue_entitled settings actor rnd h ticker mandate o stamp id mid d :
  eq_admission o = Some (reserve_research settings actor ticker rnd) →
  wpd (enqueue h ticker mandate o stamp id mid)
    (λ r d', match r with
             | inl _ => d' = d
             | inr i => i = id ∧ entitled settings actor ticker rnd id d d'
             end) (λ _ _, True) d.
Proof.
  intros Ho. unfold enqueue. rewrite Ho. do 2 cstep. case_match; [case_match; by crun|]. crun.
  eapply wpd_mono; [apply wpd_reserve_research| |done]. simpl. intros [] d3 [_ He]. cstep.
  apply wpd_audit. intros t. cstep. split; [done|]. by eapply entitled_custody; [..|exact He].
Qed.
#[export] Instance custody_expire_leases h only : Respects (kept custody) (expire_leases h only).
Proof. unfold expire_leases, expire_lease, audit, put_job. cbv zeta. apply _. Qed.
#[export] Instance custody_get_job h id : Respects (kept custody) (get_job h id).
Proof. unfold get_job. apply _. Qed.

Lemma wpd_get_job_id h id d :
  wpd (get_job h id) (λ r d', (∀ v, r = Some v → v_id v = id) ∧ custody d' = custody d) (λ _ _, True) d.
Proof.
  apply wpd_both.
  - unfold get_job. cstep. eapply (wpd_kept custody); [apply _|intros [] d' _|done]. do 2 cstep.
    case_match; [|by cstep]. case_match; [by cstep|]. do 4 cstep. case_match; crun; by intros v [= <-].
  - eapply (wpd_kept custody); [apply _|done..].
Qed.
End entitlement.
