(* ===== verification/Ceilings.v ===== *)
(** * What a customer's plan lets a job spend

    The usage record that admits a customer's job carries the token ceiling of
    the plan, and the token budget reads it before every model call. Over any
    run of the whole service, the two components together keep every admitted
    job within its ceiling. *)

From S2P Require Import Prelude Effects PyNum PyText Contracts Demo Eligibility Governance.
From S2P Require Import Market Signals CrossExam Universe Customers Schema Store Complete StoreLogic.
From S2P Require Import StoreInv StoreOps Frames Metering Budgets Circuit Alerts Beside Lifecycle Service.
From S2P Require Import Spending Calendar Security Product Accounts Workspaces Billing Checkout Offboarding Mailer.
From S2P Require Import Tenancy Leaving Estate Entitlement.
#[local] Open Scope Z_scope.

(** ** The invariant *)
Record Ceilings (d : DB) : Prop := {
  ce_rows : ∀ id r, t_reservations d !! id = Some r →
    row_ok r ∧ 0 < br_reserved_tokens r ∧ is_Some (t_jobs d !! br_job_id r) ∧
    ∀ a, t_usage d !! br_job_id r = Some a → br_reserved_tokens r ≤ ur_max_tokens a;
  ce_caps : ∀ job a, t_usage d !! job = Some a →
    total (within (same_job job) capped) (t_reservations d) ≤ Z.max 0 (ur_max_tokens a);
}.
Lemma ceilings_empty : Ceilings empty_db.
Proof. split; simpl; intros *; by rewrite lookup_empty. Qed.
Lemma total_none p f (m : gmap string Reservation) :
  (∀ id r, m !! id = Some r → p r = false) → total (within p f) m = 0.
Proof.
  intros Hp. unfold total. assert (∀ r, r ∈ rows m → within p f r = 0) as Hz.
  { intros r [id Hr]%elem_of_rows. unfold within. by rewrite (Hp _ _ Hr). }
  induction (rows m) as [|r rs IH]; simpl; [done|]. rewrite Hz, IH; [done| |left].
  intros r' Hr'. apply Hz. by right.
Qed.

Section ceilings.
Context `{Plans} (l : BudgetLimits).

(** Rows and usage of jobs that exist stay as they are. *)
Lemma ceilings_known d d' : Ceilings d → t_reservations d' = t_reservations d → known d d' → Ceilings d'.
Proof.
  intros [Hr Hc] Heq Hk. split; rewrite Heq.
  - intros id r Hid. destruct (Hr _ _ Hid) as (Hok & Hp & Hj & Ha). destruct (Hk _ Hj) as [Hj' ->]. done.
  - intros job a Ha. destruct (t_jobs d !! job) as [j|] eqn:Hj.
    + apply Hc. destruct (Hk job) as [_ <-]; [by rewrite Hj|done].
    + rewrite total_none; [lia|]. intros id r (_ & _ & [j Hjr] & _)%Hr. unfold same_job.
      apply bool_decide_eq_false_2. congruence.
Qed.
Lemma capped_le_used p d : (∀ id r, t_reservations d !! id = Some r → row_ok r) →
  total (within p capped) (t_reservations d) ≤ used p d.
Proof.
  intros Hr. rewrite used_total. apply total_le. intros id r Hid%Hr%row_capped. unfold within.
  destruct (p r); lia.
Qed.
Lemma ceilings_reserve j now q d : 0 < bq_maximum_tokens q → t_jobs d !! bq_job_id q = Some j →
  Admits l j now q d → Ceilings d →
  Ceilings (put_reservation (bq_reservation_id q) (new_reservation j q now) d).
Proof.
  intros Hq Hj [Hnew Hplan _] [Hr Hc].
  assert (∀ a, t_usage d !! bq_job_id q = Some a →
    total (within (same_job (bq_job_id q)) capped) (t_reservations d) + bq_maximum_tokens q ≤ ur_max_tokens a)
    as Hroom.
  { intros a Ha. destruct (Hplan a Ha) as (_ & Hu & _).
    pose proof (capped_le_used (same_job (bq_job_id q)) d (λ id r Hid, proj1 (Hr id r Hid))). lia. }
  assert (0 ≤ total (within (same_job (bq_job_id q)) capped) (t_reservations d)) as Hpos.
  { rewrite <- (total_none (λ _, false) capped (t_reservations d)) by done. apply total_le.
    intros id r Hid%Hr. unfold within. pose proof (row_capped _ (proj1 Hid)). destruct (same_job _ r); lia. }
  split; simpl.
  - intros id r [[<- <-]|[_ Hid]]%lookup_insert_Some; [|by eapply Hr]. simpl. rewrite Hj.
    split_and!; [by split; simpl; [lia|..]|done|by eexists|]. intros a Ha. pose proof (Hroom a Ha). lia.
  - intros job a Ha. rewrite total_insert_new by done. unfold within at 1.
    destruct (same_job job _) eqn:Hs; [|by apply Hc]. unfold same_job in Hs. simpl in Hs. bool_norm. subst job.
    assert (capped (new_reservation j q now) = bq_maximum_tokens q) as ->
      by (unfold capped, charged, excess; simpl; lia).
    pose proof (Hroom a Ha). lia.
Qed.
Lemma ceilings_settle d d' id r u : usage_fields u = true → t_reservations d !! id = Some r →
  br_usage r = None → t_reservations d' = <[id := settled r u]> (t_reservations d) →
  t_jobs d' = t_jobs d → t_usage d' = t_usage d → Ceilings d → Ceilings d'.
Proof.
  intros Hu Hid Hn Heq Ej Eu [Hr Hc]. destruct (Hr _ _ Hid) as (Hok & Hp & Hj & Ha).
  split; rewrite Heq, ?Ej, ?Eu.
  - intros id' r' [[<- <-]|[_ Hid']]%lookup_insert_Some; [|by eapply Hr].
    split; [by apply settled_row_ok|done].
  - intros job a Hus. rewrite (total_insert_old _ _ _ r) by done. pose proof (Hc job a Hus).
    pose proof (settled_capped r u Hu Hn Hok). unfold within at 2 3.
    assert (same_job job (settled r u) = same_job job r) as -> by done. destruct (same_job job r); lia.
Qed.
Lemma ceilings_ledger d d' : ledger l d d' → Ceilings d → Ceilings d'.
Proof.
  intros [Heq Hk|j now q Hq Hj Had Heq Hk|id r u Hu Hid Hn Heq Hk] HC.
  - by eapply ceilings_known.
  - eapply ceilings_known; [by apply (ceilings_reserve j now q)|done|]. done.
  - eapply (ceilings_known (d <| t_reservations := t_reservations d' |>)); [|done|done].
    by eapply (ceilings_settle d).
Qed.
End ceilings.

(** ** Runs of the whole service *)
Section commerce.
Context `{ContentHash, Pydantic, PolicyHash, TaLib, SignalPolicyHash, CrossHash, UniverseHash}.
Context `{Env, Digests, CallHash, Secrets, Catalog, Vault, Stripe, RetentionJson, Smtp, BracketedHosts}.
Context (l : BudgetLimits).

(** A deployment that configures the limits [l]. *)
Inductive commerce_step (d : DB) : DB → Prop :=
  | commerce_customer op k r w : timely d op → run_customer op (mkWorld d k) = (r, w) →
      commerce_step d (w_db w)
  | commerce_research op k r w : op_ok op → spends l op → run_op op (mkWorld d k) = (r, w) →
      commerce_step d (w_db w).
Lemma commerce_step_ledger d d' : commerce_step d d' → rtc (ledger l) d d'.
Proof.
  intros [op k r w _ Hrun|op k r w Hok Hsp Hrun].
  - pose proof (respects_run _ _ _ _ _ _ (customers_spare_research op) Hrun) as Hk.
    unfold kept, research, records in Hk. apply ledgers_keep; [congruence|].
    apply known_same; [congruence|]. intros x. by replace (t_jobs (w_db w)) with (t_jobs d) by congruence.
  - apply spend_step_ledger. by econstructor.
Qed.
Lemma commerce_ceilings d d' : rtc commerce_step d d' → Ceilings d → Ceilings d'.
Proof.
  induction 1 as [d|d1 d2 d3 Hs%commerce_step_ledger _ IH]; [done|]. intros HC. apply IH. clear IH.
  induction Hs as [d|e1 e2 e3 Hl _ IH]; [done|]. by apply IH, (ceilings_ledger l _ _ Hl).
Qed.

End commerce.
