(* ===== verification/Records.v ===== *)
(** * What becomes of a customer's records

    Row laws of the account, billing, mail and closure tables, and the history
    each row may have: [stride] relates two states of the tables when every row
    law still holds and no row was lost, reopened or given another identity.
    Every operation of the service takes such a stride, whether it returns or
    raises. *)

From S2P Require Import Prelude Effects PyNum PyText Contracts Demo Eligibility Governance.
From S2P Require Import Market Signals CrossExam Universe Customers Schema Store Complete StoreLogic.
From S2P Require Import StoreInv StoreOps Frames Metering Budgets Circuit Alerts Beside Lifecycle.
From S2P Require Import Calendar Security Product Accounts Workspaces Billing Checkout Offboarding Mailer.
From S2P Require Import Tenancy Leaving Estate.
#[local] Open Scope Z_scope.

(** ** Row laws *)
Definition billing_row (e : BillingEvent) : Prop :=
  0 ≤ be_attempts e ≤ 5 ∧ (is_Some (be_processed_at e) ↔ be_state e = BILLING_PROCESSED) ∧
  (be_state e = BILLING_PENDING →
     be_attempts e < 5 ∧ is_Some (be_subscription_id e) ∧ is_Some (be_customer_id e)).
Definition email_row (e : EmailRow) : Prop :=
  0 ≤ em_attempts e ≤ 5 ∧
  (em_state e = EMAIL_SENDING → is_Some (em_lease_token e) ∧ is_Some (em_lease_until e)) ∧
  (em_state e = EMAIL_DELIVERED → is_Some (em_delivered_at e)) ∧
  (em_state e = EMAIL_DELIVERED ∨ em_state e = EMAIL_CANCELLED → em_encrypted_payload e = EmptyString).
Definition closure_row (k : ClosureRow) : Prop :=
  0 ≤ cl_attempts k ≤ 5 ∧
  (cl_state k = CLOSURE_PENDING ∨ cl_state k = CLOSURE_SCHEDULED → cl_attempts k < 5).
Definition deletion_row (r : DeletionRow) : Prop :=
  (is_Some (dl_erased_at r) ↔ dl_state r = ERASED) ∧
  (dl_state r ≠ REQUESTED →
     is_Some (dl_policy_hash r) ∧ is_Some (dl_reviewed_by r) ∧ is_Some (dl_erasure_after r)).
Definition watched_by (w : string) (c : Customers) : Z :=
  count_by (λ k, bool_decide (k.1 = w)) (map_to_list (cu_watchlist c)).*1.
Definition founded_by (u : string) (c : Customers) : Z :=
  count_by (λ o, bool_decide (og_created_by o = u)) (rows (cu_orgs c)).
Record RowsOk (c : Customers) : Prop := {
  ro_billing : map_Forall (λ _, billing_row) (cu_billing c);
  ro_email : map_Forall (λ _, email_row) (cu_email c);
  ro_closures : map_Forall (λ _, closure_row) (cu_closures c);
  ro_deletions : map_Forall (λ _, deletion_row) (cu_deletions c);
  ro_watchlist : ∀ w, watched_by w c ≤ 200;
  ro_founders : ∀ u, founded_by u c ≤ 5;
}.

(** ** Histories *)

(** Every row is still there, at most as [R] allows it to change. *)
Definition evolves {V} (R : V → V → Prop) (m m' : gmap string V) : Prop :=
  ∀ k v, m !! k = Some v → ∃ v', m' !! k = Some v' ∧ R v v'.
Section evolves.
Context {V : Type} (R : V → V → Prop) `{!PreOrder R}.
#[export] Instance evolves_preorder : PreOrder (evolves R).
Proof.
  split; [by intros m k v Hv; exists v|]. intros m1 m2 m3 H12 H23 k v Hv.
  destruct (H12 _ _ Hv) as (v2 & Hv2 & Hr2). destruct (H23 _ _ Hv2) as (v3 & Hv3 & Hr3).
  exists v3. split; [done|by etrans].
Qed.
Lemma evolves_new m k v : m !! k = None → evolves R m (<[k := v]> m).
Proof.
  intros Hk x y Hy. exists y. split; [|done]. rewrite lookup_insert_ne; [done|]. intros ->. congruence.
Qed.
Lemma evolves_row m k v v' : m !! k = Some v → R v v' → evolves R m (<[k := v']> m).
Proof.
  intros Hk Hr x y Hy. destruct (decide (x = k)) as [->|Hx].
  - exists v'. rewrite lookup_insert_eq. split; [done|]. congruence.
  - exists y. by rewrite lookup_insert_ne.
Qed.
Lemma evolves_alter m k (f : V → V) : (∀ v, m !! k = Some v → R v (f v)) → evolves R m (alter f k m).
Proof.
  intros Hf x y Hy. rewrite lookup_alter. case_decide as Hx; [subst|by exists y].
  exists (f y). rewrite Hy. split; [done|by apply Hf].
Qed.
Lemma evolves_fmap m (f : V → V) : (∀ v, R v (f v)) → evolves R m (f <$> m).
Proof. intros Hf x y Hy. exists (f y). rewrite lookup_fmap, Hy. split; [done|apply Hf]. Qed.
End evolves.

Definition later_user (u u' : UserRow) : Prop :=
  us_created_at u' = us_created_at u ∧
  ∀ t, us_deletion_requested_at u = Some t → us_deletion_requested_at u' = Some t.
Definition later_org (o o' : OrgRow) : Prop :=
  og_created_by o' = og_created_by o ∧ og_created_at o' = og_created_at o.
Definition later_deletion (r r' : DeletionRow) : Prop :=
  dl_requested_at r' = dl_requested_at r ∧ dl_recipient_hash r' = dl_recipient_hash r ∧
  (dl_state r = REVIEWED → dl_state r' ≠ REQUESTED) ∧ (dl_state r = ERASED → r' = r).
Definition closure_key (k : ClosureRow) :=
  (cl_requested_by k, cl_requested_at k, cl_customer_id k, cl_subscription_id k, cl_cancellation_key k).
Definition later_closure (k k' : ClosureRow) : Prop :=
  closure_key k' = closure_key k ∧ (cl_state k = CLOSURE_CLOSED → cl_state k' = CLOSURE_CLOSED).
Definition billing_key (e : BillingEvent) :=
  (be_kind e, be_subscription_id e, be_customer_id e, be_content_hash e, be_created_at e).
Definition later_billing (e e' : BillingEvent) : Prop :=
  billing_key e' = billing_key e ∧ be_attempts e ≤ be_attempts e' ∧
  (be_state e ≠ BILLING_PENDING → e' = e).

#[export] Instance later_user_preorder : PreOrder later_user.
Proof. split; [done|]. intros u1 u2 u3 [C1 D1] [C2 D2]. split; [congruence|auto]. Qed.
#[export] Instance later_org_preorder : PreOrder later_org.
Proof. split; [done|]. intros o1 o2 o3 [C1 D1] [C2 D2]. split; congruence. Qed.
#[export] Instance later_deletion_preorder : PreOrder later_deletion.
Proof.
  split; [intros r; split_and!; congruence|]. intros r1 r2 r3 (A1 & B1 & C1 & D1) (A2 & B2 & C2 & D2).
  split_and!; [congruence..| |].
  - intros Hs. apply C1 in Hs. destruct (dl_state r2) eqn:H2; [done|by apply C2|].
    rewrite (D2 eq_refl). congruence.
  - intros Hs. pose proof (D1 Hs) as ->. auto.
Qed.
#[export] Instance later_closure_preorder : PreOrder later_closure.
Proof. split; [done|]. intros k1 k2 k3 [C1 D1] [C2 D2]. split; [congruence|auto]. Qed.
#[export] Instance later_billing_preorder : PreOrder later_billing.
Proof.
  split; [done|]. intros e1 e2 e3 (A1 & B1 & C1) (A2 & B2 & C2). split_and!; [congruence|lia|].
  intros Hs. pose proof (C1 Hs) as ->. auto.
Qed.

Record progress (c c' : Customers) : Prop := {
  pg_users : evolves later_user (cu_users c) (cu_users c');
  pg_orgs : evolves later_org (cu_orgs c) (cu_orgs c');
  pg_deletions : evolves later_deletion (cu_deletions c) (cu_deletions c');
  pg_closures : evolves later_closure (cu_closures c) (cu_closures c');
  pg_billing : evolves later_billing (cu_billing c) (cu_billing c');
  pg_audit : cu_audit c ⊆ cu_audit c';
}.
#[export] Instance progress_preorder : PreOrder progress.
Proof.
  split; [by intros c; split|]. intros c1 c2 c3 [A1 B1 C1 D1 E1 F1] [A2 B2 C2 D2 E2 F2].
  split; by etrans.
Qed.
Definition stride (c c' : Customers) : Prop := progress c c' ∧ (RowsOk c → RowsOk c').
#[export] Instance stride_preorder : PreOrder stride.
Proof.
  split; [by intros c; split|]. intros c1 c2 c3 [P1 R1] [P2 R2]. split; [by etrans|auto].
Qed.

(** ** One table at a time *)

(** The tables with laws or histories. *)
Definition ruled (c : Customers) :=
  (cu_users c, cu_orgs c, cu_deletions c, cu_closures c, cu_billing c, cu_audit c, cu_email c,
   cu_watchlist c).
Lemma stride_ruled c c' : ruled c' = ruled c → stride c c'.
Proof.
  unfold ruled. intros [= Hu Ho Hd Hc Hb Ha He Hw]. split.
  - by split; rewrite ?Hu, ?Ho, ?Hd, ?Hc, ?Hb, ?Ha.
  - intros [R1 R2 R3 R4 R5 R6]. unfold watched_by, founded_by in *.
    split; unfold watched_by, founded_by; rewrite ?Ho, ?Hd, ?Hc, ?Hb, ?He, ?Hw; done.
Qed.
Section tables.
Context (c : Customers).

Lemma stride_users m : evolves later_user (cu_users c) m → stride c (c <| cu_users := m |>).
Proof. intros Hm. split; [by split|]. by intros []. Qed.
Lemma stride_orgs m : evolves later_org (cu_orgs c) m →
  ((∀ u, founded_by u c ≤ 5) → ∀ u, founded_by u (c <| cu_orgs := m |>) ≤ 5) →
  stride c (c <| cu_orgs := m |>).
Proof. intros Hm Hf. split; [by split|]. intros []. split; try done. by apply Hf. Qed.
Lemma stride_deletions m : evolves later_deletion (cu_deletions c) m →
  (map_Forall (λ _, deletion_row) (cu_deletions c) → map_Forall (λ _, deletion_row) m) →
  stride c (c <| cu_deletions := m |>).
Proof. intros Hm Hf. split; [by split|]. intros []. split; try done. by apply Hf. Qed.
Lemma stride_closures m : evolves later_closure (cu_closures c) m →
  (map_Forall (λ _, closure_row) (cu_closures c) → map_Forall (λ _, closure_row) m) →
  stride c (c <| cu_closures := m |>).
Proof. intros Hm Hf. split; [by split|]. intros []. split; try done. by apply Hf. Qed.
Lemma stride_billing m : evolves later_billing (cu_billing c) m →
  (map_Forall (λ _, billing_row) (cu_billing c) → map_Forall (λ _, billing_row) m) →
  stride c (c <| cu_billing := m |>).
Proof. intros Hm Hf. split; [by split|]. intros []. split; try done. by apply Hf. Qed.
Lemma stride_email m :
  (map_Forall (λ _, email_row) (cu_email c) → map_Forall (λ _, email_row) m) →
  stride c (c <| cu_email := m |>).
Proof. intros Hf. split; [by split|]. intros []. split; try done. by apply Hf. Qed.
Lemma stride_watchlist m :
  ((∀ w, watched_by w c ≤ 200) → ∀ w, watched_by w (c <| cu_watchlist := m |>) ≤ 200) →
  stride c (c <| cu_watchlist := m |>).
Proof. intros Hf. split; [by split|]. intros []. split; try done. by apply Hf. Qed.
Lemma stride_audit id e : cu_audit c !! id = None → stride c (c <| cu_audit ::= insert id e |>).
Proof. intros Hn. split; [split; try done; simpl; by apply insert_subseteq|]. by intros []. Qed.
Lemma stride_email_map f : (∀ e, email_row e → email_row (f e)) →
  stride c (c <| cu_email ::= fmap f |>).
Proof.
  intros Hf. apply stride_email. intros Hm id e. rewrite lookup_fmap.
  intros (e0 & He0 & ->)%fmap_Some. by eapply Hf, (Hm _ _ He0).
Qed.
Lemma stride_email_alter f id : (∀ e, email_row e → email_row (f e)) →
  stride c (c <| cu_email ::= alter f id |>).
Proof.
  intros Hf. apply stride_email. intros Hm k e. rewrite lookup_alter. case_decide; [|apply (Hm k)].
  intros (e0 & He0 & ->)%fmap_Some. by eapply Hf, (Hm _ _ He0).
Qed.
Lemma stride_email_insert id e : (RowsOk c → email_row e) → stride c (c <| cu_email ::= insert id e |>).
Proof.
  intros He. split; [by split|]. intros HR. pose proof (He HR) as Hrow. destruct HR. split; try done.
  by apply map_Forall_insert_2.
Qed.
End tables.

(** ** Operations *)
Definition strides (d d' : DB) : Prop := stride (t_customers d) (t_customers d').
#[export] Instance strides_preorder : PreOrder strides.
Proof. split; [by intros d; unfold strides|]. intros d1 d2 d3. unfold strides. by etrans. Qed.
#[export] Instance strides_kept {A} (m : M World A) :
  Respects (kept (sees ruled)) m → Respects strides m | 60.
Proof. intros Hm d. eapply wpd_mono; [apply Hm|intros ? ? ?; by apply stride_ruled..]. Qed.

Section strides.
Context `{Env, Secrets, Catalog, Vault, Stripe, RetentionJson, Smtp, BracketedHosts}.

Lemma strides_put f : (∀ c, stride c (f c)) → Respects strides (put_customers f).
Proof. intros Hf d. apply wpd_put. apply Hf. Qed.
Lemma strides_insert `{Countable K} {V} (table : Customers → gmap K V) key f :
  (∀ c, table c !! key = None → stride c (f c)) → Respects strides (insert_customer table key f).
Proof. intros Hf d. apply wpd_insert_customer; [|by unfold strides]. intros Hn. by apply Hf. Qed.
(** After an operation inside the relation. *)
Lemma wpd_strides {A} (m : M World A) Q E d0 d :
  Respects strides m → strides d0 d → (∀ a d', strides d0 d' → Q a d') → (∀ e d', E e d') →
  wpd m Q E d.
Proof.
  intros Hm Hd HQ HE. eapply wpd_mono; [apply Hm|intros a d' Hd'; apply HQ; by etrans|intros; apply HE].
Qed.
(** The same, for an operation that also keeps [f]. *)
Lemma wpd_strides_kept {A T} (f : DB → T) (m : M World A) Q E d0 d :
  Respects strides m → Respects (kept f) m → strides d0 d →
  (∀ a d', strides d0 d' → f d' = f d → Q a d') → (∀ e d', E e d') → wpd m Q E d.
Proof.
  intros Hs Hk Hd HQ HE. eapply wpd_mono.
  - apply (wpd_both m (λ _ d', strides d0 d') (λ _ d', f d' = f d) (λ _ _, True)).
    + by eapply wpd_strides.
    + by apply (wpd_kept f).
  - intros a d' [Ha Hb]. by apply HQ.
  - intros. apply HE.
Qed.
End strides.
#[export] Hint Extern 2 (Respects strides (put_customers _)) =>
  (apply strides_put; intros ?; apply stride_ruled; repeat case_match; reflexivity) : typeclass_instances.
#[export] Hint Extern 2 (Respects strides (insert_customer _ _ _)) =>
  (apply strides_insert; intros ? ?;
   first [apply stride_ruled; reflexivity | by apply stride_audit]) : typeclass_instances.

Section operations.
Context `{Env, Secrets, Catalog, Vault, Stripe, RetentionJson, Smtp, BracketedHosts}.

#[export] Instance strides_audit_event n u w p : Respects strides (audit_event n u w p).
Proof. unfold audit_event. apply _. Qed.
#[export] Instance strides_event w u n r : Respects strides (event w u n r).
Proof. unfold event. apply _. Qed.
#[export] Instance strides_subscription w : Respects strides (subscription w).
Proof. unfold subscription, put_subscription. apply _. Qed.
#[export] Instance strides_rate h k l t : Respects strides (consume_rate_limit h k l t).
Proof. unfold consume_rate_limit. apply _. Qed.
#[export] Instance strides_limit s o i a : Respects strides (limit s o i a).
Proof. unfold limit, limit_key. apply _. Qed.
#[export] Instance strides_email_ u a k s b : Respects strides (email_ u a k s b).
Proof.
  unfold email_. do 3 (apply respects_bind; [apply _..|intros ?]).
  apply respects_bind; [apply _..|intros stop]. destruct stop; [apply _|].
  do 4 (apply respects_bind; [apply _..|intros ?]).
  apply strides_insert. intros c _. apply stride_email_insert. intros _. unfold email_row. simpl.
  split_and!; try done; try lia. by intros [?|?].
Qed.
#[export] Instance strides_action s u a p : Respects strides (action s u a p).
Proof. unfold action, token_urlsafe. cbv zeta. apply _. Qed.
#[export] Instance strides_consume raw p : Respects strides (consume raw p).
Proof. unfold consume. apply _. Qed.
#[export] Instance strides_insert_user id u : Respects strides (insert_user id u).
Proof.
  unfold insert_user. do 2 (apply respects_bind; [apply _..|intros ?]).
  apply strides_insert. intros c Hn. apply stride_users. apply evolves_new; [apply _|done].
Qed.
Lemma strides_update_user id f : (∀ u, later_user u (f u)) → Respects strides (update_user id f).
Proof. intros Hf. apply strides_put. intros c. apply stride_users, evolves_alter; [apply _|]. intros u _. apply Hf. Qed.
#[local] Hint Extern 1 (Respects strides (update_user _ _)) =>
  (apply strides_update_user; done) : typeclass_instances.
#[export] Instance strides_new_session s u : Respects strides (new_session s u).
Proof. unfold new_session, token_urlsafe. apply _. Qed.
#[export] Instance strides_open_session s id u : Respects strides (open_session s id u).
Proof. unfold open_session. apply _. Qed.
#[export] Instance strides_insert_member w u r : Respects strides (insert_member w u r).
Proof. unfold insert_member. apply _. Qed.

(** *** Workspaces *)
Lemma founded_new c id o u : cu_orgs c !! id = None →
  founded_by u (c <| cu_orgs := <[id := o]> (cu_orgs c) |>) =
  (founded_by u c) + if bool_decide (og_created_by o = u) then 1 else 0.
Proof.
  intros Hn. unfold founded_by. simpl.
  rewrite (count_by_perm _ _ _ (rows_insert_new _ id o Hn)), count_by_cons. case_bool_decide; lia.
Qed.
Lemma count_filter {A} (p : A → bool) l n :
  Z.of_nat n <=? Z.of_nat (length (take n (List.filter p l))) = false → count_by p l < Z.of_nat n.
Proof. rewrite Z.leb_gt, length_take. unfold count_by. lia. Qed.
#[export] Instance strides_create_workspace s user name : Respects strides (create_workspace s user name).
Proof.
  unfold create_workspace. do 2 (apply respects_bind; [apply _..|intros ?]).
  apply respects_bind; [apply _| |intros; apply _]. apply respects_committed; [apply _|]. intros d. crun.
  eapply (wpd_strides _ _ _ d); [apply _| | |done].
  - unfold strides. simpl. apply stride_orgs; [apply evolves_new; [apply _|done]|].
    intros Hf u. rewrite founded_new by done. simpl. specialize (Hf u).
    case_bool_decide; [subst|lia].
    match goal with Hc : (5 <=? _) = false |- _ => apply (count_filter _ _ 5) in Hc end.
    unfold founded_by in *. lia.
  - intros [] d' Hd'. by eapply (wpd_strides _ _ _ d); [apply _|done| |].
Qed.
#[export] Instance strides_seat_limit w : Respects strides (seat_limit w).
Proof. unfold seat_limit. apply _. Qed.

(** *** Offboarding *)
Lemma closure_new c w k : cu_closures c !! w = None → closure_row k →
  stride c (c <| cu_closures ::= insert w k |>).
Proof.
  intros Hn Hk. apply stride_closures; [apply evolves_new; [apply _|done]|].
  intros Hm. by apply map_Forall_insert_2.
Qed.
Lemma closure_step c w k k' : cu_closures c !! w = Some k → later_closure k k' →
  (closure_row k → closure_row k') → stride c (c <| cu_closures ::= insert w k' |>).
Proof.
  intros Hk Hl Hr. apply stride_closures; [eapply evolves_row; [apply _|done..]|].
  intros Hm. apply map_Forall_insert_2; [|done]. by apply Hr, (Hm w).
Qed.
Lemma deletion_step c i r r' : cu_deletions c !! i = Some r → later_deletion r r' →
  (deletion_row r → deletion_row r') → stride c (c <| cu_deletions ::= insert i r' |>).
Proof.
  intros Hk Hl Hr. apply stride_deletions; [eapply evolves_row; [apply _|done..]|].
  intros Hm. apply map_Forall_insert_2; [|done]. by apply Hr, (Hm i).
Qed.
#[local] Hint Extern 1 (Respects strides (insert_customer cu_closures _ _)) =>
  (apply strides_insert; intros ? ?; apply closure_new; [done|]; split_and!; (done || lia))
  : typeclass_instances.
#[export] Instance strides_close_workspace user now w : Respects strides (close_workspace user now w).
Proof. unfold close_workspace. apply _. Qed.
#[export] Instance users_steady {A} (m : M World A) :
  Respects (kept steady) m → Respects (kept (sees cu_users)) m | 55.
Proof. apply keeps_weaken. unfold steady, sees, identity. congruence. Qed.
#[export] Instance users_close_workspace user now w : Respects (kept (sees cu_users)) (close_workspace user now w).
Proof. unfold close_workspace, insert_customer, put_customers. apply _. Qed.
Lemma cancelled_row p e : email_row e → email_row (if (p : bool) then cancel_email e else e).
Proof. destruct p; [|done]. intros (Ha & Hs & Hd & Hp). split_and!; simpl; try done; lia. Qed.
Lemma leave_stride user hash address now c u : cu_users c !! user = Some u → gone u = false →
  stride c (leave user hash address now c).
Proof.
  intros Hu Hg. split.
  - split; simpl; try done. apply evolves_alter; [apply _|]. intros v Hv.
    assert (v = u) as -> by congruence. split; [done|]. simpl. intros t Ht.
    unfold gone in Hg. by rewrite Ht in Hg.
  - intros [R1 R2 R3 R4 R5 R6]. split; try done. simpl. intros i e.
    intros (e0 & He0 & ->)%fmap_row. apply cancelled_row. by apply (R2 i).
Qed.
Lemma deletion_new c i now h : cu_deletions c !! i = None →
  stride c (c <| cu_deletions ::= insert i (mkDeletion REQUESTED now h None None None None None None) |>).
Proof.
  intros Hn. apply stride_deletions; [apply evolves_new; [apply _|done]|]. intros Hm.
  apply map_Forall_insert_2; [|done]. split; simpl; [|done]. split; [by intros []|done].
Qed.
Lemma leave_stride_final user hash address now c u h : cu_users c !! user = Some u → gone u = false →
  cu_deletions (leave user hash address now c) !! user = None →
  stride c ((leave user hash address now c) <| cu_deletions ::=
    insert user (mkDeletion REQUESTED now h None None None None None None) |>).
Proof. intros Hu Hg Hn. etrans; [by eapply leave_stride|by apply deletion_new]. Qed.
#[export] Instance strides_request_deletion s id user password :
  Respects strides (request_deletion s id user password).
Proof.
  unfold request_deletion. repeat (apply respects_bind; [apply _..|intros ?]).
  apply respects_committed; [apply _|]. intros d. unfold begin_deletion. crun.
  match goal with Hs : stale _ _ = false |- _ => apply not_stale in Hs; rename Hs into Hg end.
  apply (wpd_strides_kept (sees cu_users) _ _ _ d); [apply _..|done| |done].
  intros [] d1 Hd1 Hu1. unfold sees in Hu1. crun.
  eapply (wpd_strides _ _ _ d); [apply _| |done..]. transitivity d1; [exact Hd1|].
  unfold strides. eapply leave_stride_final; [by rewrite Hu1|done..].
Qed.
#[export] Instance strides_provider_closure s w sub r now : Respects strides (provider_closure s w sub r now).
Proof. unfold provider_closure, check_stripe_identity. apply _. Qed.
Lemma attempted_closure t r outcome now : closable t r = true →
  later_closure r (closure_attempted r outcome now) ∧
  (closure_row r → closure_row (closure_attempted r outcome now)).
Proof.
  unfold closable, mem. intros [Hc _]%andb_true_iff. apply bool_decide_eq_true in Hc. rewrite !elem_of_cons in Hc.
  assert (cl_state r = CLOSURE_PENDING ∨ cl_state r = CLOSURE_SCHEDULED) as Hs
    by (destruct Hc as [?|[?|[]%not_elem_of_nil]]; auto).
  destruct outcome as [code|state]; simpl; (split; [split; [done|intros Hx; rewrite Hx in Hs; by destruct Hs]|]).
  - intros (Ha & Hp). specialize (Hp Hs). unfold closure_row. simpl.
    destruct (Z.leb_spec 5 (cl_attempts r + 1)); (split_and!; [lia..|]);
      intros; (lia || by intuition).
  - intros _. unfold closure_row. simpl. split_and!; try lia.
Qed.
#[export] Instance strides_close_billing_once s : Respects strides (close_billing_once s).
Proof.
  unfold close_billing_once. apply respects_committed; [apply _|]. intros d. do 4 cstep.
  destruct (min_by _ _) as [[w k]|]; [|by cstep]. do 4 cstep. case_match; [by cstep|].
  do 4 cstep. case_match; [by cstep|]. do 6 cstep.
  destruct (cu_closures (t_customers d) !! w) as [r|] eqn:Hr; simpl; [|by cstep].
  destruct (closable _ r && _) eqn:Hc; [|by cstep]. apply andb_true_iff in Hc as [Hc _]. do 3 cstep.
  apply (wpd_strides_kept (sees identity) _ _ _ d); [apply _..|done| |done].
  intros outcome d1 Hd1 Hi1.
  assert (cu_closures (t_customers d1) !! w = Some r) as Hr1 by (unfold sees, identity in Hi1; congruence).
  do 2 cstep. cstep.
  eapply (wpd_strides _ _ _ d); [apply _| |intros [] d2 Hd2; by cstep|done].
  transitivity d1; [exact Hd1|]. unfold strides. eapply closure_step; [exact Hr1|by eapply attempted_closure..].
Qed.
#[export] Instance strides_review_billing_closure w reviewer provider retry :
  Respects strides (review_billing_closure w reviewer provider retry).
Proof.
  unfold review_billing_closure. apply respects_bind; [apply _..|intros ?].
  apply respects_committed; [apply _|]. intros d.
  crun; (eapply (wpd_strides _ _ _ d); [apply _| |done..]); (eapply closure_step; [done|..]).
  - bool_norm. split; [done|]. simpl. congruence.
  - intros _. unfold closure_row. simpl. split_and!; (done || lia).
  - done.
  - intros (Ha & _). unfold closure_row. simpl. split_and!; try (done || lia). by intros [?|?].
Qed.
Lemma reviewed_stride c i r r' f : cu_deletions c !! i = Some r → later_deletion r r' →
  (deletion_row r → deletion_row r') → (∀ k, later_closure k (f k) ∧ (closure_row k → closure_row (f k))) →
  stride c (c <| cu_deletions ::= insert i r' |> <| cu_closures ::= fmap f |>).
Proof.
  intros Hr Hl Hrow Hf. transitivity (c <| cu_deletions ::= insert i r' |>); [by eapply deletion_step|].
  apply stride_closures; [apply evolves_fmap, Hf|]. intros Hm w k (k0 & Hk0 & ->)%fmap_row.
  apply Hf. exact (Hm _ _ Hk0).
Qed.
#[export] Instance strides_review_request user p reviewer b1 b2 :
  Respects strides (review_request user p reviewer b1 b2).
Proof.
  unfold review_request. do 2 (apply respects_bind; [apply _..|intros ?]).
  apply respects_committed; [apply _|]. intros d. cstep. apply wpd_locked_request; [|done].
  intros u r Hu Hr. simpl. case_bool_decide as Hers; [by cstep|]. cstep.
  apply wpd_reads; [apply _| |done]. intros []. crun.
  eapply (wpd_strides _ _ _ d); [apply _| |done..].
  refine (reviewed_stride (t_customers d) user r _ _ Hr _ _ _).
  - split_and!; done.
  - intros [He _]. split; simpl; [|by eauto]. rewrite He. split; [done|done].
  - intros k. by case_match.
Qed.
Lemma count_by_submseteq {A} (p : A → bool) l1 l2 : l1 ⊆+ l2 → count_by p l1 ≤ count_by p l2.
Proof.
  intros (k & Hk)%submseteq_Permutation. rewrite (count_by_perm _ _ _ Hk). unfold count_by.
  rewrite List.filter_app, length_app. lia.
Qed.
Lemma count_rows_imap {V} (p : V → bool) (g : string → V → V) (m : gmap string V) :
  (∀ k v, p (g k v) = p v) → count_by p (rows (map_imap (λ k v, Some (g k v)) m)) = count_by p (rows m).
Proof.
  intros Hg. induction m as [|k v m Hk IH] using map_ind; [by rewrite map_imap_empty|].
  rewrite (map_imap_insert_Some _ k v m (g k v)) by done.
  rewrite (count_by_perm _ _ _ (rows_insert_new _ _ _ Hk)), count_by_cons, <- IH, <- (Hg k v).
  assert (map_imap (λ k v, Some (g k v)) m !! k = None) as Hk' by (by rewrite map_lookup_imap, Hk).
  by rewrite (count_by_perm _ _ _ (rows_insert_new _ k (g k v) Hk')), count_by_cons.
Qed.
Lemma erase_stride user u ws c : cu_users c !! user = Some u → stride c (erase user u ws c).
Proof.
  intros Hu. split.
  - split; simpl; try done.
    + eapply evolves_row; [apply _|exact Hu|by split].
    + intros k o Ho. rewrite map_lookup_imap, Ho. simpl. eexists. split; [done|]. by case_match.
  - intros [R1 R2 R3 R4 R5 R6]. split; try done; simpl.
    + intros i e [He _]%delete_where_Some. by apply (R2 i).
    + intros w. etrans; [|apply (R5 w)]. unfold watched_by, delete_where. simpl.
      apply count_by_submseteq, fmap_submseteq, map_to_list_submseteq, map_filter_subseteq.
    + intros f. etrans; [|apply (R6 f)]. unfold founded_by. simpl.
      rewrite count_rows_imap; [done|]. intros k o. by case_match.
Qed.
#[export] Instance strides_fulfil_request user p : Respects strides (fulfil_request user p).
Proof.
  unfold fulfil_request. apply respects_bind; [apply _..|intros digest].
  apply respects_committed; [apply _|]. intros d. cstep. apply wpd_locked_request; [|done].
  intros u r Hu Hr. simpl. case_bool_decide as Hers; [by cstep|]. crun.
  apply wpd_reads; [apply _| |done]. intros []. crun.
  eapply (wpd_strides _ _ _ d); [apply _| |intros [] d2 Hd2; by cstep|done].
  unfold strides. etrans; [by apply (erase_stride user u)|].
  refine (deletion_step (erase user u _ (t_customers d)) user r _ Hr _ _).
  - split_and!; done.
  - intros [_ Hset]. bool_norm. split; simpl; [by eauto|]. intros _. apply Hset. congruence.
Qed.

(** *** Mail *)
#[export] Instance strides_backfill n : Respects strides (backfill_email_recipients n).
Proof.
  unfold backfill_email_recipients. repeat (apply respects_bind; [apply _..|intros ?]).
  apply respects_transaction; [apply _|]. do 2 (apply respects_bind; [apply _..|intros ?]).
  apply respects_bind; [apply _| |intros; apply _]. apply respects_for_each; [apply _|]. intros ke.
  repeat (apply respects_bind; [apply _..|intros ?]). apply strides_put. intros c.
  by apply stride_email_alter.
Qed.
Lemma suppress_row now c e : email_row e → email_row (suppress now c e).
Proof. unfold suppress. case_match; [|done]. intros (Ha & Hs & Hd & Hp). split_and!; simpl; (done || lia). Qed.
Lemma exhaust_row now e : email_row e → email_row (exhaust now e).
Proof.
  unfold exhaust. case_match; [|done]. intros (Ha & Hs & Hd & Hp). split_and!; simpl; try (done || lia).
  by intros [?|?].
Qed.
Lemma leased_row now e token t : due now e = true → email_row e → email_row (leased e token t).
Proof.
  unfold due. intros [_ Ha%Z.ltb_lt]%andb_true_iff (Hb & _). unfold email_row. simpl.
  split_and!; try (lia || by eauto). by intros [?|?].
Qed.
Lemma settled_row e failure now row : email_row row → email_row (settle_email e failure now row).
Proof.
  intros (Ha & Hs & Hd & Hp). unfold settle_email. destruct failure as [f|]; unfold email_row; simpl.
  - case_match; simpl; (split_and!; try (done || lia); by intros [?|?]).
  - split_and!; (done || lia || by eauto).
Qed.
#[export] Instance strides_claim_email : Respects strides claim_email.
Proof.
  unfold claim_email. apply respects_transaction; [apply _|].
  apply respects_bind; [apply _..|intros now].
  apply respects_bind; [apply _|apply strides_put; intros c; apply stride_email_map, suppress_row|intros []].
  apply respects_bind; [apply _|apply strides_put; intros c; apply stride_email_map, exhaust_row|intros []].
  apply respects_bind; [apply _..|intros locked]. intros d. do 2 cstep.
  destruct (min_by _ _) as [[id e]|] eqn:Hmin; [|by cstep].
  apply min_by_elem, elem_of_List_filter in Hmin as [Hin Hdue]. apply elem_of_map_to_list in Hin.
  simpl in Hdue. apply andb_true_iff in Hdue as [Hdue _]. do 3 cstep. crun.
  apply stride_email_insert. intros HR. eapply leased_row; [exact Hdue|].
  exact (ro_email _ HR _ _ Hin).
Qed.
#[export] Instance strides_finish_email id e f : Respects strides (finish_email id e f).
Proof.
  unfold finish_email. apply respects_transaction; [apply _|].
  do 2 (apply respects_bind; [apply _..|intros ?]). apply strides_put. intros c.
  apply stride_email_alter. intros row Hrow. case_match; [by apply settled_row|done].
Qed.

(** *** Billing *)
Lemma billing_step c id e e' : cu_billing c !! id = Some e → later_billing e e' →
  (billing_row e → billing_row e') → stride c (c <| cu_billing ::= insert id e' |>).
Proof.
  intros Hk Hl Hr. apply stride_billing; [eapply evolves_row; [apply _|done..]|].
  intros Hm. apply map_Forall_insert_2; [|done]. by apply Hr, (Hm id).
Qed.
Lemma reconciled_stride c w sub id e e' : cu_billing c !! id = Some e → later_billing e e' →
  (billing_row e → billing_row e') →
  stride c (c <| cu_subscriptions ::= insert w sub |> <| cu_billing ::= insert id e' |>).
Proof.
  intros Hk Hl Hr. transitivity (c <| cu_subscriptions ::= insert w sub |>); [by apply stride_ruled|].
  by eapply billing_step.
Qed.
#[export] Instance strides_attempt_failed id : Respects strides (attempt_failed id).
Proof.
  unfold attempt_failed, put_billing. apply respects_committed; [apply _|]. intros d. crun.
  match goal with Hb : bool_decide (be_state _ = _) = true |- _ => apply bool_decide_eq_true in Hb; rename Hb into Hpend end.
  apply (billing_step _ _ a); [done|..].
  - split_and!; simpl; [done|lia|congruence].
  - intros (Ha & Hpr & Hp). destruct Hp as (Hlt & Hs & Hc); [done|]. unfold billing_row. simpl.
    destruct (Z.leb_spec 5 (be_attempts a + 1)); split_and!; try (lia || done).
    + rewrite Hpr. split; congruence.
    + rewrite Hpr. split; congruence.
Qed.
#[export] Instance strides_notify_subscription a w st : Respects strides (notify_subscription a w st).
Proof. unfold notify_subscription. apply _. Qed.
Lemma wpd_reconcile_event s a id e d : cu_billing (t_customers d) !! id = Some e →
  be_state e = BILLING_PENDING → wpd (reconcile_event s a id e) (λ _ d', strides d d') (λ _ _, True) d.
Proof.
  intros He Hp. unfold reconcile_event, put_billing. crun. apply wpd_reads; [apply _| |done]. intros doc.
  crun.
  match goal with |- wpd (event _ _ _ _) _ _ ?x => set (d1 := x) end.
  assert (strides d d1) as Hd1.
  { refine (reconciled_stride (t_customers d) _ _ id e _ He _ _).
    - split_and!; simpl; [done|lia|congruence].
    - intros (Ha & _ & Hx). destruct (Hx Hp) as (Hlt & _). unfold billing_row. simpl.
      split_and!; try (lia || done). }
  eapply (wpd_strides _ _ _ d); [apply _|exact Hd1| |done]. intros [] d2 Hd2.
  destruct a as [a|]; [|by cstep]. by eapply (wpd_strides _ _ _ d); [apply _|exact Hd2| |].
Qed.
#[export] Instance strides_reconcile_once s a : Respects strides (reconcile_once s a).
Proof.
  intros d. unfold reconcile_once. do 4 cstep. destruct (due_event _ _ _) as [[id e]|] eqn:Hdue; [|by cstep].
  apply min_by_elem, elem_of_List_filter in Hdue as [Hin Hdue]. apply elem_of_map_to_list in Hin.
  simpl in Hdue, Hin. bool_norm. cstep. apply wpd_catch, wpd_transaction.
  eapply wpd_mono; [by apply wpd_reconcile_event|intros [] d1 Hd1; by cstep|]. simpl. intros _ _ _.
  eapply wpd_mono; [apply (respects (R := strides))|intros [] d1 Hd1; by cstep|done].
Qed.
Lemma read_event_customer event w : read_event event = inr w → wh_accepted w = true →
  is_Some (str_opt (wh_customer w)).
Proof.
  unfold read_event. intros Hr Ha. do 5 (apply res_bind_inr in Hr as (? & _ & Hr)). cbv zeta in Hr.
  apply res_bind_inr in Hr as ([] & Hc%reject_inr & Hr).
  apply res_bind_inr in Hr as ([] & _ & [= <-]). simpl in *. rewrite Ha in Hc.
  by destruct (jget _ _).
Qed.
#[export] Instance strides_webhook s raw signature : Respects strides (webhook s raw signature).
Proof.
  intros d. unfold webhook. cstep. apply wpd_catch. cstep. apply wpd_reads; [apply _| |by intros e; case_match; crun].
  intros event. do 2 cstep; [|by case_match; crun]. cstep. cbv zeta. apply wpd_transaction. do 2 cstep.
  simpl. case_match; [by crun|]. do 5 cstep; [|done].
  apply stride_billing; [apply evolves_new; [apply _|done]|]. intros Hm.
  apply map_Forall_insert_2; [|done]. unfold billing_row. simpl.
  destruct (wh_accepted a) eqn:Hacc; simpl; [destruct (wh_subscription a) eqn:Hs; simpl|];
    (split_and!; [lia..|by split; [intros []|]|try done]).
  intros _. split_and!; [lia|by eexists|by eapply read_event_customer].
Qed.

(** *** Checkout *)
#[export] Instance strides_alter_subscription w f : Respects strides (alter_subscription w f).
Proof. unfold alter_subscription. apply _. Qed.
#[export] Instance strides_owned_subscription actor : Respects strides (owned_subscription actor).
Proof. unfold owned_subscription, assert_workspace_open, require_current_role. apply _. Qed.
#[export] Instance strides_checkout_customer s actor : Respects strides (checkout_customer s actor).
Proof. unfold checkout_customer. apply _. Qed.
#[export] Instance strides_checkout_prepare s actor plan price customer key :
  Respects strides (checkout_prepare s actor plan price customer key).
Proof. unfold checkout_prepare. apply _. Qed.
#[export] Instance strides_checkout_finish actor plan url r :
  Respects strides (checkout_finish actor plan url r).
Proof. unfold checkout_finish. apply _. Qed.
#[export] Instance strides_checkout h s actor plan key portal :
  Respects strides (checkout h s actor plan key portal).
Proof. unfold checkout, billing_portal. apply _. Qed.

(** *** Watchlists *)
Lemma watched_new c k v w : cu_watchlist c !! k = None →
  watched_by w (c <| cu_watchlist := <[k := v]> (cu_watchlist c) |>) =
  (watched_by w c) + if bool_decide (k.1 = w) then 1 else 0.
Proof.
  intros Hn. unfold watched_by. simpl.
  rewrite (count_by_perm _ _ _ (fmap_Permutation fst _ _ (map_to_list_insert _ k v Hn))).
  rewrite fmap_cons, count_by_cons. simpl. case_bool_decide; lia.
Qed.
#[export] Instance strides_watch actor ticker remove : Respects strides (watch actor ticker remove).
Proof.
  unfold watch. apply respects_bind; [apply _..|intros []]. apply respects_transaction; [apply _|].
  do 1 (apply respects_bind; [apply _..|intros ?]). cbv zeta. apply respects_bind; [apply _| |intros; apply _].
  destruct remove.
  - apply strides_put. intros c. apply stride_watchlist. intros Hw w. etrans; [|apply (Hw w)].
    unfold watched_by. simpl. apply count_by_submseteq, fmap_submseteq, map_to_list_submseteq, delete_subseteq.
  - intros d. crun. apply stride_watchlist. intros Hw w. rewrite watched_new by done. simpl.
    specialize (Hw w). case_bool_decide; [subst|lia]. unfold watched_by in *. bool_norm. lia.
Qed.
End operations.

(** ** Every run *)
Section histories.
Context `{ContentHash, Pydantic, PolicyHash, TaLib, SignalPolicyHash, CrossHash, UniverseHash}.
Context `{Env, Digests, CallHash, Secrets, Catalog, Vault, Stripe, RetentionJson, Smtp, BracketedHosts}.

#[local] Hint Extern 1 (Respects strides (update_user _ _)) =>
  (apply strides_update_user; done) : typeclass_instances.
Lemma customer_strides op : Respects strides (run_customer op).
Proof.
  destruct op; simpl; unfold discard, signup, verify_email, resend_verification, forgot_password,
    reset_password, login, logout, rotate_session, revoke_account_session, invite,
    accept_invitation, change_member, transfer_ownership, assert_workspace_open, export,
    set_notifications, notify_research_once, summary, mark_read, record_event, set_preferences; apply _.
Qed.
Lemma system_step_strides d d' : system_step d d' → strides d d'.
Proof.
  intros [op k r w _ Hrun|op k r w Hok Hrun].
  - exact (respects_run _ _ _ _ _ _ (customer_strides op) Hrun).
  - pose proof (respects_run _ _ _ _ _ _ (research_spares_tenant op Hok) Hrun) as Hk.
    apply stride_ruled. unfold kept, sees, tenant, identity in Hk. unfold ruled. congruence.
Qed.
Lemma run_strides d d' : rtc system_step d d' → strides d d'.
Proof. induction 1 as [d|d1 d2 d3 Hs%system_step_strides _ IH]; [done|by etrans]. Qed.
Lemma no_customers_rows : RowsOk no_customers.
Proof. split; try apply map_Forall_empty; intros; unfold watched_by, founded_by, rows; simpl;
  rewrite map_to_list_empty; vm_compute; discriminate. Qed.

(** C19. Row laws of the customer tables hold in every reachable database:
    billing events, messages and workspace closures count at most five
    attempts and fewer while they wait; a pending billing event names its
    customer and subscription and only a processed one has a processing time; a
    message that is being sent has a lease and one that was delivered or
    cancelled keeps no payload; a reviewed or erased deletion names its policy,
    its reviewer and its date; no workspace watches more than 200 tickers and no
    account has founded more than five workspaces. *)
Theorem customer_rows_lawful d : running d → RowsOk (t_customers d).
Proof. intros Hd%run_strides. apply Hd. exact no_customers_rows. Qed.

(** C20. Histories of customer records: along any run, whatever is called and
    however it ends, no account, workspace, deletion request, closure, billing
    event or account audit event is ever removed; a deletion request never
    returns to an earlier state, an erased one never changes and the time of a
    request to leave never changes; a closure keeps its billing identity and its
    cancellation key and stays closed; a billing event keeps its content, its
    attempts only grow, and once processed, failed or ignored it never
    changes. *)
Theorem customer_histories d d' :
  rtc system_step d d' → progress (t_customers d) (t_customers d').
Proof. intros Hd%run_strides. apply Hd. Qed.

Lemma leaving_stays c c' i : progress c c' → leaving c i = true → leaving c' i = true.
Proof.
  unfold leaving. intros [Hu _ _ _ _ _] Hl. destruct (cu_users c !! i) as [u|] eqn:Hi; [|done].
  destruct (Hu _ _ Hi) as (u' & -> & _ & Hd). destruct (us_deletion_requested_at u) as [t|]; [|done].
  by rewrite (Hd t).
Qed.
Lemma leaving_not_present c i : leaving c i = true → ¬ present c i.
Proof. unfold leaving. intros Hl (u & Hu & Hg). rewrite Hu in Hl. unfold gone in Hg. congruence. Qed.
Lemma session_user_present token now c i u : session_user token now c = Some (i, u) → present c i.
Proof.
  unfold session_user. intros Hs. apply bind_Some in Hs as (r & _ & Hs).
  apply bind_Some in Hs as (u' & Hu & Hs). case_match eqn:Hc; simplify_eq. exists u.
  split; [done|]. apply andb_true_iff in Hc as [_ Ha]. unfold active_user in Ha. unfold gone.
  by destruct (us_deletion_requested_at u).
Qed.
(** C21. A closed account is powerless, for ever: once an account has asked to
    leave, in every later state of the service it is still leaving, belongs to
    no workspace, no session token authenticates it, the database grants it no
    role, and a sign-in that had already checked its password opens no
    session. *)
Theorem departed_account_powerless d d' i :
  running d → rtc system_step d d' → leaving (t_customers d) i = true →
  leaving (t_customers d') i = true ∧
  (∀ w, cu_members (t_customers d') !! (w, i) = None) ∧
  (∀ actor, pr_user_id actor = i → durable_role actor (t_customers d') = None) ∧
  (∀ token k r w, authenticated_user token (mkWorld d' k) = (inr r, w) → r.1 ≠ i) ∧
  (∀ s u k r w, open_session s i u (mkWorld d' k) = (r, w) →
     w_db w = d' ∧ r = inl (Exn AccountError "LOGIN_INVALID")).
Proof.
  intros Hd Hsteps Hl. assert (running d') as Hd' by (by unfold running; etrans).
  pose proof (running_tenancy _ Hd') as HT.
  assert (leaving (t_customers d') i = true) as Hl' by exact (leaving_stays _ _ _ (proj1 (run_strides _ _ Hsteps)) Hl).
  pose proof (leaving_not_present _ _ Hl') as Hno.
  split; [done|]. split_and!.
  - intros w. destruct (cu_members _ !! _) eqn:Hm; [|done]. by apply (tn_members _ HT) in Hm as (_ & _ & Hp).
  - intros actor <-. unfold durable_role. destruct (cu_members _ !! _) eqn:Hm; [|done].
    by apply (tn_members _ HT) in Hm as (_ & _ & Hp).
  - intros token k r w Hrun <-. unfold authenticated_user in Hrun.
    assert (wpd (authenticated_user token) (λ r _, present (t_customers d') r.1) (λ _ _, True) d') as Hwp.
    { unfold authenticated_user. crun. destruct a as [i u]. 
      match goal with Hs : (t ← token; _) = Some _ |- _ => apply bind_Some in Hs as (x & _ & Hs) end.
      by eapply session_user_present. }
    exact (Hno (wpd_run _ _ _ _ _ _ _ Hwp Hrun)).
  - intros s u k r w Hrun. unfold leaving in Hl'. destruct (cu_users _ !! i) as [v|] eqn:Hv; [|done].
    assert (stale u v = true) as Hst by (unfold stale; rewrite Hl'; apply orb_true_r).
    assert (wpd (open_session s i u) (λ _ _, False)
      (λ e d2, d2 = d' ∧ e = Exn AccountError "LOGIN_INVALID") d') as Hwp.
    { unfold open_session. apply wpd_transaction. do 2 cstep. rewrite Hv. unfold one, expect. do 2 cstep.
      rewrite Hst. by crun. }
    pose proof (wpd_run _ _ _ _ _ _ _ Hwp Hrun) as Hres. destruct r; [|done]. by destruct Hres as [-> ->].
Qed.
End histories.
