(* ===== verification/Custody.v ===== *)
(** * What account and billing operations promise

    The outcome of the operations that move custody of an account: a password
    reset, joining a workspace, erasure, a signed webhook. *)

From S2P Require Import Prelude Effects PyNum PyText Contracts Demo Eligibility Governance.
From S2P Require Import Market Signals CrossExam Universe Customers Schema Store StoreLogic StoreInv.
From S2P Require Import StoreOps Frames Budgets Calendar Security Product Accounts Workspaces Billing Checkout.
From S2P Require Import Offboarding Mailer Tenancy Leaving Entitlement.
#[local] Open Scope Z_scope.

(** Every run of [m] on [d] raises [e] and changes nothing. *)
Definition refuses {A} (m : M World A) (d : DB) (e : exn) : Prop :=
  ∀ k, ∃ k', m (mkWorld d k) = (inl e, mkWorld d k').
Lemma wpd_refuses {A} (m : M World A) d e :
  wpd m (λ _ _, False) (λ e' d', e' = e ∧ d' = d) d → refuses m d e.
Proof.
  intros Hm k. specialize (Hm k). unfold wp in Hm. destruct (m (mkWorld d k)) as [[e'|a] [d' k']]; [|done].
  destruct Hm as [-> Hd]. simpl in Hd. subst. by exists k'.
Qed.

Lemma alter_row {V} (f : V → V) k v (m : gmap string V) : m !! k = Some v → alter f k m = <[k := f v]> m.
Proof.
  intros Hv. apply map_eq. intros i. destruct (decide (i = k)) as [->|Hi].
  - by rewrite lookup_alter_eq, lookup_insert_eq, Hv.
  - by rewrite lookup_alter_ne, lookup_insert_ne.
Qed.

Section custody.
Context `{Env, Secrets, Catalog, Vault, Stripe, RetentionJson, Smtp, BracketedHosts}.

(** ** Password reset *)

(** What a consumed token was. *)
Lemma wpd_consume raw p Q E d :
  (∀ t u used, token_of raw p (t_customers d) = Some t → tk_used_at t = None →
     cu_users (t_customers d) !! tk_user_id t = Some u → gone u = false →
     Q t (d <| t_customers ::= λ c, c <| cu_tokens ::=
            insert (token_digest raw) (t <| tk_used_at := Some used |>) |> |>)) →
  (∀ e, E e d) → wpd (consume raw p) Q E d.
Proof.
  intros HQ HE. unfold consume. crun; try apply HE. 
  assert (a0 = a) as -> by congruence.
  destruct (cu_users (t_customers d) !! tk_user_id a) as [u|] eqn:Hu; [|done].
  apply (HQ a u t0); [done| |done..]. by destruct (tk_used_at a).
Qed.
(** A used token is refused. *)
Lemma consume_used raw p d t : token_of raw p (t_customers d) = Some t → is_Some (tk_used_at t) →
  refuses (consume raw p) d (Exn AccountError TOKEN_INVALID).
Proof.
  intros Ht Hu. apply wpd_refuses. unfold consume. do 2 cstep. rewrite Ht. crun. simplify_eq.
  destruct Hu as [x Hx]. by rewrite Hx in *.
Qed.
Lemma open_session_stale s id user d current : cu_users (t_customers d) !! id = Some current →
  stale user current = true → refuses (open_session s id user) d (Exn AccountError "LOGIN_INVALID").
Proof.
  intros Hc Hs. apply wpd_refuses. unfold open_session. apply wpd_transaction. do 2 cstep.
  rewrite Hc. unfold one, expect. do 2 cstep. rewrite Hs. by crun.
Qed.
Lemma rotate_session_stale s raw id user d current : cu_users (t_customers d) !! id = Some current →
  stale user current = true →
  refuses (rotate_session s raw id user) d (Exn AccountError "SESSION_EXPIRED").
Proof.
  intros Hc Hs. apply wpd_refuses. unfold rotate_session. apply wpd_transaction. do 2 cstep.
  rewrite Hc. unfold one, expect. do 2 cstep. rewrite Hs. by crun.
Qed.
(** A user none of whose sessions is open. *)
Definition shut_out (id : string) (d : DB) : Prop :=
  (∀ h r, cu_sessions (t_customers d) !! h = Some r → as_user_id r = id → is_Some (as_revoked_at r)) ∧
  ∀ token k r w, authenticated_user token (mkWorld d k) = (inr r, w) → r.1 ≠ id.
Lemma sessions_shut_out id d :
  (∀ h r, cu_sessions (t_customers d) !! h = Some r → as_user_id r = id → is_Some (as_revoked_at r)) →
  shut_out id d.
Proof.
  intros Hr. split; [done|]. intros token k r w Hrun.
  assert (wpd (authenticated_user token) (λ r _, r.1 ≠ id) (λ _ _, True) d) as Hwp.
  { unfold authenticated_user. crun.
    match goal with Hs : (_ ← token; _) = Some _ |- _ => apply bind_Some in Hs as (x & _ & Hs) end.
    unfold session_user in *. intros Hid.
    match goal with Hs : (_ ← _; _) = Some _ |- _ => apply bind_Some in Hs as (y & Hy & Hs);
      apply bind_Some in Hs as (z & _ & Hs) end.
    case_match eqn:Hc; simplify_eq/=. apply andb_true_iff in Hc as [[Hn _]%andb_true_iff _].
    destruct (Hr _ _ Hy) as [t0 Ht0]; [done|]. by rewrite Ht0 in Hn. }
  exact (wpd_run _ _ _ _ _ _ _ Hwp Hrun).
Qed.

Lemma wpd_reset_password s raw password d :
  wpd (reset_password s raw password) (λ _ d', ∃ t u h now used,
    token_of raw reset (t_customers d) = Some t ∧ tk_used_at t = None ∧
    cu_users (t_customers d) !! tk_user_id t = Some u ∧ gone u = false ∧
    cu_users (t_customers d') =
      alter (λ u, u <| us_password_hash := h |>) (tk_user_id t) (cu_users (t_customers d)) ∧
    cu_sessions (t_customers d') = revoke_open (tk_user_id t) now <$> cu_sessions (t_customers d) ∧
    cu_tokens (t_customers d') =
      <[token_digest raw := t <| tk_used_at := Some used |>]> (cu_tokens (t_customers d)))
    (λ _ _, True) d.
Proof.
  unfold reset_password. cstep. apply (wpd_kept (sees identity)); [apply _| |done]. intros [] d1 Hd1.
  cstep. apply wpd_reads; [apply _| |done]. intros h. apply wpd_transaction. cstep.
  apply wpd_consume; [|done]. intros t u used Ht Hn Hu Hg. unfold update_user. crun.
  apply (wpd_kept (sees identity)); [apply _| |done]. intros [] d2 Hd2.
  unfold sees, identity in Hd1, Hd2. simpl in Hd2. injection Hd1 as Eu _ _ Es Et _ _ _.
  injection Hd2 as Fu _ _ Fs Ft _ _ _. unfold token_of in *. rewrite Eu, ?Et in *. rewrite Fu, Fs, Ft, Es.
  eauto 15.
Qed.

(** C22. A password reset takes the account back: it returns only for an unused
    reset token of an account that is not leaving, stores the new password,
    revokes every session of the account so that no session token authenticates
    it, spends the token, and any sign-in or session rotation that had read the
    account before is refused, unless the stored hash is the same. *)
Theorem reset_password_recovers s raw password d k w :
  reset_password s raw password (mkWorld d k) = (inr (), w) →
  ∃ t u h, token_of raw reset (t_customers d) = Some t ∧ tk_used_at t = None ∧
    cu_users (t_customers d) !! tk_user_id t = Some u ∧ gone u = false ∧
    cu_users (t_customers (w_db w)) =
      <[tk_user_id t := u <| us_password_hash := h |>]> (cu_users (t_customers d)) ∧
    shut_out (tk_user_id t) (w_db w) ∧
    refuses (consume raw reset) (w_db w) (Exn AccountError TOKEN_INVALID) ∧
    (us_password_hash u ≠ h →
       (∀ s', refuses (open_session s' (tk_user_id t) u) (w_db w) (Exn AccountError "LOGIN_INVALID")) ∧
       ∀ s' raw', refuses (rotate_session s' raw' (tk_user_id t) u) (w_db w)
                    (Exn AccountError "SESSION_EXPIRED")).
Proof.
  intros Hrun. apply (wpd_run _ _ _ _ _ _ _ (wpd_reset_password s raw password d)) in Hrun
    as (t & u & h & now & used & Ht & Hn & Hu & Hg & Eu & Es & Et).
  exists t, u, h.
  assert (cu_users (t_customers (w_db w)) !! tk_user_id t = Some (u <| us_password_hash := h |>)) as Hu'
    by (by rewrite Eu, lookup_alter_eq, Hu).
  split_and!; try done.
  - rewrite Eu. by apply alter_row.
  - apply sessions_shut_out. intros hh r. rewrite Es, lookup_fmap. intros (r0 & Hr0 & ->)%fmap_Some.
    unfold revoke_open. intros Hid. destruct (is_set (as_revoked_at r0)) eqn:Hset.
    + rewrite andb_false_r in *. by destruct (as_revoked_at r0).
    + rewrite andb_true_r in *. case_match; simpl in *; [by eexists|]. by bool_norm.
  - unfold token_of in Ht. apply bind_Some in Ht as (t' & _ & Hp). case_bool_decide; simplify_eq.
    eapply consume_used; [unfold token_of; rewrite Et, lookup_insert_eq; simpl; by rewrite bool_decide_eq_true_2|].
    by eexists.
  - intros Hne. assert (stale u (u <| us_password_hash := h |>) = true) as Hst.
    { unfold stale. simpl. by rewrite bool_decide_eq_false_2. }
    split; intros; [by eapply open_session_stale|by eapply rotate_session_stale].
Qed.

(** ** Joining a workspace *)
Definition seated (d : DB) := (identity (t_customers d), cu_subscriptions (t_customers d)).
#[local] Instance seated_limit s o i a : Respects (kept seated) (limit s o i a).
Proof. unfold limit, limit_key, consume_rate_limit. apply _. Qed.
#[local] Instance seated_audit n u w p : Respects (kept seated) (audit_event n u w p).
Proof. unfold audit_event, insert_customer. apply _. Qed.
Lemma wpd_seat_limit w Q E d :
  (∀ sub p d', subscribed d d' → cu_subscriptions (t_customers d') !! w = Some sub →
     running_status (sb_status sub) = true → plan (sb_plan sub) = inr p → Q (pl_seats p) d') →
  (∀ e d', E e d') → wpd (seat_limit w) Q E d.
Proof.
  intros HQ HE. unfold seat_limit, lock_workspace. cstep. apply wpd_subscription.
  intros sub d1 Hd1 Hs _. crun. by eapply HQ.
Qed.
Lemma member_count_new w id m c : cu_members c !! (w, id) = None →
  count_by (λ km, bool_decide (km.1.1 = w)) (map_to_list (<[(w, id) := m]> (cu_members c))) =
  member_count w c + 1.
Proof.
  intros Hn. unfold member_count. rewrite (count_by_perm _ _ _ (map_to_list_insert _ _ m Hn)), count_by_cons.
  simpl. rewrite bool_decide_eq_true_2 by done. lia.
Qed.
Definition joined (id : string) (user : UserRow) (raw : string) (v : WorkspaceView) (d d' : DB) : Prop :=
  ∃ i m used sub p,
    cu_invitations (t_customers d) !! token_digest raw = Some i ∧ in_used_at i = None ∧
    in_email i = us_email user ∧ wv_id v = in_workspace_id i ∧ wv_role v = in_role i ∧
    inviter_role (wv_id v) (in_invited_by i) (t_customers d) = Some OWNER ∧
    cu_members (t_customers d) !! (wv_id v, id) = None ∧ mb_role m = in_role i ∧
    cu_members (t_customers d') = <[(wv_id v, id) := m]> (cu_members (t_customers d)) ∧
    cu_invitations (t_customers d') =
      <[token_digest raw := i <| in_used_at := Some used |>]> (cu_invitations (t_customers d)) ∧
    cu_subscriptions (t_customers d') !! wv_id v = Some sub ∧
    running_status (sb_status sub) = true ∧ plan (sb_plan sub) = inr p ∧
    member_count (wv_id v) (t_customers d') ≤ pl_seats p.
Lemma joined_kept id user raw v d d' e e' : seated e = seated d → seated e' = seated d' →
  joined id user raw v d d' → joined id user raw v e e'.
Proof.
  unfold seated, identity. intros [= Eu Eo Em _ _ Ei _ _ _] [= Fu Fo Fm _ _ Fi _ _ Fs].
  unfold joined, member_count, inviter_role. by rewrite Eu, Em, Ei, Fm, Fi, Fs.
Qed.
Lemma wpd_accept_joined s id user raw d :
  wpd (accept_invitation s id user raw) (λ v d', joined id user raw v d d') (λ _ _, True) d.
Proof.
  unfold accept_invitation. cstep. apply (wpd_kept seated); [apply _| |done]. intros [] d1 Hd1.
  apply (wpd_mono _ (λ v d', joined id user raw v d1 d') _ (λ _ _, True)); [|intros v d'; by apply joined_kept|done].
  clear Hd1. apply wpd_transaction. crun. apply wpd_seat_limit; [|done]. intros sub p d2 Hd2 Hs2 Hrs Hp.
  assert (identity (t_customers d2) = identity (t_customers d1)) as Hid2 by (by rewrite Hd2).
  unfold identity in Hid2. injection Hid2 as Eu2 Eo2 Em2 _ _ Ei2 _ _.
  unfold insert_member. crun. apply (wpd_kept seated); [apply _| |done]. intros [] d3 Hd3. do 3 cstep.
  eapply joined_kept; [done|exact Hd3|].
  match goal with Hi : cu_invitations (t_customers d2) !! _ = Some ?a |- _ => rename a into i, Hi into Hi2 end.
  bool_norm. eexists i, _, _, sub, p. unfold inviter_role, member_role in *. rewrite <- Em2, <- Ei2, <- Eu2 in *.
  simplify_eq/=. split_and!; try done.
  - by destruct (in_used_at _).
  - done.
  - erewrite alter_row by done. simpl. reflexivity.
  - unfold member_count at 1. simpl. rewrite member_count_new by done. lia.
Qed.

(** ** Erasure *)

(** A closure whose billing has ended and is reconciled. *)
Definition billing_closed (c : Customers) (kr : string * ClosureRow) : Prop :=
  cl_state kr.2 = CLOSURE_CLOSED ∧ unresolved_events (cl_customer_id kr.2) c = false ∧
  (truthy_opt (cl_subscription_id kr.2) = true →
     ∃ b, cu_subscriptions c !! kr.1 = Some b ∧ ended (sb_status b) = true ∧
          sb_subscription_id b = cl_subscription_id kr.2 ∧ sb_customer_id b = cl_customer_id kr.2).
Lemma wpd_require_closed_billing l Q E d :
  ((∀ kr, kr ∈ l → billing_closed (t_customers d) kr) → Q () d) → (∀ e, E e d) →
  wpd (require_closed_billing l) Q E d.
Proof.
  unfold require_closed_billing. intros HQ HE.
  apply (wpd_mono _ (λ _ d', d' = d ∧ ∀ kr, kr ∈ l → billing_closed (t_customers d) kr) _ (λ _ d', d' = d)).
  - clear HQ. induction l as [|kr l IH]; simpl.
    + cstep. split; [done|]. by intros kr ?%not_elem_of_nil.
    + cstep. unfold require_closed. crun. eapply wpd_mono; [exact IH| |done]. simpl.
      intros [] d' [-> Hl]. split; [done|]. intros x [->|Hx]%elem_of_cons; [|by apply Hl].
      bool_norm. split_and!; [done|done|]. intros Htr. rewrite Htr in *. simpl in *.
      destruct (cu_subscriptions (t_customers d) !! kr.1) as [b|]; [|done]. exists b. bool_norm. done.
  - intros [] d' [-> Hl]. by apply HQ.
  - intros e d' ->. apply HE.
Qed.
(** What is left of an account: its row, its request and the immutable audit. *)
Record forgotten (user : string) (u : UserRow) (ws : list string) (c c' : Customers) : Prop := {
  fo_user : cu_users c' = <[user := erased_user user u]> (cu_users c);
  fo_mail : ∀ id e, cu_email c' !! id = Some e → addressed user (token_digest (us_email u)) e = false;
  fo_tokens : ∀ h t, cu_tokens c' !! h = Some t → tk_user_id t ≠ user;
  fo_sessions : ∀ h r, cu_sessions c' !! h = Some r → as_user_id r ≠ user;
  fo_invitations : ∀ h i, cu_invitations c' !! h = Some i →
    in_invited_by i ≠ user ∧ in_email i ≠ us_email u;
  fo_members : ∀ w, cu_members c' !! (w, user) = None;
  fo_reads : ∀ n, cu_reads c' !! (user, n) = None;
  fo_watchlist : ∀ w t, w ∈ ws → cu_watchlist c' !! (w, t) = None;
  fo_preferences : ∀ w, w ∈ ws → cu_preferences c' !! w = None;
  fo_names : ∀ w o, w ∈ ws → cu_orgs c' !! w = Some o → og_name o = "Closed workspace";
}.
Lemma delete_where_none `{Countable K} {V} (p : K → V → bool) (m : gmap K V) k :
  (∀ v, p k v = true) → delete_where p m !! k = None.
Proof.
  intros Hp. destruct (delete_where p m !! k) eqn:Hk; [|done].
  apply delete_where_Some in Hk as [_ Hf]. by rewrite Hp in Hf.
Qed.
Lemma erase_forgets user u ws c : forgotten user u ws c (erase user u ws c).
Proof.
  split; simpl.
  - done.
  - by intros id e [_ ?]%delete_where_Some.
  - intros h t [_ Ht]%delete_where_Some. by bool_norm.
  - intros h r [_ Hr]%delete_where_Some. by bool_norm.
  - intros h i [_ Hi]%delete_where_Some. apply orb_false_iff in Hi as [Ha Hb]. by bool_norm.
  - intros w. apply delete_where_none. intros m. by apply bool_decide_eq_true_2.
  - intros n. apply delete_where_none. intros m. by apply bool_decide_eq_true_2.
  - intros w t Hw. apply delete_where_none. intros m. by apply mem_spec.
  - intros w Hw. apply delete_where_none. intros m. by apply mem_spec.
  - intros w o Hw. rewrite map_lookup_imap. destruct (cu_orgs c !! w) as [o0|]; [|done]. simpl.
    apply mem_spec in Hw. rewrite Hw. by intros [= <-].
Qed.
Definition erased_when (user : string) (p : RetentionPolicy) (now : Z) (d d' : DB) : Prop :=
  ∃ u r after at_,
    cu_users (t_customers d) !! user = Some u ∧ cu_deletions (t_customers d) !! user = Some r ∧
    money_retention_approved p = true ∧ dl_state r = REVIEWED ∧
    dl_policy_hash r = Some (sha256_hex (retention_json p)) ∧
    dl_erasure_after r = Some after ∧ after ≤ now ∧
    (∀ kr, kr ∈ closures_of user (t_customers d) → billing_closed (t_customers d) kr) ∧
    still_researching (closures_of user (t_customers d)).*1 d = false ∧
    forgotten user u (closures_of user (t_customers d)).*1 (t_customers d) (t_customers d') ∧
    cu_deletions (t_customers d') =
      <[user := r <| dl_state := ERASED |> <| dl_erased_at := Some at_ |>]> (cu_deletions (t_customers d)) ∧
    cu_audit (t_customers d) ⊆ cu_audit (t_customers d').
Lemma wpd_audit_event n u w p Q d :
  (∀ id e, cu_audit (t_customers d) !! id = None →
     Q () (d <| t_customers ::= λ c, c <| cu_audit ::= insert id e |> |>)) →
  wpd (audit_event n u w p) Q (λ _ _, True) d.
Proof. intros HQ. unfold audit_event. crun. by apply HQ. Qed.
Lemma forgotten_audit user u ws c c' id e r : forgotten user u ws c c' →
  forgotten user u ws c (c' <| cu_deletions ::= insert user r |> <| cu_audit ::= insert id e |>).
Proof. intros []. by split. Qed.
(** The first clock reading of [fulfil_request] decides. *)
Lemma retention_not_elapsed user p d k u r after :
  cu_users (t_customers d) !! user = Some u → cu_deletions (t_customers d) !! user = Some r →
  money_retention_approved p = true → dl_state r = REVIEWED →
  dl_policy_hash r = Some (sha256_hex (retention_json p)) → dl_erasure_after r = Some after →
  now_at k < after → (fulfil_request user p (mkWorld d k)).1 ≠ inr true.
Proof.
  intros Hu Hr Ha Hs Hh He Hlt. unfold fulfil_request, policy_digest, locked_request, customers, select, gets.
  unfold mbind, m_bind, transaction. rewrite Ha. simpl. rewrite Hu, Hr. simpl. rewrite Hs, Hh. simpl.
  repeat (rewrite bool_decide_eq_true_2 by done; simpl). rewrite He. simpl. unfold now_utc, next_tick, mbind, m_bind. simpl.
  apply Z.ltb_lt in Hlt. by rewrite Hlt.
Qed.
Lemma wpd_fulfil user p d :
  wpd (fulfil_request user p) (λ b d', b = true → ∃ t, erased_when user p t d d') (λ _ _, True) d.
Proof.
  unfold fulfil_request, policy_digest. do 3 cstep; [done|]. cstep. apply wpd_transaction. cstep.
  apply wpd_locked_request; [|done]. intros u r Hu Hr. simpl. case_bool_decide as Hers; [by cstep|].
  crun. apply wpd_require_closed_billing; [|done]. intros Hcl. crun.
  apply wpd_audit_event. intros id e Hid. cstep. intros _. bool_norm.
  exists t, u, r, a, t1. split_and!; try done.
  - exact (forgotten_audit user u _ _ _ id e _ (erase_forgets user u _ (t_customers d))).
  - simpl. by apply insert_subseteq.
Qed.
(** C24. Erasure: personal data is erased only under an approved retention
    policy, the very one the request was reviewed under, after the reviewed
    date has passed, when every workspace the account closed has ended and
    reconciled its billing and has no unfinished research. Then no message,
    token, session, invitation, membership, read mark or workspace preference of
    the account remains, its row carries no name, address or usable password,
    the request is marked erased, and no audit event is lost. *)
Theorem erasure_complete user p d k w :
  fulfil_request user p (mkWorld d k) = (inr true, w) →
  erased_when user p (now_at k) d (w_db w).
Proof.
  intros Hrun. destruct (wpd_run _ _ _ _ _ _ _ (wpd_fulfil user p d) Hrun eq_refl)
    as (t & u & r & after & at_ & Hu & Hr & Ha & Hs & Hh & He & _ & Hrest).
  exists u, r, after, at_. split_and!; try done; try apply Hrest.
  apply Z.le_ngt. intros Hlt.
  apply (retention_not_elapsed user p d k u r after Hu Hr Ha Hs Hh He Hlt). by rewrite Hrun.
Qed.

(** ** Webhooks *)
Definition expected_signature (s : ProductSettings) (raw timestamp : string) : string :=
  hmac_sha256 (default EmptyString (money_stripe_webhook_secret s)) (timestamp +:+ "." +:+ raw).
(** One timestamp, of digits, and a signature over it and the body. *)
Record signed (s : ProductSettings) (raw signature timestamp : string) : Prop := {
  sg_secret : money_billing_enabled s = true ∧ truthy_opt (money_stripe_webhook_secret s) = true;
  sg_sizes : Z.of_nat (String.length raw) ≤ 262144 ∧ Z.of_nat (String.length signature) ≤ 2048;
  sg_time : List.filter (λ kv, bool_decide (kv.1 = "t")) (signature_parts signature) = [("t", timestamp)] ∧
    all_chars is_digit timestamp && between 10 12 (Z.of_nat (String.length timestamp)) = true;
  sg_mac : ("v1", expected_signature s raw timestamp) ∈ signature_parts signature;
}.
Definition skewed (k : nat) (timestamp : string) : bool :=
  flt (float_of_Z 300) (SFabs (fsub (time_at k) (float_of_Z (digits_value 0 timestamp)))).
Lemma wpd_authenticate s raw signature Q E d :
  (∀ id event timestamp, signed s raw signature timestamp → json_loads raw = Some (JObj event) →
     jget event "id" = JStr id → is_bool (jget event "livemode") (money_stripe_live s) = true →
     Q (id, event) d) →
  (∀ e, E e d) → wpd (authenticate_event s raw signature) Q E d.
Proof.
  intros HQ HE. unfold authenticate_event. cbv zeta. crun; try apply HE.
  match goal with Hf : List.filter _ _ = [?kv] |- _ => destruct kv as [key timestamp]; rename Hf into Htime end.
  assert (key = "t") as ->.
  { assert ((key, timestamp) ∈ List.filter (λ kv : string * string, bool_decide (kv.1 = "t"))
      (signature_parts signature)) as Hin by (rewrite Htime; left).
    apply elem_of_List_filter in Hin as [_ Hk]. by apply bool_decide_eq_true in Hk. }
  bool_norm. apply (HQ _ _ timestamp); try done. split; try done.
  - by rewrite andb_true_iff.
  - match goal with Hm : existsb _ _ = true |- _ => apply existsb_true in Hm as ([a b] & Hin & Hab) end.
    bool_norm. by simplify_eq/=.
Qed.
Lemma webhook_skewed s raw signature timestamp d k :
  signed s raw signature timestamp → skewed k timestamp = true →
  (webhook s raw signature (mkWorld d k)).1 ≠ inr ().
Proof.
  intros [[Hb Hsec] [Hl1 Hl2] [Ht Hdig] _] Hskew. unfold webhook, authenticate_event.
  unfold catch, mbind, m_bind. rewrite Hb, Hsec, Ht. unfold raise_if.
  rewrite (proj2 (Z.ltb_ge _ _) Hl1), (proj2 (Z.ltb_ge _ _) Hl2). unfold skewed in Hskew.
  with_strategy opaque [float_of_Z flt fsub] simpl. rewrite Hdig.
  with_strategy opaque [float_of_Z flt fsub] simpl. by rewrite Hskew.
Qed.
Lemma wpd_webhook s raw signature d :
  wpd (webhook s raw signature)
    (λ _ d', ∃ id event timestamp e,
      signed s raw signature timestamp ∧ json_loads raw = Some (JObj event) ∧ jget event "id" = JStr id ∧
      is_bool (jget event "livemode") (money_stripe_live s) = true ∧
      be_content_hash e = sha256_hex raw ∧ cu_billing (t_customers d') !! id = Some e ∧
      (d' = d ∨ cu_billing (t_customers d) !! id = None ∧ be_attempts e = 0 ∧
                be_state e ∈ [BILLING_PENDING; BILLING_IGNORED] ∧
                d' = d <| t_customers ::= λ c, c <| cu_billing ::= insert id e |> |>))
    (λ _ d', d' = d) d.
Proof.
  unfold webhook. cstep. apply wpd_catch. cstep. apply wpd_authenticate; [|by intros e; case_match; crun].
  intros id event timestamp Hsig Hjson Hid Hlive. cstep. cstep; [|by case_match; crun]. cstep. cbv zeta.
  apply wpd_transaction. do 2 cstep. simpl. destruct (cu_billing (t_customers d) !! id) as [e|] eqn:He.
  - crun. bool_norm. exists id, event, timestamp, e. split_and!; try done. by left.
  - crun. eexists id, event, timestamp, _. split_and!; try done.
    2: { simpl. by rewrite lookup_insert_eq. }
    + done.
    + right. split_and!; try done. simpl. case_match; [left|right; left].
Qed.
(** C25. Billing webhooks: a delivery that is accepted carries a signature over
    this body made with the configured secret, a timestamp within five minutes
    of the clock and the configured mode. It leaves exactly one event under its
    identifier, with the digest of the body: the first delivery adds it, waiting
    or ignored and never attempted; a repeated one changes nothing. Anything
    else, and the same identifier with another body, is refused and changes
    nothing. *)
Theorem webhook_recorded_once s raw signature d k r w :
  webhook s raw signature (mkWorld d k) = (r, w) →
  match r with
  | inl _ => w_db w = d
  | inr _ => ∃ id event timestamp e,
      signed s raw signature timestamp ∧ skewed k timestamp = false ∧
      json_loads raw = Some (JObj event) ∧ jget event "id" = JStr id ∧
      is_bool (jget event "livemode") (money_stripe_live s) = true ∧
      be_content_hash e = sha256_hex raw ∧ cu_billing (t_customers (w_db w)) !! id = Some e ∧
      (w_db w = d ∨ cu_billing (t_customers d) !! id = None ∧ be_attempts e = 0 ∧
                    be_state e ∈ [BILLING_PENDING; BILLING_IGNORED] ∧
                    w_db w = d <| t_customers ::= λ c, c <| cu_billing ::= insert id e |> |>)
  end.
Proof.
  intros Hrun. pose proof (wpd_run _ _ _ _ _ _ _ (wpd_webhook s raw signature d) Hrun) as Hd.
  destruct r as [e|[]]; [done|]. destruct Hd as (id & event & timestamp & e & Hsig & Hrest).
  exists id, event, timestamp, e. split; [done|]. split; [|done].
  apply not_true_iff_false. intros Hsk. apply (webhook_skewed s raw signature timestamp d k Hsig Hsk).
  by rewrite Hrun.
Qed.
End custody.
