(* ===== verification/Purchases.v ===== *)
(** * What a checkout promises

    While a checkout is pending, whoever asks again sends the provider the same
    request under the same key, or is shown the page the provider already
    hosts; and the plan a workspace is given is the plan whose price was paid. *)

From S2P Require Import Prelude Effects PyNum PyText Contracts Demo Eligibility Governance.
From S2P Require Import Market Signals CrossExam Universe Customers Schema Store StoreLogic StoreInv.
From S2P Require Import StoreOps Frames Budgets Calendar Security Product Accounts Workspaces Billing Checkout.
From S2P Require Import Offboarding Mailer Tenancy Leaving Entitlement Custody.
#[local] Open Scope Z_scope.

(** ** A pending checkout *)
Definition page_of (b : Subscription) : option string :=
  if truthy_opt (sb_checkout_url b) then sb_checkout_url b else None.
(** The columns a later checkout reads. *)
Record pending_row (plan : string) (r : CheckoutRequest) (page : option string) (b : Subscription) : Prop := {
  pr_unsubscribed : truthy_opt (sb_subscription_id b) && negb (ended (sb_status b)) = false;
  pr_key : sb_checkout_key b = co_key r;
  pr_plan : sb_checkout_plan b = Some plan;
  pr_until : sb_checkout_until b = Some (co_until r);
  pr_payload : sb_checkout_payload b = co_parameters r;
  pr_page : page_of b = page;
}.
(** The workspace is open and the actor owns it. *)
Record owns_open (actor : Principal) (c : Customers) : Prop := {
  oo_open : is_set (cu_closures c !! pr_workspace_id actor) && truthy (pr_workspace_id actor) = false;
  oo_workspace : is_set (cu_orgs c !! pr_workspace_id actor) = true;
  oo_role : durable_role actor c = Some OWNER;
}.
Definition pending_checkout (actor : Principal) (plan : string) (r : CheckoutRequest)
    (page : option string) (d : DB) : Prop :=
  owns_open actor (t_customers d) ∧
  ∃ b, cu_subscriptions (t_customers d) !! pr_workspace_id actor = Some b ∧ pending_row plan r page b.
Lemma owns_tenant actor c c' : tenant c' = tenant c → owns_open actor c → owns_open actor c'.
Proof.
  unfold tenant, identity. intros Hc [Ho Hw Hr].
  split; unfold durable_role in *; [|by replace (cu_orgs c') with (cu_orgs c) by congruence|].
  - by replace (cu_closures c') with (cu_closures c) by congruence.
  - by replace (cu_members c') with (cu_members c) by congruence;
      replace (cu_users c') with (cu_users c) by congruence.
Qed.

Section purchases.
Context `{Env, Secrets, Catalog, Vault, Stripe, RetentionJson, Smtp, BracketedHosts}.

(** Renewing the period of a free workspace. *)
Definition renewed (now : Z) (b : Subscription) : Subscription :=
  if bool_decide (sb_plan b = "FREE") && (sb_period_end b <=? now) then
    b <| sb_period_start := (month_window now).1 |> <| sb_period_end := (month_window now).2 |>
      <| sb_updated_at := now |>
  else b.
Lemma renewed_pending now plan r page b : pending_row plan r page b → pending_row plan r page (renewed now b).
Proof. intros [A B C D E F]. unfold renewed. by case_match; split. Qed.
Lemma subscription_row w b d k : cu_subscriptions (t_customers d) !! w = Some b →
  ∃ d', subscription w (mkWorld d k) = (inr (renewed (now_at k) b), mkWorld d' (S k)) ∧
    cu_subscriptions (t_customers d') !! w = Some (renewed (now_at k) b) ∧
    tenant (t_customers d') = tenant (t_customers d).
Proof.
  intros Hb. unfold subscription, mbind, m_bind, customers, select, gets. simpl. rewrite Hb. simpl.
  unfold renewed. case_match; simpl.
  - eexists. split; [done|]. simpl. by rewrite lookup_insert_eq.
  - by exists d.
Qed.
Lemma owned_subscription_row actor b d k : owns_open actor (t_customers d) →
  cu_subscriptions (t_customers d) !! pr_workspace_id actor = Some b →
  ∃ d', owned_subscription actor (mkWorld d k) = (inr (renewed (now_at k) b), mkWorld d' (S k)) ∧
    cu_subscriptions (t_customers d') !! pr_workspace_id actor = Some (renewed (now_at k) b) ∧
    tenant (t_customers d') = tenant (t_customers d).
Proof.
  intros Ho Hb. destruct (subscription_row _ _ _ k Hb) as (d' & Hrun & Hb' & Ht).
  exists d'. split; [|done]. apply (owns_tenant _ _ _ Ht) in Ho. destruct Ho as [Hop Hw Hr].
  unfold owned_subscription, mbind, m_bind. rewrite Hrun. unfold assert_workspace_open, require_current_role.
  unfold mbind, m_bind, customers, select, gets. simpl. rewrite Hop. simpl. by rewrite Hw, Hr.
Qed.
(** Asking again before the request expires. *)
Lemma prepare_pending s actor plan price customer key d k plan0 r page :
  pending_checkout actor plan0 r page d → now_at (S k) < co_until r →
  ∃ d', checkout_prepare s actor plan price customer key (mkWorld d k) =
    (if bool_decide (plan = plan0) then inr (match page with Some u => inl u | None => inr r end)
     else inl (Exn EntitlementDenied "CHECKOUT_ALREADY_PENDING"), mkWorld d' (S (S k))) ∧
    pending_checkout actor plan0 r page d'.
Proof.
  intros Hd Hnow. pose proof Hd as [Ho (b & Hb & Hp)]. destruct (owned_subscription_row _ _ _ k Ho Hb) as (d1 & Hrun & Hb1 & Ht).
  apply (renewed_pending (now_at k)) in Hp.
  assert (pending_checkout actor plan0 r page d1) as Hpend
    by (split; [by eapply owns_tenant|by eexists]).
  destruct Hp as [Hu Hk Hpl Hun Hpay Hpage]. unfold checkout_prepare, transaction.
  unfold mbind at 1, m_bind at 1. rewrite Hrun. unfold mbind, m_bind. rewrite Hu, Hun. simpl.
  rewrite (proj2 (Z.ltb_lt _ _) Hnow), Hpl. simpl.
  assert (bool_decide (Some plan0 = Some plan) = bool_decide (plan = plan0)) as ->
    by (apply bool_decide_ext; naive_solver).
  destruct (bool_decide (plan = plan0)); simpl; [|by exists d].
  - exists d1. split; [|done]. do 3 f_equal. unfold page_of in Hpage.
    destruct (sb_checkout_url (renewed _ b)) as [u|]; simpl in *; [|subst page].
    + destruct (truthy u); subst page; [done|]. f_equal. destruct r; simpl in *. congruence.
    + f_equal. destruct r; simpl in *. congruence.
Qed.
Lemma mem_owner r : mem r [OWNER] = true → r = OWNER.
Proof. unfold mem. by intros Hr%bool_decide_eq_true%list_elem_of_singleton. Qed.
Lemma renewed_row now plan r page b : pending_row plan r page (renewed now b) → pending_row plan r page b.
Proof. unfold renewed. case_match; [|done]. intros [A B C D E F]. by split. Qed.
(** The row a subscription read or made. *)
Definition row_from (w : string) (d : DB) (b : Subscription) : Prop :=
  cu_subscriptions (t_customers d) !! w = None ∧ sb_checkout_until b = None ∨
  ∃ b0 t, cu_subscriptions (t_customers d) !! w = Some b0 ∧ b = renewed t b0.
Lemma wpd_subscription_from w Q E d :
  (∀ b d', subscribed d d' → cu_subscriptions (t_customers d') !! w = Some b → row_from w d b → Q b d') →
  wpd (subscription w) Q E d.
Proof.
  intros HQ. eapply wpd_mono.
  - apply (wpd_both _ (λ b d', subscribed d d' ∧ cu_subscriptions (t_customers d') !! w = Some b)
      (λ b _, row_from w d b) (λ _ _, False)); [by apply wpd_subscription|].
    unfold subscription, put_subscription. do 4 cstep.
    destruct (cu_subscriptions (t_customers d) !! w) as [b0|] eqn:Hb0; repeat cstep.
    1, 2: right; exists b0, t; split; [done|]; unfold renewed;
      match goal with Hc : _ && _ = _ |- _ => by rewrite Hc end.
    all: left; split; [done|reflexivity].
  - intros b d' [[? ?] ?]. by apply HQ.
  - done.
Qed.
(** What a returned [owned_subscription] found. *)
Lemma wpd_owned actor Q E d :
  (∀ b d', owns_open actor (t_customers d') →
     cu_subscriptions (t_customers d') !! pr_workspace_id actor = Some b →
     row_from (pr_workspace_id actor) d b → Q b d') →
  (∀ e d', E e d') → wpd (owned_subscription actor) Q E d.
Proof.
  intros HQ HE. unfold owned_subscription, assert_workspace_open, require_current_role. cstep.
  apply wpd_subscription_from. intros b d' Hd' Hb Hf. crun. apply HQ; [|done..].
  match goal with Hor : _ || _ = false |- _ => apply orb_false_iff in Hor as [Hw Hr] end.
  destruct (durable_role actor (t_customers d')) as [r|] eqn:Hrole; [|done].
  apply negb_false_iff, mem_owner in Hr as ->. apply negb_false_iff in Hw. by split.
Qed.
Lemma pending_altered actor plan r page b f d :
  owns_open actor (t_customers d) → cu_subscriptions (t_customers d) !! pr_workspace_id actor = Some b →
  pending_row plan r page (f b) →
  pending_checkout actor plan r page
    (d <| t_customers ::= λ c, c <| cu_subscriptions ::= alter f (pr_workspace_id actor) |> |>).
Proof.
  intros Ho Hb Hp. split; [by eapply owns_tenant; [|exact Ho]|]. exists (f b). split; [|done].
  simpl. by rewrite lookup_alter_eq, Hb.
Qed.
(** A request that was returned is the one that was pending, or a new one for
    this plan's price. *)
Definition asked (s : ProductSettings) (actor : Principal) (plan price customer key : string) (d : DB)
    (r : CheckoutRequest) : Prop :=
  (∃ b, cu_subscriptions (t_customers d) !! pr_workspace_id actor = Some b ∧ pending_row plan r None b) ∨
  co_key r = Some key ∧
  co_parameters r = Some (checkout_parameters s (pr_workspace_id actor) customer price (co_until r)).
Lemma wpd_prepare s actor plan price customer key d :
  wpd (checkout_prepare s actor plan price customer key)
    (λ result d', ∀ r, result = inr r →
       pending_checkout actor plan r None d' ∧ asked s actor plan price customer key d r)
    (λ _ _, True) d.
Proof.
  unfold checkout_prepare. cbv zeta. apply wpd_transaction. cstep. apply wpd_owned; [|done].
  intros b d' Ho Hb Hf. do 2 cstep; [done|]. cstep.
  assert (∀ until, sb_checkout_until b = Some until → sb_checkout_plan b = Some plan → page_of b = None →
    let r := mkCheckout (sb_checkout_key b) until (sb_checkout_payload b) in
    pending_checkout actor plan r None d' ∧ asked s actor plan price customer key d r) as Hpend.
  { intros u Hu Hp Hpg r. assert (pending_row plan r None b) as Hrow by (by split).
    split; [split; [done|by exists b]|]. left. destruct Hf as [[_ Hn]|(b0 & t & Hb0 & ->)]; [congruence|].
    exists b0. split; [done|]. by eapply renewed_row. }
  unfold alter_subscription.
  repeat cstep; try done; intros r Hr; simplify_eq; bool_norm.
  - unfold page_of in Hpend. destruct (truthy_opt (sb_checkout_url b)); simplify_eq.
    case_match; simplify_eq. by apply Hpend.
  - split; [by eapply pending_altered|by right].
  - split; [by eapply pending_altered|by right].
Qed.
Lemma wpd_finish actor plan url r page d : truthy url = true → pending_checkout actor plan r page d →
  wpd (checkout_finish actor plan url r) (λ _ d', pending_checkout actor plan r (Some url) d')
    (λ _ _, True) d.
Proof.
  intros Hurl [Ho (b & Hb & Hp)]. unfold checkout_finish, alter_subscription. cbv zeta.
  apply wpd_transaction. cstep. apply wpd_subscription_from. intros b1 d1 Hd1 Hb1 Hf. do 2 cstep; [done|].
  assert (pending_row plan r page b1) as Hp1.
  { destruct Hf as [[Hn _]|(b0 & t & Hb0 & ->)]; [congruence|]. apply renewed_pending. by simplify_eq. }
  do 3 cstep. apply wpd_event. intros d2 _ Hs2 _ Ht2. cstep.
  assert (owns_open actor (t_customers d1)) as Ho1
    by (apply (owns_tenant _ (t_customers d)); [by rewrite Hd1|done]).
  split; [eapply owns_tenant; [exact Ht2|by eapply owns_tenant; [|exact Ho1]]|].
  eexists. rewrite Hs2. simpl. rewrite lookup_alter_eq, Hb1. split; [done|].
  destruct Hp1. split; try done. unfold page_of. simpl. by rewrite Hurl.
Qed.

End purchases.

(** ** The plan that was paid for *)

(** The price a provider's subscription document names. *)
Definition invoiced_price (doc : jobj) : option string :=
  match jget_or doc "items" (JObj []) with
  | JObj container =>
      match jget_or container "data" (JArr []) with
      | JArr [JObj item] =>
          match jget_or item "price" (JObj []) with JObj price => str_opt (jget price "id") | _ => None end
      | _ => None
      end
  | _ => None
  end.
Lemma secure_prices `{BracketedHosts} s : secure_billing s = inr s → NoDup (money_stripe_prices s).*2.
Proof.
  unfold secure_billing. intros Hs. do 3 (apply res_bind_inr in Hs as (? & _ & Hs)).
  apply res_bind_inr in Hs as ([] & Hd%reject_inr & _). by apply negb_false_iff, bool_decide_eq_true in Hd.
Qed.
(** In a dictionary with distinct values, a value has one key. *)
Lemma find_value (l : list (string * string)) k v : NoDup l.*2 → (k, v) ∈ l →
  List.find (λ nv, bool_decide (nv.2 = v)) l = Some (k, v).
Proof.
  induction l as [|[a b] l IH]; simpl; [by intros _ []%not_elem_of_nil|].
  rewrite NoDup_cons. intros [Hb Hl] [[= -> ->]|Hin]%elem_of_cons; [by rewrite bool_decide_eq_true_2|].
  rewrite bool_decide_eq_false_2; [by apply IH|]. intros ->. apply Hb.
  apply list_elem_of_fmap. by exists (k, v).
Qed.
Lemma find_key (l : list (string * string)) k v : NoDup l.*1 → (k, v) ∈ l →
  List.find (λ nv, bool_decide (nv.1 = k)) l = Some (k, v).
Proof.
  induction l as [|[a b] l IH]; simpl; [by intros _ []%not_elem_of_nil|].
  rewrite NoDup_cons. intros [Hb Hl] [[= -> ->]|Hin]%elem_of_cons; [by rewrite bool_decide_eq_true_2|].
  rewrite bool_decide_eq_false_2; [by apply IH|]. intros ->. apply Hb.
  apply list_elem_of_fmap. by exists (k, v).
Qed.
Lemma find_elem {A} (p : A → bool) l x : List.find p l = Some x → x ∈ l ∧ p x = true.
Proof. intros [Hin Hp]%List.find_some. by rewrite list_elem_of_In. Qed.
Lemma observed_plan s e w row doc t b : observed s e w row doc t = inr b →
  ∃ price, invoiced_price doc = Some price ∧ (sb_plan b, price) ∈ money_stripe_prices s.
Proof.
  unfold observed, invoiced_price. intros Ho. do 4 (apply res_bind_inr in Ho as (? & _ & Ho)).
  apply res_bind_inr in Ho as (container & Hc & Ho). destruct (jget_or doc "items" _); try done.
  injection Hc as ->. apply res_bind_inr in Ho as (items & Hi & Ho).
  destruct (jget_or container "data" _); try done. injection Hi as ->.
  apply res_bind_inr in Ho as (item & Hitem & Ho). destruct items as [|v [|]]; try done.
  apply res_bind_inr in Hitem as (o & Hv & Hitem). apply res_bind_inr in Hitem as (_ & _ & [= <-]).
  destruct v; try done. injection Hv as ->. apply res_bind_inr in Ho as (price & Hp & Ho).
  destruct (jget_or o "price" _); try done. injection Hp as ->.
  apply res_bind_inr in Ho as (plan & Hplan & Ho). destruct (List.find _ _) as [[n v]|] eqn:Hf; [|done].
  apply find_elem in Hf as [Hin Hs]. unfold is_str in Hs. simpl in Hplan, Hs.
  do 4 (apply res_bind_inr in Ho as (? & _ & Ho)). injection Ho as <-. injection Hplan as <-. simpl.
  destruct (jget price "id"); try done. apply bool_decide_eq_true in Hs as ->. by exists v.
Qed.
Lemma price_of_elem s plan price : price_of s plan = Some price → (plan, price) ∈ money_stripe_prices s.
Proof.
  unfold price_of. intros ([n v] & [Hin Hn]%find_elem & ->)%fmap_Some. simpl in *.
  by apply bool_decide_eq_true in Hn as ->.
Qed.

(** C27. The plan that was bought is the plan that is granted: under validated
    settings, whose prices are a dictionary, what reconciliation stores for a
    provider's document is the plan that checkout sells at the price the
    document names, and no other plan. *)
Theorem purchased_plan_exact `{BracketedHosts} s e w row doc t b :
  secure_billing s = inr s → NoDup (money_stripe_prices s).*1 → observed s e w row doc t = inr b →
  ∃ price, invoiced_price doc = Some price ∧ ∀ plan, price_of s plan = Some price ↔ plan = sb_plan b.
Proof.
  intros Hs%secure_prices Hk (price & Hp & Hin)%observed_plan. exists price. split; [done|]. intros plan. split.
  - intros He%price_of_elem. pose proof (find_value _ _ _ Hs He) as H1.
    pose proof (find_value _ _ _ Hs Hin) as H2. congruence.
  - intros ->. unfold price_of. by rewrite (find_key _ _ _ Hk Hin).
Qed.
