(* ===== verification/Browsing.v ===== *)
(** * What a workspace sees of its own records

    Research history in pages and the watchlist, as a client of
    [src/money/product/service.py] reads them. *)

From S2P Require Import Prelude Effects PyNum PyText Contracts Demo Eligibility Governance.
From S2P Require Import Market Signals CrossExam Universe Customers Schema Store StoreLogic StoreInv.
From S2P Require Import StoreOps Frames Budgets Calendar Security Product Accounts Workspaces Billing.
From S2P Require Import Offboarding Mailer Tenancy Leaving Entitlement Custody.
#[local] Open Scope Z_scope.

(** ** Research history *)
Definition in_order (order : HistorySort) (a b : string * Job) : Prop :=
  match order with
  | newest => j_created_at b.2 ≤ j_created_at a.2
  | oldest => j_created_at a.2 ≤ j_created_at b.2
  end.
Lemma history_sorted w q d : StronglySorted (in_order (hq_sort q)) (history_rows w q d).
Proof.
  unfold history_rows. apply sort_by_sorted; intros x y; unfold history_before, in_order;
    destruct (hq_sort q); rewrite ?orb_true_iff, ?orb_false_iff, ?andb_true_iff, ?Z.ltb_lt, ?Z.ltb_ge, ?Z.eqb_eq;
    intros; lia.
Qed.
Lemma elem_of_history w q d ij :
  ij ∈ history_rows w q d ↔ t_jobs d !! ij.1 = Some ij.2 ∧ history_match w q ij = true.
Proof.
  unfold history_rows. rewrite sort_by_perm, elem_of_List_filter.
  destruct ij as [i j]. by rewrite elem_of_map_to_list.
Qed.
Lemma NoDup_filter_fst {B C} (p : B * C → bool) l : NoDup l.*1 → NoDup (List.filter p l).*1.
Proof.
  induction l as [|x l IH]; simpl; [done|]. intros [Hx Hl]%NoDup_cons. destruct (p x); [|by apply IH].
  simpl. constructor; [|by apply IH]. intros (y & Hy & [Hin _]%elem_of_List_filter)%list_elem_of_fmap.
  apply Hx. rewrite Hy. by apply list_elem_of_fmap_2.
Qed.
Lemma history_distinct w q d : NoDup (history_rows w q d).*1.
Proof.
  unfold history_rows. rewrite (sort_by_perm _ _). apply NoDup_filter_fst, NoDup_fst_map_to_list.
Qed.

Section pages.
Context `{Env, Secrets, Catalog}.

(** A client that follows [next_offset]. *)
Fixpoint follow (fuel : nat) (actor : Principal) (q : HistoryQuery) : M World (list (string * Job)) :=
  match fuel with
  | O => mret []
  | S n =>
      page ← history actor q;
      match page.2 with
      | None => mret page.1
      | Some o => rest ← follow n actor (q <| hq_offset := o |>); mret (page.1 ++ rest)
      end
  end.
Definition shown (ij : string * Job) : string * Job := (ij.1, public ij.2).

Lemma history_page actor q d k : history_range q = true →
  let rest := drop (Z.to_nat (hq_offset q)) (history_rows (pr_workspace_id actor) q d) in
  history actor q (mkWorld d k) =
    (inr (shown <$> take (Z.to_nat (hq_limit q)) rest,
          if hq_limit q <? Z.of_nat (length rest) then Some (hq_offset q + hq_limit q) else None),
     mkWorld d k).
Proof.
  intros Hr rest. unfold history. rewrite Hr. unfold mbind, m_bind. simpl. fold rest.
  unfold history_range, between in Hr. bool_norm.
  rewrite take_take, length_take.
  replace (Z.to_nat (hq_limit q) `min` Z.to_nat (hq_limit q + 1))%nat with (Z.to_nat (hq_limit q)) by lia.
  do 3 f_equal. destruct (Z.ltb_spec (hq_limit q) (Z.of_nat (length rest)));
    destruct (Z.ltb_spec (hq_limit q) (Z.of_nat (Z.to_nat (hq_limit q + 1) `min` length rest))); (done || lia).
Qed.
Lemma follow_rest n actor q d k :
  history_range q = true → Z.of_nat (length (history_rows (pr_workspace_id actor) q d)) ≤ 100000 →
  let rest := drop (Z.to_nat (hq_offset q)) (history_rows (pr_workspace_id actor) q d) in
  (length rest < n)%nat → follow n actor q (mkWorld d k) = (inr (shown <$> rest), mkWorld d k).
Proof.
  revert q. induction n as [|n IH]; intros q Hr Hlen rest Hn; [lia|].
  cbn [follow]. unfold mbind, m_bind. rewrite history_page by done. fold rest. cbn [fst snd].
  destruct (Z.ltb_spec (hq_limit q) (Z.of_nat (length rest))) as [Hmore|Hdone].
  - set (q' := q <| hq_offset := hq_offset q + hq_limit q |>).
    assert (hq_offset q' = hq_offset q + hq_limit q ∧ hq_limit q' = hq_limit q) as [Ho Hl] by done.
    pose proof Hr as Hr'. unfold history_range, between in Hr'. bool_norm.
    assert (drop (Z.to_nat (hq_offset q')) (history_rows (pr_workspace_id actor) q' d) =
            drop (Z.to_nat (hq_limit q)) rest) as Hdrop.
    { unfold rest. rewrite drop_drop, Ho. f_equal. lia. }
    assert (history_range q' = true) as Hq'.
    { unfold history_range, between in *. rewrite Ho, Hl. subst rest. rewrite length_drop in Hmore.
      change (hq_created_from q') with (hq_created_from q). change (hq_created_to q') with (hq_created_to q).
      rewrite !andb_true_iff, !Z.leb_le in *. split_and!; try done; lia. }
    pose proof (IH q' Hq' Hlen) as Hrest. cbv zeta in Hrest. rewrite Hdrop, length_drop in Hrest.
    rewrite Hrest by lia. unfold mret, m_ret. by rewrite <- fmap_app, take_drop.
  - unfold mret, m_ret. by rewrite take_ge by lia.
Qed.
(** The state filter compares with the stored status, which is a stage. *)
Lemma running_filter_empty w q d : hq_state q = "RUNNING" → history_rows w q d = [].
Proof.
  intros Hs. destruct (history_rows w q d) as [|ij l] eqn:Heq; [done|]. exfalso.
  assert (ij ∈ history_rows w q d) as [_ Hm]%elem_of_history by (rewrite Heq; left).
  unfold history_match in Hm. rewrite Hs in Hm. bool_norm. by destruct (j_status ij.2).
Qed.
End pages.
