(* ===== verification/Walkthrough.v ===== *)
(** * A complete run of the store

    One research job from submission to an issued and then invalidated signal,
    on concrete inputs, with every operation evaluated. Its intermediate
    databases are the inputs of the witnesses of the store's theorems. *)

From S2P Require Import Prelude Effects PyNum PyText Contracts Demo Eligibility Governance.
From S2P Require Import Market Signals CrossExam Universe Schema Store Complete StoreLogic.
From S2P Require Import StoreInv StoreOps Frames Metering Budgets Circuit Alerts Beside Lifecycle Service Access.
#[local] Open Scope Z_scope.

(** ** Concrete parameters *)
#[local] Existing Instances constant_hash any_shape live_policy_hash live_talib live_signal_hash
  live_universe_hash.
#[local] Instance live_cross_hash : CrossHash := λ _, zero_sha.
(** A clock that advances a second per reading; identifiers are numbered. *)
#[local] Instance walk_env : Env :=
  {| now_at := λ k, live_now + seconds (Z.of_nat k);
     monotonic_at := λ k, float_of_Z (Z.of_nat k);
     uuid_at := λ k, if bool_decide (k = 1%nat) then "job-1" else "id-" +:+ int_text (Z.of_nat k);
     rand_at := λ _, 0;
     row_locked := λ _ _, false |}.
#[local] Instance walk_digests : Digests :=
  {| digest_request := λ ticker _ _, "request:" +:+ ticker;
     digest_report := λ _, zero_sha;
     digest_packet := λ _, zero_sha;
     digest_alert := λ job event key _, job +:+ "/" +:+ event +:+ "/" +:+ key |}.

(** Identities keep the invocation; the sequence is two characters before it. *)
#[local] Instance walk_calls : CallHash :=
  {| call_identity := λ invocation n,
       String (Ascii.ascii_of_nat (Z.to_nat (n / 256)))
         (String (Ascii.ascii_of_nat (Z.to_nat (n mod 256))) invocation);
     call_fingerprint := λ v, cv_invocation_id v +:+ "#" +:+ int_text (cv_sequence v);
     reservation_invocation := λ r, "reservation:" +:+ r;
     aggregate_invocation := λ r, "aggregate:" +:+ r |}.
#[local] Instance walk_plans : Plans := λ _, mret 1000000.

Definition trace (ops : list Op) (w : World) : World := foldl (λ w op, (run_op op w).2) w ops.
Lemma trace_steps ops w : Forall op_ok ops → rtc db_step (w_db w) (w_db (trace ops w)).
Proof.
  revert w. induction ops as [|op ops IH]; intros [d k] Hok; [done|].
  apply Forall_cons in Hok as [Hop Hok]. simpl.
  destruct (run_op op (mkWorld d k)) as [r w1] eqn:Hrun. simpl.
  eapply rtc_l; [|by apply IH]. by eapply db_step_run.
Qed.

Definition start : World := mkWorld empty_db 0.
Definition desk : Handle := mkHandle None (Some "w1").
Definition options : EnqueueOptions := mkEnqueue 10 5 (Some "key-1") 3 None standard.
Definition submit : list Op := [Create desk "ACME.L" default_mandate options].
Definition claim : list Op := [Take desk "worker-1" 600 3600 standard None].
Definition worker : Handle := for_claim desk (mkWorkerClaim "job-1" "id-10" "worker-1").
Definition do_ (w : WorkerOp) : Op := Work worker "job-1" w.

Definition first_pass : list Op :=
  map do_ [Stage "DISCOVERY" []; Stage "SNAPSHOT_BUILD" []; Freeze live_snapshot;
           Stage "FIRST_PASS_RESEARCH" []] ++
  map (λ r, do_ (Seal (firm_name (fr_firm r)) r)) live_reports.
Definition independence : EvidenceIndependenceReport :=
  get_or (mkIndependence 0 0 [] (float_of_Z 0) (float_of_Z 0) (float_of_Z 0) (float_of_Z 0) LOW [])
    (evidence_independence live_snapshot live_reports).
Definition design : SignalDesign := get_or no_design (live_design (Some zero_sha)).
Definition packet : DecisionPacket :=
  mkPacket "job-1" default_mandate "snapshot-1" zero_sha (mkCandidate "ACME.L" []) live_instrument
    live_reports (live_lean (Some zero_sha)) live_audit live_red_team independence
    RESEARCH_CANDIDATE ["REQUIRED_EVIDENCE_GATES_PASSED"] (map live_bar (seq 0 60))
    (live_now + 1) (sd_signal design) 0 live true None None None None None zero_sha.
Definition validation : list Op :=
  map do_ [Lock; Stage "LEAN_VALIDATION" []; Artifact "lean" (ArtLean (live_lean (Some zero_sha)));
           Stage "CREWAI_AUDIT" []; Cio live_audit live_red_team None; Stage "CONSENSUS" [];
           Artifact "independence" (ArtIndependence independence);
           Artifact "signal_design" (ArtDesign design)].
Definition publication : list Op := [do_ (Publish (PacketDoc packet) "COMPLETE")].
(** A negative announcement, used as invalidating evidence. *)
Definition bad_news : EvidenceRecord :=
  mkEvidence "warning" "snapshot-1" "Exchange" "exchange" "rns" "rns:1" live_now (Some live_now)
    live_now (live_now + hours 1) true false false
    (Document (mkDocument announcement "Profit warning" "Profit warning." "https://example.org/1"))
    zero_sha.

(** ** The databases of the run *)
Definition queued_w : World := trace submit start.
Definition running_w : World := trace claim queued_w.
Definition sealed_w : World := trace first_pass running_w.
Definition ready_w : World := trace validation sealed_w.
Definition published_w : World := trace publication ready_w.
Definition withdraw : M World () := invalidate_signal desk "job-1" "EVENT" bad_news.

Lemma submit_ok : Forall op_ok submit.
Proof. constructor; [|constructor]. intros callback id Hnone. discriminate Hnone. Qed.
Lemma worker_ok ws : Forall op_ok (map do_ ws).
Proof. apply Forall_map, Forall_true. done. Qed.
Lemma queued_reachable : reachable (w_db queued_w).
Proof. exact (trace_steps submit start submit_ok). Qed.
Lemma claim_steps : rtc db_step (w_db queued_w) (w_db running_w).
Proof. exact (trace_steps claim queued_w ltac:(by repeat constructor)). Qed.
Lemma first_pass_steps : rtc db_step (w_db running_w) (w_db sealed_w).
Proof. exact (trace_steps first_pass running_w ltac:(by repeat constructor)). Qed.
Lemma ready_steps : rtc db_step (w_db sealed_w) (w_db ready_w).
Proof. exact (trace_steps validation sealed_w (worker_ok _)). Qed.
Lemma published_steps : rtc db_step (w_db ready_w) (w_db published_w).
Proof. exact (trace_steps publication ready_w ltac:(by repeat constructor)). Qed.
Lemma sealed_reachable : reachable (w_db sealed_w).
Proof.
  unfold reachable. etrans; [exact queued_reachable|]. etrans; [exact claim_steps|exact first_pass_steps].
Qed.
Lemma ready_reachable : reachable (w_db ready_w).
Proof. unfold reachable. etrans; [exact sealed_reachable|exact ready_steps]. Qed.
Lemma published_reachable : reachable (w_db published_w).
Proof. unfold reachable. etrans; [exact ready_reachable|exact published_steps]. Qed.

(** A run is its result and its final world. *)
Lemma run_result {A} (m : M World A) w a : (m w).1 = inr a → m w = (inr a, (m w).2).
Proof. destruct (m w). simpl. by intros ->. Qed.
Lemma run_raises {A} (m : M World A) w e : (m w).1 = inl e → m w = (inl e, (m w).2).
Proof. destruct (m w). simpl. by intros ->. Qed.
Definition the_job (w : World) : Job :=
  default (new_job "" standard "" "" None "" 0 0) (t_jobs (w_db w) !! "job-1").

Lemma queued_facts :
  j_research_kind (the_job queued_w) = standard ∧ j_max_attempts (the_job queued_w) = 3 ∧
  phase_of (the_job queued_w) = Waiting None 0.
Proof. split_and!; vm_compute; reflexivity. Qed.
Lemma published_job : t_jobs (w_db published_w) !! "job-1" = Some (the_job published_w).
Proof. vm_compute. reflexivity. Qed.
Lemma published_phase : phase_of (the_job published_w) = Done COMPLETE.
Proof. vm_compute. reflexivity. Qed.



Lemma records_append_only_witness :
  t_reports (w_db sealed_w) ⊆ t_reports (w_db published_w) ∧
  is_Some (t_reports (w_db sealed_w) !! ("job-1", qlib)).
Proof.
  split; [|eexists; vm_compute; reflexivity].
  assert (rtc db_step (w_db sealed_w) (w_db published_w)) as Hs
    by (etrans; [exact ready_steps|exact published_steps]).
  destruct (records_append_only (w_db sealed_w) (w_db published_w) sealed_reachable Hs)
    as (_ & _ & _ & Hr & _). exact Hr.
Defined.

(** The second worker of the same job is fenced off. *)
Definition intruder : Handle := for_claim desk (mkWorkerClaim "job-1" "id-10" "worker-2").
Lemma worker_operations_fenced_witness :
  w_db (run_worker intruder "job-1" Lock sealed_w).2 = w_db sealed_w.
Proof.
  exact (worker_operations_fenced intruder "job-1" Lock sealed_w
    (inl (Exn LeaseLost "Worker lease is no longer valid"))
    (run_worker intruder "job-1" Lock sealed_w).2
    (run_raises (run_worker intruder "job-1" Lock) sealed_w _ ltac:(vm_compute; reflexivity))).
Defined.

Definition sealed_reports : list (Firm * FirmReport) :=
  map (λ fr, (fr.1, re_payload fr.2)) (report_rows (w_db published_w) "job-1").
(** The same world with its fields apart. *)
Definition again (w : World) : World := mkWorld (w_db w) (w_tick w).
Lemma reports_run : (get_reports desk "job-1" (again published_w)).1 = inr sealed_reports.
Proof. vm_compute. reflexivity. Qed.
Lemma first_pass_barrier_witness :
  disclosed (w_db (get_reports desk "job-1" (again published_w)).2) "job-1" sealed_reports ∧
  length sealed_reports = 3%nat.
Proof.
  split; [|vm_compute; reflexivity].
  exact (first_pass_barrier desk "job-1" (w_db published_w) (w_tick published_w) sealed_reports
    (get_reports desk "job-1" (again published_w)).2 published_reachable
    (run_result (get_reports desk "job-1") (again published_w) sealed_reports reports_run)).
Defined.

(** *** Claims and lost workers *)
Definition claim_run : M World (option Claim) :=
  claim_job desk "worker-1" 600 3600 standard None.
Definition the_claim : Claim := mkWorkerClaim "job-1" "id-10" "worker-1".
Lemma claim_run_result : (claim_run (again queued_w)).1 = inr (Some the_claim).
Proof. vm_compute. reflexivity. Qed.

Lemma running_reachable : reachable (w_db running_w).
Proof. unfold reachable. etrans; [exact queued_reachable|exact claim_steps]. Qed.
Lemma running_job : t_jobs (w_db running_w) !! "job-1" = Some (the_job running_w).
Proof. vm_compute. reflexivity. Qed.

(** *** Admission and publication *)
Definition create_run : M World JobView := create_job desk "ACME.L" default_mandate options.
Definition no_view : JobView := mkView "" (new_job "" standard "" "" None "" 0 0) None JNull None.
Definition new_view : JobView := get_or no_view (create_run start).1.
Lemma create_run_result : (create_run start).1 = inr new_view.
Proof. vm_compute. reflexivity. Qed.
Lemma options_admit : admits_usage options.
Proof. intros callback id Hnone. discriminate Hnone. Qed.
Lemma create_job_admission_witness :
  ∃ checked mid stamp, admitted desk "ACME.L" checked options empty_db
    (w_db (create_run start).2) (v_id new_view) mid stamp.
Proof.
  destruct (create_job_admission desk "ACME.L" default_mandate options empty_db 0 (inr new_view)
    (create_run start).2 (rtc_refl _ _) options_admit
    (run_result create_run start new_view create_run_result))
    as (checked & _ & [[_ (key & j & _ & Hnone & _)]|(mid & stamp & Hadm & _)]).
  - exfalso. exact (lookup_empty_Some _ _ Hnone).
  - exists checked, mid, stamp. exact Hadm.
Defined.

Definition publish_run : M World () := complete_job worker "job-1" (PacketDoc packet) "COMPLETE".
Lemma publish_run_result : (publish_run (again ready_w)).1 = inr ().
Proof. vm_compute. reflexivity. Qed.


Lemma withdraw_result : (withdraw (again published_w)).1 = inr ().
Proof. vm_compute. reflexivity. Qed.
Definition withdrawn_w : World := (withdraw (again published_w)).2.
Lemma withdrawn_clock ev i :
  ev ∈ t_audit (w_db withdrawn_w) → (w_tick withdrawn_w ≤ i)%nat → ae_created_at ev ≤ now_at i.
Proof.
  intros Hin Hi.
  assert (forallb (λ e, ae_created_at e <=? live_now + seconds (Z.of_nat (w_tick withdrawn_w)))
            (t_audit (w_db withdrawn_w)) = true) as Hall by (vm_compute; reflexivity).
  rewrite forallb_forall in Hall. apply list_elem_of_In in Hin. specialize (Hall _ Hin).
  apply Z.leb_le in Hall. simpl. unfold seconds in *. lia.
Qed.
Definition withdrawn_view : JobView :=
  default no_view (get_or None (get_job desk "job-1" (again withdrawn_w)).1).
Lemma withdrawn_read : (get_job desk "job-1" (again withdrawn_w)).1 = inr (Some withdrawn_view).
Proof. vm_compute. reflexivity. Qed.
Lemma invalidation_expires_signal_witness : v_final_state withdrawn_view = JStr "EXPIRED".
Proof.
  exact (proj1 (invalidation_expires_signal desk "job-1" "EVENT" bad_news (w_db published_w)
    (w_tick published_w) withdrawn_w (w_db withdrawn_w) (w_tick withdrawn_w) desk withdrawn_view
    (get_job desk "job-1" (again withdrawn_w)).2 published_reachable
    (run_result withdraw (again published_w) () withdraw_result) (rtc_refl _ _) withdrawn_clock
    (run_result (get_job desk "job-1") (again withdrawn_w) (Some withdrawn_view) withdrawn_read))).
Defined.

Lemma rate_limit_window_witness :
  ∃ ds w, consume_many 5 desk "api" 2 60 start = (inr ds, w) ∧
    map rd_allowed ds = [true; true; false; false; false].
Proof.
  apply (rate_limit_window 5 desk "api" 2 60 empty_db 0); [reflexivity|].
  intros i Hi. simpl. unfold seconds. lia.
Defined.

Definition login_ops : list Op := [Login desk "token" "v1" (live_now + hours 8)].
Definition login_w : World := trace login_ops start.
Lemma login_reachable : reachable (w_db login_w).
Proof. exact (trace_steps login_ops start ltac:(by repeat constructor)). Qed.
Definition the_session : SessionRow :=
  default (mkSession "" "" 0 0 None) (t_sessions (w_db login_w) !! "token").
Lemma login_valid : (session_valid desk "token" "v1" (again login_w)).1 = inr true.
Proof. vm_compute. reflexivity. Qed.
Lemma logout_result : (revoke_session desk "token" "v1" (again login_w)).1 = inr ().
Proof. vm_compute. reflexivity. Qed.
Lemma login_session : t_sessions (w_db login_w) !! "token" = Some the_session.
Proof. vm_compute. reflexivity. Qed.
Lemma accepted_session_bounded_witness :
  ∃ s, t_sessions (w_db login_w) !! "token" = Some s ∧
       now_at (w_tick login_w) < se_created_at s + hours 8 + seconds 5.
Proof.
  destruct (accepted_session_bounded desk "token" "v1" (w_db login_w) (w_tick login_w)
    (session_valid desk "token" "v1" (again login_w)).2 login_reachable
    (run_result (session_valid desk "token" "v1") (again login_w) true login_valid)) as (s & Hs & _ & _ & _ & _ & Hb).
  exists s. split; [exact Hs|exact Hb].
Defined.
Lemma revoked_session_refused_witness :
  session_valid desk "token" "v1"
    (mkWorld (w_db (revoke_session desk "token" "v1" (again login_w)).2) 9) =
  (inr false, mkWorld (w_db (revoke_session desk "token" "v1" (again login_w)).2) 10).
Proof.
  exact (revoked_session_refused desk "token" "v1" (w_db login_w) (w_tick login_w)
    (revoke_session desk "token" "v1" (again login_w)).2 the_session
    (w_db (revoke_session desk "token" "v1" (again login_w)).2) desk "v1" 9 login_reachable
    login_session ltac:(vm_compute; reflexivity)
    (run_result (revoke_session desk "token" "v1") (again login_w) () logout_result) (rtc_refl _ _)).
Defined.
