(* ===== verification/Rehearsal.v ===== *)
(** * Spending, calls, circuits and alerts on concrete inputs

    Continues the run of [Walkthrough]: the claimed job reserves tokens for two
    firms, starts and finishes a metered call, settles its usage; a provider
    fails and recovers; alerts are enqueued and delivered. The states are the
    inputs of the witnesses. *)

From S2P Require Import Prelude Effects PyNum PyText Contracts Demo Eligibility Governance.
From S2P Require Import Market Signals CrossExam Universe Schema Store Complete StoreLogic.
From S2P Require Import StoreInv StoreOps Frames Metering Budgets Circuit Alerts Beside Lifecycle.
From stdpp Require Import pretty.
From S2P Require Import Service Access Spending Accounting Resilience Delivery Walkthrough.
#[local] Open Scope Z_scope.
#[local] Existing Instances constant_hash any_shape live_policy_hash live_talib live_signal_hash
  live_universe_hash live_cross_hash walk_env walk_digests walk_calls walk_plans.

(** ** Budgets *)
Definition request (id agent : string) (tokens : Z) : BudgetReservation :=
  mkRequest id "job-1" "FIRST_PASS_RESEARCH" agent "openai" "model-a" tokens "v1".
Definition batch : list BudgetReservation :=
  [request "res-1" "tradingagents" 20000; request "res-2" "ai_hedge_fund" 10000].
Definition used_more : Usage := mkUsage (Some 12000) (Some 9000) None.
Definition reserve_ops : list Op := [Side (Reserve worker default_limits batch)].
Definition settle_ops : list Op := [Side (Settle worker "res-1" used_more)].
Definition reserved_w : World := trace reserve_ops running_w.
Definition settled_w : World := trace settle_ops reserved_w.

Lemma trace_spends l ops w : Forall op_ok ops → Forall (spends l) ops →
  rtc (spend_step l) (w_db w) (w_db (trace ops w)).
Proof.
  revert w. induction ops as [|op ops IH]; intros [d k] Hok Hsp; [done|].
  apply Forall_cons in Hok as [Hop Hok]. apply Forall_cons in Hsp as [Hs Hsp]. simpl.
  destruct (run_op op (mkWorld d k)) as [r w1] eqn:Hrun. simpl.
  eapply rtc_l; [|by apply IH]. by eapply spend_step_run.
Qed.
Lemma batch_positive : Forall (λ q, 0 < bq_maximum_tokens q) batch.
Proof. repeat constructor. Qed.
Lemma reserved_run : rtc (spend_step default_limits) empty_db (w_db reserved_w).
Proof.
  etrans; [exact (trace_spends default_limits submit start submit_ok ltac:(by repeat constructor))|].
  etrans; [exact (trace_spends default_limits claim queued_w ltac:(by repeat constructor)
                    ltac:(by repeat constructor))|].
  refine (trace_spends default_limits reserve_ops running_w ltac:(by repeat constructor) _).
  constructor; [|constructor]. split; [done|exact batch_positive].
Qed.
Lemma settled_run : rtc (spend_step default_limits) (w_db reserved_w) (w_db settled_w).
Proof.
  refine (trace_spends default_limits settle_ops reserved_w ltac:(by repeat constructor) _).
  constructor; [|constructor]. vm_compute. done.
Qed.
Lemma spent_run : rtc (spend_step default_limits) empty_db (w_db settled_w).
Proof. etrans; [exact reserved_run|exact settled_run]. Qed.
Definition firm_scope : Scope := Of_agent "job-1" "tradingagents".
Lemma settled_charges :
  used (in_scope firm_scope) (w_db settled_w) = 21000 ∧
  overrun (in_scope firm_scope) (w_db settled_w) = 1000.
Proof. vm_compute. done. Qed.
Definition row (id : string) (w : World) : Reservation :=
  default (mkReservation "" "" "" "" "" "" "" 0 None "" None "" false 0)
    (t_reservations (w_db w) !! id).
Lemma reserved_row : t_reservations (w_db reserved_w) !! "res-1" = Some (row "res-1" reserved_w).
Proof. vm_compute. reflexivity. Qed.
Lemma batch_admitted : (reserve_many worker default_limits batch (again running_w)).1 = inr ().
Proof. vm_compute. reflexivity. Qed.
Lemma first_settlement : (settle worker "res-1" used_more (again reserved_w)).1 = inr ().
Proof. vm_compute. reflexivity. Qed.

Lemma budget_limits_hold_witness :
  used (in_scope firm_scope) (w_db settled_w) = 21000 ∧
  used (in_scope firm_scope) (w_db settled_w) ≤
    Z.max 0 30000 + overrun (in_scope firm_scope) (w_db settled_w).
Proof.
  split; [exact (proj1 settled_charges)|].
  exact (budget_limits_hold default_limits (w_db settled_w) firm_scope 30000
    spent_run eq_refl).
Defined.
Lemma reservations_refine_ledger_witness :
  rtc (ledger default_limits) (w_db reserved_w) (w_db settled_w) ∧
  ∃ r', t_reservations (w_db settled_w) !! "res-1" = Some r' ∧
    row_evolves (row "res-1" reserved_w) r' ∧
    (is_Some (br_usage (row "res-1" reserved_w)) → r' = row "res-1" reserved_w) ∧
    (br_usage r' = None → charged r' = br_reserved_tokens (row "res-1" reserved_w)).
Proof.
  exact (reservations_refine_ledger default_limits (w_db reserved_w) (w_db settled_w) "res-1"
    (row "res-1" reserved_w) reserved_run settled_run reserved_row).
Defined.
Lemma reservation_batch_atomic_witness :
  ∃ j now, t_jobs (w_db running_w) !! "job-1" = Some j ∧
    t_reservations (w_db (reserve_many worker default_limits batch (again running_w)).2) !! "res-2" =
    Some (new_reservation j (request "res-2" "ai_hedge_fund" 10000) now).
Proof.
  destruct (reservation_batch_atomic worker default_limits (request "res-1" "tradingagents" 20000)
    [request "res-2" "ai_hedge_fund" 10000] (w_db running_w) (w_tick running_w)
    (inr ()) _ batch_positive (run_result _ (again running_w) _ batch_admitted))
    as (j & now & Hj & _ & Hrows & _).
  exists j, now. split; [exact Hj|].
  exact (proj1 (proj2 (proj2 (Hrows (request "res-2" "ai_hedge_fund" 10000)
    ltac:(right; left))))).
Defined.
Lemma settlement_idempotent_witness :
  ∃ e, (settle worker "res-1" no_usage (again (settle worker "res-1" used_more (again reserved_w)).2)).1 = inl e.
Proof.
  destruct (settle worker "res-1" no_usage
    (again (settle worker "res-1" used_more (again reserved_w)).2)) as [res w'] eqn:Hagain.
  apply (settlement_idempotent default_limits worker "res-1" used_more (w_db reserved_w)
    (w_tick reserved_w) _ worker no_usage _ _ res w'
    (run_result _ (again reserved_w) _ first_settlement) (rtc_refl _ _) Hagain).
  discriminate.
Defined.

(** ** Metered calls *)
Definition model_a : option string := Some "model-a".
Definition start_firm : M World CallIdentity :=
  start_call worker "job-1" "tradingagents" "openai" model_a (Some "res-1") NATIVE_INVOCATION.
Definition no_identity : CallIdentity :=
  mkCallIdentity (mkOwnership "" "" None None None None 0 QUEUED) "" None "" "" None
    NATIVE_INVOCATION.
Definition identity : CallIdentity :=
  match (start_firm (again reserved_w)).1 with inr i => i | inl _ => no_identity end.
Definition started_w : World := (start_firm (again reserved_w)).2.
Definition receipt : InferenceReceipt :=
  mkReceipt "openai" "model-a" (float_of_Z 2) SUCCEEDED (Some 12000) (Some 9000) None None None 1
    None false None.
Definition finish_firm : M World () :=
  finish_call worker identity (float_of_Z 0) [receipt] true.

Lemma reserved_reachable : reachable (w_db reserved_w).
Proof.
  unfold reachable. etrans; [exact queued_reachable|]. etrans; [exact claim_steps|].
  exact (trace_steps reserve_ops running_w ltac:(by repeat constructor)).
Qed.
Lemma walk_identities : distinct_identities.
Proof. intros i n i' n' Heq. simpl in Heq. by injection Heq. Qed.
Lemma call_started : (start_firm (again reserved_w)).1 = inr identity.
Proof. vm_compute. reflexivity. Qed.
Lemma call_finished : (finish_firm (again started_w)).1 = inr ().
Proof. vm_compute. reflexivity. Qed.

Lemma reserved_call_runs_once_witness : ∃ e w',
  w_db w' = w_db started_w ∧
  ∀ T (operation : M World (Metered T)),
    invoke worker "job-1" "tradingagents" "openai" model_a operation (Some "res-1")
      NATIVE_INVOCATION (again started_w) = (inl e, w').
Proof.
  exact (reserved_call_runs_once worker "job-1" "tradingagents" "openai" model_a "res-1"
    NATIVE_INVOCATION (w_db reserved_w) (w_tick reserved_w) identity started_w (w_db started_w)
    walk_identities reserved_reachable eq_refl (run_result start_firm (again reserved_w) identity call_started)
    (rtc_refl _ _) worker "job-1" "tradingagents" "openai" model_a NATIVE_INVOCATION
    (w_tick started_w)).
Defined.
Definition finished_w : World := (finish_firm (again started_w)).2.
Lemma finish_run :
  finish_call worker identity (float_of_Z 0) [receipt] true (again started_w) =
  (inr (), finished_w).
Proof. exact (run_result finish_firm (again started_w) () call_finished). Qed.
Lemma finished_call_accounted_witness :
  receipt_accounted identity (1, receipt) (w_db finished_w) ∧
  ∃ ms, accounted (finished_values identity true ms) (w_db finished_w).
Proof.
  destruct (finished_call_accounted worker identity (float_of_Z 0) [receipt] true (w_db started_w)
    (w_tick started_w) (inr ()) finished_w finish_run) as (_ & Hr & Hf & _).
  split; [exact (Hr 0%nat receipt eq_refl)|exact Hf].
Defined.

(** ** A provider that fails and recovers *)
Definition breaker : Circuit := mkCircuit 2 60.
Definition feed : string := "exchange:prices".
Definition down : exn := Exn OperationFailed "provider is down".
Definition failing : M World (Metered Z) := mret ([], inl down).
Definition working_feed : M World (Metered Z) := mret ([], inr 7).
Definition admitted_w : World := (enter breaker feed start).2.
Definition broken_w : World := (calls breaker feed desk failing 2 start).2.
Definition feed_row (w : World) : ProviderState :=
  default (mkProvider 0 None 0 0 None None 0 0) (row_of feed (w_db w)).
Definition open_until (w : World) : Z := default 0 (ps_open_until (feed_row w)).

Lemma feed_admitted : (enter breaker feed (mkWorld empty_db 0)).1 = inr 0.
Proof. vm_compute. reflexivity. Qed.
Lemma admitted_row : row_of feed (w_db admitted_w) = Some (feed_row admitted_w).
Proof. vm_compute. reflexivity. Qed.
Definition stale_record : M World () := record_result breaker feed false (float_of_Z 1) 5.
Definition stale_w : World := (stale_record (again admitted_w)).2.
Lemma stale_recorded : (stale_record (again admitted_w)).1 = inr ().
Proof. vm_compute. reflexivity. Qed.
Lemma stale_generation : 5 ≠ ps_generation (feed_row admitted_w).
Proof. vm_compute. discriminate. Qed.
Lemma broken_row : row_of feed (w_db broken_w) = Some (feed_row broken_w).
Proof. vm_compute. reflexivity. Qed.
Lemma broken_open : ps_open_until (feed_row broken_w) = Some (open_until broken_w).
Proof. vm_compute. reflexivity. Qed.
Lemma early : now_at (w_tick broken_w) < open_until broken_w.
Proof. vm_compute. reflexivity. Qed.
Lemma late : open_until broken_w ≤ now_at 100.
Proof. vm_compute. discriminate. Qed.
Lemma always_down : always feed desk failing (inl down).
Proof. intros w. exists w. done. Qed.
Lemma always_up : always feed desk working_feed (inr 7).
Proof. intros w. exists w. done. Qed.

Lemma admitted_run :
  rtc (circuit_step breaker feed) (empty_db, []) (w_db admitted_w, [0]).
Proof.
  exact (rtc_once _ _ (circuit_admits breaker feed empty_db [] 0 0 admitted_w
    (run_result _ (mkWorld empty_db 0) 0 feed_admitted))).
Qed.
Lemma open_circuit_refuses_witness :
  circuit_call desk breaker feed working_feed (again broken_w) =
  (inl (Exn ProviderFailure "PROVIDER_CIRCUIT_OPEN"),
   mkWorld (w_db broken_w) (S (w_tick broken_w))).
Proof.
  exact (open_circuit_refuses breaker feed (feed_row broken_w) (open_until broken_w)
    (w_db broken_w) (w_tick broken_w) broken_row broken_open early Z desk working_feed).
Defined.
Lemma circuit_opens_at_threshold_witness : ∃ w' p t,
  calls breaker feed desk failing 2 start = ([inl down; inl down], w') ∧
  row_of feed (w_db w') = Some p ∧ ps_open_until p = Some (t + seconds 60).
Proof.
  exact (circuit_opens_at_threshold breaker feed ltac:(vm_compute; discriminate) desk failing down
    start always_down eq_refl).
Defined.
Lemma circuit_recovers_witness : ∃ w p',
  circuit_call desk breaker feed working_feed (mkWorld (w_db broken_w) 100) = (inr 7, w) ∧
  row_of feed (w_db w) = Some p' ∧ ps_open_until p' = None ∧ ps_failures p' = 0 ∧
  ∃ g, enter breaker feed w = (inr g, mkWorld (w_db w) (S (w_tick w))).
Proof.
  exact (circuit_recovers breaker feed ltac:(vm_compute; discriminate) desk working_feed 7
    (feed_row broken_w) (open_until broken_w) (w_db broken_w) 100 always_up broken_row broken_open
    late).
Defined.

(** ** Alerts *)
Definition mailer : AlertChannel → option AlertProvider :=
  λ _, Some (mkAlertProvider true (λ _ _, mret ())).
Definition mail : M World string :=
  enqueue_alert desk "job-1" "RESEARCH_COMPLETED" "mail-1" email.
Definition mail_id : string := "job-1/RESEARCH_COMPLETED/mail-1".
Definition published_ops : list Op := submit ++ claim ++ first_pass ++ validation ++ publication.
Definition mail_ops : list Op := [Notify desk "job-1" "RESEARCH_COMPLETED" "mail-1" email].
Definition mailed_w : World := trace mail_ops (trace published_ops start).
Definition take_mail : M World Delivery := claim_alert desk mailer.
Definition result_or {A} (a : A) (r : exn + A) : A := match r with inr x => x | inl _ => a end.
Definition token_of (s : Delivery) : string := match s with Taken _ t _ _ => t | _ => "" end.
Definition note_of (s : Delivery) : AlertMessage :=
  match s with Taken _ _ m _ => m | _ => mkMessage "" "" "" end.
Definition token : string := token_of (result_or Nothing_due (take_mail mailed_w).1).
Definition note : AlertMessage := note_of (result_or Nothing_due (take_mail mailed_w).1).
Definition taken_w : World := (take_mail mailed_w).2.
Definition finish_mail : M World () := finish_alert mail_id token true.
Definition delivered_w : World := (finish_mail taken_w).2.
Definition idle_w : World := (take_mail delivered_w).2.
Definition mail_row (w : World) : OutboxRow :=
  default (mkOutbox "" "" web PENDING 0 "" "" None None 0 None) (t_outbox (w_db w) !! mail_id).

Lemma walk_fresh i j : uuid_at i = uuid_at j → i = j.
Proof.
  simpl. do 2 case_bool_decide; subst; try done. intros Heq.
  apply (inj (String.append "id-")) in Heq. apply (inj pretty) in Heq. lia.
Qed.
Lemma trace_posted ops w : Forall op_ok ops → Forall (λ op, works_outbox op = false) ops →
  posted (w_db w) (w_db (trace ops w)).
Proof.
  revert w. induction ops as [|op ops IH]; intros [d k] Hok Hsp; [done|].
  apply Forall_cons in Hok as [Hop Hok]. apply Forall_cons in Hsp as [Hs Hsp]. simpl.
  destruct (run_op op (mkWorld d k)) as [r w1] eqn:Hrun. simpl.
  etrans; [|by apply IH]. by eapply respects_run; [apply posted_run_op|exact Hrun].
Qed.
Lemma mailed_ok : Forall op_ok (published_ops ++ mail_ops).
Proof.
  unfold published_ops. rewrite !Forall_app. split_and!; first [exact submit_ok | by repeat constructor].
Qed.
Lemma mailed_posted : posted (w_db start) (w_db mailed_w).
Proof.
  unfold mailed_w. unfold trace at 1. unfold trace at 1. rewrite <- foldl_app.
  exact (trace_posted (published_ops ++ mail_ops) start mailed_ok
    ltac:(repeat constructor)).
Qed.
Lemma mailed_reachable : reachable (w_db mailed_w).
Proof.
  unfold mailed_w. unfold trace at 1. unfold trace at 1. rewrite <- foldl_app.
  exact (trace_steps (published_ops ++ mail_ops) start mailed_ok).
Qed.
Lemma mail_taken : (take_mail mailed_w).1 = inr (Taken mail_id token note (mailer email)).
Proof. vm_compute. reflexivity. Qed.
Lemma mail_finished : (finish_mail taken_w).1 = inr ().
Proof. vm_compute. reflexivity. Qed.
Lemma mail_idle : (take_mail delivered_w).1 = inr Nothing_due.
Proof. vm_compute. reflexivity. Qed.
Lemma delivered_row : t_outbox (w_db delivered_w) !! mail_id = Some (mail_row delivered_w).
Proof. vm_compute. reflexivity. Qed.
Lemma delivered_state : ob_state (mail_row delivered_w) = DELIVERED.
Proof. vm_compute. reflexivity. Qed.

Definition delivered_s : Outbox := mkOutboxState delivered_w [] [mail_id].
Lemma mailed_ticks : (w_tick start ≤ w_tick mailed_w)%nat.
Proof. exact (Nat.le_0_l _). Qed.
Lemma take_run : claim_alert desk mailer mailed_w =
  (inr (Taken mail_id token note (mailer email)), taken_w).
Proof. exact (run_result take_mail mailed_w _ mail_taken). Qed.
Lemma finish_mail_run : finish_alert mail_id token true taken_w = (inr (), delivered_w).
Proof. exact (run_result finish_mail taken_w _ mail_finished). Qed.
Lemma idle_run : claim_alert desk mailer delivered_w = (inr Nothing_due, idle_w).
Proof. exact (run_result take_mail delivered_w _ mail_idle). Qed.
(** One delivery, whatever the worlds are. *)
Lemma one_delivery w0 w1 w2 w3 id tk m p :
  posted (w_db w0) (w_db w1) → (w_tick w0 ≤ w_tick w1)%nat →
  claim_alert desk mailer w1 = (inr (Taken id tk m p), w2) →
  finish_alert id tk true w2 = (inr (), w3) →
  rtc outbox_step (mkOutboxState w0 [] []) (mkOutboxState w3 [] [id]).
Proof.
  intros Hp Hk Ht Hf. eapply rtc_l; [by apply (outbox_elsewhere w0 w1)|].
  eapply rtc_l; [by eapply outbox_takes|]. apply rtc_once.
  by apply (outbox_finishes w2 [] id tk [] [id] true (inr ()) w3).
Qed.
Lemma delivered_steps : rtc outbox_step (quiet 0) delivered_s.
Proof.
  exact (one_delivery start mailed_w taken_w delivered_w mail_id token note (mailer email)
    mailed_posted mailed_ticks take_run finish_mail_run).
Qed.
Lemma idle_steps : rtc outbox_step delivered_s (mkOutboxState idle_w [] [mail_id]).
Proof.
  exact (rtc_once _ _ (outbox_settles desk mailer delivered_w [] [mail_id] Nothing_due idle_w
    idle_run (or_introl eq_refl))).
Qed.

Lemma delivered_alert_final_witness :
  t_outbox (w_db idle_w) !! mail_id = Some (mail_row delivered_w) ∧
  sent_times mail_id [mail_id] = sent_times mail_id [mail_id].
Proof.
  exact (delivered_alert_final walk_fresh 0 delivered_s (mkOutboxState idle_w [] [mail_id]) mail_id
    (mail_row delivered_w) delivered_steps idle_steps delivered_row delivered_state).
Defined.

(** Enqueueing the same mail again. *)
Definition first_w : World := (mail (again published_w)).2.
Definition second_w : World := (mail (again first_w)).2.
Lemma mail_first : (mail (again published_w)).1 = inr mail_id.
Proof. vm_compute. reflexivity. Qed.
Lemma mail_second : (mail (again first_w)).1 = inr mail_id.
Proof. vm_compute. reflexivity. Qed.
Lemma first_run : enqueue_alert desk "job-1" "RESEARCH_COMPLETED" "mail-1" email
  (mkWorld (w_db published_w) (w_tick published_w)) = (inr mail_id, first_w).
Proof. exact (run_result mail (again published_w) mail_id mail_first). Qed.
Lemma second_run : enqueue_alert desk "job-1" "RESEARCH_COMPLETED" "mail-1" email
  (mkWorld (w_db first_w) (w_tick first_w)) = (inr mail_id, second_w).
Proof. exact (run_result mail (again first_w) mail_id mail_second). Qed.
Lemma alert_enqueue_idempotent_witness :
  mail_id = mail_id ∧ is_Some (t_outbox (w_db first_w) !! mail_id) ∧
  t_outbox (w_db second_w) = t_outbox (w_db first_w).
Proof.
  exact (alert_enqueue_idempotent desk "job-1" "RESEARCH_COMPLETED" "mail-1" email
    (w_db published_w) (w_tick published_w) mail_id first_w (w_db first_w) desk (w_tick first_w)
    mail_id second_w first_run eq_refl (rtc_refl db_step (w_db first_w)) second_run).
Defined.
