(* ===== verification/Onboarding.v ===== *)
(** * A customer from sign-up to erasure

    One run of the whole service on concrete inputs: two accounts sign up, share
    a workspace and submit research; one resets its password, the other leaves
    and is erased; a billing webhook is delivered. Its databases are the inputs
    of the witnesses of the customer theorems. *)

From S2P Require Import Prelude Effects PyNum PyText Contracts Demo Eligibility Governance.
From S2P Require Import Market Signals CrossExam Universe Customers Schema Store Complete StoreLogic.
From S2P Require Import StoreInv StoreOps Frames Metering Budgets Circuit Alerts Beside Lifecycle Service.
From S2P Require Import Spending Calendar Security Product Accounts Workspaces Billing Checkout Offboarding Mailer.
From S2P Require Import Tenancy Leaving Estate Entitlement Ceilings Records Custody Purchases Browsing Walkthrough.
#[local] Open Scope Z_scope.

(** ** Concrete parameters *)
#[local] Existing Instances constant_hash any_shape live_policy_hash live_talib live_signal_hash
  live_universe_hash live_cross_hash walk_env walk_digests walk_calls.
(** The first [n] characters of [s], filled up with zeros. *)
Fixpoint exactly (n : nat) (s : string) : string :=
  match n, s with
  | O, _ => EmptyString
  | S m, EmptyString => String "0" (exactly m EmptyString)
  | S m, String c s' => String c (exactly m s')
  end.
Lemma exactly_length n s : String.length (exactly n s) = n.
Proof. revert s. induction n as [|n IH]; intros [|c s]; simpl; by rewrite ?IH. Qed.
#[local] Instance demo_secrets : Secrets :=
  {| urlsafe_at := λ k, "0123456789abcdef0123456789abcdef" +:+ int_text (Z.of_nat k);
     salt_at := λ k, exactly 16 (int_text (Z.of_nat k));
     scrypt := λ password salt, exactly 32 (password +:+ salt);
     sha256_hex := λ s, "sha256:" +:+ s;
     capacity_free := λ _, true |}.
#[local] Instance demo_catalog : Catalog :=
  {| plan_rows := [mkPlan "FREE" 3 2 30 false false false 0 0 900;
                   mkPlan "PRO" 50 3 365 true true true 2000000 200000 3600];
     diagnostics_text := "catalog" |}.
#[local] Instance demo_vault : Vault :=
  {| seal_at := λ _ m, ml_to m +:+ new_line +:+ ml_subject m +:+ new_line +:+ ml_body m;
     unseal := λ s, match split_on (Ascii.ascii_of_nat 10) s with
                    | to :: subject :: body => Some (mkMail to subject (String.concat new_line body))
                    | _ => None
                    end |}.
Definition event_body : string := "{event}".
Definition event_document : jobj :=
  [("id", JStr "evt_1"); ("livemode", JBool false); ("type", JStr "customer.subscription.updated");
   ("data", JObj [("object", JObj [("id", JStr "sub_1"); ("customer", JStr "cus_1")])])].
#[local] Instance demo_stripe : Stripe :=
  {| stripe_at := λ _ _ _ _ _, inl "BILLING_PROVIDER_ERROR";
     hmac_sha256 := λ key message, key +:+ "/" +:+ message;
     json_loads := λ raw, if bool_decide (raw = event_body) then Some (JObj event_document) else None;
     time_at := λ _, float_of_Z 1700000000 |}.
#[local] Instance demo_retention : RetentionJson := λ _, "{policy}".
#[local] Instance demo_smtp : Smtp := λ _ _ _, sent.
#[local] Instance demo_hosts : BracketedHosts := λ _, false.

(** ** Runs *)
Definition play (w : World) (op : CustomerOp) : World := (run_customer op w).2.
Definition plays (ops : list CustomerOp) (w : World) : World := foldl play w ops.
(** Every step but joining a workspace is timely. *)
Definition plain (op : CustomerOp) : bool := match op with Accept _ _ _ _ => false | _ => true end.
Lemma play_step op w : timely (w_db w) op → system_step (w_db w) (w_db (play w op)).
Proof.
  intros Hop. unfold play. destruct w as [d k]. destruct (run_customer op (mkWorld d k)) as [r w'] eqn:Hrun.
  simpl. by eapply customer_step.
Qed.
Lemma plays_steps ops w : forallb plain ops = true → rtc system_step (w_db w) (w_db (plays ops w)).
Proof.
  revert w. induction ops as [|op ops IH]; intros w Hok; [done|]. simpl in Hok.
  apply andb_true_iff in Hok as [Hop Hok]. eapply rtc_l; [apply play_step|by apply IH]. by destruct op.
Qed.

Definition service : AccountSettings := mkAccountSettings 1000 "https://money.example" 12 "disabled".
Definition ann : string := "ann@example.org".
Definition bob : string := "bob@example.org".
Definition find_user (address : string) (w : World) : string * UserRow :=
  default ("", mkUser "" "" "" None None false 0) (user_by_email address (t_customers (w_db w))).
(** The token generated at a tick. *)
Definition token_at (k : nat) : string := urlsafe_at k.
Definition product : ProductSettings :=
  mkProductSettings true "https://money.example" (Some "sk_test") (Some "whsec") [("PRO", "price_1")]
    false 10.
Definition policy : RetentionPolicy := mkRetention true (Some "v1") (Some "ref-1") (Some 0).

(** Two verified accounts, and a workspace of the first. *)
Definition arrive : list CustomerOp :=
  [Sign_up service ann "secret" "Ann"; Sign_up service bob "hunter2" "Bob"; Verify service (token_at 7);
   Verify service (token_at 22); Sign_in service ann "secret"; New_workspace service "id-4" "Desk"].
Definition open_w : World := plays arrive start.
Definition ann_actor : Principal := mkPrincipal "id-4" "id-54" OWNER ann.
Definition invited_w : World := plays [Invite service ann_actor bob MEMBER] open_w.
Definition forgot_w : World := plays [Forgot service ann] open_w.
Definition goodbye : list CustomerOp :=
  [Leave service "id-4" (find_user ann open_w).2 "secret"; Close_billing product;
   Review "id-4" policy "reviewer-1" true true].
Definition reviewed_w : World := plays goodbye open_w.

Lemma open_running : running (w_db open_w).
Proof. exact (plays_steps arrive start eq_refl). Qed.
Lemma goodbye_steps : rtc system_step (w_db open_w) (w_db reviewed_w).
Proof. exact (plays_steps goodbye open_w eq_refl). Qed.
Lemma reviewed_running : running (w_db reviewed_w).
Proof. unfold running. etrans; [exact open_running|exact goodbye_steps]. Qed.

(** ** Witnesses *)
Lemma open_owner : member_role "id-54" "id-4" (t_customers (w_db open_w)) = Some OWNER.
Proof. vm_compute. reflexivity. Qed.

Lemma spares_run : (run_customer (Invite service ann_actor bob MEMBER) (again open_w)).1 = inr ().
Proof. vm_compute. reflexivity. Qed.
Lemma customers_never_write_research_witness :
  research (w_db (run_customer (Invite service ann_actor bob MEMBER) (again open_w)).2) =
  research (w_db open_w).
Proof.
  exact (customers_never_write_research (Invite service ann_actor bob MEMBER) (w_db open_w) (w_tick open_w)
    (inr ()) _ (run_result _ (again open_w) () spares_run)).
Defined.

(** A submission of synthetic research. *)
Definition desk_options : EnqueueOptions :=
  mkEnqueue 10 5 (Some "key-1") 3 (Some (reserve_research product ann_actor "DEMO.L" false)) standard.
Definition desk_handle : Handle := mkHandle None (Some "id-54").
Definition submission : M World JobView := create_job desk_handle "DEMO.L" default_mandate desk_options.
Definition submitted : JobView :=
  match (submission (again open_w)).1 with
  | inr v => v
  | inl _ => mkView "" (new_job "" standard "" "" None "" 0 0) None JNull None
  end.
Lemma submission_run : (submission (again open_w)).1 = inr submitted.
Proof. vm_compute. reflexivity. Qed.

Lemma demo_salts k : String.length (salt_at k) = 16%nat.
Proof. apply exactly_length. Qed.
Lemma demo_digests p s : String.length (scrypt p s) = 32%nat.
Proof. apply exactly_length. Qed.
Lemma password_run : (password_hash "secret" (again start)).1 =
  inr "scrypt-v1$30303030303030303030303030303030$7365637265743030303030303030303030303030303030303030303030303030".
Proof. vm_compute. reflexivity. Qed.
Lemma password_roundtrip_witness :
  ∃ salt, (password_valid "guess"
      "scrypt-v1$30303030303030303030303030303030$7365637265743030303030303030303030303030303030303030303030303030"
      (again open_w)).1 = inr (bool_decide (scrypt "guess" salt = scrypt "secret" salt)).
Proof.
  destruct (password_roundtrip demo_salts demo_digests "secret" (again start)
    _ (password_hash "secret" (again start)).2 "guess" (again open_w)
    (run_result (password_hash "secret") (again start) _ password_run) eq_refl) as (_ & salt & Hv & _).
  exists salt. exact Hv.
Defined.

(** The same run, while limits are configured. *)
Lemma plays_commerce l ops w : forallb plain ops = true →
  rtc (commerce_step l) (w_db w) (w_db (plays ops w)).
Proof.
  revert w. induction ops as [|op ops IH]; intros [d k] Hok; [done|]. simpl in Hok.
  apply andb_true_iff in Hok as [Hop Hok]. eapply rtc_l; [|by apply IH].
  unfold play. destruct (run_customer op (mkWorld d k)) as [r w'] eqn:Hrun.
  eapply commerce_customer; [|exact Hrun]. by destruct op.
Qed.
Definition submitted_w : World := (submission (again open_w)).2.
Lemma create_op h ticker m o w v w' : create_job h ticker m o w = (inr v, w') →
  run_op (Create h ticker m o) w = (inr (), w').
Proof. intros Hrun. simpl. unfold discard, mbind, m_bind. by rewrite Hrun. Qed.
Lemma open_commerce l : rtc (commerce_step l) empty_db (w_db open_w).
Proof. exact (plays_commerce l arrive start eq_refl). Qed.
Lemma submission_op : run_op (Create desk_handle "DEMO.L" default_mandate desk_options)
  (mkWorld (w_db open_w) (w_tick open_w)) = (inr (), submitted_w).
Proof.
  exact (create_op desk_handle "DEMO.L" default_mandate desk_options (again open_w) submitted submitted_w
    (run_result submission (again open_w) submitted submission_run)).
Qed.
Lemma submitted_commerce l : rtc (commerce_step l) empty_db (w_db submitted_w).
Proof.
  eapply rtc_r; [exact (open_commerce l)|].
  exact (commerce_research l (w_db open_w) (Create desk_handle "DEMO.L" default_mandate desk_options)
    (w_tick open_w) (inr ()) submitted_w
    (reserve_research_admits product ann_actor "DEMO.L" false desk_options eq_refl) I submission_op).
Qed.
Definition submitted_usage : UsageRecord :=
  default (mkUsageRecord "" "" 0 0 "" 0 0 "" 0) (t_usage (w_db submitted_w) !! v_id submitted).
Lemma submitted_free :
  t_usage (w_db submitted_w) !! v_id submitted = Some submitted_usage ∧ ur_max_tokens submitted_usage = 0.
Proof. split; vm_compute; reflexivity. Qed.

Lemma customer_rows_lawful_witness : map_Forall (λ _, closure_row) (cu_closures (t_customers (w_db reviewed_w))).
Proof. exact (ro_closures _ (customer_rows_lawful (w_db reviewed_w) reviewed_running)). Defined.
Lemma customer_histories_witness :
  evolves later_user (cu_users (t_customers (w_db open_w))) (cu_users (t_customers (w_db reviewed_w))).
Proof. exact (pg_users _ _ (customer_histories (w_db open_w) (w_db reviewed_w) goodbye_steps)). Defined.

Lemma ann_leaving : leaving (t_customers (w_db reviewed_w)) "id-4" = true.
Proof. vm_compute. reflexivity. Qed.
Lemma departed_account_powerless_witness :
  cu_members (t_customers (w_db reviewed_w)) !! ("id-54", "id-4") = None.
Proof.
  exact (proj1 (proj2 (departed_account_powerless (w_db reviewed_w) (w_db reviewed_w) "id-4" reviewed_running
    (rtc_refl _ _) ann_leaving)) "id-54").
Defined.

Lemma reset_run : (reset_password service (token_at 62) "changed" (again forgot_w)).1 = inr ().
Proof. vm_compute. reflexivity. Qed.
Lemma reset_password_recovers_witness :
  ∃ id, shut_out id (w_db (reset_password service (token_at 62) "changed" (again forgot_w)).2) ∧
    refuses (consume (token_at 62) reset) (w_db (reset_password service (token_at 62) "changed" (again forgot_w)).2)
      (Exn AccountError TOKEN_INVALID).
Proof.
  destruct (reset_password_recovers service (token_at 62) "changed" (w_db forgot_w) (w_tick forgot_w)
    (reset_password service (token_at 62) "changed" (again forgot_w)).2 (run_result (reset_password service (token_at 62) "changed") (again forgot_w) () reset_run))
    as (t & u & h & _ & _ & _ & _ & _ & Hout & Hused & _).
  exists (tk_user_id t). split; [exact Hout|exact Hused].
Defined.

Definition bob_row : UserRow := (find_user bob invited_w).2.
Lemma join_run : (accept_invitation service "id-19" bob_row (token_at 66) (again invited_w)).1 = inr (mkWorkspaceView "id-54" "Desk" MEMBER).
Proof. vm_compute. reflexivity. Qed.

Lemma forget_run : (fulfil_request "id-4" policy (again reviewed_w)).1 = inr true.
Proof. vm_compute. reflexivity. Qed.
Lemma erasure_complete_witness :
  erased_when "id-4" policy (now_at (w_tick reviewed_w)) (w_db reviewed_w)
    (w_db (fulfil_request "id-4" policy (again reviewed_w)).2).
Proof.
  exact (erasure_complete "id-4" policy (w_db reviewed_w) (w_tick reviewed_w)
    (fulfil_request "id-4" policy (again reviewed_w)).2 (run_result (fulfil_request "id-4" policy) (again reviewed_w) true forget_run)).
Defined.

Definition event_signature : string := "t=1700000000,v1=whsec/1700000000." +:+ event_body.
Lemma delivery_run : (webhook product event_body event_signature (again open_w)).1 = inr ().
Proof. vm_compute. reflexivity. Qed.
Lemma webhook_recorded_once_witness :
  ∃ id e, cu_billing (t_customers (w_db (webhook product event_body event_signature (again open_w)).2)) !! id = Some e ∧
    be_content_hash e = sha256_hex event_body.
Proof.
  destruct (webhook_recorded_once product event_body event_signature (w_db open_w) (w_tick open_w) (inr ())
    (webhook product event_body event_signature (again open_w)).2 (run_result (webhook product event_body event_signature) (again open_w) () delivery_run))
    as (id & event & timestamp & e & _ & _ & _ & _ & _ & Hhash & Hrow & _).
  exists id, e. split; [exact Hrow|exact Hhash].
Defined.

Definition recent : HistoryQuery := mkHistory "" "" 0 25 None None newest.
Lemma recent_length : length (history_rows "id-54" recent (w_db submitted_w)) = 1%nat.
Proof. vm_compute. reflexivity. Qed.

(** ** Checkout *)
Definition shop : ProductSettings :=
  mkProductSettings true "https://money.example/" (Some "sk_test_1") (Some "whsec")
    [("PRO", "price_1"); ("TEAM", "price_2")] false 10.
Lemma shop_secure : secure_billing shop = inr shop.
Proof. vm_compute. reflexivity. Qed.
Definition first_request : CheckoutRequest :=
  match (checkout_prepare shop ann_actor "PRO" "price_1" "cus_1" "key-1" (again open_w)).1 with
  | inr (inr r) => r
  | _ => mkCheckout None 0 None
  end.
Lemma prepare_run :
  (checkout_prepare shop ann_actor "PRO" "price_1" "cus_1" "key-1" (again open_w)).1 = inr (inr first_request).
Proof. vm_compute. reflexivity. Qed.
Definition prepared_w : World :=
  (checkout_prepare shop ann_actor "PRO" "price_1" "cus_1" "key-1" (again open_w)).2.
Lemma prepared_in_time : now_at (S (w_tick prepared_w)) < co_until first_request.
Proof. vm_compute. reflexivity. Qed.

Definition paid_document : jobj :=
  [("id", JStr "sub_1"); ("customer", JStr "cus_1"); ("livemode", JBool false);
   ("metadata", JObj [("workspace_id", JStr "id-54")]); ("status", JStr "active");
   ("current_period_start", JInt 1700000000); ("current_period_end", JInt 1702592000);
   ("items", JObj [("data", JArr [JObj [("quantity", JInt 1); ("price", JObj [("id", JStr "price_2")])]])])].
Definition paid_event : BillingEvent :=
  mkBillingEvent "invoice.paid" (Some "sub_1") (Some "cus_1") "hash" BILLING_PENDING 0 0 0 None.
Definition free_row : Subscription :=
  mkSubscription "FREE" "active" (Some "cus_1") None None None None None None 0 0 0.
Definition team_row : Subscription :=
  mkSubscription "TEAM" "active" (Some "cus_1") (Some "sub_1") None None None None None
    1700000000000000 1702592000000000 7.
Lemma paid_observed : observed shop paid_event "id-54" free_row paid_document 7 = inr team_row.
Proof. vm_compute. reflexivity. Qed.
Lemma shop_plans : NoDup (money_stripe_prices shop).*1.
Proof. apply (bool_decide_unpack _). vm_compute. exact I. Qed.
Lemma purchased_plan_exact_witness : price_of shop "TEAM" = invoiced_price paid_document.
Proof.
  destruct (purchased_plan_exact shop paid_event "id-54" free_row paid_document 7 team_row shop_secure
    shop_plans paid_observed) as (price & Hp & Hplan).
  rewrite Hp. exact (proj2 (Hplan "TEAM") eq_refl).
Defined.

(** Hosted pages: only the provider's host, over HTTPS, without credentials. *)
Example hosted_page : hosted_url [("url", JStr "https://checkout.stripe.com:443/c/pay_1")] "checkout.stripe.com" =
  inr "https://checkout.stripe.com:443/c/pay_1".
Proof. vm_compute. reflexivity. Qed.
Example hosted_elsewhere :
  hosted_url [("url", JStr "https://checkout.stripe.com@evil.example/")] "checkout.stripe.com" =
  inl (Exn BillingUnavailable "BILLING_RESPONSE_INVALID").
Proof. vm_compute. reflexivity. Qed.
(** The approval reference of a retention policy is searched, not matched whole. *)
Lemma approval_reference_searched :
  validate_policy (mkRetention true (Some "v1") (Some "<!> see ref") (Some 0)) =
    inr (mkRetention true (Some "v1") (Some "<!> see ref") (Some 0)) ∧ is_reference "<!> see ref" = false.
Proof. split; vm_compute; reflexivity. Qed.
